(** * Perishable-inventory simulator: simulation engine, seeded RNG, evaluator

    A shallow embedding of the inventory core of the repository
    (simulate.ts, rng.ts, eval.ts, types.ts) and of the code around it that
    calls it (the aggregation of the simulation tool, the baseline policy and
    the policy checks of the optimization workflow), together with the
    properties the specification states about it and further properties of
    the code.

    Number model.  JavaScript numbers are IEEE-754 doubles.
    - Quantities, shelf lives and countdowns are integer valued wherever the
      code creates them (Math.round / Math.floor); they are [Z] here.
    - Rates, prices and money are exact rationals [Q] in the simulation
      (finite configuration values, rounding error not modelled).
    - The evaluator is written once over an interface of number operations
      and read at two instances: exact reals, and IEEE binary64 as given by
      the standard library's [SpecFloat] (NaN, infinities, overflow).
    - Math.pow, Math.exp and the Box-Muller transform (log, sqrt, cos) are
      implementation-approximated in ECMAScript; they are parameters.

    Object model.  simulate.ts is embedded twice.
    - By value (lists of records, explicit state passing): the functional
      properties of the pipeline.  The entries of a ledger are distinct
      objects here, as in every state the code creates itself.
    - In a store (objects at locations, arrays of references, every
      assignment a write): what a call may write.  A supplied initialState
      whose arrays share objects is covered there.
    The store model refines the value-level model whenever the supplied
    initial state shares no object ([simulateInventoryH_refines]). *)

From Stdlib Require Import ZArith QArith Qround Qminmax Lia Lqa Bool Sorted Permutation.
From Stdlib Require Import Reals Lra Qreals.
From Stdlib Require Import SpecFloat.
From stdpp Require Import gmap strings list fin_maps.

Local Open Scope Z_scope.

(** Linear arithmetic over [Q] (the unqualified tactic is the one for [R]). *)
Ltac qlra := Lqa.lra.

(** ** Results of fallible calls: a thrown [Error] carries its message. *)

Inductive result (A : Type) : Type :=
  | Ok (a : A)
  | Throw (msg : string).
Arguments Ok {A} a.
Arguments Throw {A} msg.


(** ** Rounding helpers of [Math] on exact rationals *)

Definition Math_floor (x : Q) : Z := Qfloor x.
(** [Math.round] rounds half up: floor(x + 1/2). *)
Definition Math_round (x : Q) : Z := Qfloor (x + (1 # 2)).

Definition Qleb (a b : Q) : bool := Qle_bool a b.
Definition Qltb (a b : Q) : bool := negb (Qle_bool b a).
Definition Qmaxb (a b : Q) : Q := if Qleb a b then b else a.
Definition Qminb (a b : Q) : Q := if Qleb a b then a else b.

(** ** rng.ts *)

Module Rng.

(** ToUint32 / ToInt32 of an integer-valued number. *)
Definition toUint32 (z : Z) : Z := z mod 4294967296.
Definition toInt32 (z : Z) : Z :=
  let u := z mod 4294967296 in
  if u <? 2147483648 then u else u - 4294967296.

(** [a ^ b], [a | b], [a >>> n] and [Math.imul(a, b)]. *)
Definition xor32 (a b : Z) : Z := toInt32 (Z.lxor (toInt32 a) (toInt32 b)).
Definition or32 (a b : Z) : Z := toInt32 (Z.lor (toInt32 a) (toInt32 b)).
Definition ushr (a n : Z) : Z := Z.shiftr (toUint32 a) n.
Definition imul (a b : Z) : Z := toInt32 (toInt32 a * toInt32 b).

(** The generator's only state is the counter [t] ([let t = seed >>> 0]).
    The code never wraps [t]; it is exact as a double below 2^53. *)
Definition createRng (seed : Z) : Z := toUint32 seed.

(** The 32 random bits of one [next()] call, and the advanced counter. *)
Definition next_bits (t : Z) : Z * Z :=
  let t := t + 1831565813 in                         (* t += 0x6d2b79f5 *)
  let x := t in
  let x := imul (xor32 x (ushr x 15)) (or32 x 1) in
  let x := xor32 x (x + imul (xor32 x (ushr x 7)) (or32 x 61)) in
  (toUint32 (xor32 x (ushr x 14)), t).

(** [next()]: a rational in [0, 1). *)
Definition next (t : Z) : Q * Z :=
  let '(r, t') := next_bits t in (inject_Z r / 4294967296, t')%Q.

(** Bounds of [int] are arbitrary JavaScript numbers. *)
Inductive jsnum : Type :=
  | JNaN
  | JInf (negative : bool)
  | JFin (q : Q).

Definition isFinite (x : jsnum) : bool :=
  match x with JFin _ => true | _ => false end.



(** Number.EPSILON = 2^-52. *)
Definition EPSILON : Q := 1 # 4503599627370496.

Section Normal.
(** [boxMuller u1 u2] stands for
    [Math.sqrt(-2 * Math.log(u1)) * Math.cos(2 * Math.PI * u2)]. *)
Variable boxMuller : Q -> Q -> Q.

Definition normal (mean stdDev : Q) (t : Z) : Q * Z :=
  let '(r1, t1) := next t in
  let u1 := Qmaxb r1 EPSILON in
  let '(u2, t2) := next t1 in
  let z0 := boxMuller u1 u2 in
  ((mean + z0 * stdDev)%Q, t2).
End Normal.

End Rng.

(** ** types.ts *)

Definition Sku := string.

Inductive PerishableCategory :=
  | produce | meat | dairy | bakery | prepared | frozenCategory | other.

Inductive BatchState := fresh | frozen.

#[global] Instance BatchState_eq_dec : EqDecision BatchState.
Proof. solve_decision. Defined.

Definition BatchState_eqb (a b : BatchState) : bool :=
  match a, b with
  | fresh, fresh | frozen, frozen => true
  | _, _ => false
  end.

Record ItemSpec := {
  item_sku : Sku;
  item_name : string;
  category : PerishableCategory;
  unitCost : Q;
  basePrice : Q;
  shelfLifeDays : Q;
  leadTimeDays : Q;
  baseDailyDemand : Q;
  priceElasticity : Q;
  shrinkRate : Q;
  canFreeze : bool;
  freezeCostPerUnit : Q;
  frozenShelfLifeDays : Q;
  frozenPriceMultiplier : Q
}.

Record InventoryBatch := {
  b_sku : Sku;
  qty : Z;
  daysToExpire : Z;
  b_state : BatchState
}.

Record PendingDelivery := {
  pd_sku : Sku;
  pd_qty : Q;
  arrivingInDays : Z
}.

Record StoreState := {
  day : Z;
  inventory : list InventoryBatch;
  pendingDeliveries : list PendingDelivery
}.

Record PricingRule := {
  daysToExpireAtMost : Q;
  priceMultiplier : Q
}.

(** The pricing rules of a policy are an array: a list of rules where the
    policy is handled by value, a reference where the arrays live in the
    store (see the store model below). *)
Record ItemPolicyOf (Rules : Type) := {
  p_sku : Sku;
  reorderPoint : Q;
  orderUpTo : Q;
  pricing : Rules;
  donateDaysToExpireAtMost : Q;
  donateMaxFractionPerDay : Q;
  freezeDaysToExpireAtMost : Q;
  freezeMaxUnitsPerDay : Q
}.
Arguments p_sku {Rules}.
Arguments reorderPoint {Rules}.
Arguments orderUpTo {Rules}.
Arguments pricing {Rules}.
Arguments donateDaysToExpireAtMost {Rules}.
Arguments donateMaxFractionPerDay {Rules}.
Arguments freezeDaysToExpireAtMost {Rules}.
Arguments freezeMaxUnitsPerDay {Rules}.

Abbreviation ItemPolicy := (ItemPolicyOf (list PricingRule)).

(** [perSku] is a JavaScript object used as a map from SKU to policy
    (own entries; every present entry is an object, hence truthy). *)
Record InventoryPolicyOf (Rules : Type) := {
  policy_id : string;
  policy_name : string;
  perSku : gmap Sku (ItemPolicyOf Rules)
}.
Arguments policy_id {Rules}.
Arguments policy_name {Rules}.
Arguments perSku {Rules}.

Abbreviation InventoryPolicy := (InventoryPolicyOf (list PricingRule)).

Record SimulationConfig := {
  days : Z;
  seed : Z;
  holdingCostPerUnitPerDay : Q;
  wasteDisposalCostPerUnit : Q;
  demandNoiseStdDev : Q;
  countStockouts : bool
}.

Record DaySkuMetrics := {
  m_sku : Sku;
  startingFresh : Z;
  startingFrozen : Z;
  price : Q;
  m_priceMultiplier : Q;
  demand : Z;
  soldFresh : Z;
  soldFrozen : Z;
  stockout : Z;
  donated : Z;
  frozenMoved : Z;
  wasted : Z;
  shrinkLost : Z;
  revenue : Q;
  cogs : Q;
  holdingCost : Q;
  wasteCost : Q;
  freezeCost : Q
}.

Record DayMetrics := {
  dm_day : Z;
  dm_perSku : list DaySkuMetrics
}.

Record Totals := {
  t_revenue : Q;
  t_cogs : Q;
  t_holdingCost : Q;
  t_wasteCost : Q;
  t_freezeCost : Q;
  t_profit : Q;
  t_demand : Z;
  t_sold : Z;
  t_stockout : Z;
  t_wasted : Z;
  t_donated : Z
}.

Record SimulationResultOf (Rules : Type) := {
  r_config : SimulationConfig;
  r_policy : InventoryPolicyOf Rules;
  r_items : list ItemSpec;
  r_days : list DayMetrics;
  totals : Totals
}.
Arguments r_config {Rules}.
Arguments r_policy {Rules}.
Arguments r_items {Rules}.
Arguments r_days {Rules}.
Arguments totals {Rules}.

Abbreviation SimulationResult := (SimulationResultOf (list PricingRule)).

(** ** simulate.ts: ledger helpers *)

Definition clamp01 (x : Q) : Q := Qmaxb 0 (Qminb 1 x).

Definition is_of (sku : Sku) (st : BatchState) (b : InventoryBatch) : bool :=
  String.eqb (b_sku b) sku && BatchState_eqb (b_state b) st.

Definition sumQty (batches : list InventoryBatch) (sku : Sku) (st : BatchState) : Z :=
  fold_left (fun s b => if is_of sku st b then s + qty b else s) batches 0.

(** [Array.prototype.sort] is stable; the comparator orders by
    [daysToExpire] ascending.  Stable insertion sort. *)
Fixpoint insertFifo (x : InventoryBatch) (l : list InventoryBatch) : list InventoryBatch :=
  match l with
  | [] => [x]
  | y :: l' =>
      if daysToExpire x <=? daysToExpire y then x :: l else y :: insertFifo x l'
  end.

Fixpoint sortFifo (batches : list InventoryBatch) : list InventoryBatch :=
  match batches with
  | [] => []
  | b :: rest => insertFifo b (sortFifo rest)
  end.

Definition set_qty (b : InventoryBatch) (q : Z) : InventoryBatch :=
  {| b_sku := b_sku b; qty := q; daysToExpire := daysToExpire b; b_state := b_state b |}.

(** The consuming loop of [takeFromBatches], over the sorted array:
    returns the array with the decremented quantities and [taken]. *)
Fixpoint take_loop (sku : Sku) (st : BatchState) (batches : list InventoryBatch)
    (remaining taken : Z) : list InventoryBatch * Z :=
  match batches with
  | [] => ([], taken)
  | b :: rest =>
      if remaining <=? 0 then (batches, taken)                      (* break *)
      else if negb (is_of sku st b) then                            (* continue *)
        let '(rest', t) := take_loop sku st rest remaining taken in (b :: rest', t)
      else
        let q := Z.min (qty b) remaining in
        if q <=? 0 then                                             (* continue *)
          let '(rest', t) := take_loop sku st rest remaining taken in (b :: rest', t)
        else
          let '(rest', t) := take_loop sku st rest (remaining - q) (taken + q) in
          (set_qty b (qty b - q) :: rest', t)
  end.

(** Removal of empty batches ([splice] of every entry with [qty <= 0]). *)
Definition pruneEmpty (batches : list InventoryBatch) : list InventoryBatch :=
  List.filter (fun b => 0 <? qty b) batches.

Definition takeFromBatches (batches : list InventoryBatch) (sku : Sku) (st : BatchState)
    (qtyWanted : Z) : list InventoryBatch * Z :=
  if qtyWanted <=? 0 then (batches, 0)
  else
    let '(batches', taken) := take_loop sku st (sortFifo batches) qtyWanted 0 in
    (pruneEmpty batches', taken).

Fixpoint insertRule (x : PricingRule) (l : list PricingRule) : list PricingRule :=
  match l with
  | [] => [x]
  | y :: l' =>
      if Qleb (daysToExpireAtMost x) (daysToExpireAtMost y) then x :: l
      else y :: insertRule x l'
  end.

Fixpoint sortRules (rules : list PricingRule) : list PricingRule :=
  match rules with
  | [] => []
  | r :: rest => insertRule r (sortRules rest)
  end.

Fixpoint firstRule (rules : list PricingRule) (minDaysToExpireFresh : Z) : Q :=
  match rules with
  | [] => 1
  | r :: rest =>
      if Qleb (inject_Z minDaysToExpireFresh) (daysToExpireAtMost r)
      then priceMultiplier r
      else firstRule rest minDaysToExpireFresh
  end.

(** Returns [(price, multiplier)]. *)
Definition applyPricing (item : ItemSpec) (policy : ItemPolicy) (minDaysToExpireFresh : Z)
    : Q * Q :=
  let rules := sortRules (pricing policy) in
  let multiplier := firstRule rules minDaysToExpireFresh in
  (Qmaxb 0 (basePrice item * multiplier), multiplier).

Fixpoint ensurePolicyComplete {Rules} (items : list ItemSpec)
    (policy : InventoryPolicyOf Rules) : result unit :=
  match items with
  | [] => Ok tt
  | item :: rest =>
      match perSku policy !! item_sku item with
      | None => Throw ("Policy missing perSku entry for sku '" ++ item_sku item ++ "'")
      | Some _ => ensurePolicyComplete rest policy
      end
  end.

#[global] Instance result_ret : MRet result := fun _ a => Ok a.
#[global] Instance result_bind : MBind result := fun _ _ f m =>
  match m with Ok a => f a | Throw msg => Throw msg end.

(** Reading a field of [policy.perSku[sku]!] when the entry is absent. *)
Definition undefinedPolicy : string :=
  "TypeError: Cannot read properties of undefined".

Definition policyFor {Rules} (policy : InventoryPolicyOf Rules) (item : ItemSpec)
    : result (ItemPolicyOf Rules) :=
  match perSku policy !! item_sku item with
  | Some p => Ok p
  | None => Throw undefinedPolicy
  end.

Fixpoint initialBatches (items : list ItemSpec) (policy : InventoryPolicy)
    : result (list InventoryBatch) :=
  match items with
  | [] => Ok []
  | item :: rest =>
      p ← policyFor policy item;
      let startQty := Z.max 0 (Math_round (orderUpTo p)) in
      tail ← initialBatches rest policy;
      Ok (if 0 <? startQty
          then {| b_sku := item_sku item; qty := startQty;
                  daysToExpire := Z.max 1 (Math_round (shelfLifeDays item));
                  b_state := fresh |} :: tail
          else tail)
  end.

Definition createInitialState (items : list ItemSpec) (policy : InventoryPolicy)
    : result StoreState :=
  _ ← ensurePolicyComplete items policy;
  inv ← initialBatches items policy;
  Ok {| day := 0; inventory := inv; pendingDeliveries := [] |}.

(** ** simulate.ts: the daily pipeline *)

(** Step 1 (driver level): count every pending delivery down, turn those at
    [<= 0] into fresh batches at full shelf life (deliveries of SKUs outside
    the catalog are dropped), keep the others queued. *)
Definition countDown (d : PendingDelivery) : PendingDelivery :=
  {| pd_sku := pd_sku d; pd_qty := pd_qty d; arrivingInDays := arrivingInDays d - 1 |}.

Definition findItem (items : list ItemSpec) (sku : Sku) : option ItemSpec :=
  List.find (fun it => String.eqb (item_sku it) sku) items.

Definition arrivalBatch (item : ItemSpec) (a : PendingDelivery) : InventoryBatch :=
  {| b_sku := pd_sku a;
     qty := Z.max 0 (Math_round (pd_qty a));
     daysToExpire := Z.max 1 (Math_round (shelfLifeDays item));
     b_state := fresh |}.

Fixpoint arrivalBatches (items : list ItemSpec) (arriving : list PendingDelivery)
    : list InventoryBatch :=
  match arriving with
  | [] => []
  | a :: rest =>
      match findItem items (pd_sku a) with
      | None => arrivalBatches items rest
      | Some item => arrivalBatch item a :: arrivalBatches items rest
      end
  end.

Definition receiveDeliveries (items : list ItemSpec) (st : StoreState) : StoreState :=
  let counted := List.map countDown (pendingDeliveries st) in
  let arriving := List.filter (fun d => arrivingInDays d <=? 0) counted in
  {| day := day st;
     inventory := inventory st ++ arrivalBatches items arriving;
     pendingDeliveries := List.filter (fun d => 0 <? arrivingInDays d) counted |}.

(** Step 2, the freeze loop over the sorted array.  The frozen batches the
    loop pushes are visited by the same iteration, and skipped as not fresh;
    they are collected in [pushed] and appended afterwards. *)
Definition frozenBatch (item : ItemSpec) (q : Z) : InventoryBatch :=
  {| b_sku := item_sku item; qty := q;
     daysToExpire := Z.max 1 (Math_round (frozenShelfLifeDays item));
     b_state := frozen |}.

Fixpoint freeze_loop (item : ItemSpec) (p : ItemPolicy) (batches : list InventoryBatch)
    (remainingCap frozenMoved : Z) (pushed : list InventoryBatch)
    : list InventoryBatch * Z * list InventoryBatch :=
  match batches with
  | [] => ([], frozenMoved, pushed)
  | b :: rest =>
      if remainingCap <=? 0 then (batches, frozenMoved, pushed)     (* break *)
      else if negb (is_of (item_sku item) fresh b)
              || Qltb (freezeDaysToExpireAtMost p) (inject_Z (daysToExpire b)) then
        let '(rest', m, ps) := freeze_loop item p rest remainingCap frozenMoved pushed in
        (b :: rest', m, ps)
      else
        let q := Z.min (qty b) remainingCap in
        if q <=? 0 then
          let '(rest', m, ps) := freeze_loop item p rest remainingCap frozenMoved pushed in
          (b :: rest', m, ps)
        else
          let '(rest', m, ps) :=
            freeze_loop item p rest (remainingCap - q) (frozenMoved + q)
                        (pushed ++ [frozenBatch item q]) in
          (set_qty b (qty b - q) :: rest', m, ps)
  end.

Definition freezeStage (item : ItemSpec) (p : ItemPolicy) (inv : list InventoryBatch)
    : list InventoryBatch * Z :=
  if canFreeze item && Qltb 0 (freezeMaxUnitsPerDay p) then
    let remainingCap := Z.max 0 (Math_floor (freezeMaxUnitsPerDay p)) in
    let '(batches, moved, pushed) :=
      freeze_loop item p (sortFifo inv) remainingCap 0 [] in
    (pruneEmpty (batches ++ pushed), moved)
  else (inv, 0).

(** Step 3. *)
Definition eligibleQty (batches : list InventoryBatch) (sku : Sku) (threshold : Q) : Z :=
  fold_left
    (fun e b =>
       if is_of sku fresh b && Qleb (inject_Z (daysToExpire b)) threshold
       then e + qty b else e)
    batches 0.

Definition donateStage (item : ItemSpec) (p : ItemPolicy) (inv : list InventoryBatch)
    : list InventoryBatch * Z :=
  if Qltb 0 (donateMaxFractionPerDay p) then
    let maxFraction := clamp01 (donateMaxFractionPerDay p) in
    let sorted := sortFifo inv in
    let eligible := eligibleQty sorted (item_sku item) (donateDaysToExpireAtMost p) in
    let donateCap := Math_floor (inject_Z eligible * maxFraction) in
    takeFromBatches sorted (item_sku item) fresh donateCap
  else (inv, 0).

(** Step 4: the most urgent fresh batch; [None] is [Infinity]. *)
Definition minDaysToExpireFresh (batches : list InventoryBatch) (sku : Sku) : option Z :=
  fold_left
    (fun m b =>
       if is_of sku fresh b
       then Some (match m with None => daysToExpire b | Some x => Z.min x (daysToExpire b) end)
       else m)
    batches None.

Definition pricingDays (item : ItemSpec) (batches : list InventoryBatch) : Z :=
  let m := match minDaysToExpireFresh batches (item_sku item) with
           | Some z => inject_Z z
           | None => shelfLifeDays item
           end in
  Z.max 0 (Math_floor m).

(** Step 8: every batch of the SKU ages by one day; those at [<= 0] are
    summed into [wasted] (scanning from the end of the array) and removed. *)
Definition ageBatch (sku : Sku) (b : InventoryBatch) : InventoryBatch :=
  if String.eqb (b_sku b) sku
  then {| b_sku := b_sku b; qty := qty b; daysToExpire := daysToExpire b - 1;
          b_state := b_state b |}
  else b.

Definition expired (sku : Sku) (b : InventoryBatch) : bool :=
  String.eqb (b_sku b) sku && (daysToExpire b <=? 0).

Definition wastedQty (sku : Sku) (aged : list InventoryBatch) : Z :=
  fold_right (fun b w => if expired sku b then w + qty b else w) 0 aged.

(** The part of [wasted] that comes from one pool. *)
Definition wastedQtyIn (sku : Sku) (st : BatchState) (aged : list InventoryBatch) : Z :=
  fold_right
    (fun b w => if expired sku b && BatchState_eqb (b_state b) st then w + qty b else w)
    0 aged.

Definition ageStage (sku : Sku) (inv : list InventoryBatch) : list InventoryBatch * Z :=
  let aged := List.map (ageBatch sku) inv in
  (List.filter (fun b => negb (expired sku b)) aged, wastedQty sku aged).

(** Step 9. *)
Definition reorderStage (item : ItemSpec) (p : ItemPolicy) (freshOnHandNow : Z)
    (pending : list PendingDelivery) : list PendingDelivery :=
  if Qleb (inject_Z freshOnHandNow) (reorderPoint p) then
    let target := Z.max 0 (Math_round (orderUpTo p)) in
    let need := Z.max 0 (target - freshOnHandNow) in
    if 0 <? need then
      pending ++ [{| pd_sku := item_sku item; pd_qty := inject_Z need;
                     arrivingInDays := Z.max 0 (Math_round (leadTimeDays item)) |}]
    else pending
  else pending.

(** What one run of the per-SKU pipeline leaves behind: the metrics row the
    code records, the mutated ledger, queue and generator, and (not recorded
    by the code, kept here to state conservation) the split of shrink and
    waste between the two pools. *)
Record SkuRun := {
  run_row : DaySkuMetrics;
  run_inventory : list InventoryBatch;
  run_pending : list PendingDelivery;
  run_rng : Z;
  run_lostFresh : Z;
  run_lostFrozen : Z;
  run_wastedFresh : Z;
  run_wastedFrozen : Z
}.

Record SimOpts := {
  opt_items : list ItemSpec;
  opt_policy : InventoryPolicy;
  opt_config : SimulationConfig;
  opt_initialState : option StoreState
}.

Definition zeroTotals : Totals :=
  {| t_revenue := 0; t_cogs := 0; t_holdingCost := 0; t_wasteCost := 0;
     t_freezeCost := 0; t_profit := 0; t_demand := 0; t_sold := 0;
     t_stockout := 0; t_wasted := 0; t_donated := 0 |}.

Definition addRow (t : Totals) (m : DaySkuMetrics) : Totals :=
  {| t_revenue := t_revenue t + revenue m;
     t_cogs := t_cogs t + cogs m;
     t_holdingCost := t_holdingCost t + holdingCost m;
     t_wasteCost := t_wasteCost t + wasteCost m;
     t_freezeCost := t_freezeCost t + freezeCost m;
     t_profit := t_profit t;
     t_demand := t_demand t + demand m;
     t_sold := t_sold t + (soldFresh m + soldFrozen m);
     t_stockout := t_stockout t + stockout m;
     t_wasted := t_wasted t + wasted m;
     t_donated := t_donated t + donated m |}.

Definition closeTotals (t : Totals) : Totals :=
  {| t_revenue := t_revenue t; t_cogs := t_cogs t; t_holdingCost := t_holdingCost t;
     t_wasteCost := t_wasteCost t; t_freezeCost := t_freezeCost t;
     t_profit := t_revenue t - t_cogs t - t_holdingCost t - t_wasteCost t - t_freezeCost t;
     t_demand := t_demand t; t_sold := t_sold t; t_stockout := t_stockout t;
     t_wasted := t_wasted t; t_donated := t_donated t |}.

Section Simulation.

(** [Math.pow] and the Box-Muller expression of [rng.normal]. *)
Variable pow : Q -> Q -> Q.
Variable boxMuller : Q -> Q -> Q.

(** Step 5. *)
Definition demandForDay (item : ItemSpec) (multiplier : Q) (rng : Z)
    (noiseStdDev : Q) : Q * Z :=
  let base := Qmaxb 0 (baseDailyDemand item) in
  let priceEffect := pow (Qmaxb (1 # 20) multiplier) (priceElasticity item) in
  let '(n, rng') := Rng.normal boxMuller 0 noiseStdDev rng in
  let noise := Qmaxb 0 (1 + n) in
  let d := (base * priceEffect * noise)%Q in
  (Qmaxb 0 d, rng').

(** The body of the loop [for (const item of items)]. *)
Definition runSku (config : SimulationConfig) (item : ItemSpec) (p : ItemPolicy)
    (inv : list InventoryBatch) (pending : list PendingDelivery) (rng : Z) : SkuRun :=
  let sku := item_sku item in
  let startingFresh := sumQty inv sku fresh in
  let startingFrozen := sumQty inv sku frozen in
  let '(inv, frozenMoved) := freezeStage item p inv in
  let '(inv, donated) := donateStage item p inv in
  let '(price, multiplier) := applyPricing item p (pricingDays item inv) in
  let '(demand, rng) := demandForDay item multiplier rng (demandNoiseStdDev config) in
  let demandInt := Z.max 0 (Math_floor demand) in
  (* 6) sell fresh first, then frozen as a substitute *)
  let '(inv, soldFresh) := takeFromBatches inv sku fresh demandInt in
  let remainingDemand := Z.max 0 (demandInt - soldFresh) in
  let frozenUnitPrice := (basePrice item * frozenPriceMultiplier item)%Q in
  let '(inv, soldFrozen) :=
    if 0 <? remainingDemand then takeFromBatches inv sku frozen remainingDemand
    else (inv, 0) in
  let unmet := Z.max 0 (demandInt - soldFresh - soldFrozen) in
  let stockout := if countStockouts config then unmet else 0 in
  (* 7) shrink, fresh first then frozen *)
  let onHandAfterSales := sumQty inv sku fresh + sumQty inv sku frozen in
  let shrinkLost := Math_floor (inject_Z onHandAfterSales * clamp01 (shrinkRate item)) in
  let '(inv, lostFresh, lostFrozenTaken) :=
    if 0 <? shrinkLost then
      let '(inv1, lostFresh) := takeFromBatches inv sku fresh shrinkLost in
      let lostFrozen := shrinkLost - lostFresh in
      if 0 <? lostFrozen then
        let '(inv2, t) := takeFromBatches inv1 sku frozen lostFrozen in
        (inv2, lostFresh, t)
      else (inv1, lostFresh, 0)
    else (inv, 0, 0) in
  (* holding cost on the on-hand quantity at this point *)
  let endingFresh := sumQty inv sku fresh in
  let endingFrozen := sumQty inv sku frozen in
  let holdingCost := (inject_Z (endingFresh + endingFrozen) * holdingCostPerUnitPerDay config)%Q in
  (* 8) age and waste *)
  let aged := List.map (ageBatch sku) inv in
  let '(inv', wasted) := ageStage sku inv in
  (* 9) ordering decision *)
  let freshOnHandNow := sumQty inv' sku fresh in
  let pending := reorderStage item p freshOnHandNow pending in
  (* 10) rollup *)
  let revenue := (inject_Z soldFresh * price + inject_Z soldFrozen * frozenUnitPrice)%Q in
  let cogs := (inject_Z (soldFresh + soldFrozen) * unitCost item)%Q in
  let wasteCost := (inject_Z wasted * wasteDisposalCostPerUnit config)%Q in
  let freezeCost := (inject_Z frozenMoved * freezeCostPerUnit item)%Q in
  {| run_row :=
       {| m_sku := sku; startingFresh := startingFresh; startingFrozen := startingFrozen;
          price := price; m_priceMultiplier := multiplier; demand := demandInt;
          soldFresh := soldFresh; soldFrozen := soldFrozen; stockout := stockout;
          donated := donated; frozenMoved := frozenMoved; wasted := wasted;
          shrinkLost := shrinkLost; revenue := revenue; cogs := cogs;
          holdingCost := holdingCost; wasteCost := wasteCost; freezeCost := freezeCost |};
     run_inventory := inv';
     run_pending := pending;
     run_rng := rng;
     run_lostFresh := lostFresh;
     run_lostFrozen := lostFrozenTaken;
     run_wastedFresh := wastedQtyIn sku fresh aged;
     run_wastedFrozen := wastedQtyIn sku frozen aged |}.

(** The driver's mutable variables while a day is in progress. *)
Record Driver := {
  d_state : StoreState;
  d_rng : Z;
  d_totals : Totals
}.

Fixpoint skuLoop (config : SimulationConfig) (policy : InventoryPolicy)
    (items : list ItemSpec) (d : Driver) (perSkuRows : list DaySkuMetrics)
    : result (Driver * list DaySkuMetrics) :=
  match items with
  | [] => Ok (d, perSkuRows)
  | item :: rest =>
      p ← policyFor policy item;
      let r := runSku config item p (inventory (d_state d))
                      (pendingDeliveries (d_state d)) (d_rng d) in
      skuLoop config policy rest
        {| d_state := {| day := day (d_state d); inventory := run_inventory r;
                         pendingDeliveries := run_pending r |};
           d_rng := run_rng r;
           d_totals := addRow (d_totals d) (run_row r) |}
        (perSkuRows ++ [run_row r])
  end.

(** One iteration of [for (let day = 0; day < config.days; day++)]. *)
Definition dayStep (config : SimulationConfig) (policy : InventoryPolicy)
    (items : list ItemSpec) (dayIndex : Z) (d : Driver) : result (Driver * DayMetrics) :=
  let st := receiveDeliveries items (d_state d) in
  '(d', rows) ← skuLoop config policy items
                  {| d_state := st; d_rng := d_rng d; d_totals := d_totals d |} [];
  Ok ({| d_state := {| day := day (d_state d') + 1;
                       inventory := inventory (d_state d');
                       pendingDeliveries := pendingDeliveries (d_state d') |};
         d_rng := d_rng d'; d_totals := d_totals d' |},
      {| dm_day := dayIndex; dm_perSku := rows |}).

Fixpoint dayLoop (config : SimulationConfig) (policy : InventoryPolicy)
    (items : list ItemSpec) (n : nat) (dayIndex : Z) (d : Driver)
    (daysAcc : list DayMetrics) : result (Driver * list DayMetrics) :=
  match n with
  | O => Ok (d, daysAcc)
  | S n' =>
      '(d', dm) ← dayStep config policy items dayIndex d;
      dayLoop config policy items n' (dayIndex + 1) d' (daysAcc ++ [dm])
  end.

(** [structuredClone] of a state: a value-level copy. *)
Definition structuredClone (st : StoreState) : StoreState := st.

Definition simulateInventory (opts : SimOpts) : result SimulationResult :=
  let items := opt_items opts in
  let policy := opt_policy opts in
  let config := opt_config opts in
  _ ← ensurePolicyComplete items policy;
  let rng := Rng.createRng (seed config) in
  state ← match opt_initialState opts with
          | Some st => Ok (structuredClone st)
          | None => createInitialState items policy
          end;
  '(d, daysOut) ← dayLoop config policy items (Z.to_nat (days config)) 0
                     {| d_state := state; d_rng := rng; d_totals := zeroTotals |} [];
  Ok {| r_config := config; r_policy := policy; r_items := items;
        r_days := daysOut; totals := closeTotals (d_totals d) |}.

End Simulation.

(** * eval.ts *)

(** The number operations the evaluator uses.  [num_le a b] is [a <= b],
    [num_lt a b] is [a < b], [num_is_zero d] is [d === 0]. *)
Class NumOps (N : Type) := {
  num_of_Z : Z -> N;
  num_1e_9 : N;
  num_add : N -> N -> N;
  num_sub : N -> N -> N;
  num_mul : N -> N -> N;
  num_div : N -> N -> N;
  num_exp : N -> N;
  num_max : N -> N -> N;
  num_min : N -> N -> N;
  num_le : N -> N -> bool;
  num_lt : N -> N -> bool;
  num_is_zero : N -> bool;
  num_isFinite : N -> bool
}.

Module Eval.

(** What [evaluateSimulation] reads of a [SimulationResult]:
    [sim.config.days] and six of the totals. *)
Record SimTotals (N : Type) := {
  sim_days : N;
  sim_profit : N;
  sim_sold : N;
  sim_wasted : N;
  sim_donated : N;
  sim_stockout : N;
  sim_demand : N
}.
Arguments sim_days {N}.
Arguments sim_profit {N}.
Arguments sim_sold {N}.
Arguments sim_wasted {N}.
Arguments sim_donated {N}.
Arguments sim_stockout {N}.
Arguments sim_demand {N}.

Record ScoreWeights (N : Type) := {
  w_profit : N;
  w_wasteReduction : N;
  w_satisfaction : N;
  w_humanitarian : N
}.
Arguments w_profit {N}.
Arguments w_wasteReduction {N}.
Arguments w_satisfaction {N}.
Arguments w_humanitarian {N}.

Record EvalConfig (N : Type) := {
  weights : ScoreWeights N;
  profitPerDayTarget : N;
  wasteRateTarget : N;
  satisfactionTarget : N;
  donationRateTarget : N
}.
Arguments weights {N}.
Arguments profitPerDayTarget {N}.
Arguments wasteRateTarget {N}.
Arguments satisfactionTarget {N}.
Arguments donationRateTarget {N}.

Record EvaluationResult (N : Type) := {
  score : N;
  profitScore : N;
  wasteReductionScore : N;
  satisfactionScore : N;
  humanitarianScore : N;
  raw_profitPerDay : N;
  raw_wasteRate : N;
  raw_fillRate : N;
  raw_donationRate : N
}.
Arguments score {N}.
Arguments profitScore {N}.
Arguments wasteReductionScore {N}.
Arguments satisfactionScore {N}.
Arguments humanitarianScore {N}.
Arguments raw_profitPerDay {N}.
Arguments raw_wasteRate {N}.
Arguments raw_fillRate {N}.
Arguments raw_donationRate {N}.

Section Evaluator.
Context {N : Type} {ops : NumOps N}.

Local Notation "0" := (num_of_Z 0%Z).
Local Notation "1" := (num_of_Z 1%Z).
Local Infix "+" := num_add.
Local Infix "-" := num_sub.
Local Infix "*" := num_mul.
Local Infix "/" := num_div.

Definition clamp01 (x : N) : N := num_max 0 (num_min 1 x).

Definition safeDiv (n d : N) : N :=
  if negb (num_isFinite n) || negb (num_isFinite d) || num_is_zero d then 0
  else n / d.

Definition normalizePositive (value target : N) : N :=
  if num_le target 0 then clamp01 (if num_lt 0 value then 1 else 0)
  else
    let x := value / target in
    let y := 1 / (1 + num_exp (num_of_Z (-3) * (x - 1))) in
    clamp01 y.

Definition normalizeLowerIsBetter (value target : N) : N :=
  if num_le target 0 then clamp01 (if num_le value 0 then 1 else 0)
  else
    let x := value / target in
    let y := 1 / (1 + num_exp (num_of_Z 3 * (x - 1))) in
    clamp01 y.

(** The weighted sum of the sub-scores and the sum of the weights, as the
    code adds them up (left to right). *)
Definition weightedSum (w : ScoreWeights N) (s1 s2 s3 s4 : N) : N :=
  w_profit w * s1 + w_wasteReduction w * s2 + w_satisfaction w * s3 + w_humanitarian w * s4.

Definition weightTotal (w : ScoreWeights N) : N :=
  w_profit w + w_wasteReduction w + w_satisfaction w + w_humanitarian w.

Definition evaluateSimulation (sim : SimTotals N) (cfg : EvalConfig N) : EvaluationResult N :=
  let days := num_max 1 (sim_days sim) in
  let handled := sim_sold sim + sim_wasted sim + sim_donated sim in
  let profitPerDay := sim_profit sim / days in
  let wasteRate := safeDiv (sim_wasted sim) (num_max 1 handled) in
  let fillRate := 1 - safeDiv (sim_stockout sim) (num_max 1 (sim_demand sim)) in
  let donationRate := safeDiv (sim_donated sim) (num_max 1 handled) in
  let profitScore := normalizePositive profitPerDay (profitPerDayTarget cfg) in
  let wasteReductionScore := normalizeLowerIsBetter wasteRate (wasteRateTarget cfg) in
  let satisfactionScore := normalizePositive fillRate (satisfactionTarget cfg) in
  let humanitarianScore := normalizePositive donationRate (donationRateTarget cfg) in
  let w := weights cfg in
  let denom := num_max num_1e_9 (weightTotal w) in
  let score :=
    weightedSum w profitScore wasteReductionScore satisfactionScore humanitarianScore
    / denom in
  {| score := clamp01 score;
     profitScore := profitScore;
     wasteReductionScore := wasteReductionScore;
     satisfactionScore := satisfactionScore;
     humanitarianScore := humanitarianScore;
     raw_profitPerDay := profitPerDay;
     raw_wasteRate := wasteRate;
     raw_fillRate := clamp01 fillRate;
     raw_donationRate := donationRate |}.

End Evaluator.

End Eval.

(** ** The evaluator over exact reals *)

Module RealEval.
Import Eval.
Local Open Scope R_scope.

Definition Rleb (a b : R) : bool := if Rle_dec a b then true else false.
Definition Rltb (a b : R) : bool := if Rlt_dec a b then true else false.

#[global] Instance realOps : NumOps R := {|
  num_of_Z := IZR;
  num_1e_9 := / 1000000000;
  num_add := Rplus;
  num_sub := Rminus;
  num_mul := Rmult;
  num_div := Rdiv;
  num_exp := exp;
  num_max := Rmax;
  num_min := Rmin;
  num_le := Rleb;
  num_lt := Rltb;
  num_is_zero := fun d => if Req_dec_T d 0 then true else false;
  num_isFinite := fun _ => true
|}.

End RealEval.

(** ** The evaluator over IEEE-754 binary64 *)

Module Ieee.
Import Eval.

Definition prec : Z := 53.
Definition emax : Z := 1024.

(** The double nearest to an integer (exact below 2^53). *)
Definition of_Z (z : Z) : spec_float := binary_normalize prec emax z 0 false.

Definition is_nan (x : spec_float) : bool :=
  match x with S754_nan => true | _ => false end.

Definition isFinite (x : spec_float) : bool :=
  match x with S754_zero _ | S754_finite _ _ _ => true | _ => false end.

(** [Math.max] and [Math.min]: NaN if either argument is NaN, and +0 is
    larger than -0. *)
Definition Math_max (a b : spec_float) : spec_float :=
  if is_nan a || is_nan b then S754_nan
  else if SFltb a b then b
  else if SFltb b a then a
  else match a with S754_zero true => b | _ => a end.

Definition Math_min (a b : spec_float) : spec_float :=
  if is_nan a || is_nan b then S754_nan
  else if SFltb a b then a
  else if SFltb b a then b
  else match a with S754_zero false => b | _ => a end.

Section Ops.
(** [Math.exp]. *)
Variable mathExp : spec_float -> spec_float.

Definition ieeeOps : NumOps spec_float := {|
  num_of_Z := of_Z;
  num_1e_9 := SFdiv prec emax (of_Z 1) (of_Z 1000000000);
  num_add := SFadd prec emax;
  num_sub := SFsub prec emax;
  num_mul := SFmul prec emax;
  num_div := SFdiv prec emax;
  num_exp := mathExp;
  num_max := Math_max;
  num_min := Math_min;
  num_le := SFleb;
  num_lt := SFltb;
  num_is_zero := fun d => SFeqb d (S754_zero false);
  num_isFinite := isFinite
|}.

Definition evaluate : SimTotals spec_float -> EvalConfig spec_float -> EvaluationResult spec_float :=
  @evaluateSimulation spec_float ieeeOps.

End Ops.

(** A value lies in [0, 1] (and so is not NaN). *)
Definition in01 (x : spec_float) : bool :=
  SFleb (S754_zero false) x && SFleb x (of_Z 1).

Definition is_zero (x : spec_float) : bool :=
  match x with S754_zero _ => true | _ => false end.

End Ieee.

(** * The store model of simulate.ts

    The same code with its objects in a store: batches, deliveries, arrays
    and the state object live at locations, arrays hold references, and
    every assignment of the source ([b.qty -= q], [push], [splice], [sort],
    [state.pendingDeliveries = ...]) is a write at a location.  Items and
    config are only ever read by the source and stay values; the pricing
    array of a policy is an array in the store, which [applyPricing] copies
    before sorting.  The metrics, totals and result objects are created by
    the call and returned; they are values. *)

Module Store.

Abbreviation loc := positive.

Inductive obj :=
  | OBatch (b : InventoryBatch)
  | ODelivery (d : PendingDelivery)
  | OArray (elems : list loc)
  | ORules (rules : list PricingRule)
  | OState (dayNo : Z) (inventoryRef pendingRef : loc).

Abbreviation heap := (gmap positive obj).

(** A computation on the store that returns or throws. *)
Definition M (A : Type) : Type := heap -> result A * heap.

Definition ret {A} (a : A) : M A := fun h => (Ok a, h).

Definition bind {A B} (m : M A) (f : A -> M B) : M B :=
  fun h =>
    match m h with
    | (Ok a, h') => f a h'
    | (Throw msg, h') => (Throw msg, h')
    end.

Definition lift {A} (r : result A) : M A := fun h => (r, h).

#[global] Instance M_ret : MRet M := @ret.
#[global] Instance M_bind : MBind M := fun A B f m => bind m f.

(** Reading a field of something that is not an object of the expected
    kind. *)
Definition typeError : string := "TypeError: not an object of the expected kind".

Definition alloc (o : obj) : M loc :=
  fun h => let l := base.fresh (dom h) in (Ok l, <[l := o]> h).

Definition readBatch (l : loc) : M InventoryBatch :=
  fun h => match h !! l with
           | Some (OBatch b) => (Ok b, h)
           | _ => (Throw typeError, h)
           end.

Definition writeBatch (l : loc) (b : InventoryBatch) : M unit :=
  fun h => match h !! l with
           | Some (OBatch _) => (Ok tt, <[l := OBatch b]> h)
           | _ => (Throw typeError, h)
           end.

Definition readDelivery (l : loc) : M PendingDelivery :=
  fun h => match h !! l with
           | Some (ODelivery d) => (Ok d, h)
           | _ => (Throw typeError, h)
           end.

Definition writeDelivery (l : loc) (d : PendingDelivery) : M unit :=
  fun h => match h !! l with
           | Some (ODelivery _) => (Ok tt, <[l := ODelivery d]> h)
           | _ => (Throw typeError, h)
           end.

Definition readArray (l : loc) : M (list loc) :=
  fun h => match h !! l with
           | Some (OArray elems) => (Ok elems, h)
           | _ => (Throw typeError, h)
           end.

Definition writeArray (l : loc) (elems : list loc) : M unit :=
  fun h => match h !! l with
           | Some (OArray _) => (Ok tt, <[l := OArray elems]> h)
           | _ => (Throw typeError, h)
           end.

Definition readRules (l : loc) : M (list PricingRule) :=
  fun h => match h !! l with
           | Some (ORules rules) => (Ok rules, h)
           | _ => (Throw typeError, h)
           end.

Definition writeRules (l : loc) (rules : list PricingRule) : M unit :=
  fun h => match h !! l with
           | Some (ORules _) => (Ok tt, <[l := ORules rules]> h)
           | _ => (Throw typeError, h)
           end.

Definition readState (l : loc) : M (Z * loc * loc) :=
  fun h => match h !! l with
           | Some (OState d i p) => (Ok (d, i, p), h)
           | _ => (Throw typeError, h)
           end.

Definition writeState (l : loc) (d : Z) (i p : loc) : M unit :=
  fun h => match h !! l with
           | Some (OState _ _ _) => (Ok tt, <[l := OState d i p]> h)
           | _ => (Throw typeError, h)
           end.

Fixpoint mapM {A B} (f : A -> M B) (l : list A) : M (list B) :=
  match l with
  | [] => ret []
  | x :: rest =>
      y ← f x;
      ys ← mapM f rest;
      ret (y :: ys)
  end.

Fixpoint forEach {A} (f : A -> M unit) (l : list A) : M unit :=
  match l with
  | [] => ret tt
  | x :: rest => _ ← f x; forEach f rest
  end.

Fixpoint filterM {A} (f : A -> M bool) (l : list A) : M (list A) :=
  match l with
  | [] => ret []
  | x :: rest =>
      keep ← f x;
      kept ← filterM f rest;
      ret (if (keep : bool) then x :: kept else kept)
  end.

(** [state.inventory] and [state.pendingDeliveries]. *)
Definition inventoryOf (state : loc) : M loc :=
  '(_, i, _) ← readState state; ret i.

Definition pendingOf (state : loc) : M loc :=
  '(_, _, p) ← readState state; ret p.

(** The batches an array refers to, in order (reads only). *)
Definition loadBatches (arr : loc) : M (list InventoryBatch) :=
  elems ← readArray arr; mapM readBatch elems.

Definition push (arr : loc) (l : loc) : M unit :=
  elems ← readArray arr; writeArray arr (elems ++ [l]).

Definition sumQtyH (arr : loc) (sku : Sku) (st : BatchState) : M Z :=
  batches ← loadBatches arr; ret (sumQty batches sku st).

(** [batches.sort(...)]: the array is reordered in place (stable, by the
    [daysToExpire] read from each batch). *)
Fixpoint insertKeyed (x : loc * Z) (l : list (loc * Z)) : list (loc * Z) :=
  match l with
  | [] => [x]
  | y :: l' => if snd x <=? snd y then x :: l else y :: insertKeyed x l'
  end.

Fixpoint sortKeyed (l : list (loc * Z)) : list (loc * Z) :=
  match l with
  | [] => []
  | x :: rest => insertKeyed x (sortKeyed rest)
  end.

Definition sortFifoH (arr : loc) : M unit :=
  elems ← readArray arr;
  keyed ← mapM (fun l => b ← readBatch l; ret (l, daysToExpire b)) elems;
  writeArray arr (List.map fst (sortKeyed keyed)).

(** Removal of the entries whose batch has [qty <= 0]. *)
Definition pruneEmptyH (arr : loc) : M unit :=
  elems ← readArray arr;
  kept ← filterM (fun l => b ← readBatch l; ret (0 <? qty b)) elems;
  writeArray arr kept.

Fixpoint take_loopH (sku : Sku) (st : BatchState) (elems : list loc)
    (remaining taken : Z) : M Z :=
  match elems with
  | [] => ret taken
  | l :: rest =>
      if remaining <=? 0 then ret taken
      else
        b ← readBatch l;
        if negb (is_of sku st b) then take_loopH sku st rest remaining taken
        else
          let q := Z.min (qty b) remaining in
          if q <=? 0 then take_loopH sku st rest remaining taken
          else
            _ ← writeBatch l (set_qty b (qty b - q));
            take_loopH sku st rest (remaining - q) (taken + q)
  end.

Definition takeFromBatchesH (arr : loc) (sku : Sku) (st : BatchState) (qtyWanted : Z)
    : M Z :=
  if qtyWanted <=? 0 then ret 0
  else
    _ ← sortFifoH arr;
    elems ← readArray arr;
    taken ← take_loopH sku st elems qtyWanted 0;
    _ ← pruneEmptyH arr;
    ret taken.

(** [[...(policy.pricing ?? [])].sort(...)]: the rules are copied into a
    new array, and the copy is sorted in place. *)
Definition applyPricingH (item : ItemSpec) (policy : ItemPolicyOf (option loc))
    (minDays : Z) : M (Q * Q) :=
  given ← match pricing policy with
                | Some l => readRules l
                | None => ret []
                end;
  rules ← alloc (ORules given);
  _ ← writeRules rules (sortRules given);
  sorted ← readRules rules;
  let multiplier := firstRule sorted minDays in
  ret (Qmaxb 0 (basePrice item * multiplier), multiplier).

Definition createInitialStateH (items : list ItemSpec)
    (policy : InventoryPolicyOf (option loc)) : M loc :=
  _ ← lift (ensurePolicyComplete items policy);
  inventory ← alloc (OArray []);
  _ ←
    forEach
      (fun item =>
         p ← lift (policyFor policy item);
         let startQty := Z.max 0 (Math_round (orderUpTo p)) in
         if 0 <? startQty then
           b ← alloc (OBatch {| b_sku := item_sku item; qty := startQty;
                                      daysToExpire := Z.max 1 (Math_round (shelfLifeDays item));
                                      b_state := fresh |});
           push inventory b
         else ret tt)
      items;
  pending ← alloc (OArray []);
  alloc (OState 0 inventory pending).

(** [structuredClone]: a deep copy that keeps the sharing of the original;
    [memo] maps every object already copied to its copy. *)
Definition cloneLeaf (memo : gmap positive positive) (l : loc)
    : M (loc * gmap positive positive) :=
  match memo !! l with
  | Some l' => ret (l', memo)
  | None =>
      fun h =>
        match h !! l with
        | Some (OBatch b) =>
            (l' ← alloc (OBatch b); ret (l', <[l := l']> memo)) h
        | Some (ODelivery d) =>
            (l' ← alloc (ODelivery d); ret (l', <[l := l']> memo)) h
        | _ => (Throw typeError, h)
        end
  end.

Fixpoint cloneElems (memo : gmap positive positive) (elems : list loc)
    : M (list loc * gmap positive positive) :=
  match elems with
  | [] => ret ([], memo)
  | l :: rest =>
      '(l', memo1) ← cloneLeaf memo l;
      '(rest', memo2) ← cloneElems memo1 rest;
      ret (l' :: rest', memo2)
  end.

Definition cloneArray (memo : gmap positive positive) (arr : loc)
    : M (loc * gmap positive positive) :=
  match memo !! arr with
  | Some arr' => ret (arr', memo)
  | None =>
      elems ← readArray arr;
      '(elems', memo1) ← cloneElems memo elems;
      arr' ← alloc (OArray elems');
      ret (arr', <[arr := arr']> memo1)
  end.

Definition structuredCloneH (state : loc) : M loc :=
  '(d, i, p) ← readState state;
  '(i', memo1) ← cloneArray ∅ i;
  '(p', _) ← cloneArray memo1 p;
  alloc (OState d i' p').

(** Step 1 of a day.  [filter] builds new arrays; the one kept in
    [state.pendingDeliveries] is allocated, [arriving] is a local. *)
Definition receiveDeliveriesH (items : list ItemSpec) (state : loc) : M unit :=
  pending ← pendingOf state;
  elems ← readArray pending;
  _ ← forEach (fun l => d ← readDelivery l; writeDelivery l (countDown d)) elems;
  arriving ← filterM (fun l => d ← readDelivery l; ret (arrivingInDays d <=? 0)) elems;
  waiting ← filterM (fun l => d ← readDelivery l; ret (0 <? arrivingInDays d)) elems;
  pending' ← alloc (OArray waiting);
  '(d, inventory, _) ← readState state;
  _ ← writeState state d inventory pending';
  forEach
    (fun l =>
       a ← readDelivery l;
       match findItem items (pd_sku a) with
       | None => ret tt
       | Some item =>
           inventory ← inventoryOf state;
           b ← alloc (OBatch (arrivalBatch item a));
           push inventory b
       end)
    arriving.

(** Step 2.  The loop runs over the array as it is when the loop starts;
    the frozen batches it pushes are visited later by the source's iteration
    and skipped as not fresh. *)
Fixpoint freeze_loopH (item : ItemSpec) (p : ItemPolicyOf (option loc)) (arr : loc)
    (elems : list loc) (remainingCap frozenMoved : Z) : M Z :=
  match elems with
  | [] => ret frozenMoved
  | l :: rest =>
      if remainingCap <=? 0 then ret frozenMoved
      else
        b ← readBatch l;
        if negb (is_of (item_sku item) fresh b)
           || Qltb (freezeDaysToExpireAtMost p) (inject_Z (daysToExpire b))
        then freeze_loopH item p arr rest remainingCap frozenMoved
        else
          let q := Z.min (qty b) remainingCap in
          if q <=? 0 then freeze_loopH item p arr rest remainingCap frozenMoved
          else
            _ ← writeBatch l (set_qty b (qty b - q));
            nb ← alloc (OBatch (frozenBatch item q));
            _ ← push arr nb;
            freeze_loopH item p arr rest (remainingCap - q) (frozenMoved + q)
  end.

Definition freezeStageH (item : ItemSpec) (p : ItemPolicyOf (option loc)) (arr : loc)
    : M Z :=
  if canFreeze item && Qltb 0 (freezeMaxUnitsPerDay p) then
    _ ← sortFifoH arr;
    elems ← readArray arr;
    moved ← freeze_loopH item p arr elems (Z.max 0 (Math_floor (freezeMaxUnitsPerDay p))) 0;
    _ ← pruneEmptyH arr;
    ret moved
  else ret 0.

Definition donateStageH (item : ItemSpec) (p : ItemPolicyOf (option loc)) (arr : loc)
    : M Z :=
  if Qltb 0 (donateMaxFractionPerDay p) then
    let maxFraction := clamp01 (donateMaxFractionPerDay p) in
    _ ← sortFifoH arr;
    batches ← loadBatches arr;
    let eligible := eligibleQty batches (item_sku item) (donateDaysToExpireAtMost p) in
    let donateCap := Math_floor (inject_Z eligible * maxFraction) in
    takeFromBatchesH arr (item_sku item) fresh donateCap
  else ret 0.

Definition ageStageH (sku : Sku) (arr : loc) : M Z :=
  elems ← readArray arr;
  _ ← forEach
        (fun l =>
           b ← readBatch l;
           if String.eqb (b_sku b) sku then writeBatch l (ageBatch sku b) else ret tt)
        elems;
  aged ← loadBatches arr;
  kept ← filterM (fun l => b ← readBatch l; ret (negb (expired sku b))) elems;
  _ ← writeArray arr kept;
  ret (wastedQty sku aged).

Definition reorderStageH (item : ItemSpec) (p : ItemPolicyOf (option loc))
    (freshOnHandNow : Z) (state : loc) : M unit :=
  if Qleb (inject_Z freshOnHandNow) (reorderPoint p) then
    let target := Z.max 0 (Math_round (orderUpTo p)) in
    let need := Z.max 0 (target - freshOnHandNow) in
    if 0 <? need then
      pending ← pendingOf state;
      d ← alloc (ODelivery {| pd_sku := item_sku item; pd_qty := inject_Z need;
                               arrivingInDays := Z.max 0 (Math_round (leadTimeDays item)) |});
      push pending d
    else ret tt
  else ret tt.

(** The arguments of a call: [initialState] is a reference to the caller's
    state object, the pricing arrays of the policy are references. *)
Record CallOpts := {
  call_items : list ItemSpec;
  call_policy : InventoryPolicyOf (option loc);
  call_config : SimulationConfig;
  call_initialState : option loc
}.

Section Simulation.
Variable pow : Q -> Q -> Q.
Variable boxMuller : Q -> Q -> Q.

Definition runSkuH (config : SimulationConfig) (item : ItemSpec)
    (p : ItemPolicyOf (option loc)) (state : loc) (rng : Z) : M (DaySkuMetrics * Z) :=
  let sku := item_sku item in
  inv ← inventoryOf state;
  startingFresh ← sumQtyH inv sku fresh;
  startingFrozen ← sumQtyH inv sku frozen;
  frozenMoved ← freezeStageH item p inv;
  donated ← donateStageH item p inv;
  batches ← loadBatches inv;
  '(price, multiplier) ← applyPricingH item p (pricingDays item batches);
  let '(demand, rng) :=
    demandForDay pow boxMuller item multiplier rng (demandNoiseStdDev config) in
  let demandInt := Z.max 0 (Math_floor demand) in
  soldFresh ← takeFromBatchesH inv sku fresh demandInt;
  let remainingDemand := Z.max 0 (demandInt - soldFresh) in
  let frozenUnitPrice := (basePrice item * frozenPriceMultiplier item)%Q in
  soldFrozen ← (if 0 <? remainingDemand
                then takeFromBatchesH inv sku frozen remainingDemand
                else ret 0);
  let unmet := Z.max 0 (demandInt - soldFresh - soldFrozen) in
  let stockout := if countStockouts config then unmet else 0 in
  onHandFresh ← sumQtyH inv sku fresh;
  onHandFrozen ← sumQtyH inv sku frozen;
  let onHandAfterSales := onHandFresh + onHandFrozen in
  let shrinkLost := Math_floor (inject_Z onHandAfterSales * clamp01 (shrinkRate item)) in
  _ ← (if 0 <? shrinkLost then
         lostFresh ← takeFromBatchesH inv sku fresh shrinkLost;
         let lostFrozen := shrinkLost - lostFresh in
         if 0 <? lostFrozen
         then (_ ← takeFromBatchesH inv sku frozen lostFrozen; ret tt)
         else ret tt
       else ret tt);
  endingFresh ← sumQtyH inv sku fresh;
  endingFrozen ← sumQtyH inv sku frozen;
  let holdingCost :=
    (inject_Z (endingFresh + endingFrozen) * holdingCostPerUnitPerDay config)%Q in
  wasted ← ageStageH sku inv;
  freshOnHandNow ← sumQtyH inv sku fresh;
  _ ← reorderStageH item p freshOnHandNow state;
  let revenue := (inject_Z soldFresh * price + inject_Z soldFrozen * frozenUnitPrice)%Q in
  let cogs := (inject_Z (soldFresh + soldFrozen) * unitCost item)%Q in
  let wasteCost := (inject_Z wasted * wasteDisposalCostPerUnit config)%Q in
  let freezeCost := (inject_Z frozenMoved * freezeCostPerUnit item)%Q in
  ret ({| m_sku := sku; startingFresh := startingFresh; startingFrozen := startingFrozen;
          price := price; m_priceMultiplier := multiplier; demand := demandInt;
          soldFresh := soldFresh; soldFrozen := soldFrozen; stockout := stockout;
          donated := donated; frozenMoved := frozenMoved; wasted := wasted;
          shrinkLost := shrinkLost; revenue := revenue; cogs := cogs;
          holdingCost := holdingCost; wasteCost := wasteCost; freezeCost := freezeCost |},
       rng).

Fixpoint skuLoopH (config : SimulationConfig) (policy : InventoryPolicyOf (option loc))
    (items : list ItemSpec) (state : loc) (rng : Z) (tot : Totals)
    (perSkuRows : list DaySkuMetrics) : M (Z * Totals * list DaySkuMetrics) :=
  match items with
  | [] => ret (rng, tot, perSkuRows)
  | item :: rest =>
      p ← lift (policyFor policy item);
      '(row, rng') ← runSkuH config item p state rng;
      skuLoopH config policy rest state rng' (addRow tot row) (perSkuRows ++ [row])
  end.

Definition dayStepH (config : SimulationConfig) (policy : InventoryPolicyOf (option loc))
    (items : list ItemSpec) (dayIndex : Z) (state : loc) (rng : Z) (tot : Totals)
    : M (Z * Totals * DayMetrics) :=
  _ ← receiveDeliveriesH items state;
  '(rng', tot', rows) ← skuLoopH config policy items state rng tot [];
  '(d, i, p) ← readState state;
  _ ← writeState state (d + 1) i p;
  ret (rng', tot', {| dm_day := dayIndex; dm_perSku := rows |}).

Fixpoint dayLoopH (config : SimulationConfig) (policy : InventoryPolicyOf (option loc))
    (items : list ItemSpec) (n : nat) (dayIndex : Z) (state : loc) (rng : Z)
    (tot : Totals) (daysAcc : list DayMetrics) : M (Totals * list DayMetrics) :=
  match n with
  | O => ret (tot, daysAcc)
  | S n' =>
      '(rng', tot', dm) ← dayStepH config policy items dayIndex state rng tot;
      dayLoopH config policy items n' (dayIndex + 1) state rng' tot' (daysAcc ++ [dm])
  end.

Definition simulateInventoryH (opts : CallOpts)
    : M (SimulationResultOf (option loc)) :=
  let items := call_items opts in
  let policy := call_policy opts in
  let config := call_config opts in
  _ ← lift (ensurePolicyComplete items policy);
  let rng := Rng.createRng (seed config) in
  state ← match call_initialState opts with
          | Some l => structuredCloneH l
          | None => createInitialStateH items policy
          end;
  '(tot, daysOut) ← dayLoopH config policy items (Z.to_nat (days config)) 0 state rng
                      zeroTotals [];
  ret {| r_config := config; r_policy := policy; r_items := items;
         r_days := daysOut; totals := closeTotals tot |}.

End Simulation.

End Store.

(** * inventory-sim-tool.ts: totals per SKU *)

Record SkuTotals := {
  st_sku : Sku;
  st_sold : Z;
  st_stockout : Z;
  st_wasted : Z;
  st_donated : Z
}.

(** A [Map] keyed by SKU, in insertion order: [set] on a present key
    replaces the value in place, on an absent key appends. *)
Fixpoint mapSet (k : Sku) (v : SkuTotals) (m : list (Sku * SkuTotals))
    : list (Sku * SkuTotals) :=
  match m with
  | [] => [(k, v)]
  | (k', v') :: rest =>
      if String.eqb k' k then (k, v) :: rest else (k', v') :: mapSet k v rest
  end.

Fixpoint mapGet (m : list (Sku * SkuTotals)) (k : Sku) : option SkuTotals :=
  match m with
  | [] => None
  | (k', v') :: rest => if String.eqb k' k then Some v' else mapGet rest k
  end.

Definition zeroRow (sku : Sku) : SkuTotals :=
  {| st_sku := sku; st_sold := 0; st_stockout := 0; st_wasted := 0; st_donated := 0 |}.

Definition addInto (row : SkuTotals) (s : DaySkuMetrics) : SkuTotals :=
  {| st_sku := st_sku row;
     st_sold := st_sold row + (soldFresh s + soldFrozen s);
     st_stockout := st_stockout row + stockout s;
     st_wasted := st_wasted row + wasted s;
     st_donated := st_donated row + donated s |}.

Definition tally (m : list (Sku * SkuTotals)) (s : DaySkuMetrics)
    : list (Sku * SkuTotals) :=
  let row := match mapGet m (m_sku s) with
             | Some row => row
             | None => zeroRow (m_sku s)
             end in
  mapSet (m_sku s) (addInto row s) m.

(** The [perSkuTotals] field that [inventorySimulationTool.execute]
    returns: a zero row per catalog item, then every row of every day added
    into the row of its SKU; the values of the map in insertion order. *)
Definition perSkuTotals (items : list ItemSpec) (days : list DayMetrics) : list SkuTotals :=
  let m0 := fold_left (fun m it => mapSet (item_sku it) (zeroRow (item_sku it)) m) items [] in
  let m1 := fold_left (fun m d => fold_left tally (dm_perSku d) m) days m0 in
  List.map snd m1.

(** * inventory-optimization-workflow.ts *)

Fixpoint policyHasAllSkus (policy : InventoryPolicy) (items : list ItemSpec) : bool :=
  match items with
  | [] => true
  | it :: rest =>
      match perSku policy !! item_sku it with
      | None => false
      | Some _ => policyHasAllSkus policy rest
      end
  end.

(** The body of the normalization loop of [optimizePolicy] for one item
    whose entry [p] exists. *)
Definition normalizeEntry (it : ItemSpec) (p : ItemPolicy) : ItemPolicy :=
  let freezeMax := if canFreeze it then freezeMaxUnitsPerDay p else 0%Q in
  let freezeDays := if canFreeze it then freezeDaysToExpireAtMost p else 0%Q in
  let upTo := if Qltb (orderUpTo p) (reorderPoint p) then reorderPoint p else orderUpTo p in
  {| p_sku := p_sku p;
     reorderPoint := inject_Z (Z.max 0 (Math_round (reorderPoint p)));
     orderUpTo := inject_Z (Z.max 0 (Math_round upTo));
     pricing := pricing p;
     donateDaysToExpireAtMost := donateDaysToExpireAtMost p;
     donateMaxFractionPerDay := donateMaxFractionPerDay p;
     freezeDaysToExpireAtMost := freezeDays;
     freezeMaxUnitsPerDay := inject_Z (Z.max 0 (Math_round freezeMax)) |}.

(** The loop itself: the entries of the candidate are updated in place,
    item by item. *)
Definition normalizeCandidate (items : list ItemSpec) (policy : InventoryPolicy)
    : InventoryPolicy :=
  fold_left
    (fun pol it =>
       match perSku pol !! item_sku it with
       | None => pol
       | Some p =>
           {| policy_id := policy_id pol; policy_name := policy_name pol;
              perSku := <[item_sku it := normalizeEntry it p]> (perSku pol) |}
       end)
    items policy.

(** * The evaluator's view of a result *)

(** What [evaluateSimulation] reads of a result of the simulator
    ([sim.config.days] and six of [sim.totals]), as reals. *)
Definition simTotals (res : SimulationResult) : Eval.SimTotals R :=
  {| Eval.sim_days := IZR (days (r_config res));
     Eval.sim_profit := Q2R (t_profit (totals res));
     Eval.sim_sold := IZR (t_sold (totals res));
     Eval.sim_wasted := IZR (t_wasted (totals res));
     Eval.sim_donated := IZR (t_donated (totals res));
     Eval.sim_stockout := IZR (t_stockout (totals res));
     Eval.sim_demand := IZR (t_demand (totals res)) |}.

(** * inventory-optimization-workflow.ts: the baseline policy *)

Module Baseline.
Import Ieee.

(** The double that a decimal literal [num / den] denotes. *)
Definition literal (num den : Z) : spec_float := SFdiv prec emax (of_Z num) (of_Z den).

(** The value of a finite double. *)
Definition valueOf (x : spec_float) : Q :=
  match x with
  | S754_finite s m e =>
      let v := (inject_Z (Zpos m) * Qpower 2 e)%Q in if s then (- v)%Q else v
  | _ => 0%Q
  end.

(** [Math.round] of a double; [None] for NaN and the infinities, which
    [Math.round] returns unchanged. *)
Definition roundDouble (x : spec_float) : option Z :=
  match x with
  | S754_zero _ => Some 0
  | S754_finite _ _ _ => Some (Math_round (valueOf x))
  | _ => None
  end.

(** [Math.round(daily * c)] for an integer [daily] and a literal [c]. *)
Definition roundTimes (daily : Z) (c : spec_float) : option Z :=
  roundDouble (SFmul prec emax (of_Z daily) c).

Definition ladder : list PricingRule :=
  [ {| daysToExpireAtMost := 2; priceMultiplier := 9 # 10 |};
    {| daysToExpireAtMost := 1; priceMultiplier := 3 # 4 |};
    {| daysToExpireAtMost := 0; priceMultiplier := 11 # 20 |} ].

(** The entry written for one item.  [None] where a product overflows to
    Infinity (a demand beyond 1e308), a quantity the policy type of this
    development does not hold. *)
Definition baselineEntry (it : ItemSpec) : option ItemPolicy :=
  let daily := Z.max 1 (Math_round (baseDailyDemand it)) in
  upTo ← roundTimes daily (literal 12 10);
  rp ← roundTimes daily (literal 7 10);
  fm ← (if canFreeze it then roundTimes daily (literal 15 100) else Some 0);
  Some {| p_sku := item_sku it;
          reorderPoint := inject_Z (Z.max 0 rp);
          orderUpTo := inject_Z (Z.max 1 upTo);
          pricing := ladder;
          donateDaysToExpireAtMost := 1;
          donateMaxFractionPerDay := 1 # 10;
          freezeDaysToExpireAtMost := if canFreeze it then 1 else 0;
          freezeMaxUnitsPerDay := inject_Z (if canFreeze it then Z.max 0 fm else 0) |}.

Fixpoint baselineEntries (items : list ItemSpec) (perSku : gmap Sku ItemPolicy)
    : option (gmap Sku ItemPolicy) :=
  match items with
  | [] => Some perSku
  | it :: rest =>
      e ← baselineEntry it;
      baselineEntries rest (<[item_sku it := e]> perSku)
  end.

Definition buildBaselinePolicy (items : list ItemSpec) (id : string)
    : option InventoryPolicy :=
  perSku ← baselineEntries items ∅;
  Some {| policy_id := id; policy_name := "Baseline policy (heuristic)";
          perSku := perSku |}.

End Baseline.

(** * Properties of the generator *)

Module RngFacts.
Import Rng.

Lemma toUint32_range z : 0 <= toUint32 z < 4294967296.
Proof. unfold toUint32. apply Z.mod_pos_bound. lia. Qed.

Lemma next_unit_interval t : (0 <= fst (next t) /\ fst (next t) < 1)%Q.
Proof.
  unfold next, next_bits. cbn [fst].
  match goal with |- context [toUint32 ?x] => generalize (toUint32_range x); generalize (toUint32 x) end.
  intros r [Hlo Hhi]. unfold Qdiv, Qmult, Qinv, Qle, Qlt, inject_Z. cbn. lia.
Qed.

Lemma Qltb_lt a b : Qltb a b = true <-> (a < b)%Q.
Proof.
  unfold Qltb. rewrite negb_true_iff. split.
  - intros H. apply Qnot_le_lt. intros Hle. apply Qle_bool_iff in Hle. congruence.
  - intros H. destruct (Qle_bool b a) eqn:E; [|reflexivity].
    apply Qle_bool_iff in E. exfalso. exact (Qlt_not_le _ _ H E).
Qed.





End RngFacts.

(** * Properties of the ledger operations *)

Definition nonneg (batches : list InventoryBatch) : Prop :=
  Forall (fun b => 0 <= qty b) batches.

(** The ledger invariant of the data model: no batch without stock. *)
Definition stocked (batches : list InventoryBatch) : Prop :=
  Forall (fun b => 0 < qty b) batches.

Definition qtyIf (sku : Sku) (st : BatchState) (b : InventoryBatch) : Z :=
  if is_of sku st b then qty b else 0.

Section LedgerFacts.

Lemma stocked_nonneg l : stocked l -> nonneg l.
Proof. apply List.Forall_impl. intros b Hb. lia. Qed.

Lemma BatchState_eqb_eq a b : BatchState_eqb a b = true <-> a = b.
Proof. destruct a, b; cbn; split; congruence. Qed.

Lemma is_of_true sku st b :
  is_of sku st b = true <-> b_sku b = sku /\ b_state b = st.
Proof.
  unfold is_of. rewrite andb_true_iff, String.eqb_eq, BatchState_eqb_eq. tauto.
Qed.

Lemma is_of_other sku st sku' st' b :
  (sku', st') <> (sku, st) -> is_of sku st b = true -> is_of sku' st' b = false.
Proof.
  intros Hne H. apply is_of_true in H as [Hs Ht].
  destruct (is_of sku' st' b) eqn:E; [|reflexivity].
  apply is_of_true in E as [Hs' Ht']. exfalso. apply Hne. congruence.
Qed.

Lemma is_of_set_qty sku st b q : is_of sku st (set_qty b q) = is_of sku st b.
Proof. reflexivity. Qed.

Lemma sumQty_acc sku st l : forall acc,
  fold_left (fun s b => if is_of sku st b then s + qty b else s) l acc
  = acc + sumQty l sku st.
Proof.
  unfold sumQty. induction l as [|b l IH]; intros acc; cbn [fold_left].
  - lia.
  - rewrite IH, (IH (if is_of sku st b then 0 + qty b else 0)).
    destruct (is_of sku st b); lia.
Qed.

Lemma sumQty_nil sku st : sumQty [] sku st = 0.
Proof. reflexivity. Qed.

Lemma sumQty_cons sku st b l :
  sumQty (b :: l) sku st = qtyIf sku st b + sumQty l sku st.
Proof.
  unfold sumQty at 1. cbn [fold_left]. rewrite sumQty_acc. unfold qtyIf.
  destruct (is_of sku st b); lia.
Qed.

Lemma sumQty_app sku st l1 l2 :
  sumQty (l1 ++ l2) sku st = sumQty l1 sku st + sumQty l2 sku st.
Proof.
  induction l1 as [|b l1 IH]; cbn [app].
  - rewrite sumQty_nil. lia.
  - rewrite !sumQty_cons, IH. lia.
Qed.

Lemma sumQty_perm sku st l l' :
  Permutation l l' -> sumQty l sku st = sumQty l' sku st.
Proof.
  induction 1; rewrite ?sumQty_cons in *; lia.
Qed.

Lemma sumQty_nonneg sku st l : nonneg l -> 0 <= sumQty l sku st.
Proof.
  induction 1 as [|b l Hb _ IH]; [rewrite sumQty_nil; lia|].
  rewrite sumQty_cons. unfold qtyIf. destruct (is_of sku st b); lia.
Qed.

(** *** sortFifo *)

Lemma insertFifo_perm x l : Permutation (insertFifo x l) (x :: l).
Proof.
  induction l as [|y l IH]; cbn [insertFifo]; [reflexivity|].
  destruct (daysToExpire x <=? daysToExpire y); [reflexivity|].
  rewrite IH. apply perm_swap.
Qed.

Lemma sortFifo_perm l : Permutation (sortFifo l) l.
Proof.
  induction l as [|b l IH]; cbn [sortFifo]; [reflexivity|].
  rewrite insertFifo_perm. by constructor.
Qed.

Definition byExpiry (a b : InventoryBatch) : Prop := daysToExpire a <= daysToExpire b.

Lemma insertFifo_sorted x l :
  StronglySorted byExpiry l -> StronglySorted byExpiry (insertFifo x l).
Proof.
  induction 1 as [|y l Hs IH Hall]; cbn [insertFifo].
  - repeat constructor.
  - destruct (daysToExpire x <=? daysToExpire y) eqn:E.
    + apply Z.leb_le in E. constructor; [by constructor|].
      constructor; [exact E|]. eapply List.Forall_impl; [|exact Hall].
      intros z Hz. unfold byExpiry in *. lia.
    + apply Z.leb_gt in E. constructor; [exact IH|].
      rewrite (insertFifo_perm x l). constructor; [unfold byExpiry; lia | exact Hall].
Qed.

Lemma sortFifo_sorted l : StronglySorted byExpiry (sortFifo l).
Proof.
  induction l as [|b l IH]; cbn [sortFifo]; [constructor|].
  by apply insertFifo_sorted.
Qed.

Lemma sumQty_sortFifo sku st l : sumQty (sortFifo l) sku st = sumQty l sku st.
Proof. apply sumQty_perm, sortFifo_perm. Qed.

Lemma nonneg_sortFifo l : nonneg l -> nonneg (sortFifo l).
Proof. unfold nonneg. by rewrite sortFifo_perm. Qed.

Lemma stocked_sortFifo l : stocked l -> stocked (sortFifo l).
Proof. unfold stocked. by rewrite sortFifo_perm. Qed.

(** *** pruneEmpty *)

Lemma pruneEmpty_stocked l : stocked (pruneEmpty l).
Proof.
  unfold stocked, pruneEmpty. apply List.Forall_forall. intros b Hb.
  apply List.filter_In in Hb as [_ Hb]. by apply Z.ltb_lt in Hb.
Qed.

Lemma sumQty_pruneEmpty sku st l :
  nonneg l -> sumQty (pruneEmpty l) sku st = sumQty l sku st.
Proof.
  induction 1 as [|b l Hb _ IH]; [reflexivity|].
  cbn [pruneEmpty List.filter]. fold (pruneEmpty l).
  destruct (0 <? qty b) eqn:E; rewrite ?sumQty_cons, IH; [reflexivity|].
  apply Z.ltb_ge in E. unfold qtyIf. destruct (is_of sku st b); lia.
Qed.

Lemma pruneEmpty_id l : stocked l -> pruneEmpty l = l.
Proof.
  induction 1 as [|b l Hb _ IH]; [reflexivity|].
  cbn [pruneEmpty List.filter]. fold (pruneEmpty l).
  apply Z.ltb_lt in Hb. by rewrite Hb, IH.
Qed.

End LedgerFacts.

(** *** takeFromBatches *)

(** [b'] is the batch [b] after some of its stock was taken. *)
Definition drawnFrom (b b' : InventoryBatch) : Prop :=
  b_sku b' = b_sku b /\ b_state b' = b_state b
  /\ daysToExpire b' = daysToExpire b /\ 0 <= qty b' <= qty b.

Lemma drawnFrom_refl b : 0 <= qty b -> drawnFrom b b.
Proof. intros H. unfold drawnFrom. repeat split; lia. Qed.

Lemma drawnFrom_all_refl l : nonneg l -> Forall2 drawnFrom l l.
Proof.
  induction 1 as [|b l Hb _ IH]; constructor; [by apply drawnFrom_refl | exact IH].
Qed.

Section TakeFacts.
Variables (sku : Sku) (st : BatchState).

Lemma take_loop_spec l : forall remaining taken,
  nonneg l ->
  exists l' taken',
    take_loop sku st l remaining taken = (l', taken')
    /\ taken' = taken + Z.min (Z.max 0 remaining) (sumQty l sku st)
    /\ sumQty l' sku st = sumQty l sku st - (taken' - taken)
    /\ (forall sku' st', (sku', st') <> (sku, st) ->
          sumQty l' sku' st' = sumQty l sku' st')
    /\ nonneg l'
    /\ Forall2 drawnFrom l l'.
Proof.
  induction l as [|b l IH]; intros remaining taken Hnn.
  - exists [], taken. rewrite sumQty_nil.
    repeat split; try constructor; try reflexivity; lia.
  - inversion Hnn as [|? ? Hb Hl]; subst.
    pose proof (sumQty_nonneg sku st l Hl) as Hsum.
    pose proof (drawnFrom_refl b Hb) as Hsame.
    pose proof (drawnFrom_all_refl _ Hnn) as Hrefl.
    cbn [take_loop]. destruct (remaining <=? 0) eqn:Er.
    { apply Z.leb_le in Er. exists (b :: l), taken.
      pose proof (sumQty_nonneg sku st (b :: l) Hnn).
      repeat split; try assumption; lia. }
    apply Z.leb_gt in Er.
    destruct (is_of sku st b) eqn:Eb; cbn [negb].
    + destruct (Z.min (qty b) remaining <=? 0) eqn:Eq.
      * apply Z.leb_le in Eq. assert (qty b = 0) by lia.
        destruct (IH remaining taken Hl) as (l' & t' & -> & Ht & Hs & Ho & Hn & Hf).
        exists (b :: l'), t'. rewrite !sumQty_cons. unfold qtyIf. rewrite Eb.
        repeat split; try lia.
        -- intros sku' st' Hne. rewrite !sumQty_cons, (Ho _ _ Hne). reflexivity.
        -- by constructor.
        -- constructor; [exact Hsame | exact Hf].
      * apply Z.leb_gt in Eq.
        destruct (IH (remaining - Z.min (qty b) remaining)
                     (taken + Z.min (qty b) remaining) Hl)
          as (l' & t' & -> & Ht & Hs & Ho & Hn & Hf).
        exists (set_qty b (qty b - Z.min (qty b) remaining) :: l'), t'.
        rewrite !sumQty_cons. unfold qtyIf. rewrite is_of_set_qty, Eb. cbn [qty set_qty].
        repeat split; try lia.
        -- intros sku' st' Hne. rewrite !sumQty_cons, (Ho _ _ Hne). unfold qtyIf.
           rewrite is_of_set_qty, (is_of_other _ _ _ _ _ Hne Eb). reflexivity.
        -- constructor; [cbn; lia | exact Hn].
        -- constructor; [|exact Hf]. unfold drawnFrom. cbn. repeat split; lia.
    + destruct (IH remaining taken Hl) as (l' & t' & -> & Ht & Hs & Ho & Hn & Hf).
      exists (b :: l'), t'. rewrite !sumQty_cons. unfold qtyIf. rewrite Eb.
      repeat split; try lia.
      * intros sku' st' Hne. rewrite !sumQty_cons, (Ho _ _ Hne). reflexivity.
      * by constructor.
      * constructor; [exact Hsame | exact Hf].
Qed.

(** A batch loses stock only while something remains to be taken. *)
Lemma take_loop_drawn_remaining l : forall remaining taken l' taken' j b b',
  take_loop sku st l remaining taken = (l', taken') ->
  l !! j = Some b -> l' !! j = Some b' -> qty b' < qty b -> 0 < remaining.
Proof.
  intros remaining taken l' taken' j b b' Hrun Hj Hj' Hlt.
  destruct l as [|x l]; [discriminate|]. cbn [take_loop] in Hrun.
  destruct (remaining <=? 0) eqn:Er; [|by apply Z.leb_gt in Er].
  injection Hrun as <- <-. rewrite Hj in Hj'. injection Hj' as ->. lia.
Qed.

(** Only batches of the requested pool lose stock. *)
Lemma take_loop_drawn_is_of l : forall remaining taken l' taken' j b b',
  take_loop sku st l remaining taken = (l', taken') ->
  l !! j = Some b -> l' !! j = Some b' -> qty b' < qty b -> is_of sku st b = true.
Proof.
  induction l as [|x l IH]; intros remaining taken l' taken' j b b' Hrun Hj Hj' Hlt;
    [discriminate|].
  cbn [take_loop] in Hrun. destruct (remaining <=? 0).
  { injection Hrun as <- <-. rewrite Hj in Hj'. injection Hj' as ->. lia. }
  destruct (is_of sku st x) eqn:Ex; cbn [negb] in Hrun.
  - destruct (Z.min (qty x) remaining <=? 0).
    + destruct (take_loop sku st l remaining taken) as [r t] eqn:E.
      injection Hrun as <- <-. destruct j; cbn in Hj, Hj'.
      * injection Hj as <-. injection Hj' as <-. lia.
      * eapply IH; eauto.
    + destruct (take_loop sku st l _ _) as [r t] eqn:E.
      injection Hrun as <- <-. destruct j; cbn in Hj, Hj'.
      * by injection Hj as <-.
      * eapply IH; eauto.
  - destruct (take_loop sku st l remaining taken) as [r t] eqn:E.
    injection Hrun as <- <-. destruct j; cbn in Hj, Hj'.
    + injection Hj as <-. injection Hj' as <-. lia.
    + eapply IH; eauto.
Qed.

(** First in, first out along the array order: when a later batch has lost
    stock, every earlier batch of the pool is empty. *)
Lemma take_loop_fifo l : forall remaining taken l' taken' i j bi bj bi' bj',
  stocked l ->
  take_loop sku st l remaining taken = (l', taken') ->
  (i < j)%nat ->
  l !! i = Some bi -> l !! j = Some bj ->
  l' !! i = Some bi' -> l' !! j = Some bj' ->
  is_of sku st bi = true -> qty bj' < qty bj ->
  qty bi' = 0.
Proof.
  induction l as [|x l IH];
    intros remaining taken l' taken' i j bi bj bi' bj' Hst Hrun Hij Hi Hj Hi' Hj' Hof Hlt;
    [discriminate|].
  inversion Hst as [|? ? Hx Hl]; subst.
  cbn [take_loop] in Hrun. destruct (remaining <=? 0) eqn:Er.
  { injection Hrun as <- <-. rewrite Hj in Hj'. injection Hj' as ->. lia. }
  apply Z.leb_gt in Er.
  destruct j as [|j]; [lia|]. cbn in Hj.
  destruct (is_of sku st x) eqn:Ex; cbn [negb] in Hrun.
  - destruct (Z.min (qty x) remaining <=? 0) eqn:Eq.
    { apply Z.leb_le in Eq. lia. }
    destruct (take_loop sku st l _ _) as [r t] eqn:E.
    injection Hrun as <- <-. cbn in Hj'.
    destruct i as [|i]; cbn in Hi, Hi'.
    + injection Hi as <-. injection Hi' as <-. cbn [qty set_qty].
      pose proof (take_loop_drawn_remaining _ _ _ _ _ _ _ _ E Hj Hj' Hlt). lia.
    + eapply (IH _ _ _ _ i j); eauto. lia.
  - destruct (take_loop sku st l remaining taken) as [r t] eqn:E.
    injection Hrun as <- <-. cbn in Hj'.
    destruct i as [|i]; cbn in Hi, Hi'.
    + injection Hi as <-. congruence.
    + eapply (IH _ _ _ _ i j); eauto. lia.
Qed.

End TakeFacts.

Lemma sorted_lookup_lt (l : list InventoryBatch) : forall i j bi bj,
  StronglySorted byExpiry l ->
  l !! i = Some bi -> l !! j = Some bj ->
  daysToExpire bi < daysToExpire bj -> (i < j)%nat.
Proof.
  induction l as [|x l IH]; intros i j bi bj Hs Hi Hj Hlt; [discriminate|].
  inversion Hs as [|? ? Hs' Hall]; subst.
  destruct i as [|i], j as [|j]; cbn in Hi, Hj.
  - injection Hi as <-. injection Hj as <-. lia.
  - lia.
  - injection Hj as <-. exfalso.
    apply list_elem_of_lookup_2 in Hi. rewrite List.Forall_forall in Hall.
    apply list_elem_of_In in Hi. specialize (Hall _ Hi). unfold byExpiry in Hall. lia.
  - apply -> Nat.succ_lt_mono. eapply IH; eauto.
Qed.

(** What [takeFromBatches] does to the sums, for any request. *)
Lemma takeFromBatches_sums batches sku st qtyWanted :
  nonneg batches ->
  let left := fst (takeFromBatches batches sku st qtyWanted) in
  let taken := snd (takeFromBatches batches sku st qtyWanted) in
  taken = Z.min (Z.max 0 qtyWanted) (sumQty batches sku st)
  /\ sumQty left sku st = sumQty batches sku st - taken
  /\ (forall sku' st', (sku', st') <> (sku, st) ->
        sumQty left sku' st' = sumQty batches sku' st')
  /\ nonneg left
  /\ (0 < qtyWanted \/ stocked batches -> stocked left).
Proof.
  intros Hnn. unfold takeFromBatches. pose proof (sumQty_nonneg sku st batches Hnn) as Hs.
  destruct (qtyWanted <=? 0) eqn:Ew; cbn zeta.
  - apply Z.leb_le in Ew. cbn [fst snd]. repeat split; try lia; try assumption.
    intros [H|H]; [lia | exact H].
  - apply Z.leb_gt in Ew.
    destruct (take_loop_spec sku st (sortFifo batches) qtyWanted 0 (nonneg_sortFifo _ Hnn))
      as (l' & t' & -> & Ht & Hsum & Ho & Hn & _).
    cbn [fst snd]. rewrite sumQty_sortFifo in *.
    repeat split.
    + lia.
    + rewrite sumQty_pruneEmpty by assumption. lia.
    + intros sku' st' Hne. rewrite sumQty_pruneEmpty by assumption.
      rewrite (Ho _ _ Hne). apply sumQty_sortFifo.
    + apply stocked_nonneg, pruneEmpty_stocked.
    + intros _. apply pruneEmpty_stocked.
Qed.

(** C9.  On a ledger that satisfies the data model's invariant (every batch
    holds stock) and for a requested amount >= 0, the take operation removes
    exactly min(requested, available) units of the (sku, state) pool and
    returns that amount (<= requested); other pools keep their totals; no
    batch without stock is left; and consumption follows expiry order: in the
    array sorted by [daysToExpire], whenever a batch of the pool has lost
    units, every batch of the pool with a smaller [daysToExpire] is left with
    no stock (and is pruned). *)
Theorem takeFromBatches_fifo_exact batches sku st qtyWanted :
  stocked batches -> 0 <= qtyWanted ->
  let sorted := sortFifo batches in
  let drawn := fst (take_loop sku st sorted qtyWanted 0) in
  let left := fst (takeFromBatches batches sku st qtyWanted) in
  let taken := snd (takeFromBatches batches sku st qtyWanted) in
  taken = Z.min qtyWanted (sumQty batches sku st)
  /\ taken <= qtyWanted
  /\ sumQty left sku st = sumQty batches sku st - taken
  /\ (forall sku' st', (sku', st') <> (sku, st) ->
        sumQty left sku' st' = sumQty batches sku' st')
  /\ stocked left
  /\ Permutation sorted batches
  /\ StronglySorted byExpiry sorted
  /\ Forall2 drawnFrom sorted drawn
  /\ Permutation left (pruneEmpty drawn)
  /\ (forall i j bi bj bi' bj',
        sorted !! i = Some bi -> sorted !! j = Some bj ->
        drawn !! i = Some bi' -> drawn !! j = Some bj' ->
        is_of sku st bi = true -> is_of sku st bj = true ->
        daysToExpire bi < daysToExpire bj ->
        qty bj' < qty bj -> qty bi' = 0).
Proof.
  intros Hst Hw sorted drawn left taken.
  pose proof (stocked_nonneg _ Hst) as Hnn.
  destruct (takeFromBatches_sums batches sku st qtyWanted Hnn) as (Ht & Hsum & Ho & _ & Hstk).
  fold left taken in Ht, Hsum, Ho, Hstk.
  destruct (take_loop_spec sku st sorted qtyWanted 0 (nonneg_sortFifo _ Hnn))
    as (l' & t' & Hrun & _ & _ & _ & _ & Hdrawn).
  assert (Hd : drawn = l') by (unfold drawn; rewrite Hrun; reflexivity).
  split; [lia|]. split; [lia|]. split; [exact Hsum|]. split; [exact Ho|].
  split; [apply Hstk; by right|]. split; [apply sortFifo_perm|].
  split; [apply sortFifo_sorted|]. split; [by rewrite Hd|]. split.
  - unfold left, takeFromBatches. destruct (qtyWanted <=? 0) eqn:Ew; cbn zeta.
    + apply Z.leb_le in Ew. assert (qtyWanted = 0) by lia. subst qtyWanted.
      cbn [fst]. unfold drawn. destruct sorted as [|x s] eqn:Es.
      * cbn. rewrite <- (sortFifo_perm batches). fold sorted. by rewrite Es.
      * cbn [take_loop Z.leb Z.compare fst]. rewrite pruneEmpty_id.
        -- rewrite <- Es. symmetry. apply sortFifo_perm.
        -- rewrite <- Es. by apply stocked_sortFifo.
    + fold sorted. rewrite Hrun. cbn [fst]. by rewrite Hd.
  - intros i j bi bj bi' bj' Hi Hj Hi' Hj' Hbi _ Hlt Hdr.
    rewrite Hd in Hi', Hj'.
    apply (take_loop_fifo sku st sorted qtyWanted 0 l' t' i j bi bj bi' bj');
      try assumption.
    + by apply stocked_sortFifo.
    + apply (sorted_lookup_lt sorted i j bi bj); try assumption.
      apply sortFifo_sorted.
Qed.

Definition sampleLedger : list InventoryBatch :=
  [ {| b_sku := "milk"; qty := 5; daysToExpire := 3; b_state := fresh |};
    {| b_sku := "kale"; qty := 7; daysToExpire := 1; b_state := fresh |};
    {| b_sku := "milk"; qty := 4; daysToExpire := 1; b_state := fresh |};
    {| b_sku := "milk"; qty := 2; daysToExpire := 9; b_state := frozen |} ].

Lemma takeFromBatches_fifo_exact_witness :
  snd (takeFromBatches sampleLedger "milk" fresh 6)
  = Z.min 6 (sumQty sampleLedger "milk" fresh).
Proof.
  refine (proj1 (takeFromBatches_fifo_exact sampleLedger "milk" fresh 6 _ _)).
  - unfold stocked, sampleLedger. repeat constructor.
  - discriminate.
Defined.

Example takeFromBatches_sample :
  takeFromBatches sampleLedger "milk" fresh 6
  = ([ {| b_sku := "kale"; qty := 7; daysToExpire := 1; b_state := fresh |};
       {| b_sku := "milk"; qty := 3; daysToExpire := 3; b_state := fresh |};
       {| b_sku := "milk"; qty := 2; daysToExpire := 9; b_state := frozen |} ], 6).
Proof. reflexivity. Qed.

(** * Stock flows of the pipeline stages *)

(** [flows sku inv inv' dFresh dFrozen]: from ledger [inv] to [inv'] the two
    pools of [sku] change by [dFresh] and [dFrozen], every other SKU keeps
    its totals, and no quantity is negative. *)
Definition flows (sku : Sku) (inv inv' : list InventoryBatch) (dFresh dFrozen : Z) : Prop :=
  nonneg inv'
  /\ sumQty inv' sku fresh = sumQty inv sku fresh + dFresh
  /\ sumQty inv' sku frozen = sumQty inv sku frozen + dFrozen
  /\ (forall sku' st, sku' <> sku -> sumQty inv' sku' st = sumQty inv sku' st).

Section StageFacts.

Lemma flows_refl sku inv : nonneg inv -> flows sku inv inv 0 0.
Proof. intros H. unfold flows. repeat split; try assumption; lia. Qed.

Lemma flows_trans sku a b c x y x' y' :
  flows sku a b x y -> flows sku b c x' y' -> flows sku a c (x + x') (y + y').
Proof.
  intros (_ & H1 & H2 & H3) (Hn & H1' & H2' & H3'). unfold flows.
  repeat split; try assumption; try lia.
  intros sku' st Hne. rewrite (H3' _ _ Hne). by apply H3.
Qed.

Lemma flows_eq sku a b x y x' y' :
  flows sku a b x y -> x = x' -> y = y' -> flows sku a b x' y'.
Proof. by intros H <- <-. Qed.

Lemma pool_neq_state (sku : Sku) : (sku, frozen) <> (sku, fresh).
Proof. congruence. Qed.

Lemma pool_neq_state' (sku : Sku) : (sku, fresh) <> (sku, frozen).
Proof. congruence. Qed.

Lemma pool_neq_sku (sku sku' : Sku) (st st' : BatchState) :
  sku' <> sku -> (sku', st') <> (sku, st).
Proof. congruence. Qed.

Lemma take_fresh_flows sku inv w :
  nonneg inv ->
  flows sku inv (fst (takeFromBatches inv sku fresh w))
        (- snd (takeFromBatches inv sku fresh w)) 0.
Proof.
  intros Hnn. destruct (takeFromBatches_sums inv sku fresh w Hnn) as (_ & Hs & Ho & Hn & _).
  unfold flows. repeat split; try assumption; try lia.
  - rewrite (Ho sku frozen (pool_neq_state sku)). lia.
  - intros sku' st Hne. apply Ho. by apply pool_neq_sku.
Qed.

Lemma take_frozen_flows sku inv w :
  nonneg inv ->
  flows sku inv (fst (takeFromBatches inv sku frozen w))
        0 (- snd (takeFromBatches inv sku frozen w)).
Proof.
  intros Hnn. destruct (takeFromBatches_sums inv sku frozen w Hnn) as (_ & Hs & Ho & Hn & _).
  unfold flows. repeat split; try assumption; try lia.
  - rewrite (Ho sku fresh (pool_neq_state' sku)). lia.
  - intros sku' st Hne. apply Ho. by apply pool_neq_sku.
Qed.

(** *** Freeze *)

Lemma frozenBatch_qtyIf item q sku st :
  qtyIf sku st (frozenBatch item q)
  = if decide ((sku, st) = (item_sku item, frozen)) then q else 0.
Proof.
  unfold qtyIf. destruct (is_of sku st (frozenBatch item q)) eqn:E.
  - apply is_of_true in E as [E1 E2]. cbn in E1, E2. subst.
    by rewrite decide_True.
  - rewrite decide_False; [reflexivity|]. intros [= -> ->].
    assert (is_of (item_sku item) frozen (frozenBatch item q) = true)
      by (by apply is_of_true). congruence.
Qed.

Lemma freeze_loop_spec item p l : forall cap moved pushed,
  nonneg l ->
  exists l' moved' new,
    freeze_loop item p l cap moved pushed = (l', moved', pushed ++ new)
    /\ moved <= moved'
    /\ nonneg l' /\ nonneg new
    /\ sumQty l' (item_sku item) fresh = sumQty l (item_sku item) fresh - (moved' - moved)
    /\ (forall sku st, (sku, st) <> (item_sku item, fresh) ->
          sumQty l' sku st = sumQty l sku st)
    /\ sumQty new (item_sku item) frozen = moved' - moved
    /\ (forall sku st, (sku, st) <> (item_sku item, frozen) -> sumQty new sku st = 0).
Proof.
  induction l as [|b l IH]; intros cap moved pushed Hnn.
  - exists [], moved, []. cbn [freeze_loop]. rewrite app_nil_r, !sumQty_nil.
    repeat split; try constructor; try reflexivity; lia.
  - inversion Hnn as [|? ? Hb Hl]; subst.
    cbn [freeze_loop]. destruct (cap <=? 0) eqn:Ec.
    { exists (b :: l), moved, []. rewrite app_nil_r, !sumQty_nil.
      repeat split; try assumption; try constructor; try reflexivity; lia. }
    assert (Hskip : exists l' moved' new,
               (let '(rest', m, ps) := freeze_loop item p l cap moved pushed in
                (b :: rest', m, ps)) = (l', moved', pushed ++ new)
               /\ moved <= moved' /\ nonneg l' /\ nonneg new
               /\ sumQty l' (item_sku item) fresh
                  = sumQty (b :: l) (item_sku item) fresh - (moved' - moved)
               /\ (forall sku st, (sku, st) <> (item_sku item, fresh) ->
                     sumQty l' sku st = sumQty (b :: l) sku st)
               /\ sumQty new (item_sku item) frozen = moved' - moved
               /\ (forall sku st, (sku, st) <> (item_sku item, frozen) ->
                     sumQty new sku st = 0)).
    { destruct (IH cap moved pushed Hl) as (l' & m' & new & -> & Hm & Hn & Hnew & Hs & Ho & Hf & Hfo).
      exists (b :: l'), m', new. rewrite !sumQty_cons.
      repeat split; try assumption; try lia.
      - by constructor.
      - intros sku st Hne. rewrite !sumQty_cons, (Ho _ _ Hne). reflexivity. }
    destruct (negb (is_of (item_sku item) fresh b)
              || Qltb (freezeDaysToExpireAtMost p) (inject_Z (daysToExpire b))) eqn:Eskip;
      [exact Hskip|].
    destruct (Z.min (qty b) cap <=? 0) eqn:Eq; [exact Hskip|].
    clear Hskip. apply Z.leb_gt in Eq. apply Z.leb_gt in Ec.
    apply orb_false_iff in Eskip as [Eof _]. apply negb_false_iff in Eof.
    set (q := Z.min (qty b) cap) in *.
    destruct (IH (cap - q) (moved + q) (pushed ++ [frozenBatch item q]) Hl)
      as (l' & m' & new & -> & Hm & Hn & Hnew & Hs & Ho & Hf & Hfo).
    exists (set_qty b (qty b - q) :: l'), m', (frozenBatch item q :: new).
    rewrite <- app_assoc. cbn [app]. rewrite !sumQty_cons.
    unfold qtyIf at 1 2. rewrite is_of_set_qty, Eof. cbn [qty set_qty].
    repeat split; try lia.
    + constructor; [cbn; lia | exact Hn].
    + constructor; [cbn; lia | exact Hnew].
    + intros sku st Hne. rewrite !sumQty_cons, (Ho _ _ Hne). unfold qtyIf.
      rewrite is_of_set_qty, (is_of_other _ _ _ _ _ Hne Eof). reflexivity.
    + rewrite frozenBatch_qtyIf, decide_True by reflexivity. lia.
    + intros sku st Hne. rewrite sumQty_cons, frozenBatch_qtyIf, decide_False by exact Hne.
      rewrite (Hfo _ _ Hne). reflexivity.
Qed.

Lemma freezeStage_flows item p inv :
  nonneg inv ->
  0 <= snd (freezeStage item p inv)
  /\ flows (item_sku item) inv (fst (freezeStage item p inv))
           (- snd (freezeStage item p inv)) (snd (freezeStage item p inv)).
Proof.
  intros Hnn. unfold freezeStage.
  destruct (canFreeze item && Qltb 0 (freezeMaxUnitsPerDay p)).
  2:{ cbn [fst snd]. split; [lia|]. by apply flows_refl. }
  destruct (freeze_loop_spec item p (sortFifo inv)
              (Z.max 0 (Math_floor (freezeMaxUnitsPerDay p))) 0 [] (nonneg_sortFifo _ Hnn))
    as (l' & m' & new & -> & Hm & Hn & Hnew & Hs & Ho & Hf & Hfo).
  cbn [fst snd app]. split; [lia|].
  assert (Hall : nonneg (l' ++ new)) by (by apply Forall_app).
  unfold flows. rewrite !sumQty_pruneEmpty by exact Hall.
  rewrite !sumQty_app, sumQty_sortFifo in *.
  split; [apply stocked_nonneg, pruneEmpty_stocked|].
  split; [|split].
  - rewrite Hs, (Hfo _ _ (pool_neq_state' _)). lia.
  - rewrite (Ho _ _ (pool_neq_state _)), Hf, sumQty_sortFifo. lia.
  - intros sku' st Hne. rewrite sumQty_pruneEmpty by exact Hall.
    rewrite sumQty_app, (Ho sku' st), (Hfo sku' st), sumQty_sortFifo;
      [lia | by apply pool_neq_sku | by apply pool_neq_sku].
Qed.

(** *** Donation *)

Lemma donateStage_flows item p inv :
  nonneg inv ->
  0 <= snd (donateStage item p inv)
  /\ flows (item_sku item) inv (fst (donateStage item p inv))
           (- snd (donateStage item p inv)) 0.
Proof.
  intros Hnn. unfold donateStage.
  destruct (Qltb 0 (donateMaxFractionPerDay p)).
  2:{ cbn [fst snd]. split; [lia|]. by apply flows_refl. }
  cbn zeta.
  match goal with |- context [takeFromBatches ?l ?s ?t ?w] =>
    pose proof (take_fresh_flows s l w (nonneg_sortFifo _ Hnn)) as Hf;
    destruct (takeFromBatches_sums l s t w (nonneg_sortFifo _ Hnn)) as (Ht & _)
  end.
  cbn zeta in Ht. split.
  - rewrite Ht. pose proof (sumQty_nonneg (item_sku item) fresh _ (nonneg_sortFifo _ Hnn)). lia.
  - destruct Hf as (H1 & H2 & H3 & H4). unfold flows.
    rewrite !sumQty_sortFifo in *. repeat split; try assumption.
    intros sku' st Hne. rewrite (H4 _ _ Hne). apply sumQty_sortFifo.
Qed.

(** *** Aging and waste *)

Lemma expired_qtyIf sku sku' st b :
  sku' <> sku -> expired sku b = true -> qtyIf sku' st b = 0.
Proof.
  intros Hne He. unfold expired in He. apply andb_true_iff in He as [He _].
  apply String.eqb_eq in He. unfold qtyIf.
  destruct (is_of sku' st b) eqn:E; [|reflexivity].
  apply is_of_true in E as [E _]. congruence.
Qed.

Lemma ageBatch_qtyIf sku sku' st b : qtyIf sku' st (ageBatch sku b) = qtyIf sku' st b.
Proof. unfold ageBatch. by destruct (String.eqb (b_sku b) sku). Qed.

Lemma sumQty_aged sku sku' st inv :
  sumQty (List.map (ageBatch sku) inv) sku' st = sumQty inv sku' st.
Proof.
  induction inv as [|b inv IH]; [reflexivity|].
  cbn [List.map]. by rewrite !sumQty_cons, ageBatch_qtyIf, IH.
Qed.

Lemma sumQty_unexpired sku st aged :
  sumQty aged sku st
  = sumQty (List.filter (fun b => negb (expired sku b)) aged) sku st
    + wastedQtyIn sku st aged.
Proof.
  induction aged as [|b l IH]; [reflexivity|].
  cbn [List.filter wastedQtyIn fold_right]. fold (wastedQtyIn sku st l).
  destruct (expired sku b) eqn:E; cbn [negb andb]; rewrite ?sumQty_cons, IH.
  - unfold qtyIf, is_of. unfold expired in E. apply andb_true_iff in E as [-> _].
    cbn [andb]. destruct (BatchState_eqb (b_state b) st); lia.
  - lia.
Qed.

Lemma sumQty_unexpired_other sku sku' st aged :
  sku' <> sku ->
  sumQty (List.filter (fun b => negb (expired sku b)) aged) sku' st = sumQty aged sku' st.
Proof.
  intros Hne. induction aged as [|b l IH]; [reflexivity|].
  cbn [List.filter]. destruct (expired sku b) eqn:E; cbn [negb]; rewrite ?sumQty_cons, IH.
  - rewrite (expired_qtyIf _ _ _ _ Hne E). lia.
  - reflexivity.
Qed.

Lemma wastedQty_split sku aged :
  wastedQty sku aged = wastedQtyIn sku fresh aged + wastedQtyIn sku frozen aged.
Proof.
  induction aged as [|b l IH]; [reflexivity|].
  cbn [wastedQty wastedQtyIn fold_right].
  fold (wastedQty sku l) (wastedQtyIn sku fresh l) (wastedQtyIn sku frozen l).
  destruct (expired sku b); cbn [andb]; [|exact IH].
  destruct (b_state b); cbn [BatchState_eqb]; lia.
Qed.

Lemma wastedQtyIn_nonneg sku st aged : nonneg aged -> 0 <= wastedQtyIn sku st aged.
Proof.
  induction 1 as [|b l Hb _ IH]; cbn [wastedQtyIn fold_right]; [lia|].
  fold (wastedQtyIn sku st l).
  destruct (expired sku b && BatchState_eqb (b_state b) st); lia.
Qed.

Lemma nonneg_aged sku inv : nonneg inv -> nonneg (List.map (ageBatch sku) inv).
Proof.
  induction 1 as [|b l Hb _ IH]; cbn [List.map]; constructor; [|exact IH].
  unfold ageBatch. by destruct (String.eqb (b_sku b) sku).
Qed.

Lemma ageStage_flows sku inv :
  nonneg inv ->
  flows sku inv (fst (ageStage sku inv))
        (- wastedQtyIn sku fresh (List.map (ageBatch sku) inv))
        (- wastedQtyIn sku frozen (List.map (ageBatch sku) inv)).
Proof.
  intros Hnn. unfold ageStage. cbn [fst]. unfold flows.
  pose proof (nonneg_aged sku inv Hnn) as Ha.
  split.
  { unfold nonneg in *. rewrite List.Forall_forall in *. intros b Hb.
    apply List.filter_In in Hb as [Hb _]. by apply Ha. }
  split; [|split].
  - pose proof (sumQty_unexpired sku fresh (List.map (ageBatch sku) inv)) as H.
    rewrite sumQty_aged in H. lia.
  - pose proof (sumQty_unexpired sku frozen (List.map (ageBatch sku) inv)) as H.
    rewrite sumQty_aged in H. lia.
  - intros sku' st Hne. rewrite sumQty_unexpired_other by exact Hne. apply sumQty_aged.
Qed.

End StageFacts.

(** * The per-SKU pipeline *)

Lemma Qleb_false a b : Qleb a b = false -> (b < a)%Q.
Proof.
  unfold Qleb. intros H. apply Qnot_le_lt. intros Hle.
  apply Qle_bool_iff in Hle. congruence.
Qed.

Lemma Qmaxb_ge_l a b : (a <= Qmaxb a b)%Q.
Proof.
  unfold Qmaxb. destruct (Qleb a b) eqn:E; [by apply Qle_bool_iff in E | apply Qle_refl].
Qed.

Lemma Qmaxb_le a b c : (a <= c)%Q -> (b <= c)%Q -> (Qmaxb a b <= c)%Q.
Proof. unfold Qmaxb. by destruct (Qleb a b). Qed.

Lemma Qminb_le_l a b : (Qminb a b <= a)%Q.
Proof.
  unfold Qminb. destruct (Qleb a b) eqn:E; [apply Qle_refl|].
  apply Qlt_le_weak. by apply Qleb_false.
Qed.

Lemma clamp01_range x : (0 <= clamp01 x /\ clamp01 x <= 1)%Q.
Proof.
  unfold clamp01. split; [apply Qmaxb_ge_l|].
  apply Qmaxb_le; [discriminate | apply Qminb_le_l].
Qed.

Lemma inject_Z_nonneg n : 0 <= n -> (0 <= inject_Z n)%Q.
Proof. intros H. unfold Qle, inject_Z. cbn. lia. Qed.

Lemma floor_fraction_range (n : Z) (r : Q) :
  0 <= n -> (0 <= r)%Q -> (r <= 1)%Q ->
  0 <= Math_floor (inject_Z n * r) <= n.
Proof.
  intros Hn H0 H1. unfold Math_floor. pose proof (inject_Z_nonneg n Hn) as Hq. split.
  - change 0 with (Qfloor 0). apply Qfloor_resp_le.
    by apply Qmult_le_0_compat.
  - rewrite <- (Qfloor_Z n) at 2. apply Qfloor_resp_le.
    assert (H : (inject_Z n * r <= inject_Z n * 1)%Q).
    { rewrite (Qmult_comm (inject_Z n) r), (Qmult_comm (inject_Z n) 1).
      by apply Qmult_le_compat_r. }
    by rewrite Qmult_1_r in H.
Qed.

Section PipelineFacts.
Variable pow : Q -> Q -> Q.
Variable boxMuller : Q -> Q -> Q.

Local Abbreviation run := (runSku pow boxMuller).

(** Conservation for one run of the pipeline, on a ledger without negative
    quantities. *)
Lemma runSku_flows config item p inv pending rng :
  nonneg inv ->
  let r := run config item p inv pending rng in
  let m := run_row r in
  let sku := item_sku item in
  nonneg (run_inventory r)
  /\ startingFresh m = sumQty inv sku fresh
  /\ startingFrozen m = sumQty inv sku frozen
  /\ startingFresh m
     = sumQty (run_inventory r) sku fresh
       + soldFresh m + donated m + frozenMoved m + run_lostFresh r + run_wastedFresh r
  /\ startingFrozen m + frozenMoved m
     = sumQty (run_inventory r) sku frozen
       + soldFrozen m + run_lostFrozen r + run_wastedFrozen r
  /\ (forall sku' st, sku' <> sku ->
        sumQty (run_inventory r) sku' st = sumQty inv sku' st)
  /\ shrinkLost m = run_lostFresh r + run_lostFrozen r
  /\ wasted m = run_wastedFresh r + run_wastedFrozen r
  /\ 0 <= soldFresh m /\ 0 <= soldFrozen m /\ 0 <= donated m /\ 0 <= frozenMoved m
  /\ 0 <= run_lostFresh r /\ 0 <= run_lostFrozen r
  /\ 0 <= run_wastedFresh r /\ 0 <= run_wastedFrozen r.
Proof.
  intros Hnn. unfold runSku. cbv beta iota zeta.
  (* freeze *)
  destruct (freezeStage_flows item p inv Hnn) as [Hmoved F1].
  destruct (freezeStage item p inv) as [inv1 moved]. cbn [fst snd] in Hmoved, F1.
  cbv beta iota zeta.
  (* donate *)
  destruct (donateStage_flows item p inv1 (proj1 F1)) as [Hdon F2].
  destruct (donateStage item p inv1) as [inv2 don]. cbn [fst snd] in Hdon, F2.
  cbv beta iota zeta.
  destruct (applyPricing item p (pricingDays item inv2)) as [pr mult].
  cbv beta iota zeta.
  destruct (demandForDay pow boxMuller item mult rng (demandNoiseStdDev config)) as [dem rng'].
  cbv beta iota zeta.
  set (demandInt := Z.max 0 (Math_floor dem)).
  (* sell fresh *)
  pose proof (take_fresh_flows (item_sku item) inv2 demandInt (proj1 F2)) as F3.
  destruct (takeFromBatches_sums inv2 (item_sku item) fresh demandInt (proj1 F2)) as (Hsf & _).
  destruct (takeFromBatches inv2 (item_sku item) fresh demandInt) as [inv3 sFresh].
  cbn [fst snd] in F3, Hsf. cbv beta iota zeta.
  assert (HsF : 0 <= sFresh).
  { pose proof (sumQty_nonneg (item_sku item) fresh inv2 (proj1 F2)). lia. }
  (* sell frozen *)
  set (remainingDemand := Z.max 0 (demandInt - sFresh)).
  assert (F4 : exists inv4 sFrozen,
             (if 0 <? remainingDemand
              then takeFromBatches inv3 (item_sku item) frozen remainingDemand
              else (inv3, 0)) = (inv4, sFrozen)
             /\ 0 <= sFrozen /\ flows (item_sku item) inv3 inv4 0 (- sFrozen)).
  { destruct (0 <? remainingDemand).
    - pose proof (take_frozen_flows (item_sku item) inv3 remainingDemand (proj1 F3)) as F.
      destruct (takeFromBatches_sums inv3 (item_sku item) frozen remainingDemand (proj1 F3))
        as (Ht & _).
      destruct (takeFromBatches inv3 (item_sku item) frozen remainingDemand) as [i4 s4].
      cbn [fst snd] in F, Ht. exists i4, s4. split; [reflexivity|]. split; [|exact F].
      pose proof (sumQty_nonneg (item_sku item) frozen inv3 (proj1 F3)). lia.
    - exists inv3, 0. split; [reflexivity|]. split; [lia|]. apply flows_refl, (proj1 F3). }
  destruct F4 as (inv4 & sFrozen & -> & HsZ & F4). cbv beta iota zeta.
  (* shrink *)
  set (onHand := sumQty inv4 (item_sku item) fresh + sumQty inv4 (item_sku item) frozen).
  set (lost := Math_floor (inject_Z onHand * clamp01 (shrinkRate item))).
  assert (Hlost : 0 <= lost <= onHand).
  { apply floor_fraction_range; [|apply clamp01_range..].
    pose proof (sumQty_nonneg (item_sku item) fresh inv4 (proj1 F4)).
    pose proof (sumQty_nonneg (item_sku item) frozen inv4 (proj1 F4)). unfold onHand. lia. }
  assert (F5 : exists inv5 lF lZ,
             (if 0 <? lost then
                let '(inv1, lostFresh) := takeFromBatches inv4 (item_sku item) fresh lost in
                if 0 <? lost - lostFresh then
                  let '(inv2, t) :=
                    takeFromBatches inv1 (item_sku item) frozen (lost - lostFresh) in
                  (inv2, lostFresh, t)
                else (inv1, lostFresh, 0)
              else (inv4, 0, 0)) = (inv5, lF, lZ)
             /\ 0 <= lF /\ 0 <= lZ /\ lost = lF + lZ
             /\ flows (item_sku item) inv4 inv5 (- lF) (- lZ)).
  { destruct (0 <? lost) eqn:El.
    2:{ apply Z.ltb_ge in El. exists inv4, 0, 0. split; [reflexivity|].
        split; [lia|]. split; [lia|]. split; [lia|]. apply flows_refl, (proj1 F4). }
    apply Z.ltb_lt in El.
    pose proof (take_fresh_flows (item_sku item) inv4 lost (proj1 F4)) as Fa.
    destruct (takeFromBatches_sums inv4 (item_sku item) fresh lost (proj1 F4)) as (Hta & _).
    destruct (takeFromBatches inv4 (item_sku item) fresh lost) as [i5 lF].
    cbn [fst snd] in Fa, Hta.
    pose proof (sumQty_nonneg (item_sku item) fresh inv4 (proj1 F4)) as Hfr.
    pose proof (sumQty_nonneg (item_sku item) frozen inv4 (proj1 F4)) as Hfz.
    cbv zeta. destruct (0 <? lost - lF) eqn:Ez.
    - apply Z.ltb_lt in Ez.
      pose proof (take_frozen_flows (item_sku item) i5 (lost - lF) (proj1 Fa)) as Fb.
      destruct (takeFromBatches_sums i5 (item_sku item) frozen (lost - lF) (proj1 Fa))
        as (Htb & _).
      destruct (takeFromBatches i5 (item_sku item) frozen (lost - lF)) as [i6 lZ].
      cbn [fst snd] in Fb, Htb. exists i6, lF, lZ. split; [reflexivity|].
      pose proof Fa as Fa'. destruct Fa as (_ & Fa1 & Fa2 & _).
      assert (lZ = lost - lF) by (unfold onHand in Hlost; lia).
      split; [lia|]. split; [lia|]. split; [lia|].
      eapply flows_eq; [exact (flows_trans _ _ _ _ _ _ _ _ Fa' Fb) | lia | lia].
    - apply Z.ltb_ge in Ez. exists i5, lF, 0. split; [reflexivity|].
      split; [lia|]. split; [lia|]. split; [lia|]. exact Fa. }
  destruct F5 as (inv5 & lF & lZ & -> & HlF & HlZ & Hsplit & F5). cbv beta iota zeta.
  pose proof (ageStage_flows (item_sku item) inv5 (proj1 F5)) as F6.
  pose proof (wastedQty_split (item_sku item) (List.map (ageBatch (item_sku item)) inv5)) as Hw.
  pose proof (wastedQtyIn_nonneg (item_sku item) fresh _ (nonneg_aged (item_sku item) _ (proj1 F5))).
  pose proof (wastedQtyIn_nonneg (item_sku item) frozen _ (nonneg_aged (item_sku item) _ (proj1 F5))).
  unfold ageStage in *. cbn [fst] in F6. cbv zeta.
  cbn [run_row run_inventory run_lostFresh run_lostFrozen run_wastedFresh run_wastedFrozen
       startingFresh startingFrozen soldFresh soldFrozen donated frozenMoved shrinkLost wasted].
  destruct F1 as (_ & A1 & B1 & C1), F2 as (_ & A2 & B2 & C2), F3 as (_ & A3 & B3 & C3),
           F4 as (_ & A4 & B4 & C4), F5 as (_ & A5 & B5 & C5), F6 as (N6 & A6 & B6 & C6).
  split; [exact N6|]. split; [reflexivity|]. split; [reflexivity|].
  split; [lia|]. split; [lia|]. split.
  { intros sku' st Hne.
    rewrite (C6 _ _ Hne), (C5 _ _ Hne), (C4 _ _ Hne), (C3 _ _ Hne), (C2 _ _ Hne).
    by apply C1. }
  fold lost. repeat split; try lia; assumption.
Qed.


(** Names every intermediate result of the pipeline. *)
Ltac name_stages :=
  unfold runSku, ageStage; cbv beta iota zeta;
  repeat (match goal with
          | |- context [match ?X with pair _ _ => _ end] => destruct X as [? ?]
          end; cbv beta iota zeta).

(** The recorded holding cost is charged on the stock on hand after shrink
    and before aging: what is left after aging plus what aging wasted. *)
Lemma runSku_holdingCost config item p inv pending rng :
  let r := run config item p inv pending rng in
  let sku := item_sku item in
  holdingCost (run_row r)
  = (inject_Z (sumQty (run_inventory r) sku fresh + sumQty (run_inventory r) sku frozen
               + wasted (run_row r))
     * holdingCostPerUnitPerDay config)%Q.
Proof.
  name_stages. cbn [run_row run_inventory holdingCost wasted].
  match goal with |- context [List.map (ageBatch _) ?l] => set (inv5 := l) end.
  pose proof (sumQty_unexpired (item_sku item) fresh (List.map (ageBatch (item_sku item)) inv5)) as Hf.
  pose proof (sumQty_unexpired (item_sku item) frozen (List.map (ageBatch (item_sku item)) inv5)) as Hz.
  rewrite sumQty_aged in Hf, Hz.
  rewrite (wastedQty_split (item_sku item)).
  f_equal. f_equal. lia.
Qed.

(** The ordering decision of a run, in terms of what the run leaves. *)
Lemma runSku_pending config item p inv pending rng :
  let r := run config item p inv pending rng in
  run_pending r
  = reorderStage item p (sumQty (run_inventory r) (item_sku item) fresh) pending.
Proof. name_stages. reflexivity. Qed.

Lemma runSku_m_sku config item p inv pending rng :
  m_sku (run_row (run config item p inv pending rng)) = item_sku item.
Proof. name_stages. reflexivity. Qed.

End PipelineFacts.


(** * The driver: days and SKUs *)

Definition policyComplete {Rules} (items : list ItemSpec)
    (policy : InventoryPolicyOf Rules) : Prop :=
  forall item, In item items -> is_Some (perSku policy !! item_sku item).

(** The units that the receipt step turns into fresh stock of [sku]. *)
Definition arrivals (items : list ItemSpec) (st : StoreState) (sku : Sku) : Z :=
  sumQty
    (arrivalBatches items
       (List.filter (fun d => arrivingInDays d <=? 0)
          (List.map countDown (pendingDeliveries st))))
    sku fresh.

Section DriverFacts.
Variable pow : Q -> Q -> Q.
Variable boxMuller : Q -> Q -> Q.

Local Abbreviation run := (runSku pow boxMuller).
Local Abbreviation loopSkus := (skuLoop pow boxMuller).
Local Abbreviation stepDay := (dayStep pow boxMuller).
Local Abbreviation loopDays := (dayLoop pow boxMuller).
Local Abbreviation simulate := (simulateInventory pow boxMuller).

(** [r] is a run of the pipeline for a catalog item under its policy. *)
Definition isRunOf (config : SimulationConfig) (policy : InventoryPolicy)
    (items : list ItemSpec) (r : SkuRun) : Prop :=
  exists item p inv pending rng,
    In item items /\ perSku policy !! item_sku item = Some p
    /\ r = run config item p inv pending rng.

Lemma isRunOf_weaken config policy item items r :
  isRunOf config policy items r -> isRunOf config policy (item :: items) r.
Proof.
  intros (it & p & inv & pd & rng & Hin & Hp & ->).
  exists it, p, inv, pd, rng. split; [by right|]. by split.
Qed.

Lemma policyFor_Ok {Rules} (policy : InventoryPolicyOf Rules) item p :
  policyFor policy item = Ok p <-> perSku policy !! item_sku item = Some p.
Proof.
  unfold policyFor. destruct (perSku policy !! item_sku item); split; congruence.
Qed.

Definition afterRun (d : Driver) (r : SkuRun) : Driver :=
  {| d_state := {| day := day (d_state d); inventory := run_inventory r;
                   pendingDeliveries := run_pending r |};
     d_rng := run_rng r;
     d_totals := addRow (d_totals d) (run_row r) |}.

Lemma skuLoop_cons config policy item rest d rows out :
  loopSkus config policy (item :: rest) d rows = Ok out <->
  exists p,
    perSku policy !! item_sku item = Some p
    /\ let r := run config item p (inventory (d_state d))
                       (pendingDeliveries (d_state d)) (d_rng d) in
       loopSkus config policy rest (afterRun d r) (rows ++ [run_row r]) = Ok out.
Proof.
  cbn [skuLoop]. unfold policyFor.
  destruct (perSku policy !! item_sku item) as [p|]; cbn.
  - split; [intros H; by exists p | intros (p' & [= <-] & H); exact H].
  - split; [discriminate | intros (p' & [=] & _)].
Qed.

(** Every row the loop records is the row of a pipeline run. *)
Lemma skuLoop_rows config policy items : forall d rows d' rows',
  loopSkus config policy items d rows = Ok (d', rows') ->
  exists runs,
    rows' = rows ++ List.map run_row runs
    /\ Forall (isRunOf config policy items) runs.
Proof.
  induction items as [|item rest IH]; intros d rows d' rows' H.
  - cbn in H. injection H as <- <-. exists []. by rewrite app_nil_r.
  - apply skuLoop_cons in H as (p & Hp & H). cbv zeta in H.
    apply IH in H as (runs & -> & Hall).
    exists (run config item p (inventory (d_state d))
              (pendingDeliveries (d_state d)) (d_rng d) :: runs).
    split; [by rewrite <- app_assoc|]. constructor.
    + eexists item, p, _, _, _. split; [by left|]. by split.
    + eapply List.Forall_impl; [|exact Hall]. intros r. apply isRunOf_weaken.
Qed.

Lemma dayStep_rows config policy items idx d d' dm :
  stepDay config policy items idx d = Ok (d', dm) ->
  dm_day dm = idx
  /\ exists runs, dm_perSku dm = List.map run_row runs
                  /\ Forall (isRunOf config policy items) runs.
Proof.
  unfold dayStep. intros H.
  destruct (skuLoop _ _ _ _ _ _ _) as [[d1 rows]|] eqn:E; [|discriminate].
  cbn in H. injection H as <- <-. cbn. split; [reflexivity|].
  apply skuLoop_rows in E as (runs & -> & Hall). by exists runs.
Qed.

Lemma dayLoop_rows config policy items n : forall idx d acc d' acc',
  loopDays config policy items n idx d acc = Ok (d', acc') ->
  forall dm, In dm acc' ->
    In dm acc
    \/ exists runs, dm_perSku dm = List.map run_row runs
                    /\ Forall (isRunOf config policy items) runs.
Proof.
  induction n as [|n IH]; intros idx d acc d' acc' H dm Hin.
  - cbn in H. injection H as <- <-. by left.
  - cbn [dayLoop] in H.
    destruct (dayStep _ _ _ _ _ _ _) as [[d1 dm1]|] eqn:E; [|discriminate].
    cbn in H. destruct (IH _ _ _ _ _ H dm Hin) as [Hacc|Hnew]; [|by right].
    apply in_app_or in Hacc as [Hacc|[<-|[]]]; [by left|].
    right. by apply dayStep_rows in E as [_ E].
Qed.

(** Every per-SKU row of every simulated day is the row of a pipeline run
    for a catalog item under its policy entry. *)
Lemma simulateInventory_rows opts res dm m :
  simulate opts = Ok res ->
  In dm (r_days res) -> In m (dm_perSku dm) ->
  exists r, m = run_row r /\ isRunOf (opt_config opts) (opt_policy opts) (opt_items opts) r.
Proof.
  unfold simulateInventory. intros H Hdm Hm.
  destruct (ensurePolicyComplete _ _); [|discriminate]. cbn in H.
  destruct (match opt_initialState opts with Some _ => _ | None => _ end) as [st|];
    [|discriminate].
  cbn in H.
  destruct (dayLoop _ _ _ _ _ _ _ _ _) as [[d daysOut]|] eqn:E; [|discriminate].
  cbn in H. injection H as <-. cbn in Hdm.
  destruct (dayLoop_rows _ _ _ _ _ _ _ _ _ E dm Hdm) as [[]|(runs & Hrows & Hall)].
  rewrite Hrows in Hm. apply in_map_iff in Hm as (r & <- & Hr).
  exists r. split; [reflexivity|]. rewrite List.Forall_forall in Hall. by apply Hall.
Qed.

End DriverFacts.

(** * Holding cost (C1) *)

(** Stand-ins for the two approximated functions in closed examples.  The
    examples use elasticity 0 (where [Math.pow] is exactly 1) and noise
    standard deviation 0 (where the transform is multiplied by 0). *)
Definition powIntegral (b e : Q) : Q := Qpower b (Qfloor e).
Definition boxMullerZero (u1 u2 : Q) : Q := 0.

Section HoldingCost.
Variable pow : Q -> Q -> Q.
Variable boxMuller : Q -> Q -> Q.

(** C1 (amended).  For every per-SKU row of every simulated day, the
    recorded holding cost is holdingCostPerUnitPerDay times the SKU's
    on-hand quantity (fresh plus frozen) after shrink and before the
    aging/waste stage, that is, the quantity left after aging plus the
    quantity that aging wasted that day. *)
Theorem holdingCost_on_stock_before_aging opts res dm m :
  simulateInventory pow boxMuller opts = Ok res ->
  In dm (r_days res) -> In m (dm_perSku dm) ->
  exists r,
    m = run_row r
    /\ isRunOf pow boxMuller (opt_config opts) (opt_policy opts) (opt_items opts) r
    /\ holdingCost m
       = (inject_Z (sumQty (run_inventory r) (m_sku m) fresh
                    + sumQty (run_inventory r) (m_sku m) frozen
                    + wasted m)
          * holdingCostPerUnitPerDay (opt_config opts))%Q.
Proof.
  intros Hsim Hdm Hm.
  destruct (simulateInventory_rows pow boxMuller opts res dm m Hsim Hdm Hm) as (r & -> & Hr).
  exists r. split; [reflexivity|]. split; [exact Hr|].
  destruct Hr as (item & p & inv & pd & rng & _ & _ & ->).
  rewrite runSku_m_sku. apply runSku_holdingCost.
Qed.

End HoldingCost.

Definition greens : ItemSpec :=
  {| item_sku := "greens"; item_name := "Salad greens"; category := produce;
     unitCost := 1; basePrice := 3; shelfLifeDays := 1; leadTimeDays := 1;
     baseDailyDemand := 0; priceElasticity := 0; shrinkRate := 0;
     canFreeze := false; freezeCostPerUnit := 0; frozenShelfLifeDays := 30;
     frozenPriceMultiplier := 4 # 5 |}.

Definition greensPolicy : ItemPolicy :=
  {| p_sku := "greens"; reorderPoint := 0; orderUpTo := 10; pricing := [];
     donateDaysToExpireAtMost := 0; donateMaxFractionPerDay := 0;
     freezeDaysToExpireAtMost := 0; freezeMaxUnitsPerDay := 0 |}.

Definition greensOnly : InventoryPolicy :=
  {| policy_id := "p0"; policy_name := "baseline";
     perSku := {[ "greens" := greensPolicy ]} |}.

Definition oneQuietDay : SimulationConfig :=
  {| days := 1; seed := 7; holdingCostPerUnitPerDay := 1 # 2;
     wasteDisposalCostPerUnit := 0; demandNoiseStdDev := 0; countStockouts := true |}.

Definition greensRun : SimOpts :=
  {| opt_items := [greens]; opt_policy := greensOnly; opt_config := oneQuietDay;
     opt_initialState := None |}.

(** The pipeline run of the single day of [greensRun]: ten units with one
    day of shelf life, no demand. *)
Definition greensDay : SkuRun :=
  runSku powIntegral boxMullerZero oneQuietDay greens greensPolicy
    [ {| b_sku := "greens"; qty := 10; daysToExpire := 1; b_state := fresh |} ] []
    (Rng.createRng 7).

(** C1, the claim as stated fails: the ten units expire in that day's aging
    stage, nothing is on hand after it, and the holding cost recorded for the
    day is 5, not 0. *)
Lemma holdingCost_includes_expiring_stock :
  (exists res,
     simulateInventory powIntegral boxMullerZero greensRun = Ok res
     /\ r_days res = [ {| dm_day := 0; dm_perSku := [run_row greensDay] |} ])
  /\ sumQty (run_inventory greensDay) "greens" fresh
     + sumQty (run_inventory greensDay) "greens" frozen = 0
  /\ (holdingCost (run_row greensDay) == 5)%Q
  /\ ~ (holdingCost (run_row greensDay)
        == inject_Z (sumQty (run_inventory greensDay) "greens" fresh
                     + sumQty (run_inventory greensDay) "greens" frozen)
           * holdingCostPerUnitPerDay oneQuietDay)%Q.
Proof.
  split; [eexists; split; [vm_compute; reflexivity | reflexivity]|].
  split; [reflexivity|]. split; [reflexivity|].
  intros H. vm_compute in H. discriminate H.
Qed.

Lemma holdingCost_on_stock_before_aging_witness :
  exists r,
    run_row greensDay = run_row r
    /\ isRunOf powIntegral boxMullerZero oneQuietDay greensOnly [greens] r
    /\ holdingCost (run_row greensDay)
       = (inject_Z (sumQty (run_inventory r) "greens" fresh
                    + sumQty (run_inventory r) "greens" frozen
                    + wasted (run_row greensDay))
          * (1 # 2))%Q.
Proof.
  refine (holdingCost_on_stock_before_aging powIntegral boxMullerZero greensRun
            _ {| dm_day := 0; dm_perSku := [run_row greensDay] |} (run_row greensDay)
            _ _ _).
  - vm_compute. reflexivity.
  - left. reflexivity.
  - left. reflexivity.
Defined.

(** * Conservation of stock (C2) *)

(** The two pools of [sku] between ledger [inv] (after [arrived] units were
    received) and ledger [inv'], accounted for by run [r]. *)
Definition balanced (sku : Sku) (inv : list InventoryBatch) (arrived : Z)
    (inv' : list InventoryBatch) (r : SkuRun) : Prop :=
  let m := run_row r in
  sumQty inv sku fresh + arrived
  = sumQty inv' sku fresh
    + soldFresh m + donated m + frozenMoved m + run_lostFresh r + run_wastedFresh r
  /\ sumQty inv sku frozen + frozenMoved m
     = sumQty inv' sku frozen + soldFrozen m + run_lostFrozen r + run_wastedFrozen r
  /\ startingFresh m = sumQty inv sku fresh + arrived
  /\ startingFrozen m = sumQty inv sku frozen
  /\ shrinkLost m = run_lostFresh r + run_lostFrozen r
  /\ wasted m = run_wastedFresh r + run_wastedFrozen r
  /\ 0 <= soldFresh m /\ 0 <= soldFrozen m /\ 0 <= donated m /\ 0 <= frozenMoved m
  /\ 0 <= run_lostFresh r /\ 0 <= run_lostFrozen r
  /\ 0 <= run_wastedFresh r /\ 0 <= run_wastedFrozen r.

Lemma arrivalBatches_nonneg items arriving : nonneg (arrivalBatches items arriving).
Proof.
  induction arriving as [|a l IH]; cbn [arrivalBatches]; [constructor|].
  destruct (findItem items (pd_sku a)); [|exact IH].
  constructor; [cbn; lia | exact IH].
Qed.

Lemma arrivalBatches_fresh items arriving sku :
  sumQty (arrivalBatches items arriving) sku frozen = 0.
Proof.
  induction arriving as [|a l IH]; cbn [arrivalBatches]; [reflexivity|].
  destruct (findItem items (pd_sku a)); [|exact IH].
  rewrite sumQty_cons, IH. unfold qtyIf, is_of. cbn. by rewrite andb_false_r.
Qed.

Lemma receiveDeliveries_sums items st sku :
  sumQty (inventory (receiveDeliveries items st)) sku fresh
  = sumQty (inventory st) sku fresh + arrivals items st sku
  /\ sumQty (inventory (receiveDeliveries items st)) sku frozen
     = sumQty (inventory st) sku frozen.
Proof.
  unfold receiveDeliveries, arrivals. cbn [inventory].
  rewrite !sumQty_app, arrivalBatches_fresh. lia.
Qed.

Lemma receiveDeliveries_nonneg items st :
  nonneg (inventory st) -> nonneg (inventory (receiveDeliveries items st)).
Proof.
  intros H. unfold receiveDeliveries. cbn [inventory].
  apply Forall_app. split; [exact H | apply arrivalBatches_nonneg].
Qed.

Lemma initialBatches_stocked items policy : forall inv,
  initialBatches items policy = Ok inv -> stocked inv.
Proof.
  induction items as [|item rest IH]; intros inv H; cbn [initialBatches] in H.
  - injection H as <-. constructor.
  - destruct (policyFor policy item) as [p|]; [|discriminate]. cbn in H.
    destruct (initialBatches rest policy) as [tail|]; [|discriminate]. cbn in H.
    injection H as <-. specialize (IH tail eq_refl).
    match goal with |- stocked (if ?c then _ else _) => destruct c eqn:E end;
      [|exact IH].
    apply Z.ltb_lt in E. by constructor.
Qed.

Lemma createInitialState_stocked items policy st :
  createInitialState items policy = Ok st -> stocked (inventory st).
Proof.
  unfold createInitialState. intros H.
  destruct (ensurePolicyComplete items policy); [|discriminate]. cbn in H.
  destruct (initialBatches items policy) as [inv|] eqn:E; [|discriminate]. cbn in H.
  injection H as <-. by apply (initialBatches_stocked items policy).
Qed.

Section Conservation.
Variable pow : Q -> Q -> Q.
Variable boxMuller : Q -> Q -> Q.

Lemma skuLoop_conserve config policy items : forall d rows d' rows',
  skuLoop pow boxMuller config policy items d rows = Ok (d', rows') ->
  nonneg (inventory (d_state d)) ->
  List.NoDup (List.map item_sku items) ->
  nonneg (inventory (d_state d'))
  /\ (forall sku st, ~ In sku (List.map item_sku items) ->
        sumQty (inventory (d_state d')) sku st = sumQty (inventory (d_state d)) sku st)
  /\ (forall item, In item items ->
        exists r,
          isRunOf pow boxMuller config policy items r
          /\ In (run_row r) rows'
          /\ m_sku (run_row r) = item_sku item
          /\ balanced (item_sku item) (inventory (d_state d)) 0
                      (inventory (d_state d')) r).
Proof.
  induction items as [|item rest IH]; intros d rows d' rows' H Hnn Hnd.
  - cbn in H. injection H as <- <-. split; [exact Hnn|]. split; [reflexivity|]. intros ? [].
  - apply skuLoop_cons in H as (p & Hp & H). cbv zeta in H.
    inversion Hnd as [|? ? Hnotin Hnd']; subst.
    set (r := runSku pow boxMuller config item p (inventory (d_state d))
                (pendingDeliveries (d_state d)) (d_rng d)) in *.
    pose proof (runSku_flows pow boxMuller config item p (inventory (d_state d))
                  (pendingDeliveries (d_state d)) (d_rng d) Hnn) as Hr.
    cbv zeta in Hr. fold r in Hr.
    destruct Hr as (Hn1 & HsF & HsZ & Hfresh & Hfrozen & Hother & Hrest).
    destruct (IH _ _ _ _ H Hn1 Hnd') as (Hn' & Hframe & Hruns).
    cbn [afterRun d_state inventory] in Hframe, Hruns.
    split; [exact Hn'|]. split; [|intros it [<-|Hin]].
    + intros sku st Hno. cbn [List.map] in Hno.
      rewrite Hframe by (intros Hc; apply Hno; by right).
      apply Hother. intros ->. apply Hno. by left.
    + exists r. split; [|split; [|split]].
      * eexists item, p, _, _, _. split; [by left|]. by split.
      * apply skuLoop_rows in H as (runs & -> & _).
        apply in_or_app. left. apply in_or_app. right. by left.
      * apply runSku_m_sku.
      * unfold balanced. cbv zeta.
        rewrite !(Hframe (item_sku item)) by exact Hnotin.
        repeat split; try lia; tauto.
    + destruct (Hruns it Hin) as (r' & Hrun & Hrow & Hsku & Hbal).
      exists r'. split; [by apply isRunOf_weaken|]. split; [exact Hrow|]. split; [exact Hsku|].
      assert (Hne : item_sku it <> item_sku item).
      { intros Heq. apply Hnotin. rewrite <- Heq. by apply in_map. }
      unfold balanced in *. cbv zeta in *.
      rewrite <- !(Hother (item_sku it)) by exact Hne. exact Hbal.
Qed.

(** One day step conserves the stock of every catalog SKU, and keeps the
    ledger without negative quantities. *)
Lemma dayStep_conserves config policy items idx d d' dm :
  dayStep pow boxMuller config policy items idx d = Ok (d', dm) ->
  nonneg (inventory (d_state d)) ->
  List.NoDup (List.map item_sku items) ->
  nonneg (inventory (d_state d'))
  /\ forall item, In item items ->
       exists r,
         isRunOf pow boxMuller config policy items r
         /\ In (run_row r) (dm_perSku dm)
         /\ m_sku (run_row r) = item_sku item
         /\ balanced (item_sku item) (inventory (d_state d))
                     (arrivals items (d_state d) (item_sku item))
                     (inventory (d_state d')) r.
Proof.
  unfold dayStep. intros H Hnn Hnd.
  destruct (skuLoop _ _ _ _ _ _ _) as [[d1 rows]|] eqn:E; [|discriminate].
  cbn in H. injection H as <- <-. cbn [d_state inventory dm_perSku].
  destruct (skuLoop_conserve _ _ _ _ _ _ _ E) as (Hn & _ & Hruns).
  { cbn [d_state]. by apply receiveDeliveries_nonneg. }
  { exact Hnd. }
  split; [exact Hn|]. intros item Hin.
  destruct (Hruns item Hin) as (r & Hrun & Hrow & Hsku & Hbal).
  exists r. split; [exact Hrun|]. split; [exact Hrow|]. split; [exact Hsku|].
  cbn [d_state] in Hbal.
  destruct (receiveDeliveries_sums items (d_state d) (item_sku item)) as [Hf Hz].
  unfold balanced in *. cbv zeta in *. rewrite Hf, Hz in Hbal.
  repeat split; try lia; tauto.
Qed.

Lemma dayLoop_trace config policy items n : forall idx d acc d' acc',
  dayLoop pow boxMuller config policy items n idx d acc = Ok (d', acc') ->
  nonneg (inventory (d_state d)) ->
  List.NoDup (List.map item_sku items) ->
  exists new,
    acc' = acc ++ new
    /\ Forall (fun dm => exists d1 d2,
                 nonneg (inventory (d_state d1))
                 /\ dayStep pow boxMuller config policy items (dm_day dm) d1 = Ok (d2, dm))
              new.
Proof.
  induction n as [|n IH]; intros idx d acc d' acc' H Hnn Hnd.
  - cbn in H. injection H as <- <-. exists []. by rewrite app_nil_r.
  - cbn [dayLoop] in H.
    destruct (dayStep _ _ _ _ _ _ _) as [[d1 dm1]|] eqn:E; [|discriminate].
    cbn in H. destruct (dayStep_conserves _ _ _ _ _ _ _ E Hnn Hnd) as [Hn1 _].
    destruct (IH _ _ _ _ _ H Hn1 Hnd) as (new & -> & Hall).
    exists (dm1 :: new). split; [by rewrite <- app_assoc|].
    constructor; [|exact Hall]. exists d, d1. split; [exact Hnn|].
    pose proof (dayStep_rows _ _ _ _ _ _ _ _ _ E) as [Hday _]. by rewrite Hday.
Qed.

(** C2.  For a catalog without duplicate SKUs and a ledger without negative
    quantities (the one the run creates, or a supplied initial state), for
    every SKU and every simulated day: the fresh quantity at the start of the
    day plus the units arriving from deliveries that day equals the fresh
    quantity at the end of the day plus the units sold fresh, donated, moved
    to frozen, lost to shrink from fresh stock and wasted from fresh stock;
    and the frozen quantity at the start of the day plus the units moved to
    frozen equals the frozen quantity at the end of the day plus the units
    sold frozen, lost to shrink from frozen stock and wasted from frozen
    stock.  [d] and [d'] are the driver's state before and after the day;
    the recorded [shrinkLost] and [wasted] are the sums of their fresh and
    frozen parts. *)
Theorem conservation_per_sku_per_day opts res dm :
  simulateInventory pow boxMuller opts = Ok res ->
  List.NoDup (List.map item_sku (opt_items opts)) ->
  (forall st, opt_initialState opts = Some st -> nonneg (inventory st)) ->
  In dm (r_days res) ->
  exists d d',
    dayStep pow boxMuller (opt_config opts) (opt_policy opts) (opt_items opts)
      (dm_day dm) d = Ok (d', dm)
    /\ forall item, In item (opt_items opts) ->
         exists r,
           isRunOf pow boxMuller (opt_config opts) (opt_policy opts) (opt_items opts) r
           /\ In (run_row r) (dm_perSku dm)
           /\ m_sku (run_row r) = item_sku item
           /\ balanced (item_sku item) (inventory (d_state d))
                       (arrivals (opt_items opts) (d_state d) (item_sku item))
                       (inventory (d_state d')) r.
Proof.
  unfold simulateInventory. intros H Hnd Hinit Hdm.
  destruct (ensurePolicyComplete _ _); [|discriminate]. cbn in H.
  destruct (match opt_initialState opts with Some _ => _ | None => _ end) as [st|] eqn:Est;
    [|discriminate].
  cbn in H.
  destruct (dayLoop _ _ _ _ _ _ _ _ _) as [[d daysOut]|] eqn:E; [|discriminate].
  cbn in H. injection H as <-. cbn [r_days] in Hdm.
  assert (Hnn : nonneg (inventory st)).
  { destruct (opt_initialState opts) as [st0|].
    - injection Est as <-. by apply Hinit.
    - by apply stocked_nonneg, (createInitialState_stocked _ _ _ Est). }
  destruct (dayLoop_trace _ _ _ _ _ _ _ _ _ E Hnn Hnd) as (new & -> & Hall).
  cbn [app] in Hdm. rewrite List.Forall_forall in Hall.
  destruct (Hall dm Hdm) as (d1 & d2 & Hn1 & Hstep).
  exists d1, d2. split; [exact Hstep|].
  exact (proj2 (dayStep_conserves _ _ _ _ _ _ _ Hstep Hn1 Hnd)).
Qed.

End Conservation.

Definition milk : ItemSpec :=
  {| item_sku := "milk"; item_name := "Whole milk"; category := dairy;
     unitCost := 1; basePrice := 2; shelfLifeDays := 5; leadTimeDays := 2;
     baseDailyDemand := 6; priceElasticity := 0; shrinkRate := 1 # 10;
     canFreeze := true; freezeCostPerUnit := 1 # 4; frozenShelfLifeDays := 30;
     frozenPriceMultiplier := 4 # 5 |}.

Definition milkPolicy : ItemPolicy :=
  {| p_sku := "milk"; reorderPoint := 20; orderUpTo := 40;
     pricing := [ {| daysToExpireAtMost := 1; priceMultiplier := 1 # 2 |} ];
     donateDaysToExpireAtMost := 1; donateMaxFractionPerDay := 1 # 2;
     freezeDaysToExpireAtMost := 2; freezeMaxUnitsPerDay := 3 |}.

Definition dairyAndGreens : InventoryPolicy :=
  {| policy_id := "p1"; policy_name := "two items";
     perSku := {[ "milk" := milkPolicy; "greens" := greensPolicy ]} |}.

Definition threeDays : SimulationConfig :=
  {| days := 3; seed := 7; holdingCostPerUnitPerDay := 1 # 10;
     wasteDisposalCostPerUnit := 1 # 2; demandNoiseStdDev := 0; countStockouts := true |}.

Definition busyState : StoreState :=
  {| day := 0;
     inventory :=
       [ {| b_sku := "milk"; qty := 10; daysToExpire := 2; b_state := fresh |};
         {| b_sku := "milk"; qty := 8; daysToExpire := 1; b_state := fresh |};
         {| b_sku := "greens"; qty := 4; daysToExpire := 1; b_state := fresh |};
         {| b_sku := "milk"; qty := 5; daysToExpire := 1; b_state := frozen |} ];
     pendingDeliveries := [ {| pd_sku := "milk"; pd_qty := 7; arrivingInDays := 1 |} ] |}.

Definition busyDriver : Driver :=
  {| d_state := busyState; d_rng := Rng.createRng 7; d_totals := zeroTotals |}.

Definition busyRun : SimOpts :=
  {| opt_items := [milk; greens]; opt_policy := dairyAndGreens; opt_config := threeDays;
     opt_initialState := Some busyState |}.

Definition defaultRun : SimOpts :=
  {| opt_items := [milk; greens]; opt_policy := dairyAndGreens; opt_config := threeDays;
     opt_initialState := None |}.

(** One day on [busyState]: a delivery of 7 arrives; for milk 3 units are
    frozen, 2 donated, 6 sold, 2 lost to shrink, 5 frozen units expire. *)
Example busyDay_rows :
  exists d' dm,
    dayStep powIntegral boxMullerZero threeDays dairyAndGreens [milk; greens] 0 busyDriver
    = Ok (d', dm)
    /\ List.map (fun m => (m_sku m, startingFresh m, frozenMoved m, donated m, soldFresh m,
                           shrinkLost m, wasted m)) (dm_perSku dm)
       = [ ("milk", 25, 3, 2, 6, 2, 5); ("greens", 4, 0, 0, 0, 0, 4) ]
    /\ pendingDeliveries (d_state d')
       = [ {| pd_sku := "milk"; pd_qty := inject_Z 28; arrivingInDays := 2 |};
           {| pd_sku := "greens"; pd_qty := inject_Z 10; arrivingInDays := 1 |} ].
Proof. eexists _, _. split; [vm_compute; reflexivity|]. split; reflexivity. Qed.

Lemma conservation_per_sku_per_day_witness :
  exists res dm,
    simulateInventory powIntegral boxMullerZero busyRun = Ok res
    /\ nth_error (r_days res) 1 = Some dm
    /\ exists d d',
         dayStep powIntegral boxMullerZero threeDays dairyAndGreens [milk; greens]
           (dm_day dm) d = Ok (d', dm)
         /\ forall item, In item [milk; greens] ->
              exists r,
                isRunOf powIntegral boxMullerZero threeDays dairyAndGreens [milk; greens] r
                /\ In (run_row r) (dm_perSku dm)
                /\ m_sku (run_row r) = item_sku item
                /\ balanced (item_sku item) (inventory (d_state d))
                            (arrivals [milk; greens] (d_state d) (item_sku item))
                            (inventory (d_state d')) r.
Proof.
  assert (E : exists res, simulateInventory powIntegral boxMullerZero busyRun = Ok res
                          /\ exists dm, nth_error (r_days res) 1 = Some dm).
  { vm_compute. eexists. split; [reflexivity|]. eexists. reflexivity. }
  destruct E as (res & E & dm & Hdm).
  exists res, dm. split; [exact E|]. split; [exact Hdm|].
  apply (conservation_per_sku_per_day powIntegral boxMullerZero busyRun res dm E).
  - cbn. constructor; [intros [H|[]]; discriminate|].
    constructor; [intros []|]. constructor.
  - intros st [= <-]. unfold nonneg. cbn.
    repeat (apply List.Forall_cons; [cbn; lia|]). apply List.Forall_nil.
  - by apply (nth_error_In _ 1).
Defined.

(** * Replenishment (C3) *)

Lemma Math_round_inject_Z z : Math_round (inject_Z z) = z.
Proof.
  unfold Math_round. apply Z.le_antisymm.
  - assert (H : (inject_Z (Qfloor (inject_Z z + (1 # 2))) < inject_Z (z + 1))%Q).
    { eapply Qle_lt_trans; [apply Qfloor_le|]. rewrite inject_Z_plus.
      apply Qplus_lt_r. reflexivity. }
    rewrite <- Zlt_Qlt in H. lia.
  - rewrite <- (Qfloor_Z z) at 1. apply Qfloor_resp_le.
    rewrite <- (Qplus_0_r (inject_Z z)) at 1. apply Qplus_le_r. discriminate.
Qed.

(** A queued delivery [n] receipt steps later. *)
Definition later (n : nat) (d : PendingDelivery) : PendingDelivery :=
  {| pd_sku := pd_sku d; pd_qty := pd_qty d;
     arrivingInDays := arrivingInDays d - Z.of_nat n |}.

Lemma later_0 d : later 0 d = d.
Proof. destruct d. unfold later. cbn. f_equal. lia. Qed.

Lemma later_S n d : later n (countDown d) = later (S n) d.
Proof. unfold later, countDown. cbn [pd_sku pd_qty arrivingInDays]. f_equal. lia. Qed.

Lemma reorderStage_spec item p freshNow pending :
  let target := Z.max 0 (Math_round (orderUpTo p)) in
  let order := {| pd_sku := item_sku item; pd_qty := inject_Z (target - freshNow);
                  arrivingInDays := Z.max 0 (Math_round (leadTimeDays item)) |} in
  ((inject_Z freshNow <= reorderPoint p)%Q /\ freshNow < target ->
     reorderStage item p freshNow pending = pending ++ [order])
  /\ (~ ((inject_Z freshNow <= reorderPoint p)%Q /\ freshNow < target) ->
        reorderStage item p freshNow pending = pending).
Proof.
  cbv zeta. unfold reorderStage, Qleb.
  destruct (Qle_bool (inject_Z freshNow) (reorderPoint p)) eqn:Er.
  - apply Qle_bool_iff in Er.
    destruct (0 <? Z.max 0 (Z.max 0 (Math_round (orderUpTo p)) - freshNow)) eqn:En.
    + apply Z.ltb_lt in En. split; [|intros H; exfalso; apply H; split; [exact Er | lia]].
      intros _. rewrite Z.max_r by lia. reflexivity.
    + apply Z.ltb_ge in En. split; [intros [_ H]; lia | reflexivity].
  - split; [|reflexivity]. intros [H _]. apply Qle_bool_iff in H. congruence.
Qed.

Lemma reorderStage_incl item p freshNow pending dlv :
  In dlv pending -> In dlv (reorderStage item p freshNow pending).
Proof.
  intros H. unfold reorderStage.
  destruct (Qleb _ _); [|exact H]. destruct (0 <? _); [|exact H].
  apply in_or_app. by left.
Qed.

Lemma arrivalBatches_In items arriving a it :
  In a arriving -> findItem items (pd_sku a) = Some it ->
  In (arrivalBatch it a) (arrivalBatches items arriving).
Proof.
  intros Hin Hfind. induction arriving as [|x l IH]; [destruct Hin|].
  cbn [arrivalBatches]. destruct Hin as [->|Hin].
  - rewrite Hfind. by left.
  - destruct (findItem items (pd_sku x)); [right|]; by apply IH.
Qed.

Lemma receiveDeliveries_queue items st dlv :
  In dlv (pendingDeliveries st) -> 1 < arrivingInDays dlv ->
  In (countDown dlv) (pendingDeliveries (receiveDeliveries items st)).
Proof.
  intros Hin Hk. unfold receiveDeliveries. cbn [pendingDeliveries].
  apply List.filter_In. split; [by apply in_map|].
  apply Z.ltb_lt. cbn. lia.
Qed.

Lemma receiveDeliveries_arrival items st dlv it :
  In dlv (pendingDeliveries st) -> arrivingInDays dlv <= 1 ->
  findItem items (pd_sku dlv) = Some it ->
  In {| b_sku := pd_sku dlv; qty := Z.max 0 (Math_round (pd_qty dlv));
        daysToExpire := Z.max 1 (Math_round (shelfLifeDays it)); b_state := fresh |}
     (inventory (receiveDeliveries items st)).
Proof.
  intros Hin Hk Hfind. unfold receiveDeliveries. cbn [inventory].
  apply in_or_app. right.
  apply (arrivalBatches_In items _ (countDown dlv) it); [|exact Hfind].
  apply List.filter_In. split; [by apply in_map|]. apply Z.leb_le. cbn. lia.
Qed.

Section Replenishment.
Variable pow : Q -> Q -> Q.
Variable boxMuller : Q -> Q -> Q.

Lemma skuLoop_queue config policy items : forall d rows d' rows' dlv,
  skuLoop pow boxMuller config policy items d rows = Ok (d', rows') ->
  In dlv (pendingDeliveries (d_state d)) -> In dlv (pendingDeliveries (d_state d')).
Proof.
  induction items as [|item rest IH]; intros d rows d' rows' dlv H Hin.
  - cbn in H. by injection H as <- <-.
  - apply skuLoop_cons in H as (p & _ & H). cbv zeta in H.
    eapply IH; [exact H|]. cbn [afterRun d_state pendingDeliveries].
    rewrite runSku_pending. by apply reorderStage_incl.
Qed.

Lemma dayStep_queue config policy items idx d d' dm dlv :
  dayStep pow boxMuller config policy items idx d = Ok (d', dm) ->
  In dlv (pendingDeliveries (d_state d)) -> 1 < arrivingInDays dlv ->
  In (countDown dlv) (pendingDeliveries (d_state d')).
Proof.
  unfold dayStep. intros H Hin Hk.
  destruct (skuLoop _ _ _ _ _ _ _) as [[d1 rows]|] eqn:E; [|discriminate].
  cbn in H. injection H as <- <-. cbn [d_state pendingDeliveries].
  eapply skuLoop_queue; [exact E|]. cbn [d_state]. by apply receiveDeliveries_queue.
Qed.

Lemma dayLoop_queue config policy items n : forall idx d acc d' acc' dlv,
  dayLoop pow boxMuller config policy items n idx d acc = Ok (d', acc') ->
  In dlv (pendingDeliveries (d_state d)) ->
  Z.of_nat n < Z.max 1 (arrivingInDays dlv) ->
  In (later n dlv) (pendingDeliveries (d_state d')).
Proof.
  induction n as [|n IH]; intros idx d acc d' acc' dlv H Hin Hn.
  - cbn in H. injection H as <- <-. by rewrite later_0.
  - cbn [dayLoop] in H.
    destruct (dayStep _ _ _ _ _ _ _) as [[d1 dm1]|] eqn:E; [|discriminate].
    cbn in H. rewrite <- later_S.
    eapply IH; [exact H | |].
    + eapply dayStep_queue; [exact E | exact Hin | lia].
    + cbn [countDown arrivingInDays]. lia.
Qed.

(** C3 (amended).  For every run of the pipeline, with [freshNow] the
    post-aging fresh on-hand quantity, [target] = max(0, round(orderUpTo))
    and [lead] = max(0, round(leadTimeDays)): exactly one delivery is
    enqueued when freshNow <= reorderPoint and freshNow < target, and none
    otherwise; it is sized (target - freshNow); it stays queued through the
    receipt steps of the next max(1, lead) - 1 days and the receipt step of
    the day after them (max(1, lead) days after the order) turns it into a
    fresh batch of that size at full shelf life. *)
Theorem reorder_decision_and_arrival config policy items item p inv pending rng :
  let r := runSku pow boxMuller config item p inv pending rng in
  let freshNow := sumQty (run_inventory r) (item_sku item) fresh in
  let target := Z.max 0 (Math_round (orderUpTo p)) in
  let lead := Z.max 0 (Math_round (leadTimeDays item)) in
  let order := {| pd_sku := item_sku item; pd_qty := inject_Z (target - freshNow);
                  arrivingInDays := lead |} in
  ((inject_Z freshNow <= reorderPoint p)%Q /\ freshNow < target ->
     run_pending r = pending ++ [order])
  /\ (~ ((inject_Z freshNow <= reorderPoint p)%Q /\ freshNow < target) ->
        run_pending r = pending)
  /\ (forall n idx d acc d' acc' it,
        freshNow < target ->
        findItem items (item_sku item) = Some it ->
        In order (pendingDeliveries (d_state d)) ->
        dayLoop pow boxMuller config policy items n idx d acc = Ok (d', acc') ->
        (Z.of_nat n < Z.max 1 lead ->
           In {| pd_sku := item_sku item; pd_qty := inject_Z (target - freshNow);
                 arrivingInDays := lead - Z.of_nat n |}
              (pendingDeliveries (d_state d')))
        /\ (Z.of_nat n = Z.max 1 lead - 1 ->
              In {| b_sku := item_sku item; qty := target - freshNow;
                    daysToExpire := Z.max 1 (Math_round (shelfLifeDays it));
                    b_state := fresh |}
                 (inventory (receiveDeliveries items (d_state d'))))).
Proof.
  intros r freshNow target lead order.
  destruct (reorderStage_spec item p freshNow pending) as [Hyes Hno].
  cbv zeta in Hyes, Hno. fold target lead order in Hyes, Hno.
  split; [|split].
  - intros H. unfold r. rewrite runSku_pending. fold r freshNow. by apply Hyes.
  - intros H. unfold r. rewrite runSku_pending. fold r freshNow. by apply Hno.
  - intros n idx d acc d' acc' it Hpos Hfind Hin Hloop.
    assert (Hq : Z.of_nat n < Z.max 1 lead -> In (later n order) (pendingDeliveries (d_state d'))).
    { intros Hn. eapply dayLoop_queue; [exact Hloop | exact Hin | exact Hn]. }
    split; [exact Hq|]. intros Hn.
    assert (Hlt : Z.of_nat n < Z.max 1 lead) by lia.
    pose proof (receiveDeliveries_arrival items (d_state d') (later n order) it (Hq Hlt)) as Ha.
    cbn [later order pd_sku pd_qty arrivingInDays] in Ha.
    rewrite Math_round_inject_Z, Z.max_r in Ha by lia.
    apply Ha; [lia | exact Hfind].
Qed.

End Replenishment.

(** The run [greensDay] ends with no fresh stock; ten units are ordered,
    due in one day. *)
Lemma reorder_decision_and_arrival_witness :
  run_pending greensDay
  = [] ++ [ {| pd_sku := "greens"; pd_qty := inject_Z (10 - 0); arrivingInDays := 1 |} ].
Proof.
  apply (proj1 (reorder_decision_and_arrival powIntegral boxMullerZero oneQuietDay
                  greensOnly [greens] greens greensPolicy
                  [ {| b_sku := "greens"; qty := 10; daysToExpire := 1; b_state := fresh |} ]
                  [] (Rng.createRng 7))).
  split; [discriminate | reflexivity].
Defined.

Definition lowTargetPolicy : ItemPolicy :=
  {| p_sku := "greens"; reorderPoint := 10; orderUpTo := 5; pricing := [];
     donateDaysToExpireAtMost := 0; donateMaxFractionPerDay := 0;
     freezeDaysToExpireAtMost := 0; freezeMaxUnitsPerDay := 0 |}.

Definition lowTargetRun : SkuRun :=
  runSku powIntegral boxMullerZero oneQuietDay greens lowTargetPolicy
    [ {| b_sku := "greens"; qty := 8; daysToExpire := 3; b_state := fresh |} ] []
    (Rng.createRng 7).

(** C3, the claim as stated fails: with reorderPoint 10 and orderUpTo 5 the
    post-aging fresh on-hand quantity 8 is at most the reorder point, and no
    delivery is enqueued. *)
Lemma no_order_above_target :
  sumQty (run_inventory lowTargetRun) "greens" fresh = 8
  /\ (inject_Z (sumQty (run_inventory lowTargetRun) "greens" fresh)
      <= reorderPoint lowTargetPolicy)%Q
  /\ run_pending lowTargetRun = [].
Proof. split; [reflexivity|]. split; [discriminate | reflexivity]. Qed.

(** * The run as a whole: completeness check, totality, determinism *)

Lemma ensurePolicyComplete_Ok {Rules} items (policy : InventoryPolicyOf Rules) :
  ensurePolicyComplete items policy = Ok tt <-> policyComplete items policy.
Proof.
  unfold policyComplete. induction items as [|item rest IH]; cbn [ensurePolicyComplete].
  - split; [intros _ ? [] | reflexivity].
  - destruct (perSku policy !! item_sku item) as [p|] eqn:E.
    + rewrite IH. split.
      * intros H it [<-|Hin]; [by rewrite E | by apply H].
      * intros H it Hin. apply H. by right.
    + split; [discriminate|]. intros H.
      destruct (H item (or_introl eq_refl)) as [p Hp]. congruence.
Qed.


Lemma initialBatches_total items policy :
  policyComplete items policy -> exists inv, initialBatches items policy = Ok inv.
Proof.
  unfold policyComplete. induction items as [|item rest IH]; intros H; cbn [initialBatches].
  - by exists [].
  - destruct (H item (or_introl eq_refl)) as [p Hp]. unfold policyFor. rewrite Hp. cbn.
    destruct IH as [tail ->]; [intros x Hx; apply H; by right|]. cbn. eauto.
Qed.

Section Totality.
Variable pow : Q -> Q -> Q.
Variable boxMuller : Q -> Q -> Q.

Lemma skuLoop_total config policy items : forall d rows,
  policyComplete items policy ->
  exists out, skuLoop pow boxMuller config policy items d rows = Ok out.
Proof.
  unfold policyComplete. induction items as [|item rest IH]; intros d rows H.
  - cbn. eauto.
  - destruct (H item (or_introl eq_refl)) as [p Hp].
    edestruct (IH (afterRun d (runSku pow boxMuller config item p (inventory (d_state d))
                                 (pendingDeliveries (d_state d)) (d_rng d))))
      as [out Hout]; [intros x Hx; apply H; by right|].
    exists out. apply skuLoop_cons. exists p. split; [exact Hp | exact Hout].
Qed.

Lemma dayLoop_total config policy items n : forall idx d acc,
  policyComplete items policy ->
  exists out, dayLoop pow boxMuller config policy items n idx d acc = Ok out.
Proof.
  induction n as [|n IH]; intros idx d acc H; cbn [dayLoop]; [eauto|].
  unfold dayStep.
  edestruct (skuLoop_total config policy items) as [[d1 rows] ->]; [exact H|].
  cbn. apply IH, H.
Qed.

(** A run with a complete policy always returns a result: the simulation
    is a bounded computation over days and SKUs. *)
Lemma simulateInventory_total opts :
  policyComplete (opt_items opts) (opt_policy opts) ->
  exists res, simulateInventory pow boxMuller opts = Ok res.
Proof.
  intros H. unfold simulateInventory. pose proof H as Hc.
  apply ensurePolicyComplete_Ok in Hc. rewrite Hc. cbn.
  assert (Hst : exists st, match opt_initialState opts with
                           | Some st => Ok (structuredClone st)
                           | None => createInitialState (opt_items opts) (opt_policy opts)
                           end = Ok st).
  { destruct (opt_initialState opts); [eauto|]. unfold createInitialState. rewrite Hc. cbn.
    destruct (initialBatches_total _ _ H) as [inv ->]. cbn. eauto. }
  destruct Hst as [st ->]. cbn.
  edestruct (dayLoop_total (opt_config opts) (opt_policy opts) (opt_items opts))
    as [[d daysOut] ->]; [exact H|].
  cbn. eauto.
Qed.


End Totality.



(** * Properties of the evaluator *)

(** ** Over exact reals *)

Module RealEvalFacts.
Import Eval RealEval.
Local Open Scope R_scope.

Lemma clamp01_id (y : R) : 0 <= y <= 1 -> clamp01 y = y.
Proof.
  intros [H0 H1]. unfold clamp01. cbn.
  rewrite Rmin_right by exact H1. by rewrite Rmax_right.
Qed.

Lemma logistic_unit_interval (z : R) : 0 <= 1 / (1 + exp z) <= 1.
Proof.
  pose proof (exp_pos z) as He.
  assert (Hd : 0 < 1 + exp z) by lra.
  split.
  - apply Rlt_le. apply Rdiv_lt_0_compat; lra.
  - apply (Rmult_le_reg_r (1 + exp z)); [exact Hd|].
    unfold Rdiv. rewrite Rmult_assoc, Rinv_l by lra. lra.
Qed.


(** At the target itself the sub-score is exactly one half. *)
Lemma normalize_at_target (t : R) :
  0 < t -> normalizePositive t t = 1 / 2 /\ normalizeLowerIsBetter t t = 1 / 2.
Proof.
  intros Ht. unfold normalizePositive, normalizeLowerIsBetter.
  cbn [num_le num_lt num_of_Z realOps num_div num_add num_sub num_mul num_exp].
  unfold Rleb. destruct (Rle_dec t 0) as [Hle|_]; [lra|]. cbv zeta.
  rewrite !clamp01_id by apply logistic_unit_interval.
  replace (t / t - 1) with 0 by (field; lra).
  rewrite !Rmult_0_r, exp_0. split; f_equal; lra.
Qed.


End RealEvalFacts.

(** ** Over IEEE-754 binary64 *)

Module IeeeFacts.
Import Eval Ieee.

(** *** Rounding never invents a NaN *)

Lemma iter_pos_invariant {A} (P : A -> Prop) (f : A -> A) :
  (forall x, P x -> P (f x)) -> forall n x, P x -> P (SpecFloat.iter_pos f n x).
Proof.
  intros Hf. induction n as [n IH|n IH|]; intros x Hx; cbn [SpecFloat.iter_pos]; auto.
Qed.

Lemma shr_1_nonneg mrs : (0 <= shr_m mrs)%Z -> (0 <= shr_m (shr_1 mrs))%Z.
Proof.
  destruct mrs as [m r s]. cbn [shr_m]. intros Hm. unfold shr_1.
  destruct m as [|p|p]; [cbn; lia | | lia].
  destruct p; cbn; lia.
Qed.

Lemma shr_nonneg mrs e n : (0 <= shr_m mrs)%Z -> (0 <= shr_m (fst (shr mrs e n)))%Z.
Proof.
  intros Hm. unfold shr. destruct n as [|p|p]; cbn [fst]; try exact Hm.
  apply (iter_pos_invariant (fun x => (0 <= shr_m x)%Z)); [apply shr_1_nonneg | exact Hm].
Qed.

Lemma shr_record_of_loc_m m l : shr_m (shr_record_of_loc m l) = m.
Proof. destruct l as [|[]]; reflexivity. Qed.

Lemma shr_fexp_nonneg m e l :
  (0 <= m)%Z -> (0 <= shr_m (fst (shr_fexp prec emax m e l)))%Z.
Proof.
  intros Hm. unfold shr_fexp. apply shr_nonneg. by rewrite shr_record_of_loc_m.
Qed.

Lemma round_nearest_even_nonneg m l : (0 <= m)%Z -> (0 <= round_nearest_even m l)%Z.
Proof.
  intros Hm. unfold round_nearest_even. destruct l as [|[]]; try lia.
  destruct (Z.even m); lia.
Qed.

Lemma binary_round_aux_not_nan sx mx ex lx :
  (0 <= mx)%Z -> is_nan (binary_round_aux prec emax sx mx ex lx) = false.
Proof.
  intros Hm. unfold binary_round_aux.
  pose proof (shr_fexp_nonneg mx ex lx Hm) as H1.
  destruct (shr_fexp prec emax mx ex lx) as [mrs' e']. cbn [fst] in H1.
  pose proof (shr_fexp_nonneg (round_nearest_even (shr_m mrs') (loc_of_shr_record mrs'))
                e' loc_Exact (round_nearest_even_nonneg _ _ H1)) as H2.
  destruct (shr_fexp prec emax _ e' loc_Exact) as [mrs'' e'']. cbn [fst] in H2.
  destruct (shr_m mrs'') as [|p|p]; [reflexivity | | lia].
  by destruct (Z.leb e'' (emax - prec)).
Qed.

Lemma binary_normalize_not_nan m e s : is_nan (binary_normalize prec emax m e s) = false.
Proof.
  unfold binary_normalize, binary_round. destruct m as [|p|p]; [reflexivity | |];
    destruct (shl_align _ _ _) as [mz ez]; by apply binary_round_aux_not_nan.
Qed.

(** *** Where the four operations can produce a NaN *)


Lemma sub_not_nan a b :
  is_nan a = false -> is_nan b = false -> isFinite a || isFinite b = true ->
  is_nan (SFsub prec emax a b) = false.
Proof.
  destruct a as [sa|sa| |sa ma ea], b as [sb|sb| |sb mb eb]; cbn; try discriminate;
    intros _ _ _; try reflexivity.
  - by destruct sa, sb.
  - apply binary_normalize_not_nan.
Qed.


Lemma div_core_nonneg m1 e1 m2 e2 :
  (0 <= fst (fst (SFdiv_core_binary prec emax (Zpos m1) e1 (Zpos m2) e2)))%Z.
Proof.
  unfold SFdiv_core_binary.
  set (s := (e1 - e2 - _)%Z).
  set (m' := match s with Zpos _ => Z.shiftl (Zpos m1) s | Z0 => Zpos m1 | Zneg _ => Z0 end).
  assert (Hm' : (0 <= m')%Z).
  { unfold m'. destruct s; try lia. apply Z.shiftl_nonneg. lia. }
  pose proof (Z.div_pos m' (Zpos m2) Hm' eq_refl) as Hq.
  unfold Z.div in Hq. destruct (Z.div_eucl m' (Zpos m2)) as [q r]. exact Hq.
Qed.

Lemma div_not_nan n d :
  is_nan n = false -> is_nan d = false ->
  (isFinite n && negb (is_zero d)) || (isFinite d && negb (is_zero n)) = true ->
  is_nan (SFdiv prec emax n d) = false.
Proof.
  destruct n as [sn|sn| |sn mn en], d as [sd|sd| |sd md ed]; cbn; try discriminate;
    intros _ _ _; try reflexivity.
  pose proof (div_core_nonneg mn en md ed) as Hq.
  destruct (SFdiv_core_binary prec emax (Zpos mn) en (Zpos md) ed) as [[mz ez] lz].
  by apply binary_round_aux_not_nan.
Qed.

(** *** Math.max, Math.min and the clamp *)

Definition one : spec_float := S754_finite false 4503599627370496 (-52).

Lemma of_Z_1 : of_Z 1 = one.
Proof. reflexivity. Qed.

Lemma SFltb_SFleb a b : SFltb a b = true -> SFleb a b = true.
Proof. unfold SFltb, SFleb. by destruct (SFcompare a b) as [[]|]. Qed.


Lemma clamp01_cases x :
  is_nan x = false ->
  let c := Math_max (S754_zero false) (Math_min one x) in
  c = one \/ c = S754_zero false
  \/ (c = x /\ SFltb (S754_zero false) x = true /\ SFltb x one = true).
Proof.
  intros Hx. cbv zeta. unfold Math_min. rewrite Hx. cbn [is_nan orb one].
  fold one. destruct (SFltb one x) eqn:E1; [by left|].
  destruct (SFltb x one) eqn:E2; [|by left].
  unfold Math_max. rewrite Hx. cbn [is_nan orb].
  destruct (SFltb (S754_zero false) x) eqn:E3; [right; right; by repeat split|].
  right; left. by destruct (SFltb x (S754_zero false)).
Qed.

Lemma clamp01_in01 (mathExp : spec_float -> spec_float) x :
  is_nan x = false -> in01 (@clamp01 _ (ieeeOps mathExp) x) = true.
Proof.
  intros Hx. unfold clamp01, in01. cbn [num_max num_min num_of_Z ieeeOps].
  change (of_Z 0) with (S754_zero false). rewrite !of_Z_1.
  destruct (clamp01_cases x Hx) as [->|[->|(-> & H0 & H1)]]; try reflexivity.
  by rewrite (SFltb_SFleb _ _ H0), (SFltb_SFleb _ _ H1).
Qed.





(** *** The evaluator's scores *)

Section Scores.
Variable mathExp : spec_float -> spec_float.
(** ECMAScript: [Math.exp] returns NaN only for NaN. *)
Hypothesis mathExp_not_nan : forall x, is_nan x = false -> is_nan (mathExp x) = false.

Local Abbreviation ops := (ieeeOps mathExp).

Lemma safeDiv_not_nan n d : is_nan (@safeDiv _ ops n d) = false.
Proof.
  unfold safeDiv. cbn [num_isFinite num_is_zero num_div num_of_Z ieeeOps].
  destruct (isFinite n) eqn:Hn; [|reflexivity].
  destruct (isFinite d) eqn:Hd; [|reflexivity]. cbn [negb orb].
  destruct (SFeqb d (S754_zero false)) eqn:Hz; [reflexivity|].
  apply div_not_nan; [by destruct n | by destruct d |].
  rewrite Hn. destruct d; try reflexivity. discriminate Hz.
Qed.







End Scores.

(** [Math.exp] at the arguments +0 and -0, where it is exactly 1 (and NaN
    at NaN); enough for closed examples whose rates sit at their targets. *)
Definition expAtZero (x : spec_float) : spec_float :=
  match x with S754_nan => S754_nan | _ => one end.

Definition zero : spec_float := S754_zero false.





Definition onTarget : SimTotals spec_float :=
  {| sim_days := of_Z 3; sim_profit := of_Z 15; sim_sold := of_Z 8; sim_wasted := of_Z 1;
     sim_donated := of_Z 1; sim_stockout := zero; sim_demand := of_Z 8 |}.

(** Targets 5, 0.1, 1 and 0.1; weights 4, 3, 2, 1. *)
Definition plainConfig : EvalConfig spec_float :=
  {| weights := {| w_profit := of_Z 4; w_wasteReduction := of_Z 3;
                   w_satisfaction := of_Z 2; w_humanitarian := of_Z 1 |};
     profitPerDayTarget := of_Z 5;
     wasteRateTarget := SFdiv prec emax (of_Z 1) (of_Z 10);
     satisfactionTarget := of_Z 1;
     donationRateTarget := SFdiv prec emax (of_Z 1) (of_Z 10) |}.



(** Every rate of [onTarget] sits at its target: all sub-scores and the
    score are exactly one half. *)
Example onTarget_scores :
  let r := evaluate expAtZero onTarget plainConfig in
  let half := SFdiv prec emax (of_Z 1) (of_Z 2) in
  (score r, profitScore r, wasteReductionScore r, satisfactionScore r, humanitarianScore r)
  = (half, half, half, half, half).
Proof. vm_compute. reflexivity. Qed.

End IeeeFacts.

(** * What a call may touch in the store *)

Module StoreFacts.
Import Store.

Section Frame.
(** The store when [simulateInventory] is called. *)
Variable h0 : gmap positive obj.

(** A location that did not exist at the call. *)
Definition isNew (l : positive) : Prop := h0 !! l = None.

Definition refsNew (o : obj) : Prop :=
  match o with
  | OArray elems => Forall isNew elems
  | OState _ i p => isNew i /\ isNew p
  | _ => True
  end.

(** Every object of the call-time store is still as it was, and the arrays
    and state objects created since refer to created objects only. *)
Definition Inv (h : gmap positive obj) : Prop :=
  (forall l o, h0 !! l = Some o -> h !! l = Some o)
  /\ (forall l o, isNew l -> h !! l = Some o -> refsNew o).

(** [m] keeps the invariant, and its result satisfies [Q]. *)
Definition tr {A} (m : M A) (Q : A -> Prop) : Prop :=
  forall h, Inv h -> Inv (snd (m h)) /\ forall a, fst (m h) = Ok a -> Q a.

Definition anything {A} : A -> Prop := fun _ => True.

Lemma tr_ret {A} (a : A) (Q : A -> Prop) : Q a -> tr (ret a) Q.
Proof. intros Hq h Hh. cbn. split; [exact Hh|]. by intros ? [= <-]. Qed.

Lemma tr_lift {A} (r : result A) (Q : A -> Prop) :
  (forall a, r = Ok a -> Q a) -> tr (lift r) Q.
Proof. intros Hq h Hh. cbn. split; [exact Hh | exact Hq]. Qed.

Lemma tr_bind {A B} (m : M A) (f : A -> M B) (P : A -> Prop) (Q : B -> Prop) :
  tr m P -> (forall a, P a -> tr (f a) Q) -> tr (mbind f m) Q.
Proof.
  intros Hm Hf h Hh. unfold mbind, M_bind, bind.
  destruct (Hm h Hh) as [Hi Hp]. destruct (m h) as [[a|msg] h']; cbn [fst snd] in *.
  - apply Hf; [by apply Hp | exact Hi].
  - split; [exact Hi | discriminate].
Qed.

Lemma tr_weaken {A} (m : M A) (P Q : A -> Prop) :
  tr m P -> (forall a, P a -> Q a) -> tr m Q.
Proof. intros Hm Hpq h Hh. destruct (Hm h Hh) as [Hi Hp]. split; [exact Hi | eauto]. Qed.

(** Computations that only read. *)
Definition readonly {A} (m : M A) : Prop := forall h, snd (m h) = h.

Lemma readonly_tr {A} (m : M A) : readonly m -> tr m anything.
Proof. intros Hr h Hh. rewrite Hr. split; [exact Hh | done]. Qed.

Lemma readonly_ret {A} (a : A) : readonly (ret a).
Proof. by intros h. Qed.

Lemma readonly_bind {A B} (m : M A) (f : A -> M B) :
  readonly m -> (forall a, readonly (f a)) -> readonly (mbind f m).
Proof.
  intros Hm Hf h. unfold mbind, M_bind, bind. specialize (Hm h).
  destruct (m h) as [[a|msg] h']; cbn [snd] in *; subst; [apply Hf | reflexivity].
Qed.

Lemma readonly_readBatch l : readonly (readBatch l).
Proof. intros h. unfold readBatch. by destruct (h !! l) as [[]|]. Qed.

Lemma readonly_readDelivery l : readonly (readDelivery l).
Proof. intros h. unfold readDelivery. by destruct (h !! l) as [[]|]. Qed.

Lemma readonly_readArray l : readonly (readArray l).
Proof. intros h. unfold readArray. by destruct (h !! l) as [[]|]. Qed.

Lemma readonly_readRules l : readonly (readRules l).
Proof. intros h. unfold readRules. by destruct (h !! l) as [[]|]. Qed.

Lemma readonly_readState l : readonly (readState l).
Proof. intros h. unfold readState. by destruct (h !! l) as [[]|]. Qed.

Lemma readonly_mapM {A B} (f : A -> M B) l :
  (forall x, readonly (f x)) -> readonly (mapM f l).
Proof.
  intros Hf. induction l as [|x l IH]; cbn [mapM]; [apply readonly_ret|].
  apply readonly_bind; [apply Hf|]. intros y.
  apply readonly_bind; [exact IH|]. intros ys. apply readonly_ret.
Qed.

Lemma readonly_filterM {A} (f : A -> M bool) l :
  (forall x, readonly (f x)) -> readonly (filterM f l).
Proof.
  intros Hf. induction l as [|x l IH]; cbn [filterM]; [apply readonly_ret|].
  apply readonly_bind; [apply Hf|]. intros y.
  apply readonly_bind; [exact IH|]. intros ys. apply readonly_ret.
Qed.

Lemma readonly_loadBatches arr : readonly (loadBatches arr).
Proof.
  apply readonly_bind; [apply readonly_readArray|]. intros elems.
  apply readonly_mapM, readonly_readBatch.
Qed.

Lemma readonly_sumQtyH arr sku st : readonly (sumQtyH arr sku st).
Proof.
  apply readonly_bind; [apply readonly_loadBatches|]. intros bs. apply readonly_ret.
Qed.

(** *** The primitives *)

Lemma fresh_isNew h : Inv h -> isNew (base.fresh (dom h)) /\ h !! base.fresh (dom h) = None.
Proof.
  intros [Hframe _].
  assert (Hn : h !! base.fresh (dom h) = None) by apply not_elem_of_dom, is_fresh.
  split; [|exact Hn]. unfold isNew.
  destruct (h0 !! base.fresh (dom h)) as [o|] eqn:E; [|reflexivity].
  apply Hframe in E. congruence.
Qed.

Lemma Inv_insert h l o : Inv h -> isNew l -> refsNew o -> Inv (<[l := o]> h).
Proof.
  intros [Hframe Hnew] Hl Ho. split.
  - intros l' o' H. rewrite lookup_insert_ne; [by apply Hframe|].
    intros ->. unfold isNew in Hl. congruence.
  - intros l' o' Hl' H. destruct (decide (l = l')) as [->|Hne].
    + rewrite lookup_insert_eq in H. by injection H as <-.
    + rewrite lookup_insert_ne in H by exact Hne. by eapply Hnew.
Qed.

Lemma tr_alloc o : refsNew o -> tr (alloc o) isNew.
Proof.
  intros Ho h Hh. unfold alloc. cbn. destruct (fresh_isNew h Hh) as [Hn _].
  split; [by apply Inv_insert|]. by intros ? [= <-].
Qed.

Lemma tr_readArray l : isNew l -> tr (readArray l) (Forall isNew).
Proof.
  intros Hl h Hh. unfold readArray. destruct (h !! l) as [[]|] eqn:E; cbn;
    (split; [exact Hh|]); try discriminate.
  intros ? [= <-]. exact (proj2 Hh l _ Hl E).
Qed.

Lemma tr_readState l :
  isNew l -> tr (readState l) (fun s => isNew (snd (fst s)) /\ isNew (snd s)).
Proof.
  intros Hl h Hh. unfold readState. destruct (h !! l) as [[]|] eqn:E; cbn;
    (split; [exact Hh|]); try discriminate.
  intros ? [= <-]. exact (proj2 Hh l _ Hl E).
Qed.

Lemma tr_writeBatch l b : isNew l -> tr (writeBatch l b) anything.
Proof.
  intros Hl h Hh. unfold writeBatch. destruct (h !! l) as [[]|]; cbn;
    (split; [|done]); try exact Hh. by apply Inv_insert.
Qed.

Lemma tr_writeDelivery l d : isNew l -> tr (writeDelivery l d) anything.
Proof.
  intros Hl h Hh. unfold writeDelivery. destruct (h !! l) as [[]|]; cbn;
    (split; [|done]); try exact Hh. by apply Inv_insert.
Qed.

Lemma tr_writeArray l elems : isNew l -> Forall isNew elems -> tr (writeArray l elems) anything.
Proof.
  intros Hl He h Hh. unfold writeArray. destruct (h !! l) as [[]|]; cbn;
    (split; [|done]); try exact Hh. by apply Inv_insert.
Qed.

Lemma tr_writeRules l rules : isNew l -> tr (writeRules l rules) anything.
Proof.
  intros Hl h Hh. unfold writeRules. destruct (h !! l) as [[]|]; cbn;
    (split; [|done]); try exact Hh. by apply Inv_insert.
Qed.

Lemma tr_writeState l d i p :
  isNew l -> isNew i -> isNew p -> tr (writeState l d i p) anything.
Proof.
  intros Hl Hi Hp h Hh. unfold writeState. destruct (h !! l) as [[]|]; cbn;
    (split; [|done]); try exact Hh. by apply Inv_insert.
Qed.

(** *** Loops *)

Lemma tr_forEach {A} (f : A -> M unit) l :
  Forall (fun x => tr (f x) anything) l -> tr (forEach f l) anything.
Proof.
  induction 1 as [|x l Hx _ IH]; cbn [forEach]; [by apply tr_ret|].
  eapply tr_bind; [exact Hx|]. intros _ _. exact IH.
Qed.

Lemma tr_mapM {A B} (f : A -> M B) l (P : B -> Prop) :
  Forall (fun x => tr (f x) P) l -> tr (mapM f l) (Forall P).
Proof.
  induction 1 as [|x l Hx _ IH]; cbn [mapM]; [by apply tr_ret|].
  eapply tr_bind; [exact Hx|]. intros y Hy.
  eapply tr_bind; [exact IH|]. intros ys Hys. apply tr_ret. by constructor.
Qed.

Lemma tr_filterM {A} (f : A -> M bool) l (R : A -> Prop) :
  (forall x, readonly (f x)) -> Forall R l -> tr (filterM f l) (Forall R).
Proof.
  intros Hf. induction 1 as [|x l Hx _ IH]; cbn [filterM]; [by apply tr_ret|].
  eapply tr_bind; [apply readonly_tr, Hf|]. intros keep _.
  eapply tr_bind; [exact IH|]. intros kept Hk. apply tr_ret.
  destruct keep; [by constructor | exact Hk].
Qed.

Lemma readonly_keep (g : InventoryBatch -> bool) l :
  readonly (b ← readBatch l; ret (g b)).
Proof. apply readonly_bind; [apply readonly_readBatch|]. intros b. apply readonly_ret. Qed.

Lemma readonly_keepDelivery (g : PendingDelivery -> bool) l :
  readonly (d ← readDelivery l; ret (g d)).
Proof. apply readonly_bind; [apply readonly_readDelivery|]. intros b. apply readonly_ret. Qed.

(** *** Ledger operations *)

Lemma tr_inventoryOf state : isNew state -> tr (inventoryOf state) isNew.
Proof.
  intros Hs. eapply tr_bind; [by apply tr_readState|].
  intros [[d i] p] [Hi Hp]. by apply tr_ret.
Qed.

Lemma tr_pendingOf state : isNew state -> tr (pendingOf state) isNew.
Proof.
  intros Hs. eapply tr_bind; [by apply tr_readState|].
  intros [[d i] p] [Hi Hp]. by apply tr_ret.
Qed.

Lemma tr_push arr l : isNew arr -> isNew l -> tr (push arr l) anything.
Proof.
  intros Ha Hl. eapply tr_bind; [by apply tr_readArray|]. intros elems He.
  apply tr_writeArray; [exact Ha|]. apply Forall_app. split; [exact He | by constructor].
Qed.

Lemma insertKeyed_Forall (P : positive * Z -> Prop) x l :
  P x -> Forall P l -> Forall P (insertKeyed x l).
Proof.
  intros Hx. induction 1 as [|y l Hy Hl IH]; cbn [insertKeyed]; [by repeat constructor|].
  destruct (snd x <=? snd y); repeat (constructor; try assumption).
Qed.

Lemma sortKeyed_Forall (P : positive * Z -> Prop) l : Forall P l -> Forall P (sortKeyed l).
Proof.
  induction 1 as [|y l Hy Hl IH]; cbn [sortKeyed]; [constructor|].
  by apply insertKeyed_Forall.
Qed.

Lemma tr_sortFifoH arr : isNew arr -> tr (sortFifoH arr) anything.
Proof.
  intros Ha. eapply tr_bind; [by apply tr_readArray|]. intros elems He.
  eapply tr_bind.
  { apply (tr_mapM _ _ (fun y => isNew (fst y))).
    eapply List.Forall_impl; [|exact He]. intros l Hl.
    eapply tr_bind; [apply readonly_tr, readonly_readBatch|]. intros b _. by apply tr_ret. }
  intros keyed Hk. apply tr_writeArray; [exact Ha|].
  apply Forall_fmap. apply sortKeyed_Forall in Hk.
  eapply List.Forall_impl; [|exact Hk]. by intros [l k].
Qed.

Lemma tr_pruneEmptyH arr : isNew arr -> tr (pruneEmptyH arr) anything.
Proof.
  intros Ha. eapply tr_bind; [by apply tr_readArray|]. intros elems He.
  eapply tr_bind; [apply tr_filterM; [intros x; apply readonly_keep | exact He]|].
  intros kept Hk. by apply tr_writeArray.
Qed.

Lemma tr_take_loopH sku st elems : forall remaining taken,
  Forall isNew elems -> tr (take_loopH sku st elems remaining taken) anything.
Proof.
  induction elems as [|l rest IH]; intros remaining taken He; cbn [take_loopH];
    [by apply tr_ret|].
  inversion He as [|? ? Hl Hrest]; subst.
  destruct (remaining <=? 0); [by apply tr_ret|].
  eapply tr_bind; [apply readonly_tr, readonly_readBatch|]. intros b _.
  destruct (negb (is_of sku st b)); [by apply IH|].
  cbv zeta. destruct (Z.min (qty b) remaining <=? 0); [by apply IH|].
  eapply tr_bind; [by apply tr_writeBatch|]. intros _ _. by apply IH.
Qed.

Lemma tr_takeFromBatchesH arr sku st qtyWanted :
  isNew arr -> tr (takeFromBatchesH arr sku st qtyWanted) anything.
Proof.
  intros Ha. unfold takeFromBatchesH. destruct (qtyWanted <=? 0); [by apply tr_ret|].
  eapply tr_bind; [by apply tr_sortFifoH|]. intros _ _.
  eapply tr_bind; [by apply tr_readArray|]. intros elems He.
  eapply tr_bind; [by apply tr_take_loopH|]. intros taken _.
  eapply tr_bind; [by apply tr_pruneEmptyH|]. intros _ _. by apply tr_ret.
Qed.

(** The caller's pricing array is read and copied; only the copy is
    sorted. *)
Lemma tr_applyPricingH item policy minDays : tr (applyPricingH item policy minDays) anything.
Proof.
  unfold applyPricingH. eapply tr_bind.
  { apply readonly_tr. destruct (pricing policy); [apply readonly_readRules | apply readonly_ret]. }
  intros given _. eapply tr_bind; [by apply tr_alloc|]. intros rules Hr.
  eapply tr_bind; [by apply tr_writeRules|]. intros _ _.
  eapply tr_bind; [apply readonly_tr, readonly_readRules|]. intros sorted _.
  by apply tr_ret.
Qed.

Lemma tr_createInitialStateH items policy : tr (createInitialStateH items policy) isNew.
Proof.
  unfold createInitialStateH.
  eapply tr_bind; [apply (tr_lift _ anything); done|]. intros _ _.
  eapply tr_bind; [apply tr_alloc; constructor|]. intros inventory Hi.
  eapply tr_bind.
  { apply tr_forEach. apply List.Forall_forall. intros item _.
    eapply tr_bind; [apply (tr_lift _ anything); done|]. intros p _. cbv zeta.
    destruct (0 <? _); [|by apply tr_ret].
    eapply tr_bind; [by apply tr_alloc|]. intros b Hb. by apply tr_push. }
  intros _ _. eapply tr_bind; [apply tr_alloc; constructor|]. intros pending Hp.
  by apply tr_alloc.
Qed.

(** *** structuredClone *)

Definition memoNew (memo : gmap positive positive) : Prop :=
  map_Forall (fun _ l' => isNew l') memo.

Lemma tr_cloneLeaf memo l :
  memoNew memo -> tr (cloneLeaf memo l) (fun r => isNew (fst r) /\ memoNew (snd r)).
Proof.
  intros Hm. unfold cloneLeaf. destruct (memo !! l) as [l'|] eqn:E.
  { apply tr_ret. split; [exact (Hm _ _ E) | exact Hm]. }
  intros h Hh. destruct (h !! l) as [[b|d| | |]|]; try (split; [exact Hh | discriminate]).
  - revert h Hh. change (tr (l' ← alloc (OBatch b); ret (l', <[l := l']> memo))
                           (fun r => isNew (fst r) /\ memoNew (snd r))).
    eapply tr_bind; [by apply tr_alloc|]. intros l' Hl'. apply tr_ret.
    split; [exact Hl'|]. by apply map_Forall_insert_2.
  - revert h Hh. change (tr (l' ← alloc (ODelivery d); ret (l', <[l := l']> memo))
                           (fun r => isNew (fst r) /\ memoNew (snd r))).
    eapply tr_bind; [by apply tr_alloc|]. intros l' Hl'. apply tr_ret.
    split; [exact Hl'|]. by apply map_Forall_insert_2.
Qed.

Lemma tr_cloneElems elems : forall memo,
  memoNew memo ->
  tr (cloneElems memo elems) (fun r => Forall isNew (fst r) /\ memoNew (snd r)).
Proof.
  induction elems as [|l rest IH]; intros memo Hm; cbn [cloneElems].
  - apply tr_ret. by split.
  - eapply tr_bind; [by apply tr_cloneLeaf|]. intros [l' memo1] [Hl' Hm1].
    eapply tr_bind; [by apply IH|]. intros [rest' memo2] [Hr Hm2].
    apply tr_ret. split; [by constructor | exact Hm2].
Qed.

Lemma tr_cloneArray memo arr :
  memoNew memo -> tr (cloneArray memo arr) (fun r => isNew (fst r) /\ memoNew (snd r)).
Proof.
  intros Hm. unfold cloneArray. destruct (memo !! arr) as [arr'|] eqn:E.
  { apply tr_ret. split; [exact (Hm _ _ E) | exact Hm]. }
  eapply tr_bind; [apply readonly_tr, readonly_readArray|]. intros elems _.
  eapply tr_bind; [by apply tr_cloneElems|]. intros [elems' memo1] [He Hm1].
  eapply tr_bind; [by apply tr_alloc|]. intros arr' Ha. apply tr_ret.
  split; [exact Ha|]. by apply map_Forall_insert_2.
Qed.

Lemma tr_structuredCloneH state : tr (structuredCloneH state) isNew.
Proof.
  unfold structuredCloneH.
  eapply tr_bind; [apply readonly_tr, readonly_readState|]. intros [[d i] p] _.
  eapply tr_bind; [apply tr_cloneArray, map_Forall_empty|]. intros [i' memo1] [Hi Hm1].
  eapply tr_bind; [by apply tr_cloneArray|]. intros [p' memo2] [Hp _].
  by apply tr_alloc.
Qed.

(** *** The daily pipeline *)

Lemma tr_receiveDeliveriesH items state :
  isNew state -> tr (receiveDeliveriesH items state) anything.
Proof.
  intros Hs. unfold receiveDeliveriesH.
  eapply tr_bind; [by apply tr_pendingOf|]. intros pending Hp.
  eapply tr_bind; [by apply tr_readArray|]. intros elems He.
  eapply tr_bind.
  { apply tr_forEach. eapply List.Forall_impl; [|exact He]. intros l Hl.
    eapply tr_bind; [apply readonly_tr, readonly_readDelivery|]. intros d _.
    by apply tr_writeDelivery. }
  intros _ _.
  eapply tr_bind; [apply tr_filterM; [intros x; apply readonly_keepDelivery | exact He]|].
  intros arriving Harr.
  eapply tr_bind; [apply tr_filterM; [intros x; apply readonly_keepDelivery | exact He]|].
  intros waiting Hw.
  eapply tr_bind; [by apply tr_alloc|]. intros pending' Hp'.
  eapply tr_bind; [by apply tr_readState|]. intros [[d i] p] [Hi _].
  eapply tr_bind; [by apply tr_writeState|]. intros _ _.
  apply tr_forEach. eapply List.Forall_impl; [|exact Harr]. intros l Hl.
  eapply tr_bind; [apply readonly_tr, readonly_readDelivery|]. intros a _.
  destruct (findItem items (pd_sku a)); [|by apply tr_ret].
  eapply tr_bind; [by apply tr_inventoryOf|]. intros inventory Hinv.
  eapply tr_bind; [by apply tr_alloc|]. intros b Hb. by apply tr_push.
Qed.

Lemma tr_freeze_loopH item p arr elems : forall remainingCap frozenMoved,
  isNew arr -> Forall isNew elems ->
  tr (freeze_loopH item p arr elems remainingCap frozenMoved) anything.
Proof.
  induction elems as [|l rest IH]; intros cap moved Ha He; cbn [freeze_loopH];
    [by apply tr_ret|].
  inversion He as [|? ? Hl Hrest]; subst.
  destruct (cap <=? 0); [by apply tr_ret|].
  eapply tr_bind; [apply readonly_tr, readonly_readBatch|]. intros b _.
  destruct (negb _ || _); [by apply IH|].
  cbv zeta. destruct (Z.min (qty b) cap <=? 0); [by apply IH|].
  eapply tr_bind; [by apply tr_writeBatch|]. intros _ _.
  eapply tr_bind; [by apply tr_alloc|]. intros nb Hnb.
  eapply tr_bind; [by apply tr_push|]. intros _ _. by apply IH.
Qed.

Lemma tr_freezeStageH item p arr : isNew arr -> tr (freezeStageH item p arr) anything.
Proof.
  intros Ha. unfold freezeStageH. destruct (canFreeze item && _); [|by apply tr_ret].
  eapply tr_bind; [by apply tr_sortFifoH|]. intros _ _.
  eapply tr_bind; [by apply tr_readArray|]. intros elems He.
  eapply tr_bind; [by apply tr_freeze_loopH|]. intros moved _.
  eapply tr_bind; [by apply tr_pruneEmptyH|]. intros _ _. by apply tr_ret.
Qed.

Lemma tr_donateStageH item p arr : isNew arr -> tr (donateStageH item p arr) anything.
Proof.
  intros Ha. unfold donateStageH. destruct (Qltb 0 _); [|by apply tr_ret]. cbv zeta.
  eapply tr_bind; [by apply tr_sortFifoH|]. intros _ _.
  eapply tr_bind; [apply readonly_tr, readonly_loadBatches|]. intros batches _.
  by apply tr_takeFromBatchesH.
Qed.

Lemma tr_ageStageH sku arr : isNew arr -> tr (ageStageH sku arr) anything.
Proof.
  intros Ha. unfold ageStageH.
  eapply tr_bind; [by apply tr_readArray|]. intros elems He.
  eapply tr_bind.
  { apply tr_forEach. eapply List.Forall_impl; [|exact He]. intros l Hl.
    eapply tr_bind; [apply readonly_tr, readonly_readBatch|]. intros b _.
    destruct (String.eqb (b_sku b) sku); [by apply tr_writeBatch | by apply tr_ret]. }
  intros _ _.
  eapply tr_bind; [apply readonly_tr, readonly_loadBatches|]. intros aged _.
  eapply tr_bind; [apply tr_filterM; [intros x; apply readonly_keep | exact He]|].
  intros kept Hk.
  eapply tr_bind; [by apply tr_writeArray|]. intros _ _. by apply tr_ret.
Qed.

Lemma tr_reorderStageH item p freshOnHandNow state :
  isNew state -> tr (reorderStageH item p freshOnHandNow state) anything.
Proof.
  intros Hs. unfold reorderStageH. destruct (Qleb _ _); [|by apply tr_ret]. cbv zeta.
  destruct (0 <? _); [|by apply tr_ret].
  eapply tr_bind; [by apply tr_pendingOf|]. intros pending Hp.
  eapply tr_bind; [by apply tr_alloc|]. intros d Hd. by apply tr_push.
Qed.

Section Pipeline.
Variable pow : Q -> Q -> Q.
Variable boxMuller : Q -> Q -> Q.

Lemma tr_runSkuH config item p state rng :
  isNew state -> tr (runSkuH pow boxMuller config item p state rng) anything.
Proof.
  intros Hs. unfold runSkuH. cbv zeta.
  eapply tr_bind; [by apply tr_inventoryOf|]. intros inv Hinv.
  eapply tr_bind; [apply readonly_tr, readonly_sumQtyH|]. intros startingFresh _.
  eapply tr_bind; [apply readonly_tr, readonly_sumQtyH|]. intros startingFrozen _.
  eapply tr_bind; [by apply tr_freezeStageH|]. intros frozenMoved _.
  eapply tr_bind; [by apply tr_donateStageH|]. intros donated _.
  eapply tr_bind; [apply readonly_tr, readonly_loadBatches|]. intros batches _.
  eapply tr_bind; [apply tr_applyPricingH|]. intros [price multiplier] _.
  destruct (demandForDay pow boxMuller item multiplier rng (demandNoiseStdDev config))
    as [demand rng'].
  eapply tr_bind; [by apply tr_takeFromBatchesH|]. intros soldFresh _.
  eapply tr_bind.
  { instantiate (1 := anything). destruct (0 <? _); [by apply tr_takeFromBatchesH | by apply tr_ret]. }
  intros soldFrozen _.
  eapply tr_bind; [apply readonly_tr, readonly_sumQtyH|]. intros onHandFresh _.
  eapply tr_bind; [apply readonly_tr, readonly_sumQtyH|]. intros onHandFrozen _.
  eapply tr_bind.
  { instantiate (1 := anything). destruct (0 <? _); [|by apply tr_ret].
    eapply tr_bind; [by apply tr_takeFromBatchesH|]. intros lostFresh _.
    destruct (0 <? _); [|by apply tr_ret].
    eapply tr_bind; [by apply tr_takeFromBatchesH|]. intros _ _. by apply tr_ret. }
  intros _ _.
  eapply tr_bind; [apply readonly_tr, readonly_sumQtyH|]. intros endingFresh _.
  eapply tr_bind; [apply readonly_tr, readonly_sumQtyH|]. intros endingFrozen _.
  eapply tr_bind; [by apply tr_ageStageH|]. intros wasted _.
  eapply tr_bind; [apply readonly_tr, readonly_sumQtyH|]. intros freshOnHandNow _.
  eapply tr_bind; [by apply tr_reorderStageH|]. intros _ _.
  by apply tr_ret.
Qed.

Lemma tr_skuLoopH config policy items state : forall rng tot rows,
  isNew state -> tr (skuLoopH pow boxMuller config policy items state rng tot rows) anything.
Proof.
  induction items as [|item rest IH]; intros rng tot rows Hs; cbn [skuLoopH];
    [by apply tr_ret|].
  eapply tr_bind; [apply (tr_lift _ anything); done|]. intros p _.
  eapply tr_bind; [by apply tr_runSkuH|]. intros [row rng'] _. by apply IH.
Qed.

Lemma tr_dayStepH config policy items idx state rng tot :
  isNew state -> tr (dayStepH pow boxMuller config policy items idx state rng tot) anything.
Proof.
  intros Hs. unfold dayStepH.
  eapply tr_bind; [by apply tr_receiveDeliveriesH|]. intros _ _.
  eapply tr_bind; [by apply tr_skuLoopH|]. intros [[rng' tot'] rows] _.
  eapply tr_bind; [by apply tr_readState|]. intros [[d i] p] [Hi Hp].
  eapply tr_bind; [by apply tr_writeState|]. intros _ _. by apply tr_ret.
Qed.

Lemma tr_dayLoopH config policy items n : forall idx state rng tot acc,
  isNew state ->
  tr (dayLoopH pow boxMuller config policy items n idx state rng tot acc) anything.
Proof.
  induction n as [|n IH]; intros idx state rng tot acc Hs; cbn [dayLoopH];
    [by apply tr_ret|].
  eapply tr_bind; [by apply tr_dayStepH|]. intros [[rng' tot'] dm] _. by apply IH.
Qed.

Lemma tr_simulateInventoryH opts : tr (simulateInventoryH pow boxMuller opts) anything.
Proof.
  unfold simulateInventoryH. cbv zeta.
  eapply tr_bind; [apply (tr_lift _ anything); done|]. intros _ _.
  eapply tr_bind.
  { instantiate (1 := isNew).
    destruct (call_initialState opts); [apply tr_structuredCloneH | apply tr_createInitialStateH]. }
  intros state Hs.
  eapply tr_bind; [by apply tr_dayLoopH|]. intros [tot daysOut] _. by apply tr_ret.
Qed.

End Pipeline.

Lemma Inv_initial : Inv h0.
Proof.
  split; [done|]. intros l o Hl H. unfold isNew in Hl. congruence.
Qed.

End Frame.

Section Calls.
Variable pow : Q -> Q -> Q.
Variable boxMuller : Q -> Q -> Q.

(** C10.  A call of [simulateInventory] leaves every object that existed
    when it was called exactly as it was, whatever the outcome: a supplied
    initialState (its state object, its two arrays, every batch and delivery
    they refer to) is only read, to be deep-cloned; the pricing arrays of the
    policy are only read, to be copied; all writes go to objects the call
    created.  Items and config are never assigned to by the source and are
    values of the model; the result refers to the items, policy and config
    it was given. *)
Theorem simulateInventory_does_not_mutate_arguments (opts : CallOpts)
    (h : gmap positive obj) :
  let h' := snd (simulateInventoryH pow boxMuller opts h) in
  (forall l o, h !! l = Some o -> h' !! l = Some o)
  /\ (forall res, fst (simulateInventoryH pow boxMuller opts h) = Ok res ->
        r_items res = call_items opts /\ r_policy res = call_policy opts
        /\ r_config res = call_config opts).
Proof.
  cbv zeta. split.
  - exact (proj1 (proj1 (tr_simulateInventoryH h pow boxMuller opts h (Inv_initial h)))).
  - intros res H. unfold simulateInventoryH in H. cbv zeta in H.
    unfold mbind, M_bind, bind, lift in H.
    destruct (ensurePolicyComplete _ _); [|discriminate].
    set (m := match call_initialState opts with
              | Some l => structuredCloneH l
              | None => createInitialStateH (call_items opts) (call_policy opts)
              end) in H.
    destruct (m h) as [[state|msg] h1]; [|discriminate].
    destruct (dayLoopH _ _ _ _ _ _ _ _ _ _ _ h1) as [[[tot daysOut]|msg] h2];
      [|discriminate].
    cbn in H. by injection H as <-.
Qed.


End Calls.

End StoreFacts.

(** * The store model refines the value-level model

    When the arguments of a call are laid out in the store without sharing
    inside the initial state (no batch or delivery object in two slots, the
    two arrays distinct), every store-level function returns what its
    value-level counterpart returns, on stores that represent the same
    ledger, queue and policy. *)

Module StoreRefinement.
Import Store.

(** [m] run on [h] returns [a] and leaves [h']. *)
Definition runs {A} (m : M A) (h : gmap positive obj) (a : A) (h' : gmap positive obj) : Prop :=
  m h = (Ok a, h').

Lemma runs_ret {A} (a : A) h : runs (mret a) h a h.
Proof. reflexivity. Qed.

Lemma runs_bind {A B} (m : M A) (f : A -> M B) h a h1 b h2 :
  runs m h a h1 -> runs (f a) h1 b h2 -> runs (mbind f m) h b h2.
Proof. unfold runs, mbind, M_bind, bind. by intros -> ->. Qed.

Lemma runs_lift {A} (r : result A) a h : r = Ok a -> runs (lift r) h a h.
Proof. by intros ->. Qed.

Definition isBatch (o : obj) : bool :=
  match o with OBatch _ => true | _ => false end.

(** Every object of [h] that is not a batch and not at a location of [S] is
    the same in [h']. *)
Definition differs (S : list positive) (h h' : gmap positive obj) : Prop :=
  forall l o, h !! l = Some o -> isBatch o = false -> l ∉ S -> h' !! l = Some o.

Lemma differs_refl S h : differs S h h.
Proof. by intros l o H _ _. Qed.

Lemma differs_trans S h1 h2 h3 : differs S h1 h2 -> differs S h2 h3 -> differs S h1 h3.
Proof. intros H12 H23 l o H Hb Hs. apply H23; [|done|done]. by apply H12. Qed.

Lemma differs_weaken S S' h h' : S ⊆ S' -> differs S h h' -> differs S' h h'.
Proof. intros Hs H l o Hl Hb Hn. apply H; [done|done|]. intros Hin. by apply Hn, Hs. Qed.

Definition batchesAt (h : gmap positive obj) (elems : list positive)
    (bs : list InventoryBatch) : Prop :=
  Forall2 (fun l b => h !! l = Some (OBatch b)) elems bs.

(** The array at [arr] is a ledger with the entries [bs], no two slots
    sharing a batch object. *)
Definition ledgerAt (h : gmap positive obj) (arr : positive) (bs : list InventoryBatch)
    : Prop :=
  exists elems, h !! arr = Some (OArray elems) /\ NoDup elems /\ batchesAt h elems bs.

Lemma batchesAt_elem h elems bs l :
  batchesAt h elems bs -> l ∈ elems -> exists b, h !! l = Some (OBatch b).
Proof.
  induction 1 as [|l' b e bs' Hl _ IH]; [by intros ?%elem_of_nil|].
  intros [->|Hin]%elem_of_cons; [by exists b | by apply IH].
Qed.

Lemma batchesAt_insert h elems bs l o :
  l ∉ elems -> batchesAt h elems bs -> batchesAt (<[l := o]> h) elems bs.
Proof.
  intros Hl H. induction H as [|l' b e bs' Hl' _ IH]; constructor.
  - rewrite lookup_insert_ne; [done|]. intros ->. apply Hl. by left.
  - apply IH. intros Hin. apply Hl. by right.
Qed.

Lemma batchesAt_other h elems bs l o :
  h !! l = Some o -> isBatch o = false -> batchesAt h elems bs -> l ∉ elems.
Proof.
  intros Hl Hb H Hin. destruct (batchesAt_elem _ _ _ _ H Hin) as [b Hb'].
  rewrite Hl in Hb'. by injection Hb' as ->.
Qed.

Lemma batchesAt_fresh h elems bs l :
  h !! l = None -> batchesAt h elems bs -> l ∉ elems.
Proof.
  intros Hl H Hin. destruct (batchesAt_elem _ _ _ _ H Hin) as [b Hb']. congruence.
Qed.

Lemma fresh_None (h : gmap positive obj) : h !! base.fresh (dom h) = None.
Proof. apply not_elem_of_dom, is_fresh. Qed.

Lemma lookup_alloc (h : gmap positive obj) x o l o' :
  h !! x = Some o -> h !! l = None -> <[l := o']> h !! x = Some o.
Proof. intros Hx Hl. rewrite lookup_insert_ne; [done|]. congruence. Qed.

(** *** The primitives *)

Lemma runs_alloc o h :
  runs (alloc o) h (base.fresh (dom h)) (<[base.fresh (dom h) := o]> h).
Proof. reflexivity. Qed.

Lemma runs_readBatch h l b : h !! l = Some (OBatch b) -> runs (readBatch l) h b h.
Proof. unfold runs, readBatch. by intros ->. Qed.

Lemma runs_writeBatch h l b b' :
  h !! l = Some (OBatch b) -> runs (writeBatch l b') h tt (<[l := OBatch b']> h).
Proof. unfold runs, writeBatch. by intros ->. Qed.

Lemma runs_readDelivery h l d : h !! l = Some (ODelivery d) -> runs (readDelivery l) h d h.
Proof. unfold runs, readDelivery. by intros ->. Qed.

Lemma runs_writeDelivery h l d d' :
  h !! l = Some (ODelivery d) -> runs (writeDelivery l d') h tt (<[l := ODelivery d']> h).
Proof. unfold runs, writeDelivery. by intros ->. Qed.

Lemma runs_readArray h l e : h !! l = Some (OArray e) -> runs (readArray l) h e h.
Proof. unfold runs, readArray. by intros ->. Qed.

Lemma runs_writeArray h l e e' :
  h !! l = Some (OArray e) -> runs (writeArray l e') h tt (<[l := OArray e']> h).
Proof. unfold runs, writeArray. by intros ->. Qed.

Lemma runs_readRules h l r : h !! l = Some (ORules r) -> runs (readRules l) h r h.
Proof. unfold runs, readRules. by intros ->. Qed.

Lemma runs_writeRules h l r r' :
  h !! l = Some (ORules r) -> runs (writeRules l r') h tt (<[l := ORules r']> h).
Proof. unfold runs, writeRules. by intros ->. Qed.

Lemma runs_readState h l d i p :
  h !! l = Some (OState d i p) -> runs (readState l) h (d, i, p) h.
Proof. unfold runs, readState. by intros ->. Qed.

Lemma runs_writeState h l d i p d' i' p' :
  h !! l = Some (OState d i p) ->
  runs (writeState l d' i' p') h tt (<[l := OState d' i' p']> h).
Proof. unfold runs, writeState. by intros ->. Qed.

Lemma runs_push h arr e l :
  h !! arr = Some (OArray e) -> runs (push arr l) h tt (<[arr := OArray (e ++ [l])]> h).
Proof.
  intros H. eapply runs_bind; [by apply runs_readArray|]. by eapply runs_writeArray.
Qed.

(** *** Reading a ledger *)

Lemma runs_mapM_readBatch h elems bs :
  batchesAt h elems bs -> runs (mapM readBatch elems) h bs h.
Proof.
  induction 1 as [|l b e bs' Hl _ IH]; cbn [mapM]; [apply runs_ret|].
  eapply runs_bind; [by apply runs_readBatch|].
  eapply runs_bind; [exact IH|]. apply runs_ret.
Qed.

Lemma runs_loadBatches h arr bs :
  ledgerAt h arr bs -> runs (loadBatches arr) h bs h.
Proof.
  intros (e & Ha & _ & Hb).
  eapply runs_bind; [by apply runs_readArray|]. by apply runs_mapM_readBatch.
Qed.

Lemma runs_sumQtyH h arr bs sku st :
  ledgerAt h arr bs -> runs (sumQtyH arr sku st) h (sumQty bs sku st) h.
Proof.
  intros H. eapply runs_bind; [by apply runs_loadBatches|]. apply runs_ret.
Qed.


(** *** sortFifo *)

Definition keyedAt (h : gmap positive obj) (x : positive * Z) (b : InventoryBatch) : Prop :=
  h !! x.1 = Some (OBatch b) /\ x.2 = daysToExpire b.

Lemma runs_keyed h elems bs :
  batchesAt h elems bs ->
  exists keyed,
    runs (mapM (fun l => b ← readBatch l; mret (l, daysToExpire b)) elems) h keyed h
    /\ Forall2 (keyedAt h) keyed bs /\ List.map fst keyed = elems.
Proof.
  induction 1 as [|l b e bs' Hl _ (keyed & Hr & Hk & Hf)].
  - exists []. split; [apply runs_ret|]. by split; [constructor|].
  - exists ((l, daysToExpire b) :: keyed). split; [|split].
    + cbn [mapM]. eapply runs_bind.
      { eapply runs_bind; [by apply runs_readBatch | apply runs_ret]. }
      eapply runs_bind; [exact Hr | apply runs_ret].
    + by constructor.
    + cbn. by rewrite Hf.
Qed.

Lemma insertKeyed_insertFifo h x b keyed bs :
  keyedAt h x b -> Forall2 (keyedAt h) keyed bs ->
  Forall2 (keyedAt h) (insertKeyed x keyed) (insertFifo b bs).
Proof.
  intros Hx H. induction H as [|y c k bs' Hy Hrest IH]; cbn [insertKeyed insertFifo].
  - constructor; [exact Hx | constructor].
  - destruct Hx as [Hx1 Hx2], Hy as [Hy1 Hy2]. rewrite Hx2, Hy2.
    destruct (daysToExpire b <=? daysToExpire c).
    + constructor; [done|]. by constructor.
    + constructor; [done|]. apply IH.
Qed.

Lemma sortKeyed_sortFifo h keyed bs :
  Forall2 (keyedAt h) keyed bs -> Forall2 (keyedAt h) (sortKeyed keyed) (sortFifo bs).
Proof.
  induction 1 as [|x b k bs' Hx _ IH]; cbn [sortKeyed sortFifo]; [constructor|].
  by apply insertKeyed_insertFifo.
Qed.

Lemma insertKeyed_perm x keyed : insertKeyed x keyed ≡ₚ x :: keyed.
Proof.
  induction keyed as [|y k IH]; cbn [insertKeyed]; [done|].
  destruct (x.2 <=? y.2); [done|]. rewrite IH. apply Permutation_swap.
Qed.

Lemma sortKeyed_perm keyed : sortKeyed keyed ≡ₚ keyed.
Proof.
  induction keyed as [|x k IH]; cbn [sortKeyed]; [done|].
  rewrite insertKeyed_perm. by rewrite IH.
Qed.

Lemma keyedAt_batchesAt h keyed bs :
  Forall2 (keyedAt h) keyed bs -> batchesAt h (List.map fst keyed) bs.
Proof.
  induction 1 as [|x b k bs' [Hx _] _ IH]; cbn; constructor; [exact Hx | exact IH].
Qed.

Lemma ledgerAt_array h arr elems elems' bs' :
  h !! arr = Some (OArray elems) -> NoDup elems' -> batchesAt h elems' bs' ->
  ledgerAt (<[arr := OArray elems']> h) arr bs'.
Proof.
  intros Ha Hnd Hb. exists elems'. split; [by rewrite lookup_insert_eq|]. split; [done|].
  apply batchesAt_insert; [|done]. by eapply batchesAt_other.
Qed.

Lemma differs_insert S h l o : l ∈ S -> differs S h (<[l := o]> h).
Proof.
  intros Hl l' o' H _ Hn. rewrite lookup_insert_ne; [done|]. by intros ->.
Qed.

Lemma differs_insert_batch S h l b b' :
  h !! l = Some (OBatch b) -> differs S h (<[l := OBatch b']> h).
Proof.
  intros Hl l' o' H Hb _. rewrite lookup_insert_ne; [done|].
  intros ->. rewrite Hl in H. by injection H as <-.
Qed.

Lemma differs_alloc S h o : differs S h (<[base.fresh (dom h) := o]> h).
Proof.
  intros l' o' H _ _. rewrite lookup_insert_ne; [done|].
  intros <-. by rewrite fresh_None in H.
Qed.

Lemma runs_sortFifoH h arr bs :
  ledgerAt h arr bs ->
  exists h', runs (sortFifoH arr) h tt h' /\ ledgerAt h' arr (sortFifo bs)
             /\ differs [arr] h h'.
Proof.
  intros (e & Ha & Hnd & Hb).
  destruct (runs_keyed h e bs Hb) as (keyed & Hr & Hk & Hf).
  exists (<[arr := OArray (List.map fst (sortKeyed keyed))]> h). split; [|split].
  - eapply runs_bind; [by apply runs_readArray|].
    eapply runs_bind; [exact Hr|]. by eapply runs_writeArray.
  - eapply ledgerAt_array; [exact Ha| |].
    + assert (Hp : List.map fst (sortKeyed keyed) ≡ₚ e).
      { rewrite <- Hf. apply Permutation_map, sortKeyed_perm. }
      by rewrite Hp.
    + by apply keyedAt_batchesAt, sortKeyed_sortFifo.
  - apply differs_insert. by left.
Qed.

(** *** pruneEmpty and other filters *)

Lemma runs_filterM_batches h elems bs (g : InventoryBatch -> bool) :
  batchesAt h elems bs -> NoDup elems ->
  exists kept,
    runs (filterM (fun l => b ← readBatch l; mret (g b)) elems) h kept h
    /\ batchesAt h kept (List.filter g bs)
    /\ NoDup kept /\ (forall l, l ∈ kept -> l ∈ elems).
Proof.
  induction 1 as [|l b e bs' Hl _ IH]; intros Hnd.
  - exists []. split; [apply runs_ret|]. split; [constructor|]. by split; [constructor|].
  - apply NoDup_cons in Hnd as [Hnl Hnd].
    destruct (IH Hnd) as (kept & Hr & Hb & Hk & Hsub).
    exists (if g b then l :: kept else kept). split; [|split; [|split]].
    + cbn [filterM]. eapply runs_bind.
      { eapply runs_bind; [by apply runs_readBatch | apply runs_ret]. }
      eapply runs_bind; [exact Hr | apply runs_ret].
    + cbn [List.filter]. destruct (g b); [by constructor | done].
    + destruct (g b); [|done]. apply NoDup_cons. split; [|done].
      intros Hin. by apply Hnl, Hsub.
    + intros l'. destruct (g b).
      * intros [->|Hin]%elem_of_cons; [by left | right; by apply Hsub].
      * intros Hin. right. by apply Hsub.
Qed.

Lemma runs_pruneEmptyH h arr bs :
  ledgerAt h arr bs ->
  exists h', runs (pruneEmptyH arr) h tt h' /\ ledgerAt h' arr (pruneEmpty bs)
             /\ differs [arr] h h'.
Proof.
  intros (e & Ha & Hnd & Hb).
  destruct (runs_filterM_batches h e bs (fun b => 0 <? qty b) Hb Hnd)
    as (kept & Hr & Hk & Hndk & _).
  exists (<[arr := OArray kept]> h). split; [|split].
  - eapply runs_bind; [by apply runs_readArray|].
    eapply runs_bind; [exact Hr|]. by eapply runs_writeArray.
  - by eapply ledgerAt_array.
  - apply differs_insert. by left.
Qed.

(** *** takeFromBatches *)

Lemma runs_take_loopH sku st elems : forall bs h remaining taken,
  batchesAt h elems bs -> NoDup elems ->
  exists h',
    runs (take_loopH sku st elems remaining taken) h
         (snd (take_loop sku st bs remaining taken)) h'
    /\ batchesAt h' elems (fst (take_loop sku st bs remaining taken))
    /\ (forall l, l ∉ elems -> h' !! l = h !! l).
Proof.
  induction elems as [|l e IH]; intros bs h remaining taken Hb Hnd.
  - apply Forall2_nil_inv_l in Hb as ->. exists h. cbn. split; [apply runs_ret|].
    by split; [constructor|].
  - apply Forall2_cons_inv_l in Hb as (b & bs' & Hl & Hb & ->).
    apply NoDup_cons in Hnd as [Hnl Hnd].
    cbn [take_loopH take_loop].
    destruct (remaining <=? 0).
    { exists h. split; [apply runs_ret|]. split; [by constructor | done]. }
    destruct (negb (is_of sku st b)) eqn:Eof.
    { destruct (IH bs' h remaining taken Hb Hnd) as (h' & Hr & Hb' & Hfr).
      exists h'. destruct (take_loop sku st bs' remaining taken) as [rest' t].
      cbn [fst snd] in *. split; [|split].
      - eapply runs_bind; [by apply runs_readBatch|]. by rewrite Eof.
      - constructor; [|done]. by rewrite Hfr.
      - intros l' Hn. apply Hfr. intros Hin. apply Hn. by right. }
    cbv zeta. destruct (Z.min (qty b) remaining <=? 0) eqn:Eq.
    { destruct (IH bs' h remaining taken Hb Hnd) as (h' & Hr & Hb' & Hfr).
      exists h'. destruct (take_loop sku st bs' remaining taken) as [rest' t].
      cbn [fst snd] in *. split; [|split].
      - eapply runs_bind; [by apply runs_readBatch|]. cbv beta. by rewrite Eof, Eq.
      - constructor; [|done]. by rewrite Hfr.
      - intros l' Hn. apply Hfr. intros Hin. apply Hn. by right. }
    set (q := Z.min (qty b) remaining) in *.
    set (h1 := <[l := OBatch (set_qty b (qty b - q))]> h).
    destruct (IH bs' h1 (remaining - q) (taken + q)) as (h' & Hr & Hb' & Hfr);
      [by apply batchesAt_insert | done |].
    exists h'. destruct (take_loop sku st bs' (remaining - q) (taken + q)) as [rest' t].
    cbn [fst snd] in *. split; [|split].
    + eapply runs_bind; [by apply runs_readBatch|]. cbv beta. fold q. rewrite Eof, Eq.
      eapply runs_bind; [by eapply runs_writeBatch|]. exact Hr.
    + constructor; [|done]. rewrite Hfr by done. unfold h1. by rewrite lookup_insert_eq.
    + intros l' Hn. rewrite Hfr.
      * unfold h1. rewrite lookup_insert_ne; [done|]. intros ->. apply Hn. by left.
      * intros Hin. apply Hn. by right.
Qed.

(** A ledger whose batches were written in place. *)
Lemma ledgerAt_rewritten h h' arr elems bs' :
  h !! arr = Some (OArray elems) -> NoDup elems ->
  batchesAt h' elems bs' -> (forall l, l ∉ elems -> h' !! l = h !! l) ->
  (exists bs, batchesAt h elems bs) ->
  ledgerAt h' arr bs' /\ differs [arr] h h'.
Proof.
  intros Ha Hnd Hb' Hfr [bs Hb]. split.
  - exists elems. split; [|done]. rewrite Hfr; [done|]. by eapply batchesAt_other.
  - intros l o Hl Ho _. rewrite Hfr; [done|]. by eapply batchesAt_other.
Qed.

Lemma runs_takeFromBatchesH h arr bs sku st qtyWanted :
  ledgerAt h arr bs ->
  exists h',
    runs (takeFromBatchesH arr sku st qtyWanted) h
         (snd (takeFromBatches bs sku st qtyWanted)) h'
    /\ ledgerAt h' arr (fst (takeFromBatches bs sku st qtyWanted))
    /\ differs [arr] h h'.
Proof.
  intros Hl. unfold takeFromBatchesH, takeFromBatches.
  destruct (qtyWanted <=? 0).
  { exists h. split; [apply runs_ret|]. split; [done | apply differs_refl]. }
  destruct (runs_sortFifoH h arr bs Hl) as (h1 & Hr1 & (e & Ha & Hnd & Hb) & Hd1).
  destruct (runs_take_loopH sku st e (sortFifo bs) h1 qtyWanted 0 Hb Hnd)
    as (h2 & Hr2 & Hb2 & Hfr).
  destruct (ledgerAt_rewritten h1 h2 arr e _ Ha Hnd Hb2 Hfr (ex_intro _ _ Hb)) as [Hl2 Hd2].
  destruct (runs_pruneEmptyH h2 arr _ Hl2) as (h3 & Hr3 & Hl3 & Hd3).
  exists h3. destruct (take_loop sku st (sortFifo bs) qtyWanted 0) as [bs' taken].
  cbn [fst snd] in *. split; [|split].
  - eapply runs_bind; [exact Hr1|]. eapply runs_bind; [by apply runs_readArray|].
    eapply runs_bind; [exact Hr2|]. eapply runs_bind; [exact Hr3|]. apply runs_ret.
  - exact Hl3.
  - eapply differs_trans; [exact Hd1|]. eapply differs_trans; [exact Hd2 | exact Hd3].
Qed.


(** *** Frames *)

(** Every object of [h] at a location outside [S] is the same in [h']. *)
Definition sameExcept (S : list positive) (h h' : gmap positive obj) : Prop :=
  forall l o, h !! l = Some o -> l ∉ S -> h' !! l = Some o.

Lemma sameExcept_refl S h : sameExcept S h h.
Proof. by intros l o H _. Qed.

Lemma sameExcept_trans S h1 h2 h3 :
  sameExcept S h1 h2 -> sameExcept S h2 h3 -> sameExcept S h1 h3.
Proof. intros H12 H23 l o H Hs. apply H23; [|done]. by apply H12. Qed.

Lemma sameExcept_differs S h h' : sameExcept S h h' -> differs S h h'.
Proof. intros H l o Hl _ Hs. by apply H. Qed.

Lemma sameExcept_alloc S h o : sameExcept S h (<[base.fresh (dom h) := o]> h).
Proof.
  intros l' o' H _. rewrite lookup_insert_ne; [done|].
  intros <-. by rewrite fresh_None in H.
Qed.

Lemma sameExcept_insert S h l o : l ∈ S -> sameExcept S h (<[l := o]> h).
Proof. intros Hl l' o' H Hn. rewrite lookup_insert_ne; [done|]. by intros ->. Qed.

Lemma batchesAt_sameExcept S h h' elems bs :
  batchesAt h elems bs -> sameExcept S h h' -> (forall l, l ∈ S -> l ∉ elems) ->
  batchesAt h' elems bs.
Proof.
  intros Hb Hs Hd. induction Hb as [|l b e bs' Hl _ IH]; constructor.
  - apply Hs; [done|]. intros Hin. apply (Hd l Hin). by left.
  - apply IH. intros x Hx Hin. apply (Hd x Hx). by right.
Qed.

Lemma ledgerAt_sameExcept S h h' arr bs :
  ledgerAt h arr bs -> sameExcept S h h' -> arr ∉ S ->
  (forall l b, l ∈ S -> h !! l <> Some (OBatch b)) ->
  ledgerAt h' arr bs.
Proof.
  intros (e & Ha & Hnd & Hb) Hs Harr Hty. exists e. split; [by apply Hs|]. split; [done|].
  eapply batchesAt_sameExcept; [done..|].
  intros l Hl Hin. destruct (batchesAt_elem _ _ _ _ Hb Hin) as [b Hlb]. by eapply Hty.
Qed.

(** *** The queue and the state object *)

Definition deliveriesAt (h : gmap positive obj) (elems : list positive)
    (ds : list PendingDelivery) : Prop :=
  Forall2 (fun l d => h !! l = Some (ODelivery d)) elems ds.

Definition queueAt (h : gmap positive obj) (arr : positive) (ds : list PendingDelivery)
    : Prop :=
  exists elems, h !! arr = Some (OArray elems) /\ NoDup elems /\ deliveriesAt h elems ds.

Lemma deliveriesAt_elem h elems ds l :
  deliveriesAt h elems ds -> l ∈ elems -> exists d, h !! l = Some (ODelivery d).
Proof.
  induction 1 as [|l' d e ds' Hl _ IH]; [by intros ?%elem_of_nil|].
  intros [->|Hin]%elem_of_cons; [by exists d | by apply IH].
Qed.

Lemma deliveriesAt_differs S h h' elems ds :
  deliveriesAt h elems ds -> differs S h h' -> (forall l, l ∈ S -> l ∉ elems) ->
  deliveriesAt h' elems ds.
Proof.
  intros Hb Hs Hd. induction Hb as [|l b e bs' Hl _ IH]; constructor.
  - apply Hs; [done|done|]. intros Hin. apply (Hd l Hin). by left.
  - apply IH. intros x Hx Hin. apply (Hd x Hx). by right.
Qed.

Lemma queueAt_differs S h h' arr ds :
  queueAt h arr ds -> differs S h h' -> arr ∉ S ->
  (forall l d, l ∈ S -> h !! l <> Some (ODelivery d)) ->
  queueAt h' arr ds.
Proof.
  intros (e & Ha & Hnd & Hb) Hs Harr Hty. exists e. split; [by apply Hs|]. split; [done|].
  eapply deliveriesAt_differs; [done..|].
  intros l Hl Hin. destruct (deliveriesAt_elem _ _ _ _ Hb Hin) as [d Hld]. by eapply Hty.
Qed.

(** *** Policies *)

Definition rulesAt (h : gmap positive obj) (ref : option positive)
    (rules : list PricingRule) : Prop :=
  match ref with
  | Some l => h !! l = Some (ORules rules)
  | None => rules = []
  end.

Definition sameFields (pr : ItemPolicyOf (option positive)) (p : ItemPolicy) : Prop :=
  p_sku pr = p_sku p /\ reorderPoint pr = reorderPoint p /\ orderUpTo pr = orderUpTo p
  /\ donateDaysToExpireAtMost pr = donateDaysToExpireAtMost p
  /\ donateMaxFractionPerDay pr = donateMaxFractionPerDay p
  /\ freezeDaysToExpireAtMost pr = freezeDaysToExpireAtMost p
  /\ freezeMaxUnitsPerDay pr = freezeMaxUnitsPerDay p.

Definition itemPolicyAt (h : gmap positive obj) (pr : ItemPolicyOf (option positive))
    (p : ItemPolicy) : Prop :=
  sameFields pr p /\ rulesAt h (pricing pr) (pricing p).

Lemma rulesAt_differs S h h' ref rules :
  rulesAt h ref rules -> differs S h h' ->
  (forall l, ref = Some l -> l ∉ S) -> rulesAt h' ref rules.
Proof.
  destruct ref as [l|]; [|done]. cbn. intros H Hd Hs. apply Hd; [done|done|]. by apply Hs.
Qed.

Lemma runs_applyPricingH h item pr p minDays :
  itemPolicyAt h pr p ->
  exists h',
    runs (applyPricingH item pr minDays) h (applyPricing item p minDays) h'
    /\ sameExcept [] h h'.
Proof.
  intros [_ Hr]. unfold applyPricingH, applyPricing.
  set (l := base.fresh (dom h)).
  exists (<[l := ORules (sortRules (pricing p))]> (<[l := ORules (pricing p)]> h)).
  split.
  - eapply runs_bind.
    { instantiate (1 := h). instantiate (1 := pricing p).
      destruct (pricing pr) as [lr|]; cbn in Hr.
      - by apply runs_readRules.
      - rewrite Hr. apply runs_ret. }
    eapply runs_bind; [apply runs_alloc|]. fold l.
    eapply runs_bind; [eapply runs_writeRules; by rewrite lookup_insert_eq|].
    eapply runs_bind; [eapply runs_readRules; by rewrite lookup_insert_eq|].
    apply runs_ret.
  - intros x o Hx _. rewrite !lookup_insert_ne; [done|..];
      intros <-; unfold l in Hx; by rewrite fresh_None in Hx.
Qed.

(** *** Freeze *)

Lemma runs_freeze_loopH item pr p arr pre elems :
  sameFields pr p ->
  forall bs h cap mv pushedLocs pushed,
    h !! arr = Some (OArray (pre ++ pushedLocs)) ->
    batchesAt h elems bs -> NoDup elems ->
    batchesAt h pushedLocs pushed -> NoDup pushedLocs ->
    (forall l, l ∈ pushedLocs -> l ∉ elems) ->
    exists h' pushedLocs',
      runs (freeze_loopH item pr arr elems cap mv) h
           (snd (fst (freeze_loop item p bs cap mv pushed))) h'
      /\ h' !! arr = Some (OArray (pre ++ pushedLocs'))
      /\ batchesAt h' elems (fst (fst (freeze_loop item p bs cap mv pushed)))
      /\ batchesAt h' pushedLocs' (snd (freeze_loop item p bs cap mv pushed))
      /\ NoDup pushedLocs'
      /\ (forall l, l ∈ pushedLocs' -> l ∈ pushedLocs \/ h !! l = None)
      /\ sameExcept (arr :: elems) h h'.
Proof.
  intros (_ & _ & _ & _ & _ & Hfd & _).
  induction elems as [|l e IH]; intros bs h cap mv pushedLocs pushed Ha Hb Hnd Hp Hndp Hdis.
  - apply Forall2_nil_inv_l in Hb as ->. exists h, pushedLocs. cbn.
    split; [apply runs_ret|]. split; [done|]. split; [constructor|]. split; [done|].
    split; [done|]. split; [by left | apply sameExcept_refl].
  - apply Forall2_cons_inv_l in Hb as (b & bs' & Hl & Hb & ->).
    apply NoDup_cons in Hnd as [Hnl Hnd].
    assert (Hdis' : forall x, x ∈ pushedLocs -> x ∉ e).
    { intros x Hx Hin. apply (Hdis x Hx). by right. }
    cbn [freeze_loopH freeze_loop].
    destruct (cap <=? 0).
    { exists h, pushedLocs. cbn [fst snd]. split; [apply runs_ret|]. split; [done|].
      split; [by constructor|]. split; [done|]. split; [done|].
      split; [by left | apply sameExcept_refl]. }
    assert (Hskip :
      exists h' pushedLocs',
        runs (freeze_loopH item pr arr e cap mv) h
             (snd (fst (freeze_loop item p bs' cap mv pushed))) h'
        /\ h' !! arr = Some (OArray (pre ++ pushedLocs'))
        /\ batchesAt h' (l :: e) (b :: fst (fst (freeze_loop item p bs' cap mv pushed)))
        /\ batchesAt h' pushedLocs' (snd (freeze_loop item p bs' cap mv pushed))
        /\ NoDup pushedLocs'
        /\ (forall x, x ∈ pushedLocs' -> x ∈ pushedLocs \/ h !! x = None)
        /\ sameExcept (arr :: l :: e) h h').
    { destruct (IH bs' h cap mv pushedLocs pushed Ha Hb Hnd Hp Hndp Hdis')
        as (h' & pl' & Hr & Ha' & Hb' & Hp' & Hndp' & Htr & Hfr).
      exists h', pl'. split; [done|]. split; [done|]. split.
      { constructor; [|done]. apply Hfr; [done|].
        intros [->|Hin]%elem_of_cons; [|done].
        rewrite Ha in Hl. discriminate. }
      split; [done|]. split; [done|]. split; [done|].
      intros x o Hx Hn. apply Hfr; [done|]. intros Hin. apply Hn.
      apply elem_of_cons in Hin as [->|Hin]; [by left|]. right. by right. }
    rewrite Hfd.
    destruct (negb (is_of (item_sku item) fresh b)
              || Qltb (freezeDaysToExpireAtMost p) (inject_Z (daysToExpire b))) eqn:Eskip.
    { destruct Hskip as (h' & pl' & Hr & Hrest).
      exists h', pl'.
      destruct (freeze_loop item p bs' cap mv pushed) as [[rest' m] ps]. cbn [fst snd] in *.
      split; [|exact Hrest].
      eapply runs_bind; [by apply runs_readBatch|]. cbv beta. by rewrite Eskip. }
    cbv zeta. destruct (Z.min (qty b) cap <=? 0) eqn:Eq.
    { destruct Hskip as (h' & pl' & Hr & Hrest).
      exists h', pl'.
      destruct (freeze_loop item p bs' cap mv pushed) as [[rest' m] ps]. cbn [fst snd] in *.
      split; [|exact Hrest].
      eapply runs_bind; [by apply runs_readBatch|]. cbv beta. by rewrite Eskip, Eq. }
    clear Hskip.
    set (q := Z.min (qty b) cap) in *.
    set (h1 := <[l := OBatch (set_qty b (qty b - q))]> h).
    set (nb := base.fresh (dom h1)).
    set (h2 := <[nb := OBatch (frozenBatch item q)]> h1).
    set (h3 := <[arr := OArray ((pre ++ pushedLocs) ++ [nb])]> h2).
    assert (Hnb1 : h1 !! nb = None) by apply fresh_None.
    assert (Hnb : h !! nb = None).
    { unfold h1 in Hnb1. destruct (decide (l = nb)) as [<-|Hne].
      - by rewrite lookup_insert_eq in Hnb1.
      - by rewrite lookup_insert_ne in Hnb1. }
    assert (Hla : l <> arr) by (intros E; rewrite E, Ha in Hl; discriminate).
    assert (Hlnb : l <> nb) by (intros E; rewrite E, Hnb in Hl; discriminate).
    assert (Hanb : arr <> nb) by (intros E; rewrite E, Hnb in Ha; discriminate).
    assert (Harr_e : arr ∉ e) by (by eapply batchesAt_other).
    assert (Harr_p : arr ∉ pushedLocs) by (by eapply batchesAt_other).
    assert (Hnb_e : nb ∉ e) by (by eapply batchesAt_fresh).
    assert (Hnb_p : nb ∉ pushedLocs) by (by eapply batchesAt_fresh).
    assert (Hl_p : l ∉ pushedLocs).
    { intros Hin. apply (Hdis l Hin). by left. }
    destruct (IH bs' h3 (cap - q) (mv + q) (pushedLocs ++ [nb])
                 (pushed ++ [frozenBatch item q]))
      as (h' & pl' & Hr & Ha' & Hb' & Hp' & Hndp' & Htr & Hfr).
    { unfold h3. rewrite lookup_insert_eq. by rewrite <- app_assoc. }
    { unfold h3, h2, h1. by repeat apply batchesAt_insert. }
    { done. }
    { apply Forall2_app.
      - unfold h3, h2, h1. by repeat apply batchesAt_insert.
      - constructor; [|constructor]. unfold h3, h2.
        rewrite lookup_insert_ne by done. by rewrite lookup_insert_eq. }
    { apply NoDup_app. split; [done|]. split; [|apply NoDup_singleton].
      intros x Hx Hx'%list_elem_of_singleton. subst x. by apply Hnb_p. }
    { intros x [Hx|Hx%list_elem_of_singleton]%elem_of_app; [by apply Hdis'|by subst x]. }
    exists h', pl'.
    destruct (freeze_loop item p bs' (cap - q) (mv + q) (pushed ++ [frozenBatch item q]))
      as [[rest' m] ps]. cbn [fst snd] in *.
    split; [|split; [|split; [|split; [|split; [|split]]]]].
    + eapply runs_bind; [by apply runs_readBatch|]. cbv beta. fold q. rewrite Eskip, Eq.
      eapply runs_bind; [by eapply runs_writeBatch|]. fold h1.
      eapply runs_bind; [apply runs_alloc|]. fold nb. fold h2.
      eapply runs_bind.
      { apply runs_push. unfold h2, h1. by rewrite !lookup_insert_ne by done. }
      exact Hr.
    + done.
    + constructor; [|done]. apply Hfr.
      * unfold h3, h2, h1. rewrite !lookup_insert_ne by done. by rewrite lookup_insert_eq.
      * intros [->|Hin]%elem_of_cons; done.
    + done.
    + done.
    + intros x Hx. destruct (Htr x Hx) as [Hin|Hnone].
      * apply elem_of_app in Hin as [Hin|Hin%list_elem_of_singleton]; [by left|].
        right. by subst x.
      * right. unfold h3, h2, h1 in Hnone.
        destruct (decide (x = arr)) as [->|?]; [by rewrite lookup_insert_eq in Hnone|].
        rewrite lookup_insert_ne in Hnone by done.
        destruct (decide (x = nb)) as [->|?]; [done|].
        rewrite lookup_insert_ne in Hnone by done.
        destruct (decide (x = l)) as [->|?]; [by rewrite lookup_insert_eq in Hnone|].
        by rewrite lookup_insert_ne in Hnone.
    + intros x o Hx Hn. apply Hfr.
      * unfold h3, h2, h1. rewrite !lookup_insert_ne; [done|..].
        -- intros <-. apply Hn. right. by left.
        -- intros <-. by rewrite Hnb in Hx.
        -- intros <-. apply Hn. by left.
      * intros Hin. apply Hn. apply elem_of_cons in Hin as [->|Hin]; [by left|].
        right. by right.
Qed.


Lemma sameExcept_batches_differs h h' arr elems bs :
  sameExcept (arr :: elems) h h' -> batchesAt h elems bs -> differs [arr] h h'.
Proof.
  intros Hs Hb l o Hl Ho Hn. apply Hs; [done|].
  intros [->|Hin]%elem_of_cons; [apply Hn; by left|].
  destruct (batchesAt_elem _ _ _ _ Hb Hin) as [b Hlb]. rewrite Hl in Hlb.
  by injection Hlb as ->.
Qed.

Lemma runs_freezeStageH h item pr p arr bs :
  sameFields pr p -> ledgerAt h arr bs ->
  exists h',
    runs (freezeStageH item pr arr) h (snd (freezeStage item p bs)) h'
    /\ ledgerAt h' arr (fst (freezeStage item p bs))
    /\ differs [arr] h h'.
Proof.
  intros Hsf Hl. pose proof Hsf as (_ & _ & _ & _ & _ & _ & Hfm).
  unfold freezeStageH, freezeStage. rewrite Hfm.
  destruct (canFreeze item && Qltb 0 (freezeMaxUnitsPerDay p)).
  2:{ exists h. split; [apply runs_ret|]. split; [done | apply differs_refl]. }
  destruct (runs_sortFifoH h arr bs Hl) as (h1 & Hr1 & (e & Ha & Hnd & Hb) & Hd1).
  destruct (runs_freeze_loopH item pr p arr e e Hsf (sortFifo bs) h1
              (Z.max 0 (Math_floor (freezeMaxUnitsPerDay p))) 0 [] [])
    as (h2 & pl & Hr2 & Ha2 & Hb2 & Hp2 & Hndp & Htr & Hfr).
  { by rewrite app_nil_r. }
  { done. }
  { done. }
  { constructor. }
  { constructor. }
  { by intros l ?%elem_of_nil. }
  assert (Hl2 : ledgerAt h2 arr
                  (fst (fst (freeze_loop item p (sortFifo bs)
                               (Z.max 0 (Math_floor (freezeMaxUnitsPerDay p))) 0 []))
                   ++ snd (freeze_loop item p (sortFifo bs)
                             (Z.max 0 (Math_floor (freezeMaxUnitsPerDay p))) 0 []))).
  { exists (e ++ pl). split; [done|]. split; [|by apply Forall2_app].
    apply NoDup_app. split; [done|]. split; [|done].
    intros x Hx Hin. destruct (Htr x Hin) as [?%elem_of_nil|Hnone]; [done|].
    destruct (batchesAt_elem _ _ _ _ Hb Hx) as [b Hxb]. congruence. }
  destruct (runs_pruneEmptyH h2 arr _ Hl2) as (h3 & Hr3 & Hl3 & Hd3).
  exists h3.
  destruct (freeze_loop item p (sortFifo bs)
              (Z.max 0 (Math_floor (freezeMaxUnitsPerDay p))) 0 []) as [[bs1 moved] pushed].
  cbn [fst snd] in *. split; [|split].
  - eapply runs_bind; [exact Hr1|]. eapply runs_bind; [by apply runs_readArray|].
    eapply runs_bind; [exact Hr2|]. eapply runs_bind; [exact Hr3|]. apply runs_ret.
  - exact Hl3.
  - eapply differs_trans; [exact Hd1|]. eapply differs_trans; [|exact Hd3].
    by eapply sameExcept_batches_differs.
Qed.

(** *** Donation *)

Lemma runs_donateStageH h item pr p arr bs :
  sameFields pr p -> ledgerAt h arr bs ->
  exists h',
    runs (donateStageH item pr arr) h (snd (donateStage item p bs)) h'
    /\ ledgerAt h' arr (fst (donateStage item p bs))
    /\ differs [arr] h h'.
Proof.
  intros (_ & _ & _ & Hdd & Hdm & _ & _) Hl.
  unfold donateStageH, donateStage. rewrite Hdd, Hdm.
  destruct (Qltb 0 (donateMaxFractionPerDay p)).
  2:{ exists h. split; [apply runs_ret|]. split; [done | apply differs_refl]. }
  cbv zeta.
  destruct (runs_sortFifoH h arr bs Hl) as (h1 & Hr1 & Hl1 & Hd1).
  destruct (runs_takeFromBatchesH h1 arr (sortFifo bs) (item_sku item) fresh
              (Math_floor
                 (inject_Z (eligibleQty (sortFifo bs) (item_sku item)
                              (donateDaysToExpireAtMost p))
                  * clamp01 (donateMaxFractionPerDay p))) Hl1)
    as (h2 & Hr2 & Hl2 & Hd2).
  exists h2. split; [|split].
  - eapply runs_bind; [exact Hr1|]. eapply runs_bind; [by apply runs_loadBatches|].
    exact Hr2.
  - exact Hl2.
  - eapply differs_trans; [exact Hd1 | exact Hd2].
Qed.

(** *** Aging and waste *)

Lemma runs_ageLoop sku elems : forall bs h,
  batchesAt h elems bs -> NoDup elems ->
  exists h',
    runs (forEach (fun l => b ← readBatch l;
                            if String.eqb (b_sku b) sku
                            then writeBatch l (ageBatch sku b) else mret tt) elems) h tt h'
    /\ batchesAt h' elems (List.map (ageBatch sku) bs)
    /\ (forall l, l ∉ elems -> h' !! l = h !! l).
Proof.
  induction elems as [|l e IH]; intros bs h Hb Hnd.
  - apply Forall2_nil_inv_l in Hb as ->. exists h. split; [apply runs_ret|].
    by split; [constructor|].
  - apply Forall2_cons_inv_l in Hb as (b & bs' & Hl & Hb & ->).
    apply NoDup_cons in Hnd as [Hnl Hnd]. cbn [forEach List.map].
    destruct (String.eqb (b_sku b) sku) eqn:E.
    + destruct (IH bs' (<[l := OBatch (ageBatch sku b)]> h)) as (h' & Hr & Hb' & Hfr);
        [by apply batchesAt_insert | done |].
      exists h'. split; [|split].
      * eapply runs_bind; [|exact Hr].
        eapply runs_bind; [by apply runs_readBatch|]. cbv beta. rewrite E.
        by eapply runs_writeBatch.
      * constructor; [|done]. rewrite Hfr by done. by rewrite lookup_insert_eq.
      * intros x Hn. rewrite Hfr.
        -- rewrite lookup_insert_ne; [done|]. intros ->. apply Hn. by left.
        -- intros Hin. apply Hn. by right.
    + destruct (IH bs' h Hb Hnd) as (h' & Hr & Hb' & Hfr).
      exists h'. split; [|split].
      * eapply runs_bind; [|exact Hr].
        eapply runs_bind; [by apply runs_readBatch|]. cbv beta. rewrite E. apply runs_ret.
      * constructor; [|done]. rewrite Hfr by done. unfold ageBatch. by rewrite E.
      * intros x Hn. apply Hfr. intros Hin. apply Hn. by right.
Qed.

Lemma runs_ageStageH h sku arr bs :
  ledgerAt h arr bs ->
  exists h',
    runs (ageStageH sku arr) h (snd (ageStage sku bs)) h'
    /\ ledgerAt h' arr (fst (ageStage sku bs))
    /\ differs [arr] h h'.
Proof.
  intros (e & Ha & Hnd & Hb). unfold ageStageH, ageStage. cbv zeta. cbn [fst snd].
  destruct (runs_ageLoop sku e bs h Hb Hnd) as (h1 & Hr1 & Hb1 & Hfr).
  destruct (ledgerAt_rewritten h h1 arr e _ Ha Hnd Hb1 Hfr (ex_intro _ _ Hb)) as [Hl1 Hd1].
  assert (Ha1 : h1 !! arr = Some (OArray e)).
  { rewrite Hfr; [done|]. by eapply batchesAt_other. }
  destruct (runs_filterM_batches h1 e _ (fun b => negb (expired sku b)) Hb1 Hnd)
    as (kept & Hr2 & Hk & Hndk & _).
  exists (<[arr := OArray kept]> h1). split; [|split].
  - eapply runs_bind; [by apply runs_readArray|].
    eapply runs_bind; [exact Hr1|].
    eapply runs_bind; [by apply runs_loadBatches|].
    eapply runs_bind; [exact Hr2|].
    eapply runs_bind; [by eapply runs_writeArray|]. apply runs_ret.
  - by eapply ledgerAt_array.
  - eapply differs_trans; [exact Hd1|]. apply differs_insert. by left.
Qed.

(** *** Replenishment *)

Lemma deliveriesAt_insert h elems ds l o :
  l ∉ elems -> deliveriesAt h elems ds -> deliveriesAt (<[l := o]> h) elems ds.
Proof.
  intros Hl H. induction H as [|l' b e bs' Hl' _ IH]; constructor.
  - rewrite lookup_insert_ne; [done|]. intros ->. apply Hl. by left.
  - apply IH. intros Hin. apply Hl. by right.
Qed.

Lemma deliveriesAt_not h elems ds l :
  deliveriesAt h elems ds -> (forall d, h !! l <> Some (ODelivery d)) -> l ∉ elems.
Proof.
  intros H Hl Hin. destruct (deliveriesAt_elem _ _ _ _ H Hin) as [d Hd]. by eapply Hl.
Qed.

Lemma runs_reorderStageH h item pr p freshOnHandNow state dayNo i q ds :
  sameFields pr p -> h !! state = Some (OState dayNo i q) -> queueAt h q ds ->
  exists h',
    runs (reorderStageH item pr freshOnHandNow state) h tt h'
    /\ queueAt h' q (reorderStage item p freshOnHandNow ds)
    /\ sameExcept [q] h h'.
Proof.
  intros (_ & Hrp & Hou & _) Hst (e & Ha & Hnd & Hd).
  unfold reorderStageH, reorderStage. rewrite Hrp, Hou.
  destruct (Qleb (inject_Z freshOnHandNow) (reorderPoint p)).
  2:{ exists h. split; [apply runs_ret|]. split; [by exists e | apply sameExcept_refl]. }
  cbv zeta. destruct (0 <? Z.max 0 (Z.max 0 (Math_round (orderUpTo p)) - freshOnHandNow)).
  2:{ exists h. split; [apply runs_ret|]. split; [by exists e | apply sameExcept_refl]. }
  set (d := {| pd_sku := item_sku item;
               pd_qty := inject_Z (Z.max 0 (Z.max 0 (Math_round (orderUpTo p)) - freshOnHandNow));
               arrivingInDays := Z.max 0 (Math_round (leadTimeDays item)) |}).
  set (l := base.fresh (dom h)).
  assert (Hl : h !! l = None) by apply fresh_None.
  assert (Hlq : q <> l) by (intros E; rewrite E, Hl in Ha; discriminate).
  assert (Hle : l ∉ e).
  { intros Hin. destruct (deliveriesAt_elem _ _ _ _ Hd Hin) as [? ?]. congruence. }
  assert (Hqe : q ∉ e).
  { apply (deliveriesAt_not h e ds); [done|]. intros d'. rewrite Ha. discriminate. }
  exists (<[q := OArray (e ++ [l])]> (<[l := ODelivery d]> h)). split; [|split].
  - eapply runs_bind.
    { eapply runs_bind; [by eapply runs_readState | apply runs_ret]. }
    eapply runs_bind; [apply runs_alloc|]. fold l.
    apply runs_push. by rewrite lookup_insert_ne.
  - exists (e ++ [l]). split; [by rewrite lookup_insert_eq|]. split.
    + apply NoDup_app. split; [done|]. split; [|apply NoDup_singleton].
      intros x Hx Hx'%list_elem_of_singleton. by subst x.
    + apply Forall2_app.
      * by repeat apply deliveriesAt_insert.
      * constructor; [|constructor]. rewrite lookup_insert_ne by done.
        by rewrite lookup_insert_eq.
  - intros x o Hx Hn. rewrite !lookup_insert_ne; [done|..].
    + intros <-. congruence.
    + intros <-. apply Hn. by left.
Qed.


(** *** The per-SKU pipeline *)

Definition stateAt (h : gmap positive obj) (state : positive) (s : StoreState) : Prop :=
  exists i q,
    h !! state = Some (OState (day s) i q) /\ i <> q
    /\ ledgerAt h i (inventory s) /\ queueAt h q (pendingDeliveries s).

Definition rulesKept (h h' : gmap positive obj) : Prop :=
  forall l rules, h !! l = Some (ORules rules) -> h' !! l = Some (ORules rules).

Lemma rulesKept_refl h : rulesKept h h.
Proof. by intros l r H. Qed.

Lemma rulesKept_trans h1 h2 h3 : rulesKept h1 h2 -> rulesKept h2 h3 -> rulesKept h1 h3.
Proof. intros H12 H23 l r H. by apply H23, H12. Qed.

Lemma itemPolicyAt_kept h h' pr p : itemPolicyAt h pr p -> rulesKept h h' -> itemPolicyAt h' pr p.
Proof.
  intros [Hsf Hr] Hk. split; [done|]. destruct (pricing pr) as [l|]; [|done]. by apply Hk.
Qed.

Lemma runs_take_if h arr bs sku st (c : bool) n :
  ledgerAt h arr bs ->
  exists h',
    runs (if c then takeFromBatchesH arr sku st n else mret 0) h
         (snd (if c then takeFromBatches bs sku st n else (bs, 0))) h'
    /\ ledgerAt h' arr (fst (if c then takeFromBatches bs sku st n else (bs, 0)))
    /\ differs [arr] h h'.
Proof.
  intros Hl. destruct c; [by apply runs_takeFromBatchesH|].
  exists h. split; [apply runs_ret|]. split; [done | apply differs_refl].
Qed.

Lemma runs_shrink h arr bs sku shrinkLost :
  ledgerAt h arr bs ->
  exists h',
    runs (if 0 <? shrinkLost then
            lostFresh ← takeFromBatchesH arr sku fresh shrinkLost;
            let lostFrozen := shrinkLost - lostFresh in
            if 0 <? lostFrozen
            then (_ ← takeFromBatchesH arr sku frozen lostFrozen; mret tt)
            else mret tt
          else mret tt) h tt h'
    /\ ledgerAt h' arr
         (fst (fst (if 0 <? shrinkLost then
                      let '(inv1, lostFresh) := takeFromBatches bs sku fresh shrinkLost in
                      let lostFrozen := shrinkLost - lostFresh in
                      if 0 <? lostFrozen then
                        let '(inv2, t) := takeFromBatches inv1 sku frozen lostFrozen in
                        (inv2, lostFresh, t)
                      else (inv1, lostFresh, 0)
                    else (bs, 0, 0))))
    /\ differs [arr] h h'.
Proof.
  intros Hl. destruct (0 <? shrinkLost).
  2:{ exists h. split; [apply runs_ret|]. split; [done | apply differs_refl]. }
  destruct (runs_takeFromBatchesH h arr bs sku fresh shrinkLost Hl) as (h1 & R1 & L1 & D1).
  destruct (takeFromBatches bs sku fresh shrinkLost) as [inv1 lostFresh].
  cbn [fst snd] in R1, L1. cbv zeta.
  destruct (0 <? shrinkLost - lostFresh) eqn:E.
  2:{ exists h1. cbn [fst]. split; [|by split].
      eapply runs_bind; [exact R1|]. cbv beta. rewrite E. apply runs_ret. }
  destruct (runs_takeFromBatchesH h1 arr inv1 sku frozen (shrinkLost - lostFresh) L1)
    as (h2 & R2 & L2 & D2).
  destruct (takeFromBatches inv1 sku frozen (shrinkLost - lostFresh)) as [inv2 t].
  cbn [fst snd] in R2, L2 |- *. exists h2. split; [|split].
  - eapply runs_bind; [exact R1|]. cbv beta. rewrite E.
    eapply runs_bind; [exact R2|]. apply runs_ret.
  - exact L2.
  - eapply differs_trans; [exact D1 | exact D2].
Qed.

Lemma ledgerAt_not_array h arr bs l o :
  ledgerAt h arr bs -> h !! l = Some o -> (forall e, o <> OArray e) -> l <> arr.
Proof. intros (e & Ha & _) Hl Ho ->. rewrite Ha in Hl. injection Hl as <-. by eapply Ho. Qed.

Section Pipeline.
Variable pow : Q -> Q -> Q.
Variable boxMuller : Q -> Q -> Q.

Lemma runs_runSkuH h config item pr p state rng s :
  itemPolicyAt h pr p -> stateAt h state s ->
  let r := runSku pow boxMuller config item p (inventory s) (pendingDeliveries s) rng in
  exists h',
    runs (runSkuH pow boxMuller config item pr state rng) h (run_row r, run_rng r) h'
    /\ stateAt h' state {| day := day s; inventory := run_inventory r;
                           pendingDeliveries := run_pending r |}
    /\ rulesKept h h'.
Proof.
  intros Hpol (i & q & Hst & Hiq & L0 & Q0). pose proof Hpol as [Hsf Hrules].
  unfold runSku. cbv beta iota zeta.
  (* freeze *)
  destruct (runs_freezeStageH h item pr p i _ Hsf L0) as (h1 & R1 & L1 & D1).
  destruct (freezeStage item p (inventory s)) as [inv1 moved].
  cbn [fst snd] in R1, L1. cbv beta iota zeta.
  (* donate *)
  destruct (runs_donateStageH h1 item pr p i _ Hsf L1) as (h2 & R2 & L2 & D2).
  destruct (donateStage item p inv1) as [inv2 don].
  cbn [fst snd] in R2, L2. cbv beta iota zeta.
  pose proof (differs_trans _ _ _ _ D1 D2) as D02.
  (* pricing *)
  assert (Hpol2 : itemPolicyAt h2 pr p).
  { split; [done|]. eapply rulesAt_differs; [exact Hrules | exact D02 |].
    intros l El Hin%list_elem_of_singleton. subst l. rewrite El in Hrules. cbn in Hrules.
    destruct L0 as (e & Ha & _). congruence. }
  destruct (runs_applyPricingH h2 item pr p (pricingDays item inv2) Hpol2) as (h3 & R3 & S3).
  destruct (applyPricing item p (pricingDays item inv2)) as [price mult].
  cbv beta iota zeta.
  assert (L3 : ledgerAt h3 i inv2).
  { eapply ledgerAt_sameExcept; [exact L2 | exact S3 | by intros ?%elem_of_nil |].
    by intros l b ?%elem_of_nil. }
  pose proof (differs_trans _ _ _ _ D02 (sameExcept_differs _ _ _
                (fun l o H Hn => S3 l o H (not_elem_of_nil l)))) as D03.
  (* demand *)
  destruct (demandForDay pow boxMuller item mult rng (demandNoiseStdDev config))
    as [dem rng'] eqn:Edem.
  cbv beta iota zeta.
  set (demandInt := Z.max 0 (Math_floor dem)).
  (* sell *)
  destruct (runs_takeFromBatchesH h3 i inv2 (item_sku item) fresh demandInt L3)
    as (h4 & R4 & L4 & D4).
  destruct (takeFromBatches inv2 (item_sku item) fresh demandInt) as [inv3 sFresh].
  cbn [fst snd] in R4, L4. cbv beta iota zeta.
  set (remainingDemand := Z.max 0 (demandInt - sFresh)).
  destruct (runs_take_if h4 i inv3 (item_sku item) frozen (0 <? remainingDemand)
              remainingDemand L4) as (h5 & R5 & L5 & D5).
  destruct (if 0 <? remainingDemand
            then takeFromBatches inv3 (item_sku item) frozen remainingDemand
            else (inv3, 0)) as [inv4 sFrozen].
  cbn [fst snd] in R5, L5. cbv beta iota zeta.
  (* shrink *)
  set (onHand := sumQty inv4 (item_sku item) fresh + sumQty inv4 (item_sku item) frozen).
  set (lost := Math_floor (inject_Z onHand * clamp01 (shrinkRate item))).
  destruct (runs_shrink h5 i inv4 (item_sku item) lost L5) as (h6 & R6 & L6 & D6).
  destruct (if 0 <? lost then
              let '(inv1, lostFresh) := takeFromBatches inv4 (item_sku item) fresh lost in
              let lostFrozen := lost - lostFresh in
              if 0 <? lostFrozen then
                let '(inv2, t) := takeFromBatches inv1 (item_sku item) frozen lostFrozen in
                (inv2, lostFresh, t)
              else (inv1, lostFresh, 0)
            else (inv4, 0, 0)) as [[inv5 lF] lZ].
  cbn [fst snd] in L6. cbv beta iota zeta.
  (* age *)
  destruct (runs_ageStageH h6 (item_sku item) i inv5 L6) as (h7 & R7 & L7 & D7).
  destruct (ageStage (item_sku item) inv5) as [inv6 wastedNow].
  cbn [fst snd] in R7, L7. cbv beta iota zeta.
  (* reorder *)
  pose proof (differs_trans _ _ _ _ D03
                (differs_trans _ _ _ _ D4
                   (differs_trans _ _ _ _ D5 (differs_trans _ _ _ _ D6 D7)))) as D07.
  assert (Hsi : state <> i).
  { eapply ledgerAt_not_array; [exact L0 | exact Hst | discriminate]. }
  assert (Hst7 : h7 !! state = Some (OState (day s) i q)).
  { apply D07; [done|done|]. by intros ?%list_elem_of_singleton. }
  assert (Q7 : queueAt h7 q (pendingDeliveries s)).
  { eapply queueAt_differs; [exact Q0 | exact D07 | |].
    - by intros ?%list_elem_of_singleton.
    - intros l d Hin%list_elem_of_singleton Hl. subst l.
      destruct L0 as (e & Ha & _). congruence. }
  destruct (runs_reorderStageH h7 item pr p (sumQty inv6 (item_sku item) fresh)
              state (day s) i q _ Hsf Hst7 Q7) as (h8 & R8 & Q8 & S8).
  assert (Hq7 : exists e, h7 !! q = Some (OArray e)).
  { destruct Q7 as (e & Ha & _). by exists e. }
  destruct Hq7 as [eq7 Hq7].
  exists h8. split; [|split].
  - unfold runSkuH. cbv zeta.
    eapply runs_bind.
    { eapply runs_bind; [by eapply runs_readState | apply runs_ret]. }
    cbv beta iota.
    eapply runs_bind; [by apply runs_sumQtyH|].
    eapply runs_bind; [by apply runs_sumQtyH|].
    eapply runs_bind; [exact R1|].
    eapply runs_bind; [exact R2|].
    eapply runs_bind; [by apply runs_loadBatches|].
    eapply runs_bind; [exact R3|]. cbv beta iota. rewrite Edem. cbv beta iota zeta.
    fold demandInt.
    eapply runs_bind; [exact R4|]. cbv beta. fold remainingDemand.
    eapply runs_bind; [exact R5|]. cbv beta.
    eapply runs_bind; [by apply runs_sumQtyH|].
    eapply runs_bind; [by apply runs_sumQtyH|]. cbv beta. fold onHand. fold lost.
    eapply runs_bind; [exact R6|]. cbv beta.
    eapply runs_bind; [by apply runs_sumQtyH|].
    eapply runs_bind; [by apply runs_sumQtyH|]. cbv beta.
    eapply runs_bind; [exact R7|]. cbv beta.
    eapply runs_bind; [by apply runs_sumQtyH|]. cbv beta.
    eapply runs_bind; [exact R8|]. cbv beta.
    apply runs_ret.
  - exists i, q. cbn [day inventory pendingDeliveries run_inventory run_pending].
    split; [|split; [done|split]].
    + apply S8; [done|]. intros Hin%list_elem_of_singleton. congruence.
    + eapply ledgerAt_sameExcept; [exact L7 | exact S8 | |].
      * by intros ?%list_elem_of_singleton.
      * intros l b Hin%list_elem_of_singleton. subst l. congruence.
    + exact Q8.
  - intros l rules Hl. apply S8.
    + apply D07; [done|done|]. intros Hin%list_elem_of_singleton. subst l.
      destruct L0 as (e & Ha & _). congruence.
    + intros Hin%list_elem_of_singleton. subst l.
      assert (h7 !! q = Some (ORules rules)); [|congruence].
      apply D07; [done|done|]. intros Hin%list_elem_of_singleton.
      destruct L0 as (e & Ha & _). congruence.
Qed.

End Pipeline.


(** *** Receipt of deliveries *)

Lemma deliveriesAt_sameExcept S h h' elems ds :
  deliveriesAt h elems ds -> sameExcept S h h' -> (forall l, l ∈ S -> l ∉ elems) ->
  deliveriesAt h' elems ds.
Proof.
  intros Hd Hs. apply (deliveriesAt_differs S h); [done|]. by apply sameExcept_differs.
Qed.

Lemma runs_countDownLoop elems : forall ds h,
  deliveriesAt h elems ds -> NoDup elems ->
  exists h',
    runs (forEach (fun l => d ← readDelivery l; writeDelivery l (countDown d)) elems) h tt h'
    /\ deliveriesAt h' elems (List.map countDown ds)
    /\ (forall l, l ∉ elems -> h' !! l = h !! l).
Proof.
  induction elems as [|l e IH]; intros ds h Hd Hnd.
  - apply Forall2_nil_inv_l in Hd as ->. exists h. split; [apply runs_ret|].
    by split; [constructor|].
  - apply Forall2_cons_inv_l in Hd as (d & ds' & Hl & Hd & ->).
    apply NoDup_cons in Hnd as [Hnl Hnd]. cbn [forEach List.map].
    destruct (IH ds' (<[l := ODelivery (countDown d)]> h)) as (h' & Hr & Hd' & Hfr);
      [by apply deliveriesAt_insert | done |].
    exists h'. split; [|split].
    + eapply runs_bind; [|exact Hr].
      eapply runs_bind; [by apply runs_readDelivery|]. by eapply runs_writeDelivery.
    + constructor; [|done]. rewrite Hfr by done. by rewrite lookup_insert_eq.
    + intros x Hn. rewrite Hfr.
      * rewrite lookup_insert_ne; [done|]. intros ->. apply Hn. by left.
      * intros Hin. apply Hn. by right.
Qed.

Lemma runs_filterM_deliveries h elems ds (g : PendingDelivery -> bool) :
  deliveriesAt h elems ds -> NoDup elems ->
  exists kept,
    runs (filterM (fun l => d ← readDelivery l; mret (g d)) elems) h kept h
    /\ deliveriesAt h kept (List.filter g ds)
    /\ NoDup kept /\ (forall l, l ∈ kept -> l ∈ elems).
Proof.
  induction 1 as [|l d e ds' Hl _ IH]; intros Hnd.
  - exists []. split; [apply runs_ret|]. split; [constructor|]. by split; [constructor|].
  - apply NoDup_cons in Hnd as [Hnl Hnd].
    destruct (IH Hnd) as (kept & Hr & Hb & Hk & Hsub).
    exists (if g d then l :: kept else kept). split; [|split; [|split]].
    + cbn [filterM]. eapply runs_bind.
      { eapply runs_bind; [by apply runs_readDelivery | apply runs_ret]. }
      eapply runs_bind; [exact Hr | apply runs_ret].
    + cbn [List.filter]. destruct (g d); [by constructor | done].
    + destruct (g d); [|done]. apply NoDup_cons. split; [|done].
      intros Hin. by apply Hnl, Hsub.
    + intros l'. destruct (g d).
      * intros [->|Hin]%elem_of_cons; [by left | right; by apply Hsub].
      * intros Hin. right. by apply Hsub.
Qed.

Lemma runs_arrivalLoop items state dayNo i q arriving : forall ds h ielems bs,
  h !! state = Some (OState dayNo i q) ->
  h !! i = Some (OArray ielems) -> NoDup ielems -> batchesAt h ielems bs ->
  deliveriesAt h arriving ds ->
  exists h',
    runs (forEach
            (fun l =>
               a ← readDelivery l;
               match findItem items (pd_sku a) with
               | None => mret tt
               | Some item =>
                   inventory ← inventoryOf state;
                   b ← alloc (OBatch (arrivalBatch item a));
                   push inventory b
               end) arriving) h tt h'
    /\ ledgerAt h' i (bs ++ arrivalBatches items ds)
    /\ sameExcept [i] h h'.
Proof.
  induction arriving as [|l al IH]; intros ds h ielems bs Hst Hi Hnd Hb Hd.
  - apply Forall2_nil_inv_l in Hd as ->. exists h. split; [apply runs_ret|].
    split; [|apply sameExcept_refl]. cbn. rewrite app_nil_r. by exists ielems.
  - apply Forall2_cons_inv_l in Hd as (a & ds' & Hl & Hd & ->).
    cbn [forEach arrivalBatches].
    destruct (findItem items (pd_sku a)) as [item|] eqn:Ef.
    + set (nb := base.fresh (dom h)).
      assert (Hnb : h !! nb = None) by apply fresh_None.
      assert (Hinb : i <> nb) by (intros E; rewrite E, Hnb in Hi; discriminate).
      assert (Hsi : state <> i) by (intros E; rewrite E, Hi in Hst; discriminate).
      assert (Hsnb : state <> nb) by (intros E; rewrite E, Hnb in Hst; discriminate).
      set (h2 := <[i := OArray (ielems ++ [nb])]> (<[nb := OBatch (arrivalBatch item a)]> h)).
      assert (Hi_e : i ∉ ielems) by (by eapply batchesAt_other).
      assert (Hnb_e : nb ∉ ielems) by (by eapply batchesAt_fresh).
      assert (Hi_al : i ∉ al).
      { apply (deliveriesAt_not h al ds'); [done|]. intros d. rewrite Hi. discriminate. }
      assert (Hnb_al : nb ∉ al).
      { apply (deliveriesAt_not h al ds'); [done|]. intros d. rewrite Hnb. discriminate. }
      destruct (IH ds' h2 (ielems ++ [nb]) (bs ++ [arrivalBatch item a]))
        as (h' & Hr & Hl' & Hs').
      { unfold h2. by rewrite !lookup_insert_ne. }
      { unfold h2. by rewrite lookup_insert_eq. }
      { apply NoDup_app. split; [done|]. split; [|apply NoDup_singleton].
        intros x Hx Hx'%list_elem_of_singleton. by subst x. }
      { apply Forall2_app.
        - unfold h2. by repeat apply batchesAt_insert.
        - constructor; [|constructor]. unfold h2. rewrite lookup_insert_ne by done.
          by rewrite lookup_insert_eq. }
      { unfold h2. by repeat apply deliveriesAt_insert. }
      exists h'. split; [|split].
      * eapply runs_bind; [|exact Hr].
        eapply runs_bind; [by apply runs_readDelivery|]. cbv beta. rewrite Ef.
        eapply runs_bind.
        { eapply runs_bind; [by eapply runs_readState | apply runs_ret]. }
        cbv beta iota.
        eapply runs_bind; [apply runs_alloc|]. fold nb.
        apply runs_push. by rewrite lookup_insert_ne.
      * by rewrite <- app_assoc in Hl'.
      * intros x o Hx Hn. apply Hs'; [|done]. unfold h2.
        rewrite !lookup_insert_ne; [done|..].
        -- intros <-. congruence.
        -- intros <-. apply Hn. by left.
    + destruct (IH ds' h ielems bs Hst Hi Hnd Hb Hd) as (h' & Hr & Hl' & Hs').
      exists h'. split; [|by split].
      eapply runs_bind; [|exact Hr].
      eapply runs_bind; [by apply runs_readDelivery|]. cbv beta. rewrite Ef. apply runs_ret.
Qed.

Lemma runs_receiveDeliveriesH h items state s :
  stateAt h state s ->
  exists h',
    runs (receiveDeliveriesH items state) h tt h'
    /\ stateAt h' state (receiveDeliveries items s)
    /\ rulesKept h h'.
Proof.
  intros (i & q & Hst & Hiq & (ie & Hi & Hndi & Hbi) & (e & Hq & Hnd & Hd)).
  destruct (runs_countDownLoop e _ h Hd Hnd) as (h1 & R1 & D1 & F1).
  destruct (runs_filterM_deliveries h1 e _ (fun d => arrivingInDays d <=? 0) D1 Hnd)
    as (al & R2 & A2 & Hnda & Hsuba).
  destruct (runs_filterM_deliveries h1 e _ (fun d => 0 <? arrivingInDays d) D1 Hnd)
    as (wl & R3 & W3 & Hndw & Hsubw).
  assert (Hnot : forall l o, h !! l = Some o -> (forall d, o <> ODelivery d) -> l ∉ e).
  { intros l o Hl Ho Hin. destruct (deliveriesAt_elem _ _ _ _ Hd Hin) as [d Hld].
    rewrite Hl in Hld. injection Hld as ->. by eapply Ho. }
  assert (Hst1 : h1 !! state = Some (OState (day s) i q)).
  { rewrite F1; [done|]. eapply Hnot; [exact Hst | discriminate]. }
  assert (Hi1 : h1 !! i = Some (OArray ie)).
  { rewrite F1; [done|]. eapply Hnot; [exact Hi | discriminate]. }
  assert (Hq1 : h1 !! q = Some (OArray e)).
  { rewrite F1; [done|]. eapply Hnot; [exact Hq | discriminate]. }
  assert (Hbi1 : batchesAt h1 ie (inventory s)).
  { eapply (batchesAt_sameExcept e); [exact Hbi | |].
    - intros l o Hl Hn. by rewrite F1.
    - intros l Hl Hin. destruct (batchesAt_elem _ _ _ _ Hbi Hin) as [b Hlb].
      eapply Hnot; [exact Hlb | discriminate | exact Hl]. }
  set (q' := base.fresh (dom h1)).
  assert (Hq' : h1 !! q' = None) by apply fresh_None.
  set (h2 := <[q' := OArray wl]> h1).
  set (h3 := <[state := OState (day s) i q']> h2).
  assert (Hsq' : state <> q') by (intros E; rewrite E, Hq' in Hst1; discriminate).
  assert (Hiq' : i <> q') by (intros E; rewrite E, Hq' in Hi1; discriminate).
  assert (Hsi : state <> i) by (intros E; rewrite E, Hi1 in Hst1; discriminate).
  assert (Hs_ie : state ∉ ie) by (by eapply batchesAt_other).
  assert (Hq'_ie : q' ∉ ie) by (by eapply batchesAt_fresh).
  assert (Hs_e : state ∉ e).
  { eapply deliveriesAt_not; [exact D1|]. intros d. rewrite Hst1. discriminate. }
  assert (Hq'_e : q' ∉ e).
  { eapply deliveriesAt_not; [exact D1|]. intros d. rewrite Hq'. discriminate. }
  assert (D3 : deliveriesAt h3 e (List.map countDown (pendingDeliveries s))).
  { unfold h3, h2. by repeat apply deliveriesAt_insert. }
  assert (A3 : deliveriesAt h3 al
                 (List.filter (fun d => arrivingInDays d <=? 0)
                    (List.map countDown (pendingDeliveries s)))).
  { unfold h3, h2. repeat apply deliveriesAt_insert; try done; intros Hin.
    - by apply Hs_e, Hsuba.
    - by apply Hq'_e, Hsuba. }
  destruct (runs_arrivalLoop items state (day s) i q' al
              (List.filter (fun d => arrivingInDays d <=? 0)
                 (List.map countDown (pendingDeliveries s))) h3 ie (inventory s))
    as (h4 & R4 & L4 & S4).
  { unfold h3. by rewrite lookup_insert_eq. }
  { unfold h3, h2. by rewrite !lookup_insert_ne. }
  { done. }
  { unfold h3, h2. by repeat apply batchesAt_insert. }
  { exact A3. }
  exists h4. split; [|split].
  - unfold receiveDeliveriesH.
    eapply runs_bind.
    { eapply runs_bind; [by eapply runs_readState | apply runs_ret]. }
    cbv beta iota.
    eapply runs_bind; [by apply runs_readArray|].
    eapply runs_bind; [exact R1|].
    eapply runs_bind; [exact R2|].
    eapply runs_bind; [exact R3|].
    eapply runs_bind; [apply runs_alloc|]. fold q'. fold h2.
    eapply runs_bind.
    { eapply runs_readState. unfold h2. by rewrite lookup_insert_ne. }
    cbv beta iota.
    eapply runs_bind.
    { eapply runs_writeState. unfold h2. by rewrite lookup_insert_ne. }
    exact R4.
  - exists i, q'. unfold receiveDeliveries. cbn [day inventory pendingDeliveries].
    split; [|split; [done|split; [done|]]].
    + apply S4; [|by intros ?%list_elem_of_singleton].
      unfold h3. by rewrite lookup_insert_eq.
    + exists wl. split; [|split; [done|]].
      * apply S4; [|by intros ?%list_elem_of_singleton].
        unfold h3, h2. rewrite lookup_insert_ne by done. by rewrite lookup_insert_eq.
      * eapply (deliveriesAt_sameExcept [i]); [|exact S4|].
        -- unfold h3, h2. repeat apply deliveriesAt_insert; try done; intros Hin.
           ++ by apply Hs_e, Hsubw.
           ++ by apply Hq'_e, Hsubw.
        -- intros l Hl%list_elem_of_singleton Hin. subst l.
           apply Hsubw in Hin. revert Hin.
           eapply deliveriesAt_not; [exact D1|]. intros d. rewrite Hi1. discriminate.
  - intros l rules Hl. apply S4.
    + unfold h3, h2. rewrite !lookup_insert_ne.
      * rewrite F1; [done|]. eapply Hnot; [exact Hl | discriminate].
      * intros <-. rewrite F1 in Hq'; [congruence|]. eapply Hnot; [exact Hl | discriminate].
      * intros <-. congruence.
    + intros Hin%list_elem_of_singleton. subst l. congruence.
Qed.

(** *** The loops over SKUs and days *)

Definition policyAt (h : gmap positive obj) (pref : InventoryPolicyOf (option positive))
    (pol : InventoryPolicy) : Prop :=
  forall sku,
    match perSku pref !! sku, perSku pol !! sku with
    | Some pr, Some p => itemPolicyAt h pr p
    | None, None => True
    | _, _ => False
    end.

Lemma policyAt_kept h h' pref pol : policyAt h pref pol -> rulesKept h h' -> policyAt h' pref pol.
Proof.
  intros H Hk sku. specialize (H sku).
  destruct (perSku pref !! sku), (perSku pol !! sku); try done. by eapply itemPolicyAt_kept.
Qed.

Lemma policyAt_policyFor h pref pol item p :
  policyAt h pref pol -> policyFor pol item = Ok p ->
  exists pr, policyFor pref item = Ok pr /\ itemPolicyAt h pr p.
Proof.
  intros H. unfold policyFor. specialize (H (item_sku item)).
  destruct (perSku pref !! item_sku item) as [pr|], (perSku pol !! item_sku item) as [p'|];
    try done.
  intros [= <-]. by exists pr.
Qed.

Lemma policyAt_ensure h pref pol items :
  policyAt h pref pol -> ensurePolicyComplete items pref = ensurePolicyComplete items pol.
Proof.
  intros H. induction items as [|item rest IH]; cbn [ensurePolicyComplete]; [done|].
  specialize (H (item_sku item)).
  by destruct (perSku pref !! item_sku item), (perSku pol !! item_sku item).
Qed.

Section Loops.
Variable pow : Q -> Q -> Q.
Variable boxMuller : Q -> Q -> Q.

Lemma runs_skuLoopH config pref pol state items : forall h d rows d' rows',
  policyAt h pref pol -> stateAt h state (d_state d) ->
  skuLoop pow boxMuller config pol items d rows = Ok (d', rows') ->
  exists h',
    runs (skuLoopH pow boxMuller config pref items state (d_rng d) (d_totals d) rows) h
         (d_rng d', d_totals d', rows') h'
    /\ stateAt h' state (d_state d') /\ rulesKept h h'.
Proof.
  induction items as [|item rest IH]; intros h d rows d' rows' Hpol Hst H;
    cbn [skuLoop skuLoopH] in *.
  - injection H as <- <-. exists h. split; [apply runs_ret|]. split; [done|].
    apply rulesKept_refl.
  - destruct (policyFor pol item) as [p|] eqn:Ep; [|discriminate]. cbn in H.
    destruct (policyAt_policyFor h pref pol item p Hpol Ep) as (pr & Epr & Hip).
    destruct (runs_runSkuH pow boxMuller h config item pr p state (d_rng d) (d_state d)
                Hip Hst) as (h1 & R1 & Hst1 & K1).
    cbv zeta in R1, Hst1.
    match type of H with
    | skuLoop _ _ _ _ _ ?dd ?rr = _ =>
        destruct (IH h1 dd rr d' rows' (policyAt_kept _ _ _ _ Hpol K1) Hst1 H)
          as (h2 & R2 & Hst2 & K2)
    end.
    cbn [d_rng d_totals] in R2.
    exists h2. split; [|split; [done|]].
    + eapply runs_bind; [by apply runs_lift|].
      eapply runs_bind; [exact R1|]. exact R2.
    + by eapply rulesKept_trans.
Qed.

Lemma runs_dayStepH config pref pol state items idx h d d' dm :
  policyAt h pref pol -> stateAt h state (d_state d) ->
  dayStep pow boxMuller config pol items idx d = Ok (d', dm) ->
  exists h',
    runs (dayStepH pow boxMuller config pref items idx state (d_rng d) (d_totals d)) h
         (d_rng d', d_totals d', dm) h'
    /\ stateAt h' state (d_state d') /\ rulesKept h h'.
Proof.
  intros Hpol Hst H. unfold dayStep in H. cbv zeta in H.
  destruct (skuLoop _ _ _ _ _ _ _) as [[d1 rows]|] eqn:E; [|discriminate].
  cbn in H. injection H as <- <-.
  destruct (runs_receiveDeliveriesH h items state (d_state d) Hst) as (h1 & R1 & Hst1 & K1).
  destruct (runs_skuLoopH config pref pol state items h1
              {| d_state := receiveDeliveries items (d_state d); d_rng := d_rng d;
                 d_totals := d_totals d |} [] d1 rows
              (policyAt_kept _ _ _ _ Hpol K1) Hst1 E) as (h2 & R2 & Hst2 & K2).
  cbn [d_rng d_totals] in R2.
  destruct Hst2 as (i & q & Hs2 & Hiq & (ie & Hi & Hndi & Hbi) & (e & Hq & Hnd & Hd)).
  assert (Hsi : state <> i) by (intros E'; rewrite E', Hi in Hs2; discriminate).
  assert (Hsq : state <> q) by (intros E'; rewrite E', Hq in Hs2; discriminate).
  exists (<[state := OState (day (d_state d1) + 1) i q]> h2). split; [|split].
  - unfold dayStepH. eapply runs_bind; [exact R1|].
    eapply runs_bind; [exact R2|]. cbv beta iota.
    eapply runs_bind; [by eapply runs_readState|]. cbv beta iota.
    eapply runs_bind; [by eapply runs_writeState|]. apply runs_ret.
  - exists i, q. cbn [d_state day inventory pendingDeliveries].
    split; [by rewrite lookup_insert_eq|]. split; [done|]. split.
    + exists ie. rewrite lookup_insert_ne by done. split; [done|]. split; [done|].
      apply batchesAt_insert; [|done]. by eapply batchesAt_other.
    + exists e. rewrite lookup_insert_ne by done. split; [done|]. split; [done|].
      apply deliveriesAt_insert; [|done].
      eapply deliveriesAt_not; [exact Hd|]. intros d0. rewrite Hs2. discriminate.
  - intros l rules Hl. rewrite lookup_insert_ne.
    + by apply K2, K1.
    + intros <-. apply K1, K2 in Hl. congruence.
Qed.

Lemma runs_dayLoopH config pref pol state items n : forall idx h d acc d' acc',
  policyAt h pref pol -> stateAt h state (d_state d) ->
  dayLoop pow boxMuller config pol items n idx d acc = Ok (d', acc') ->
  exists h',
    runs (dayLoopH pow boxMuller config pref items n idx state (d_rng d) (d_totals d) acc) h
         (d_totals d', acc') h'
    /\ stateAt h' state (d_state d') /\ rulesKept h h'.
Proof.
  induction n as [|n IH]; intros idx h d acc d' acc' Hpol Hst H; cbn [dayLoop dayLoopH] in *.
  - injection H as <- <-. exists h. split; [apply runs_ret|]. split; [done|].
    apply rulesKept_refl.
  - destruct (dayStep _ _ _ _ _ _ _) as [[d1 dm]|] eqn:E; [|discriminate]. cbn in H.
    destruct (runs_dayStepH config pref pol state items idx h d d1 dm Hpol Hst E)
      as (h1 & R1 & Hst1 & K1).
    destruct (IH (idx + 1) h1 d1 (acc ++ [dm]) d' acc' (policyAt_kept _ _ _ _ Hpol K1) Hst1 H)
      as (h2 & R2 & Hst2 & K2).
    exists h2. split; [|split; [done|]].
    + eapply runs_bind; [exact R1|]. exact R2.
    + by eapply rulesKept_trans.
Qed.

End Loops.


(** *** The initial state *)

Lemma runs_initialLoop h0 pref pol i items : forall h ielems bs new,
  policyAt h0 pref pol ->
  h !! i = Some (OArray ielems) -> NoDup ielems -> batchesAt h ielems bs ->
  initialBatches items pol = Ok new ->
  exists h',
    runs (forEach
            (fun item =>
               p ← lift (policyFor pref item);
               let startQty := Z.max 0 (Math_round (orderUpTo p)) in
               if 0 <? startQty then
                 b ← alloc (OBatch {| b_sku := item_sku item; qty := startQty;
                                      daysToExpire := Z.max 1 (Math_round (shelfLifeDays item));
                                      b_state := fresh |});
                 push i b
               else mret tt) items) h tt h'
    /\ ledgerAt h' i (bs ++ new)
    /\ sameExcept [i] h h'.
Proof.
  induction items as [|item rest IH]; intros h ielems bs new Hpol Hi Hnd Hb Hnew;
    cbn [initialBatches forEach] in *.
  - injection Hnew as <-. exists h. split; [apply runs_ret|].
    split; [|apply sameExcept_refl]. rewrite app_nil_r. by exists ielems.
  - destruct (policyFor pol item) as [p|] eqn:Ep; [|discriminate]. cbn [mbind result_bind] in Hnew.
    destruct (initialBatches rest pol) as [tail|] eqn:Et; [|discriminate]. cbn [mbind result_bind] in Hnew.
    injection Hnew as <-.
    destruct (policyAt_policyFor h0 pref pol item p Hpol Ep)
      as (pr & Epr & (_ & _ & Hou & _) & _).
    destruct (0 <? Z.max 0 (Math_round (orderUpTo p))) eqn:Eq.
    + set (b := {| b_sku := item_sku item; qty := Z.max 0 (Math_round (orderUpTo p));
                   daysToExpire := Z.max 1 (Math_round (shelfLifeDays item));
                   b_state := fresh |}).
      set (nb := base.fresh (dom h)).
      assert (Hnb : h !! nb = None) by apply fresh_None.
      assert (Hinb : i <> nb) by (intros E; rewrite E, Hnb in Hi; discriminate).
      assert (Hi_e : i ∉ ielems) by (by eapply batchesAt_other).
      assert (Hnb_e : nb ∉ ielems) by (by eapply batchesAt_fresh).
      destruct (IH (<[i := OArray (ielems ++ [nb])]> (<[nb := OBatch b]> h))
                  (ielems ++ [nb]) (bs ++ [b]) tail Hpol)
        as (h' & Hr & Hl' & Hs'); [| | |done|].
      { by rewrite lookup_insert_eq. }
      { apply NoDup_app. split; [done|]. split; [|apply NoDup_singleton].
        intros x Hx Hx'%list_elem_of_singleton. by subst x. }
      { apply Forall2_app.
        - by repeat apply batchesAt_insert.
        - constructor; [|constructor]. rewrite lookup_insert_ne by done.
          by rewrite lookup_insert_eq. }
      exists h'. split; [|split].
      * eapply runs_bind; [|exact Hr].
        eapply runs_bind; [by apply runs_lift|]. cbv beta zeta. rewrite Hou, Eq.
        eapply runs_bind; [apply runs_alloc|]. fold nb. fold b.
        apply runs_push. by rewrite lookup_insert_ne.
      * by rewrite <- app_assoc in Hl'.
      * intros x o Hx Hn. apply Hs'; [|done].
        rewrite !lookup_insert_ne; [done|..].
        -- intros <-. congruence.
        -- intros <-. apply Hn. by left.
    + destruct (IH h ielems bs tail Hpol Hi Hnd Hb eq_refl) as (h' & Hr & Hl' & Hs').
      exists h'. split; [|by split].
      eapply runs_bind; [|exact Hr].
      eapply runs_bind; [by apply runs_lift|]. cbv beta zeta. rewrite Hou, Eq.
      apply runs_ret.
Qed.

Lemma runs_createInitialStateH h pref pol items s :
  policyAt h pref pol -> createInitialState items pol = Ok s ->
  exists h' state,
    runs (createInitialStateH items pref) h state h'
    /\ stateAt h' state s /\ sameExcept [] h h'.
Proof.
  intros Hpol H. unfold createInitialState in H.
  destruct (ensurePolicyComplete items pol) as [[]|] eqn:Ee; [|discriminate]. cbn in H.
  destruct (initialBatches items pol) as [inv|] eqn:Ei; [|discriminate]. cbn in H.
  injection H as <-.
  set (i := base.fresh (dom h)).
  assert (Hi : h !! i = None) by apply fresh_None.
  destruct (runs_initialLoop h pref pol i items (<[i := OArray []]> h) [] [] inv Hpol)
    as (h1 & R1 & L1 & S1).
  { by rewrite lookup_insert_eq. }
  { constructor. }
  { constructor. }
  { done. }
  cbn [app] in L1.
  set (q := base.fresh (dom h1)).
  assert (Hq : h1 !! q = None) by apply fresh_None.
  set (h2 := <[q := OArray []]> h1).
  set (st := base.fresh (dom h2)).
  assert (Hst : h2 !! st = None) by apply fresh_None.
  assert (Hiq : i <> q).
  { intros E. destruct L1 as (e & Ha & _). rewrite E in Ha. congruence. }
  assert (Hqst : q <> st).
  { intros E. unfold h2 in Hst. rewrite <- E, lookup_insert_eq in Hst. discriminate. }
  exists (<[st := OState 0 i q]> h2), st. split; [|split].
  - unfold createInitialStateH.
    eapply runs_bind; [apply runs_lift; by erewrite policyAt_ensure|].
    eapply runs_bind; [apply runs_alloc|]. fold i.
    eapply runs_bind; [exact R1|].
    eapply runs_bind; [apply runs_alloc|]. fold q. fold h2.
    apply runs_alloc.
  - exists i, q. cbn [day inventory pendingDeliveries].
    split; [by rewrite lookup_insert_eq|]. split; [done|]. split.
    + eapply (ledgerAt_sameExcept []); [exact L1| |by intros ?%elem_of_nil|].
      * intros x o Hx _. apply lookup_alloc; [|exact Hst]. by apply lookup_alloc.
      * by intros l b ?%elem_of_nil.
    + exists []. split; [|split; constructor].
      rewrite lookup_insert_ne by done. unfold h2. by rewrite lookup_insert_eq.
  - intros x o Hx _.
    assert (Hx1 : h1 !! x = Some o).
    { apply S1.
      - by apply lookup_alloc.
      - intros Hin%list_elem_of_singleton. rewrite Hin in Hx. congruence. }
    apply lookup_alloc; [|exact Hst]. by apply lookup_alloc.
Qed.

(** *** structuredClone *)

Definition isLeaf (o : obj) : Prop :=
  match o with OBatch _ | ODelivery _ => True | _ => False end.

Definition objsAt (h : gmap positive obj) (elems : list positive) (os : list obj) : Prop :=
  Forall2 (fun l o => h !! l = Some o) elems os.

Lemma objsAt_elem h elems os l :
  objsAt h elems os -> l ∈ elems -> is_Some (h !! l).
Proof.
  induction 1 as [|l' o e os' Hl _ IH]; [by intros ?%elem_of_nil|].
  intros [->|Hin]%elem_of_cons; [by exists o | by apply IH].
Qed.

Lemma objsAt_sameExcept h h' elems os :
  objsAt h elems os -> sameExcept [] h h' -> objsAt h' elems os.
Proof.
  intros H Hs. induction H as [|l o e os' Hl _ IH]; constructor; [|done].
  apply Hs; [done | by intros ?%elem_of_nil].
Qed.

Lemma batchesAt_objsAt h elems bs : batchesAt h elems bs <-> objsAt h elems (OBatch <$> bs).
Proof. unfold batchesAt, objsAt. by rewrite Forall2_fmap_r. Qed.

Lemma deliveriesAt_objsAt h elems ds :
  deliveriesAt h elems ds <-> objsAt h elems (ODelivery <$> ds).
Proof. unfold deliveriesAt, objsAt. by rewrite Forall2_fmap_r. Qed.

Lemma runs_cloneLeaf h memo l o :
  memo !! l = None -> h !! l = Some o -> isLeaf o ->
  runs (cloneLeaf memo l) h (base.fresh (dom h), <[l := base.fresh (dom h)]> memo)
       (<[base.fresh (dom h) := o]> h).
Proof.
  intros Hm Hl Ho. unfold runs, cloneLeaf. rewrite Hm, Hl. by destruct o.
Qed.

Lemma runs_cloneElems elems : forall os h memo,
  objsAt h elems os -> Forall isLeaf os -> NoDup elems ->
  (forall l, l ∈ elems -> memo !! l = None) ->
  exists h' elems' memo',
    runs (cloneElems memo elems) h (elems', memo') h'
    /\ objsAt h' elems' os /\ NoDup elems'
    /\ (forall l, l ∈ elems' -> h !! l = None)
    /\ sameExcept [] h h'
    /\ (forall l, memo !! l = None -> l ∉ elems -> memo' !! l = None).
Proof.
  induction elems as [|l e IH]; intros os h memo Ho Hleaf Hnd Hmemo.
  - apply Forall2_nil_inv_l in Ho as ->. exists h, [], memo.
    split; [apply runs_ret|]. split; [constructor|]. split; [constructor|].
    split; [by intros l ?%elem_of_nil|]. split; [apply sameExcept_refl | done].
  - apply Forall2_cons_inv_l in Ho as (o & os' & Hl & Ho & ->).
    apply NoDup_cons in Hnd as [Hnl Hnd]. apply Forall_cons in Hleaf as [Hlo Hleaf].
    set (l' := base.fresh (dom h)).
    assert (Hl' : h !! l' = None) by apply fresh_None.
    assert (Hl'e : l' ∉ e).
    { intros Hin. destruct (objsAt_elem _ _ _ _ Ho Hin) as [? ?]. congruence. }
    destruct (IH os' (<[l' := o]> h) (<[l := l']> memo)) as
      (h' & e' & memo' & Hr & Ho' & Hnd' & Hfresh & Hs & Hm'); [|done|done| |].
    { eapply objsAt_sameExcept; [exact Ho|]. apply sameExcept_alloc. }
    { intros x Hx. rewrite lookup_insert_ne; [apply Hmemo; by right|]. by intros <-. }
    exists h', (l' :: e'), memo'. split; [|split; [|split; [|split; [|split]]]].
    + cbn [cloneElems]. eapply runs_bind; [apply runs_cloneLeaf; [|done..]|].
      { apply Hmemo. by left. }
      cbv beta iota. fold l'. eapply runs_bind; [exact Hr|]. apply runs_ret.
    + constructor; [|done]. apply Hs; [by rewrite lookup_insert_eq|by intros ?%elem_of_nil].
    + apply NoDup_cons. split; [|done]. intros Hin. apply Hfresh in Hin.
      by rewrite lookup_insert_eq in Hin.
    + intros x [->|Hin]%elem_of_cons; [done|]. apply Hfresh in Hin.
      destruct (decide (l' = x)) as [<-|?]; [done|]. by rewrite lookup_insert_ne in Hin.
    + intros x ox Hx Hn. apply Hs; [|done]. rewrite lookup_insert_ne; [done|].
      intros <-. congruence.
    + intros x Hx Hn. apply Hm'.
      * rewrite lookup_insert_ne; [done|]. intros <-. apply Hn. by left.
      * intros Hin. apply Hn. by right.
Qed.

Lemma runs_cloneArray h memo arr elems os :
  h !! arr = Some (OArray elems) -> objsAt h elems os -> Forall isLeaf os -> NoDup elems ->
  memo !! arr = None -> (forall l, l ∈ elems -> memo !! l = None) ->
  exists h' arr' elems' memo',
    runs (cloneArray memo arr) h (arr', memo') h'
    /\ h' !! arr' = Some (OArray elems') /\ h !! arr' = None
    /\ objsAt h' elems' os /\ NoDup elems'
    /\ (forall l, l ∈ elems' -> h !! l = None)
    /\ sameExcept [] h h'
    /\ (forall l, memo !! l = None -> l ∉ elems -> l <> arr -> memo' !! l = None).
Proof.
  intros Ha Ho Hleaf Hnd Hma Hme.
  destruct (runs_cloneElems elems os h memo Ho Hleaf Hnd Hme)
    as (h1 & e' & memo1 & Hr & Ho' & Hnd' & Hfresh & Hs & Hm').
  set (arr' := base.fresh (dom h1)).
  assert (Harr' : h1 !! arr' = None) by apply fresh_None.
  assert (Harr0 : h !! arr' = None).
  { destruct (h !! arr') as [o|] eqn:E; [|done].
    rewrite (Hs arr' o E) in Harr'; [done | by intros ?%elem_of_nil]. }
  exists (<[arr' := OArray e']> h1), arr', e', (<[arr := arr']> memo1).
  split; [|split; [|split; [|split; [|split; [|split; [|split]]]]]].
  - unfold cloneArray. rewrite Hma.
    eapply runs_bind; [by apply runs_readArray|].
    eapply runs_bind; [exact Hr|]. cbv beta iota.
    eapply runs_bind; [apply runs_alloc|]. apply runs_ret.
  - by rewrite lookup_insert_eq.
  - done.
  - eapply objsAt_sameExcept; [exact Ho'|]. apply sameExcept_alloc.
  - done.
  - done.
  - eapply sameExcept_trans; [exact Hs|]. apply sameExcept_alloc.
  - intros x Hx Hn Hne. rewrite lookup_insert_ne by done. by apply Hm'.
Qed.

Lemma runs_structuredCloneH h state s :
  stateAt h state s ->
  exists h' state',
    runs (structuredCloneH state) h state' h'
    /\ stateAt h' state' s /\ sameExcept [] h h'.
Proof.
  intros (i & q & Hst & Hiq & (ie & Hi & Hndi & Hbi) & (e & Hq & Hnd & Hd)).
  destruct (runs_cloneArray h ∅ i ie (OBatch <$> inventory s) Hi)
    as (h1 & i' & ie' & memo1 & R1 & Hi' & Hi'0 & Ho1 & Hnd1 & Hf1 & S1 & M1).
  { by apply batchesAt_objsAt. }
  { apply Forall_fmap. by apply Forall_true. }
  { done. }
  { apply lookup_empty. }
  { intros l _. apply lookup_empty. }
  assert (Hq_ie : q ∉ ie) by (by eapply batchesAt_other).
  destruct (runs_cloneArray h1 memo1 q e (ODelivery <$> pendingDeliveries s))
    as (h2 & q' & e' & memo2 & R2 & Hq' & Hq'0 & Ho2 & Hnd2 & Hf2 & S2 & M2).
  { apply S1; [done | by intros ?%elem_of_nil]. }
  { eapply objsAt_sameExcept; [|exact S1]. by apply deliveriesAt_objsAt. }
  { apply Forall_fmap. by apply Forall_true. }
  { done. }
  { apply M1; [apply lookup_empty | done | done]. }
  { intros l Hl. apply M1; [apply lookup_empty | |].
    - intros Hin. destruct (batchesAt_elem _ _ _ _ Hbi Hin) as [b Hlb].
      destruct (deliveriesAt_elem _ _ _ _ Hd Hl) as [d Hld]. congruence.
    - intros ->. destruct (deliveriesAt_elem _ _ _ _ Hd Hl) as [d Hld]. congruence. }
  set (st' := base.fresh (dom h2)).
  assert (Hst' : h2 !! st' = None) by apply fresh_None.
  assert (Hi'2 : h2 !! i' = Some (OArray ie')).
  { apply S2; [done | by intros ?%elem_of_nil]. }
  exists (<[st' := OState (day s) i' q']> h2), st'. split; [|split].
  - unfold structuredCloneH.
    eapply runs_bind; [by eapply runs_readState|]. cbv beta iota.
    eapply runs_bind; [exact R1|]. cbv beta iota.
    eapply runs_bind; [exact R2|]. cbv beta iota.
    apply runs_alloc.
  - exists i', q'. split; [by rewrite lookup_insert_eq|]. split.
    { intros E. rewrite E in Hi'. congruence. }
    split.
    + exists ie'. split; [|split; [done|]].
      * rewrite lookup_insert_ne; [done|]. intros <-. congruence.
      * apply batchesAt_objsAt. eapply objsAt_sameExcept.
        { eapply objsAt_sameExcept; [exact Ho1 | exact S2]. }
        apply sameExcept_alloc.
    + exists e'. split; [|split; [done|]].
      * rewrite lookup_insert_ne; [done|]. intros <-. congruence.
      * apply deliveriesAt_objsAt. eapply objsAt_sameExcept; [exact Ho2|].
        apply sameExcept_alloc.
  - eapply sameExcept_trans; [exact S1|]. eapply sameExcept_trans; [exact S2|].
    apply sameExcept_alloc.
Qed.

(** *** The whole call *)

(** The caller's initial state, if any, is the value-level one. *)
Definition initialStateAt (h : gmap positive obj) (ref : option positive)
    (init : option StoreState) : Prop :=
  match ref, init with
  | Some l, Some s => stateAt h l s
  | None, None => True
  | _, _ => False
  end.

Lemma sameExcept_rulesKept h h' : sameExcept [] h h' -> rulesKept h h'.
Proof. intros H l r Hl. apply H; [done | by intros ?%elem_of_nil]. Qed.

Section Call.
Variable pow : Q -> Q -> Q.
Variable boxMuller : Q -> Q -> Q.

(** On a store where the arguments are laid out without sharing inside the
    initial state, the store-level call returns what the value-level run
    returns, and throws what it throws. *)
Theorem simulateInventoryH_refines (call : CallOpts) (opts : SimOpts)
    (h : gmap positive obj) :
  call_items call = opt_items opts ->
  call_config call = opt_config opts ->
  policyAt h (call_policy call) (opt_policy opts) ->
  initialStateAt h (call_initialState call) (opt_initialState opts) ->
  match simulateInventory pow boxMuller opts with
  | Ok res =>
      exists res' h',
        simulateInventoryH pow boxMuller call h = (Ok res', h')
        /\ r_days res' = r_days res /\ totals res' = totals res
        /\ r_items res' = r_items res /\ r_config res' = r_config res
  | Throw msg => simulateInventoryH pow boxMuller call h = (Throw msg, h)
  end.
Proof.
  intros Hitems Hconfig Hpol Hinit.
  unfold simulateInventory, simulateInventoryH. cbv zeta.
  rewrite Hitems, Hconfig. rewrite (policyAt_ensure h _ _ (opt_items opts) Hpol).
  destruct (ensurePolicyComplete (opt_items opts) (opt_policy opts)) as [[]|msg] eqn:Ee;
    [|reflexivity].
  cbn [mbind result_bind].
  assert (Hcomplete : policyComplete (opt_items opts) (opt_policy opts)).
  { by apply ensurePolicyComplete_Ok. }
  assert (Hstate : exists s h1 state,
            match opt_initialState opts with
            | Some st => Ok (structuredClone st)
            | None => createInitialState (opt_items opts) (opt_policy opts)
            end = Ok s
            /\ runs match call_initialState call with
                    | Some l => structuredCloneH l
                    | None => createInitialStateH (opt_items opts) (call_policy call)
                    end h state h1
            /\ stateAt h1 state s /\ rulesKept h h1).
  { unfold initialStateAt in Hinit.
    destruct (call_initialState call) as [l|], (opt_initialState opts) as [s|]; try done.
    - destruct (runs_structuredCloneH h l s Hinit) as (h1 & st' & R & Hst & S).
      exists s, h1, st'. split; [done|]. split; [done|]. split; [done|].
      by apply sameExcept_rulesKept.
    - destruct (initialBatches_total _ _ Hcomplete) as [inv Hinv].
      assert (Hc : createInitialState (opt_items opts) (opt_policy opts)
                   = Ok {| day := 0; inventory := inv; pendingDeliveries := [] |}).
      { unfold createInitialState. by rewrite Ee, Hinv. }
      destruct (runs_createInitialStateH h _ _ _ _ Hpol Hc) as (h1 & st' & R & Hst & S).
      eexists _, h1, st'. split; [exact Hc|]. split; [done|]. split; [done|].
      by apply sameExcept_rulesKept. }
  destruct Hstate as (s & h1 & state & -> & R1 & Hst1 & K1).
  cbn [mbind result_bind].
  destruct (dayLoop_total pow boxMuller (opt_config opts) (opt_policy opts) (opt_items opts)
              (Z.to_nat (days (opt_config opts))) 0
              {| d_state := s; d_rng := Rng.createRng (seed (opt_config opts));
                 d_totals := zeroTotals |} [] Hcomplete) as [[d daysOut] Hloop].
  rewrite Hloop. cbn [mbind result_bind].
  destruct (runs_dayLoopH pow boxMuller (opt_config opts) (call_policy call)
              (opt_policy opts) state (opt_items opts) _ 0 h1
              {| d_state := s; d_rng := Rng.createRng (seed (opt_config opts));
                 d_totals := zeroTotals |} [] d daysOut
              (policyAt_kept _ _ _ _ Hpol K1) Hst1 Hloop) as (h2 & R2 & _ & _).
  cbn [d_rng d_totals] in R2.
  eexists _, h2. split.
  { unfold mbind, M_bind, bind, lift. unfold runs in R1, R2. rewrite R1, R2. reflexivity. }
  by repeat split.
Qed.

End Call.

End StoreRefinement.

(** ** A caller's store *)

Module StoreExamples.
Import Store StoreFacts.

(** The state [busyState] as a graph of objects: four batches (1-4), the
    inventory array (5), one delivery (6), the queue (7) and the state
    object (8); the pricing array of the milk policy (9). *)
Definition callerStore : gmap positive obj :=
  {[ 1%positive := OBatch {| b_sku := "milk"; qty := 10; daysToExpire := 2; b_state := fresh |};
     2%positive := OBatch {| b_sku := "milk"; qty := 8; daysToExpire := 1; b_state := fresh |};
     3%positive := OBatch {| b_sku := "greens"; qty := 4; daysToExpire := 1; b_state := fresh |};
     4%positive := OBatch {| b_sku := "milk"; qty := 5; daysToExpire := 1; b_state := frozen |};
     5%positive := OArray [1; 2; 3; 4]%positive;
     6%positive := ODelivery {| pd_sku := "milk"; pd_qty := 7; arrivingInDays := 1 |};
     7%positive := OArray [6%positive];
     8%positive := OState 0 5 7;
     9%positive := ORules [ {| daysToExpireAtMost := 1; priceMultiplier := 1 # 2 |} ] ]}.

Definition milkPolicyRef : ItemPolicyOf (option positive) :=
  {| p_sku := "milk"; reorderPoint := 20; orderUpTo := 40; pricing := Some 9%positive;
     donateDaysToExpireAtMost := 1; donateMaxFractionPerDay := 1 # 2;
     freezeDaysToExpireAtMost := 2; freezeMaxUnitsPerDay := 3 |}.

Definition greensPolicyRef : ItemPolicyOf (option positive) :=
  {| p_sku := "greens"; reorderPoint := 0; orderUpTo := 10; pricing := None;
     donateDaysToExpireAtMost := 0; donateMaxFractionPerDay := 0;
     freezeDaysToExpireAtMost := 0; freezeMaxUnitsPerDay := 0 |}.

Definition busyCall : CallOpts :=
  {| call_items := [milk; greens];
     call_policy := {| policy_id := "p1"; policy_name := "two items";
                       perSku := {[ "milk" := milkPolicyRef; "greens" := greensPolicyRef ]} |};
     call_config := threeDays;
     call_initialState := Some 8%positive |}.

(** The call on the caller's store returns the days and totals of the
    value-level run [busyRun], and the caller's nine objects are as before. *)
Example busyCall_agrees_with_busyRun :
  exists res res',
    fst (simulateInventoryH powIntegral boxMullerZero busyCall callerStore) = Ok res
    /\ simulateInventory powIntegral boxMullerZero busyRun = Ok res'
    /\ r_days res = r_days res' /\ totals res = totals res'.
Proof.
  eexists _, _. split; [vm_compute; reflexivity|]. split; [vm_compute; reflexivity|].
  split; reflexivity.
Qed.

(** The caller's delivery (6) still counts one day after the call, although
    the run has received its copy. *)
Lemma simulateInventory_does_not_mutate_arguments_witness :
  snd (simulateInventoryH powIntegral boxMullerZero busyCall callerStore) !! 6%positive
  = Some (ODelivery {| pd_sku := "milk"; pd_qty := 7; arrivingInDays := 1 |}).
Proof.
  apply (proj1 (simulateInventory_does_not_mutate_arguments powIntegral boxMullerZero
                  busyCall callerStore)).
  reflexivity.
Defined.

(** [callerStore] lays out the policy and the state of [busyRun], without
    sharing; the refinement applies to the call. *)
Lemma busyCall_laid_out :
  StoreRefinement.policyAt callerStore (call_policy busyCall) dairyAndGreens
  /\ StoreRefinement.stateAt callerStore 8%positive busyState.
Proof.
  split.
  - intros sku. cbn [call_policy busyCall perSku dairyAndGreens].
    destruct (decide (sku = "milk")) as [->|Hm].
    { rewrite !lookup_insert_eq. split; [by repeat split | reflexivity]. }
    rewrite !lookup_insert_ne by done.
    destruct (decide (sku = "greens")) as [->|Hg].
    { rewrite !lookup_singleton_eq. split; [by repeat split | reflexivity]. }
    by rewrite !lookup_singleton_ne.
  - exists 5%positive, 7%positive. split; [reflexivity|]. split; [done|]. split.
    + exists [1; 2; 3; 4]%positive. split; [reflexivity|]. split.
      * apply NoDup_ListNoDup. repeat constructor; cbn; intros H;
          decompose [or] H; discriminate || contradiction.
      * repeat constructor.
    + exists [6%positive]. split; [reflexivity|]. split; [apply NoDup_singleton|].
      repeat constructor.
Qed.

Example busyCall_refines_busyRun :
  match simulateInventory powIntegral boxMullerZero busyRun with
  | Ok res =>
      exists res' h',
        simulateInventoryH powIntegral boxMullerZero busyCall callerStore = (Ok res', h')
        /\ r_days res' = r_days res /\ totals res' = totals res
        /\ r_items res' = r_items res /\ r_config res' = r_config res
  | Throw msg =>
      simulateInventoryH powIntegral boxMullerZero busyCall callerStore
      = (Throw msg, callerStore)
  end.
Proof.
  apply StoreRefinement.simulateInventoryH_refines;
    [reflexivity | reflexivity | apply busyCall_laid_out | apply busyCall_laid_out].
Qed.

(** Without an initial state the call builds its own, as [defaultRun]. *)
Example defaultCall_agrees_with_defaultRun :
  exists res res',
    fst (simulateInventoryH powIntegral boxMullerZero
           {| call_items := call_items busyCall; call_policy := call_policy busyCall;
              call_config := call_config busyCall; call_initialState := None |}
           callerStore) = Ok res
    /\ simulateInventory powIntegral boxMullerZero defaultRun = Ok res'
    /\ r_days res = r_days res' /\ totals res = totals res'.
Proof.
  eexists _, _. split; [vm_compute; reflexivity|]. split; [vm_compute; reflexivity|].
  split; reflexivity.
Qed.

(** The same call with a policy that lacks the entry for milk. *)
Definition incompleteCall : CallOpts :=
  {| call_items := [greens; milk];
     call_policy := {| policy_id := "p2"; policy_name := "greens only";
                       perSku := {[ "greens" := greensPolicyRef ]} |};
     call_config := threeDays;
     call_initialState := Some 8%positive |}.


Example incompleteCall_names_milk :
  simulateInventoryH powIntegral boxMullerZero incompleteCall callerStore
  = (Throw "Policy missing perSku entry for sku 'milk'", callerStore).
Proof. reflexivity. Qed.

End StoreExamples.


(** * Further properties of the code *)

(** * Markdown pricing *)

Definition ruleLe (a b : PricingRule) : Prop :=
  (daysToExpireAtMost a <= daysToExpireAtMost b)%Q.

Lemma Qleb_le a b : Qleb a b = true <-> (a <= b)%Q.
Proof. unfold Qleb. apply Qle_bool_iff. Qed.

Lemma insertRule_perm x l : Permutation (insertRule x l) (x :: l).
Proof.
  induction l as [|y l IH]; cbn [insertRule]; [reflexivity|].
  destruct (Qleb _ _); [reflexivity|].
  etransitivity; [apply perm_skip, IH | apply perm_swap].
Qed.

Lemma sortRules_perm l : Permutation (sortRules l) l.
Proof.
  induction l as [|x l IH]; cbn [sortRules]; [reflexivity|].
  etransitivity; [apply insertRule_perm | by apply perm_skip].
Qed.

Lemma insertRule_sorted x l :
  StronglySorted ruleLe l -> StronglySorted ruleLe (insertRule x l).
Proof.
  induction 1 as [|y l Hs IH Hy]; cbn [insertRule].
  - repeat constructor.
  - destruct (Qleb (daysToExpireAtMost x) (daysToExpireAtMost y)) eqn:E.
    + apply Qleb_le in E. constructor; [by constructor|].
      constructor; [exact E|].
      eapply List.Forall_impl; [|exact Hy]. intros z Hz. unfold ruleLe in *.
      eapply Qle_trans; [exact E | exact Hz].
    + apply Qleb_false in E. constructor; [exact IH|].
      eapply Permutation_Forall; [symmetry; apply insertRule_perm|].
      constructor; [|exact Hy]. unfold ruleLe. by apply Qlt_le_weak.
Qed.

Lemma sortRules_sorted l : StronglySorted ruleLe (sortRules l).
Proof.
  induction l as [|x l IH]; cbn [sortRules]; [constructor | by apply insertRule_sorted].
Qed.

(** On rules in ascending threshold order, the first applicable rule is an
    applicable rule with the least threshold. *)
Lemma firstRule_sorted l d :
  StronglySorted ruleLe l ->
  ((forall r, In r l -> Qleb (inject_Z d) (daysToExpireAtMost r) = false) /\ firstRule l d = 1%Q)
  \/ exists r,
       In r l /\ Qleb (inject_Z d) (daysToExpireAtMost r) = true
       /\ firstRule l d = priceMultiplier r
       /\ forall r', In r' l -> Qleb (inject_Z d) (daysToExpireAtMost r') = true -> ruleLe r r'.
Proof.
  induction 1 as [|x l Hs IH Hx]; cbn [firstRule].
  - left. split; [intros r []|reflexivity].
  - destruct (Qleb (inject_Z d) (daysToExpireAtMost x)) eqn:E.
    + right. exists x. split; [by left|]. split; [exact E|]. split; [reflexivity|].
      intros r' [<-|Hin] _; [apply Qle_refl|].
      rewrite List.Forall_forall in Hx. by apply Hx.
    + destruct IH as [[Hnone H1]|(r & Hin & Hr & Hm & Hmin)].
      * left. split; [|exact H1]. intros r [<-|Hr]; [exact E | by apply Hnone].
      * right. exists r. split; [by right|]. split; [exact Hr|]. split; [exact Hm|].
        intros r' [<-|Hin'] Hr'; [congruence | by apply Hmin].
Qed.

(** X1.  [applyPricing] never returns a negative price.  When no rule of
    the policy covers the remaining shelf life (in particular with no rules)
    the multiplier is 1; otherwise it is the multiplier of a covering rule
    with the least threshold among the covering rules, in whatever order the
    policy lists its rules. *)
Theorem applyPricing_tightest_rule item policy (minDaysToExpireFresh : Z) :
  let covers r := (inject_Z minDaysToExpireFresh <= daysToExpireAtMost r)%Q in
  let price := fst (applyPricing item policy minDaysToExpireFresh) in
  let multiplier := snd (applyPricing item policy minDaysToExpireFresh) in
  (0 <= price)%Q
  /\ ((forall r, In r (pricing policy) -> ~ covers r) ->
        multiplier = 1%Q /\ price = Qmaxb 0 (basePrice item * 1))
  /\ ((exists r, In r (pricing policy) /\ covers r) ->
        exists r,
          In r (pricing policy) /\ covers r
          /\ multiplier = priceMultiplier r
          /\ price = Qmaxb 0 (basePrice item * priceMultiplier r)
          /\ forall r', In r' (pricing policy) -> covers r' ->
               (daysToExpireAtMost r <= daysToExpireAtMost r')%Q).
Proof.
  cbv zeta. unfold applyPricing. cbn [fst snd].
  pose proof (sortRules_perm (pricing policy)) as Hp.
  split; [apply Qmaxb_ge_l|].
  destruct (firstRule_sorted (sortRules (pricing policy)) minDaysToExpireFresh
              (sortRules_sorted _)) as [[Hnone H1]|(r & Hin & Hr & Hm & Hmin)].
  - split.
    + intros _. by rewrite H1.
    + intros (r & Hin & Hc). exfalso.
      assert (Hin' : In r (sortRules (pricing policy))).
      { eapply Permutation_in; [symmetry; exact Hp | exact Hin]. }
      apply Hnone in Hin'. apply Qleb_le in Hc. congruence.
  - assert (Hin0 : In r (pricing policy)) by (eapply Permutation_in; eassumption).
    apply Qleb_le in Hr. split.
    + intros Hno. exfalso. by apply (Hno r).
    + intros _. exists r. split; [exact Hin0|]. split; [exact Hr|].
      split; [exact Hm|]. split; [by rewrite Hm|].
      intros r' Hin' Hc. apply Hmin.
      * eapply Permutation_in; [symmetry; exact Hp | exact Hin'].
      * by apply Qleb_le.
Qed.

(** * Freezing and donating near-expiry stock *)

Definition eligibleIf (sku : Sku) (threshold : Q) (b : InventoryBatch) : Z :=
  if is_of sku fresh b && Qleb (inject_Z (daysToExpire b)) threshold then qty b else 0.

Lemma eligibleQty_acc sku thr l : forall acc,
  fold_left (fun (e : Z) (b : InventoryBatch) =>
               if is_of sku fresh b && Qleb (inject_Z (daysToExpire b)) thr
               then e + qty b else e) l acc
  = acc + eligibleQty l sku thr.
Proof.
  unfold eligibleQty. induction l as [|b l IH]; intros acc; cbn [fold_left]; [lia|].
  rewrite IH, (IH (if is_of sku fresh b && Qleb (inject_Z (daysToExpire b)) thr
                   then 0 + qty b else 0)).
  destruct (is_of sku fresh b && Qleb (inject_Z (daysToExpire b)) thr); lia.
Qed.

Lemma eligibleQty_cons sku thr b l :
  eligibleQty (b :: l) sku thr = eligibleIf sku thr b + eligibleQty l sku thr.
Proof.
  unfold eligibleQty at 1. cbn [fold_left]. rewrite eligibleQty_acc. unfold eligibleIf.
  destruct (is_of sku fresh b && Qleb (inject_Z (daysToExpire b)) thr); lia.
Qed.

Lemma eligibleQty_perm sku thr l l' :
  Permutation l l' -> eligibleQty l sku thr = eligibleQty l' sku thr.
Proof.
  induction 1 as [|x l l' _ IH|x y l|l l' l'' _ IH1 _ IH2];
    rewrite ?eligibleQty_cons; try lia; reflexivity.
Qed.

Lemma eligibleIf_range sku thr b : 0 <= qty b -> 0 <= eligibleIf sku thr b <= qtyIf sku fresh b.
Proof.
  intros H. unfold eligibleIf, qtyIf. destruct (is_of sku fresh b); cbn [andb]; [|lia].
  destruct (Qleb _ _); lia.
Qed.

Lemma eligibleQty_range sku thr l :
  nonneg l -> 0 <= eligibleQty l sku thr <= sumQty l sku fresh.
Proof.
  induction 1 as [|b l Hb _ IH].
  - unfold eligibleQty, sumQty. cbn. lia.
  - rewrite eligibleQty_cons, sumQty_cons.
    pose proof (eligibleIf_range sku thr b Hb). unfold qtyIf in *. lia.
Qed.

(** The freeze loop moves as much as the cap and the near-expiry fresh
    stock allow. *)
Lemma freeze_loop_amount item p l : forall cap moved pushed,
  nonneg l ->
  snd (fst (freeze_loop item p l cap moved pushed))
  = moved + Z.min (Z.max 0 cap)
                  (eligibleQty l (item_sku item) (freezeDaysToExpireAtMost p)).
Proof.
  induction l as [|b l IH]; intros cap moved pushed Hnn.
  - cbn. unfold eligibleQty. cbn. lia.
  - inversion Hnn as [|? ? Hb Hl]; subst.
    pose proof (eligibleQty_range (item_sku item) (freezeDaysToExpireAtMost p) l Hl) as He.
    rewrite eligibleQty_cons. unfold eligibleIf. cbn [freeze_loop].
    destruct (cap <=? 0) eqn:Ec.
    { apply Z.leb_le in Ec. cbn [fst snd].
      destruct (is_of _ _ _ && _); lia. }
    apply Z.leb_gt in Ec. unfold Qltb.
    destruct (is_of (item_sku item) fresh b) eqn:Eof; cbn [negb orb andb].
    2:{ specialize (IH cap moved pushed Hl).
        destruct (freeze_loop item p l cap moved pushed) as [[r m] ps].
        cbn [fst snd] in *. lia. }
    change (Qle_bool (inject_Z (daysToExpire b)) (freezeDaysToExpireAtMost p))
      with (Qleb (inject_Z (daysToExpire b)) (freezeDaysToExpireAtMost p)).
    destruct (Qleb (inject_Z (daysToExpire b)) (freezeDaysToExpireAtMost p)); cbn [negb].
    2:{ specialize (IH cap moved pushed Hl).
        destruct (freeze_loop item p l cap moved pushed) as [[r m] ps].
        cbn [fst snd] in *. lia. }
    cbv zeta. destruct (Z.min (qty b) cap <=? 0) eqn:Eq.
    { apply Z.leb_le in Eq. specialize (IH cap moved pushed Hl).
      destruct (freeze_loop item p l cap moved pushed) as [[r m] ps].
      cbn [fst snd] in *. lia. }
    apply Z.leb_gt in Eq.
    specialize (IH (cap - Z.min (qty b) cap) (moved + Z.min (qty b) cap)
                   (pushed ++ [frozenBatch item (Z.min (qty b) cap)]) Hl).
    destruct (freeze_loop item p l _ _ _) as [[r m] ps]. cbn [fst snd] in *. lia.
Qed.

(** X4.  The freeze stage moves min(cap, eligible) units, where cap is
    max(0, floor(freezeMaxUnitsPerDay)) and eligible is the fresh stock of
    the SKU with daysToExpire at most freezeDaysToExpireAtMost; an item that
    cannot be frozen, or a cap that is not positive, leaves the ledger
    untouched whatever the policy says. *)
Theorem freezeStage_amount item p inv :
  nonneg inv ->
  let moved := snd (freezeStage item p inv) in
  let cap := Z.max 0 (Math_floor (freezeMaxUnitsPerDay p)) in
  let eligible := eligibleQty inv (item_sku item) (freezeDaysToExpireAtMost p) in
  (canFreeze item = true -> (0 < freezeMaxUnitsPerDay p)%Q -> moved = Z.min cap eligible)
  /\ (canFreeze item = false \/ (freezeMaxUnitsPerDay p <= 0)%Q ->
        freezeStage item p inv = (inv, 0))
  /\ 0 <= moved <= cap /\ moved <= eligible.
Proof.
  intros Hnn. cbv zeta. unfold freezeStage.
  pose proof (eligibleQty_range (item_sku item) (freezeDaysToExpireAtMost p) inv Hnn) as He.
  pose proof (freeze_loop_amount item p (sortFifo inv)
                (Z.max 0 (Math_floor (freezeMaxUnitsPerDay p))) 0 []
                (nonneg_sortFifo _ Hnn)) as Ha.
  rewrite (eligibleQty_perm _ _ _ _ (sortFifo_perm inv)) in Ha.
  destruct (canFreeze item) eqn:Ec; cbn [andb].
  2:{ cbn [fst snd]. split; [discriminate|]. split; [reflexivity|]. lia. }
  destruct (Qltb 0 (freezeMaxUnitsPerDay p)) eqn:Ef.
  - apply RngFacts.Qltb_lt in Ef.
    destruct (freeze_loop item p (sortFifo inv) _ 0 []) as [[r m] ps].
    cbn [fst snd] in *. split; [intros _ _; lia|]. split; [|lia].
    intros [H|H]; [discriminate|]. exfalso. exact (Qlt_not_le _ _ Ef H).
  - cbn [fst snd]. split.
    + intros _ H. apply RngFacts.Qltb_lt in H. congruence.
    + split; [reflexivity|]. lia.
Qed.

Lemma sortFifo_sorted_id l : StronglySorted byExpiry l -> sortFifo l = l.
Proof.
  induction 1 as [|x l Hs IH Hx]; cbn [sortFifo]; [reflexivity|].
  rewrite IH. destruct l as [|y l]; [reflexivity|]. cbn [insertFifo].
  inversion Hx as [|? ? Hxy _]; subst. unfold byExpiry in Hxy.
  by rewrite (proj2 (Z.leb_le _ _) Hxy).
Qed.



(** * What a row records about sales and shrink *)

Section Sales.
Variable pow : Q -> Q -> Q.
Variable boxMuller : Q -> Q -> Q.

Lemma runSku_sales config item p inv pending rng :
  nonneg inv ->
  let m := run_row (runSku pow boxMuller config item p inv pending rng) in
  let onHand := startingFresh m + startingFrozen m - donated m - soldFresh m - soldFrozen m in
  0 <= demand m
  /\ soldFresh m = Z.min (demand m) (startingFresh m - frozenMoved m - donated m)
  /\ soldFrozen m = Z.min (demand m - soldFresh m) (startingFrozen m + frozenMoved m)
  /\ stockout m = (if countStockouts config
                   then demand m - soldFresh m - soldFrozen m else 0)
  /\ shrinkLost m = Math_floor (inject_Z onHand * clamp01 (shrinkRate item))
  /\ 0 <= shrinkLost m <= onHand
  /\ 0 <= frozenMoved m /\ 0 <= donated m
  /\ frozenMoved m + donated m <= startingFresh m.
Proof.
  intros Hnn. unfold runSku. cbv beta iota zeta.
  destruct (freezeStage_flows item p inv Hnn) as [Hmoved F1].
  destruct (freezeStage item p inv) as [inv1 moved]. cbn [fst snd] in Hmoved, F1.
  cbv beta iota zeta.
  destruct (donateStage_flows item p inv1 (proj1 F1)) as [Hdon F2].
  destruct (donateStage item p inv1) as [inv2 don]. cbn [fst snd] in Hdon, F2.
  cbv beta iota zeta.
  destruct (applyPricing item p (pricingDays item inv2)) as [pr mult].
  cbv beta iota zeta.
  destruct (demandForDay pow boxMuller item mult rng (demandNoiseStdDev config)) as [dem rng'].
  cbv beta iota zeta.
  set (demandInt := Z.max 0 (Math_floor dem)).
  pose proof (take_fresh_flows (item_sku item) inv2 demandInt (proj1 F2)) as F3.
  destruct (takeFromBatches_sums inv2 (item_sku item) fresh demandInt (proj1 F2)) as (Hsf & _).
  destruct (takeFromBatches inv2 (item_sku item) fresh demandInt) as [inv3 sFresh].
  cbn [fst snd] in F3, Hsf. cbv beta iota zeta.
  set (remainingDemand := Z.max 0 (demandInt - sFresh)).
  pose proof (sumQty_nonneg (item_sku item) fresh inv2 (proj1 F2)) as Hf2.
  pose proof (sumQty_nonneg (item_sku item) frozen inv3 (proj1 F3)) as Hz3.
  assert (F4 : exists inv4 sFrozen,
             (if 0 <? remainingDemand
              then takeFromBatches inv3 (item_sku item) frozen remainingDemand
              else (inv3, 0)) = (inv4, sFrozen)
             /\ sFrozen = Z.min remainingDemand (sumQty inv3 (item_sku item) frozen)
             /\ flows (item_sku item) inv3 inv4 0 (- sFrozen)).
  { destruct (0 <? remainingDemand) eqn:Er.
    - pose proof (take_frozen_flows (item_sku item) inv3 remainingDemand (proj1 F3)) as F.
      destruct (takeFromBatches_sums inv3 (item_sku item) frozen remainingDemand (proj1 F3))
        as (Ht & _).
      destruct (takeFromBatches inv3 (item_sku item) frozen remainingDemand) as [i4 s4].
      cbn [fst snd] in F, Ht. exists i4, s4. split; [reflexivity|]. split; [|exact F].
      unfold remainingDemand in *. lia.
    - apply Z.ltb_ge in Er. exists inv3, 0. split; [reflexivity|]. split; [lia|].
      apply flows_refl, (proj1 F3). }
  destruct F4 as (inv4 & sFrozen & -> & HsZ & F4). cbv beta iota zeta.
  set (onHand := sumQty inv4 (item_sku item) fresh + sumQty inv4 (item_sku item) frozen).
  set (lost := Math_floor (inject_Z onHand * clamp01 (shrinkRate item))).
  assert (Hlost : 0 <= lost <= onHand).
  { apply floor_fraction_range; [|apply clamp01_range..].
    pose proof (sumQty_nonneg (item_sku item) fresh inv4 (proj1 F4)).
    pose proof (sumQty_nonneg (item_sku item) frozen inv4 (proj1 F4)). unfold onHand. lia. }
  destruct (if 0 <? lost then _ else _) as [[inv5 lF] lZ]. cbv beta iota zeta.
  destruct (ageStage (item_sku item) inv5) as [inv6 w]. cbv beta iota zeta.
  cbn [run_row startingFresh startingFrozen soldFresh soldFrozen donated frozenMoved
       shrinkLost demand stockout].
  destruct F1 as (_ & A1 & B1 & _), F2 as (_ & A2 & B2 & _), F3 as (_ & A3 & B3 & _),
           F4 as (_ & A4 & B4 & _).
  assert (Hon : onHand
                = sumQty inv (item_sku item) fresh + sumQty inv (item_sku item) frozen
                  - don - sFresh - sFrozen) by (unfold onHand; lia).
  fold demandInt. rewrite <- Hon. fold lost.
  assert (Hd : 0 <= demandInt) by (unfold demandInt; lia).
  assert (Hun : Z.max 0 (demandInt - sFresh - sFrozen) = demandInt - sFresh - sFrozen).
  { unfold remainingDemand in HsZ. lia. }
  rewrite Hun. unfold remainingDemand in HsZ.
  repeat split; try lia.
Qed.

End Sales.

(** * Invariants of the driver *)

Section Invariant.
Variable pow : Q -> Q -> Q.
Variable boxMuller : Q -> Q -> Q.
Variable config : SimulationConfig.
Variable policy : InventoryPolicy.
Variable items : list ItemSpec.

(** A property of the ledger and the queue that the receipt step and every
    pipeline run keep. *)
Variable I : list InventoryBatch -> list PendingDelivery -> Prop.
Hypothesis I_receive : forall st,
  I (inventory st) (pendingDeliveries st) ->
  I (inventory (receiveDeliveries items st)) (pendingDeliveries (receiveDeliveries items st)).
Hypothesis I_run : forall item p inv pending rng,
  In item items -> perSku policy !! item_sku item = Some p -> I inv pending ->
  I (run_inventory (runSku pow boxMuller config item p inv pending rng))
    (run_pending (runSku pow boxMuller config item p inv pending rng)).

Definition holds (d : Driver) : Prop :=
  I (inventory (d_state d)) (pendingDeliveries (d_state d)).

(** A pipeline run for a catalog item that started where [I] held. *)
Definition runFrom (r : SkuRun) : Prop :=
  exists item p inv pending rng,
    In item items /\ perSku policy !! item_sku item = Some p /\ I inv pending
    /\ r = runSku pow boxMuller config item p inv pending rng.

Lemma skuLoop_invariant sub : forall d rows d' rows',
  (forall it, In it sub -> In it items) ->
  skuLoop pow boxMuller config policy sub d rows = Ok (d', rows') ->
  holds d ->
  holds d'
  /\ day (d_state d') = day (d_state d)
  /\ exists runs,
       rows' = rows ++ List.map run_row runs
       /\ Forall runFrom runs
       /\ List.map m_sku (List.map run_row runs) = List.map item_sku sub
       /\ d_totals d' = fold_left addRow (List.map run_row runs) (d_totals d).
Proof.
  induction sub as [|item rest IH]; intros d rows d' rows' Hsub H Hd.
  - cbn in H. injection H as <- <-. split; [exact Hd|]. split; [reflexivity|].
    exists []. rewrite app_nil_r. repeat split. constructor.
  - apply skuLoop_cons in H as (p & Hp & H). cbv zeta in H.
    set (r := runSku pow boxMuller config item p (inventory (d_state d))
                (pendingDeliveries (d_state d)) (d_rng d)) in *.
    apply IH in H as (Hd' & Hday & runs & -> & Hall & Hskus & Htot).
    + split; [exact Hd'|]. split; [exact Hday|]. exists (r :: runs).
      split; [by rewrite <- app_assoc|]. split; [|split].
      * constructor; [|exact Hall].
        exists item, p, (inventory (d_state d)), (pendingDeliveries (d_state d)), (d_rng d).
        split; [apply Hsub; by left|]. by repeat split.
      * cbn [List.map]. rewrite Hskus. f_equal. apply runSku_m_sku.
      * exact Htot.
    + intros it Hin. apply Hsub. by right.
    + unfold holds, afterRun. cbn [d_state inventory pendingDeliveries].
      apply I_run; [apply Hsub; by left | exact Hp | exact Hd].
Qed.

Lemma dayStep_invariant idx d d' dm :
  dayStep pow boxMuller config policy items idx d = Ok (d', dm) ->
  holds d ->
  holds d'
  /\ day (d_state d') = day (d_state d) + 1
  /\ dm_day dm = idx
  /\ List.map m_sku (dm_perSku dm) = List.map item_sku items
  /\ d_totals d' = fold_left addRow (dm_perSku dm) (d_totals d)
  /\ exists runs, dm_perSku dm = List.map run_row runs /\ Forall runFrom runs.
Proof.
  unfold dayStep. intros H Hd.
  destruct (skuLoop _ _ _ _ _ _ _) as [[d1 rows]|] eqn:E; [|discriminate].
  cbn in H. injection H as <- <-.
  apply skuLoop_invariant in E as (Hd1 & Hday & runs & -> & Hall & Hskus & Htot).
  - cbn [app d_state day inventory pendingDeliveries dm_day dm_perSku d_totals] in *.
    split; [exact Hd1|]. split; [by rewrite Hday|]. split; [reflexivity|].
    split; [exact Hskus|]. split; [exact Htot|]. by exists runs.
  - by intros it Hin.
  - unfold holds. cbn [d_state]. by apply I_receive.
Qed.

Lemma dayLoop_invariant n : forall idx d acc d' acc',
  dayLoop pow boxMuller config policy items n idx d acc = Ok (d', acc') ->
  holds d ->
  holds d'
  /\ day (d_state d') = day (d_state d) + Z.of_nat n
  /\ exists new,
       acc' = acc ++ new
       /\ length new = n
       /\ (forall i dm, nth_error new i = Some dm ->
             dm_day dm = idx + Z.of_nat i
             /\ List.map m_sku (dm_perSku dm) = List.map item_sku items
             /\ exists runs, dm_perSku dm = List.map run_row runs /\ Forall runFrom runs)
       /\ d_totals d' = fold_left addRow (List.concat (List.map dm_perSku new)) (d_totals d).
Proof.
  induction n as [|n IH]; intros idx d acc d' acc' H Hd.
  - cbn in H. injection H as <- <-. split; [exact Hd|]. split; [lia|].
    exists []. rewrite app_nil_r. repeat split; destruct i; discriminate.
  - cbn [dayLoop] in H.
    destruct (dayStep _ _ _ _ _ _ _) as [[d1 dm1]|] eqn:E; [|discriminate].
    cbn [mbind result_bind] in H.
    apply dayStep_invariant in E as (Hd1 & Hday1 & Hidx & Hskus & Htot1 & Hruns); [|exact Hd].
    apply IH in H as (Hd' & Hday & new & -> & Hlen & Hnth & Htot); [|exact Hd1].
    split; [exact Hd'|]. split; [lia|]. exists (dm1 :: new).
    split; [by rewrite <- app_assoc|]. split; [cbn; lia|]. split.
    + intros [|i] dm Hi; cbn [nth_error] in Hi.
      * injection Hi as <-. split; [lia|]. by split.
      * destruct (Hnth i dm Hi) as (Hdm & Hrest). split; [lia | exact Hrest].
    + cbn [List.map List.concat]. rewrite fold_left_app. by rewrite <- Htot1.
Qed.

End Invariant.

Section Runs.
Variable pow : Q -> Q -> Q.
Variable boxMuller : Q -> Q -> Q.

(** The state a call starts from. *)
Definition startsFrom (opts : SimOpts) (st : StoreState) : Prop :=
  match opt_initialState opts with
  | Some s => st = s
  | None => createInitialState (opt_items opts) (opt_policy opts) = Ok st
  end.

Definition allRows (res : SimulationResult) : list DaySkuMetrics :=
  List.concat (List.map dm_perSku (r_days res)).

Lemma simulateInventory_invariant (I : list InventoryBatch -> list PendingDelivery -> Prop)
    opts res :
  (forall st,
     I (inventory st) (pendingDeliveries st) ->
     I (inventory (receiveDeliveries (opt_items opts) st))
       (pendingDeliveries (receiveDeliveries (opt_items opts) st))) ->
  (forall item p inv pending rng,
     In item (opt_items opts) -> perSku (opt_policy opts) !! item_sku item = Some p ->
     I inv pending ->
     I (run_inventory (runSku pow boxMuller (opt_config opts) item p inv pending rng))
       (run_pending (runSku pow boxMuller (opt_config opts) item p inv pending rng))) ->
  (forall st, startsFrom opts st -> I (inventory st) (pendingDeliveries st)) ->
  simulateInventory pow boxMuller opts = Ok res ->
  length (r_days res) = Z.to_nat (days (opt_config opts))
  /\ (forall i dm, nth_error (r_days res) i = Some dm ->
        dm_day dm = Z.of_nat i
        /\ List.map m_sku (dm_perSku dm) = List.map item_sku (opt_items opts)
        /\ exists runs,
             dm_perSku dm = List.map run_row runs
             /\ Forall (runFrom pow boxMuller (opt_config opts) (opt_policy opts)
                          (opt_items opts) I) runs)
  /\ totals res = closeTotals (fold_left addRow (allRows res) zeroTotals).
Proof.
  intros Hrec Hrun Hinit H. unfold simulateInventory in H.
  destruct (ensurePolicyComplete _ _); [|discriminate]. cbn [mbind result_bind] in H.
  destruct (match opt_initialState opts with Some _ => _ | None => _ end) as [st|] eqn:Est;
    [|discriminate].
  cbn [mbind result_bind] in H.
  destruct (dayLoop _ _ _ _ _ _ _ _ _) as [[d daysOut]|] eqn:E; [|discriminate].
  cbn [mbind result_bind] in H. injection H as <-.
  assert (Hst : I (inventory st) (pendingDeliveries st)).
  { apply Hinit. unfold startsFrom. destruct (opt_initialState opts) as [s|].
    - unfold structuredClone in Est. by injection Est as <-.
    - exact Est. }
  apply (dayLoop_invariant pow boxMuller _ _ _ I Hrec Hrun) in E
    as (_ & _ & new & -> & Hlen & Hnth & Htot); [|exact Hst].
  cbn [app r_days totals d_totals] in *. unfold allRows. cbn [r_days].
  split; [exact Hlen|]. split; [|by rewrite Htot].
  intros i dm Hi. destruct (Hnth i dm Hi) as (Hday & Hrest). split; [lia | exact Hrest].
Qed.

Lemma createInitialState_startsFrom_nonneg opts st :
  (forall s, opt_initialState opts = Some s -> nonneg (inventory s)) ->
  startsFrom opts st -> nonneg (inventory st).
Proof.
  unfold startsFrom. intros Hs H. destruct (opt_initialState opts) as [s|].
  - subst. by apply Hs.
  - by apply stocked_nonneg, (createInitialState_stocked _ _ _ H).
Qed.

(** Every row of a run on a ledger without negative quantities is the row
    of a pipeline run that started on such a ledger. *)
Lemma simulateInventory_rows_nonneg opts res dm m :
  simulateInventory pow boxMuller opts = Ok res ->
  (forall s, opt_initialState opts = Some s -> nonneg (inventory s)) ->
  In dm (r_days res) -> In m (dm_perSku dm) ->
  exists item p inv pending rng,
    In item (opt_items opts) /\ perSku (opt_policy opts) !! item_sku item = Some p
    /\ nonneg inv
    /\ m = run_row (runSku pow boxMuller (opt_config opts) item p inv pending rng).
Proof.
  intros H Hs Hdm Hm.
  destruct (simulateInventory_invariant (fun inv _ => nonneg inv) opts res) as (_ & Hnth & _).
  - intros st. apply receiveDeliveries_nonneg.
  - intros item p inv pending rng _ _ Hnn.
    exact (proj1 (runSku_flows pow boxMuller (opt_config opts) item p inv pending rng Hnn)).
  - intros st. by apply createInitialState_startsFrom_nonneg.
  - exact H.
  - apply In_nth_error in Hdm as [i Hi].
    destruct (Hnth i dm Hi) as (_ & _ & runs & Hrows & Hall).
    rewrite Hrows in Hm. apply in_map_iff in Hm as (r & <- & Hr).
    rewrite List.Forall_forall in Hall.
    destruct (Hall r Hr) as (item & p & inv & pd & rng & Hin & Hp & Hnn & ->).
    by exists item, p, inv, pd, rng.
Qed.

(** X2.  In every row of every simulated day: demand is a non-negative
    integer; the fresh units sold are min(demand, fresh stock at the start
    of the day minus the units frozen and donated that day); the frozen units
    sold are min(unmet demand, frozen stock at the start of the day plus the
    units frozen that day), so frozen stock only substitutes once the fresh
    stock is sold out; and the recorded stockout is the demand left unmet,
    or 0 when stockouts are not counted. *)
Theorem sales_fresh_first_then_frozen opts res dm m :
  simulateInventory pow boxMuller opts = Ok res ->
  (forall s, opt_initialState opts = Some s -> nonneg (inventory s)) ->
  In dm (r_days res) -> In m (dm_perSku dm) ->
  0 <= demand m
  /\ soldFresh m = Z.min (demand m) (startingFresh m - frozenMoved m - donated m)
  /\ soldFrozen m = Z.min (demand m - soldFresh m) (startingFrozen m + frozenMoved m)
  /\ (0 < soldFrozen m -> soldFresh m = startingFresh m - frozenMoved m - donated m)
  /\ soldFresh m + soldFrozen m <= demand m
  /\ stockout m = (if countStockouts (opt_config opts)
                   then demand m - soldFresh m - soldFrozen m else 0).
Proof.
  intros H Hs Hdm Hm.
  destruct (simulateInventory_rows_nonneg opts res dm m H Hs Hdm Hm)
    as (item & p & inv & pd & rng & _ & _ & Hnn & ->).
  destruct (runSku_sales pow boxMuller (opt_config opts) item p inv pd rng Hnn)
    as (Hd & Hf & Hz & Hso & _ & _ & Hm0 & Hd0 & Hle).
  cbv zeta in *. repeat split; try assumption; lia.
Qed.


End Runs.

(** * Totals and the shape of the result *)

Definition sumZ (f : DaySkuMetrics -> Z) (rows : list DaySkuMetrics) : Z :=
  fold_right (fun m s => f m + s) 0 rows.

Definition sumQ (f : DaySkuMetrics -> Q) (rows : list DaySkuMetrics) : Q :=
  fold_right (fun m s => (f m + s)%Q) 0%Q rows.

Lemma addRow_counts rows : forall t,
  let t' := fold_left addRow rows t in
  t_demand t' = t_demand t + sumZ demand rows
  /\ t_sold t' = t_sold t + sumZ (fun m => soldFresh m + soldFrozen m) rows
  /\ t_stockout t' = t_stockout t + sumZ stockout rows
  /\ t_wasted t' = t_wasted t + sumZ wasted rows
  /\ t_donated t' = t_donated t + sumZ donated rows
  /\ t_profit t' = t_profit t.
Proof.
  induction rows as [|m rows IH]; intros t; cbn [fold_left sumZ fold_right].
  - cbv zeta. repeat split; lia.
  - specialize (IH (addRow t m)). cbv zeta in *. cbn [addRow t_demand t_sold t_stockout
      t_wasted t_donated t_profit] in IH.
    destruct IH as (H1 & H2 & H3 & H4 & H5 & H6). unfold sumZ in *.
    repeat split; try lia. exact H6.
Qed.

Lemma addRow_money rows : forall t,
  let t' := fold_left addRow rows t in
  (t_revenue t' == t_revenue t + sumQ revenue rows)%Q
  /\ (t_cogs t' == t_cogs t + sumQ cogs rows)%Q
  /\ (t_holdingCost t' == t_holdingCost t + sumQ holdingCost rows)%Q
  /\ (t_wasteCost t' == t_wasteCost t + sumQ wasteCost rows)%Q
  /\ (t_freezeCost t' == t_freezeCost t + sumQ freezeCost rows)%Q.
Proof.
  induction rows as [|m rows IH]; intros t; cbn [fold_left sumQ fold_right].
  - cbv zeta. repeat split; symmetry; apply Qplus_0_r.
  - specialize (IH (addRow t m)). cbv zeta in *.
    cbn [addRow t_revenue t_cogs t_holdingCost t_wasteCost t_freezeCost] in IH.
    destruct IH as (H1 & H2 & H3 & H4 & H5).
    repeat split; (eapply Qeq_trans; [eassumption|]); symmetry; apply Qplus_assoc.
Qed.

Section Results.
Variable pow : Q -> Q -> Q.
Variable boxMuller : Q -> Q -> Q.

Lemma simulateInventory_shape opts res :
  simulateInventory pow boxMuller opts = Ok res ->
  length (r_days res) = Z.to_nat (days (opt_config opts))
  /\ (forall i dm, nth_error (r_days res) i = Some dm ->
        dm_day dm = Z.of_nat i
        /\ List.map m_sku (dm_perSku dm) = List.map item_sku (opt_items opts))
  /\ totals res = closeTotals (fold_left addRow (allRows res) zeroTotals).
Proof.
  intros H.
  destruct (simulateInventory_invariant pow boxMuller (fun _ _ => True) opts res)
    as (Hlen & Hnth & Htot); try done.
  split; [exact Hlen|]. split; [|exact Htot].
  intros i dm Hi. destruct (Hnth i dm Hi) as (Hd & Hs & _). by split.
Qed.

(** X6.  The totals of a result are the sums of its per-day per-SKU rows:
    demand, sold (fresh plus frozen), stockout, wasted and donated units,
    and revenue, cost of goods, holding, waste and freeze costs; and profit
    is revenue minus the four costs. *)
Theorem totals_are_sums_of_rows opts res :
  simulateInventory pow boxMuller opts = Ok res ->
  let t := totals res in
  let rows := allRows res in
  t_demand t = sumZ demand rows
  /\ t_sold t = sumZ (fun m => soldFresh m + soldFrozen m) rows
  /\ t_stockout t = sumZ stockout rows
  /\ t_wasted t = sumZ wasted rows
  /\ t_donated t = sumZ donated rows
  /\ (t_revenue t == sumQ revenue rows)%Q
  /\ (t_cogs t == sumQ cogs rows)%Q
  /\ (t_holdingCost t == sumQ holdingCost rows)%Q
  /\ (t_wasteCost t == sumQ wasteCost rows)%Q
  /\ (t_freezeCost t == sumQ freezeCost rows)%Q
  /\ t_profit t
     = (t_revenue t - t_cogs t - t_holdingCost t - t_wasteCost t - t_freezeCost t)%Q.
Proof.
  intros H. cbv zeta. destruct (simulateInventory_shape opts res H) as (_ & _ & ->).
  destruct (addRow_counts (allRows res) zeroTotals) as (H1 & H2 & H3 & H4 & H5 & _).
  destruct (addRow_money (allRows res) zeroTotals) as (M1 & M2 & M3 & M4 & M5).
  cbv zeta in *. cbn [closeTotals t_demand t_sold t_stockout t_wasted t_donated t_revenue
                      t_cogs t_holdingCost t_wasteCost t_freezeCost t_profit zeroTotals] in *.
  repeat split; try lia; try reflexivity;
    (eapply Qeq_trans; [eassumption|]); apply Qplus_0_l.
Qed.

(** X7.  A result has one entry per simulated day, numbered 0, 1, 2, ... in
    order, as many as max(0, config.days); every day holds exactly one row
    per catalog item, in catalog order; and the result carries the items,
    policy and config it was given. *)
Theorem result_has_a_row_per_item_per_day opts res :
  simulateInventory pow boxMuller opts = Ok res ->
  Z.of_nat (length (r_days res)) = Z.max 0 (days (opt_config opts))
  /\ (forall i dm, nth_error (r_days res) i = Some dm ->
        dm_day dm = Z.of_nat i
        /\ List.map m_sku (dm_perSku dm) = List.map item_sku (opt_items opts))
  /\ r_items res = opt_items opts /\ r_policy res = opt_policy opts
  /\ r_config res = opt_config opts.
Proof.
  intros H. destruct (simulateInventory_shape opts res H) as (Hlen & Hnth & _).
  split; [lia|]. split; [exact Hnth|].
  unfold simulateInventory in H.
  destruct (ensurePolicyComplete _ _); [|discriminate]. cbn [mbind result_bind] in H.
  destruct (match opt_initialState opts with Some _ => _ | None => _ end); [|discriminate].
  cbn [mbind result_bind] in H.
  destruct (dayLoop _ _ _ _ _ _ _ _ _) as [[d daysOut]|]; [|discriminate].
  cbn [mbind result_bind] in H. by injection H as <-.
Qed.

End Results.

(** * The ledger between days *)

(** A batch that is worth keeping: it holds stock and has not expired. *)
Definition live (b : InventoryBatch) : Prop := 0 < qty b /\ 1 <= daysToExpire b.

(** A queued delivery as the ordering step writes it: a positive whole
    number of units, not overdue. *)
Definition whole (d : PendingDelivery) : Prop :=
  exists k, 0 < k /\ pd_qty d = inject_Z k.

Definition queued (d : PendingDelivery) : Prop := 0 <= arrivingInDays d /\ whole d.

Definition wellFormed (inv : list InventoryBatch) (pending : list PendingDelivery) : Prop :=
  Forall live inv /\ Forall queued pending.

Definition unexpired (l : list InventoryBatch) : Prop :=
  Forall (fun b => 1 <= daysToExpire b) l.

Lemma live_split l : Forall live l <-> stocked l /\ unexpired l.
Proof.
  unfold stocked, unexpired, live. rewrite !List.Forall_forall. split.
  - intros H. split; intros b Hb; apply (H b Hb).
  - intros [H1 H2] b Hb. split; [apply (H1 b Hb) | apply (H2 b Hb)].
Qed.

Lemma unexpired_sortFifo l : unexpired l -> unexpired (sortFifo l).
Proof. unfold unexpired. by rewrite sortFifo_perm. Qed.

Lemma unexpired_pruneEmpty l : unexpired l -> unexpired (pruneEmpty l).
Proof.
  unfold unexpired, pruneEmpty. rewrite !List.Forall_forall. intros H b Hb.
  apply List.filter_In in Hb as [Hb _]. by apply H.
Qed.

Lemma take_loop_unexpired sku st l : forall remaining taken,
  unexpired l -> unexpired (fst (take_loop sku st l remaining taken)).
Proof.
  induction l as [|b l IH]; intros remaining taken H; cbn [take_loop]; [constructor|].
  inversion H as [|? ? Hb Hl]; subst.
  destruct (remaining <=? 0); [exact H|].
  destruct (negb (is_of sku st b)).
  - specialize (IH remaining taken Hl).
    destruct (take_loop sku st l remaining taken) as [r t]. by constructor.
  - destruct (Z.min (qty b) remaining <=? 0).
    + specialize (IH remaining taken Hl).
      destruct (take_loop sku st l remaining taken) as [r t]. by constructor.
    + specialize (IH (remaining - Z.min (qty b) remaining)
                     (taken + Z.min (qty b) remaining) Hl).
      destruct (take_loop sku st l _ _) as [r t]. by constructor.
Qed.

Lemma takeFromBatches_live batches sku st qtyWanted :
  Forall live batches -> Forall live (fst (takeFromBatches batches sku st qtyWanted)).
Proof.
  intros H. unfold takeFromBatches. destruct (qtyWanted <=? 0); [exact H|].
  apply live_split in H as [Hs Hu].
  pose proof (take_loop_unexpired sku st (sortFifo batches) qtyWanted 0
                (unexpired_sortFifo _ Hu)) as Hl.
  destruct (take_loop sku st (sortFifo batches) qtyWanted 0) as [r t]. cbn [fst] in *.
  apply live_split. split; [apply pruneEmpty_stocked | by apply unexpired_pruneEmpty].
Qed.

Lemma freeze_loop_unexpired item p l : forall cap moved pushed,
  unexpired l -> unexpired pushed ->
  let '(rest, _, ps) := freeze_loop item p l cap moved pushed in
  unexpired rest /\ unexpired ps.
Proof.
  induction l as [|b l IH]; intros cap moved pushed H Hp; cbn [freeze_loop].
  - split; [constructor | exact Hp].
  - inversion H as [|? ? Hb Hl]; subst.
    destruct (cap <=? 0); [by split|].
    destruct (negb (is_of (item_sku item) fresh b) || _).
    + specialize (IH cap moved pushed Hl Hp).
      destruct (freeze_loop item p l cap moved pushed) as [[r m] ps].
      destruct IH. split; [by constructor | assumption].
    + destruct (Z.min (qty b) cap <=? 0).
      * specialize (IH cap moved pushed Hl Hp).
        destruct (freeze_loop item p l cap moved pushed) as [[r m] ps].
        destruct IH. split; [by constructor | assumption].
      * set (q := Z.min (qty b) cap).
        assert (Hp' : unexpired (pushed ++ [frozenBatch item q])).
        { apply List.Forall_app. split; [exact Hp|]. constructor; [|constructor]. cbn. lia. }
        specialize (IH (cap - q) (moved + q) _ Hl Hp').
        destruct (freeze_loop item p l _ _ _) as [[r m] ps].
        destruct IH. split; [by constructor | assumption].
Qed.

Lemma freezeStage_live item p inv :
  Forall live inv -> Forall live (fst (freezeStage item p inv)).
Proof.
  intros H. unfold freezeStage. destruct (canFreeze item && _); [|exact H].
  apply live_split in H as [Hs Hu]. cbv zeta.
  pose proof (freeze_loop_unexpired item p (sortFifo inv)
                (Z.max 0 (Math_floor (freezeMaxUnitsPerDay p))) 0 []
                (unexpired_sortFifo _ Hu) (List.Forall_nil _)) as Hl.
  destruct (freeze_loop item p (sortFifo inv) _ 0 []) as [[r m] ps]. cbn [fst].
  destruct Hl as [Hr Hps].
  apply live_split. split; [apply pruneEmpty_stocked|].
  apply unexpired_pruneEmpty, List.Forall_app. by split.
Qed.

Lemma sortFifo_live l : Forall live l -> Forall live (sortFifo l).
Proof. by rewrite sortFifo_perm. Qed.

Lemma donateStage_live item p inv :
  Forall live inv -> Forall live (fst (donateStage item p inv)).
Proof.
  intros H. unfold donateStage. destruct (Qltb 0 (donateMaxFractionPerDay p)); [|exact H].
  cbv zeta. apply takeFromBatches_live, sortFifo_live, H.
Qed.

Lemma ageStage_live sku inv :
  Forall live inv -> Forall live (fst (ageStage sku inv)).
Proof.
  unfold ageStage. cbn [fst]. rewrite !List.Forall_forall. intros H b Hb.
  apply List.filter_In in Hb as [Hb Hkeep]. apply List.in_map_iff in Hb as (b0 & <- & Hb0).
  destruct (H b0 Hb0) as [Hq Hd]. unfold live, expired, ageBatch in *.
  destruct (String.eqb (b_sku b0) sku) eqn:E; [|by split].
  cbn [b_sku qty daysToExpire] in *. rewrite E in Hkeep. cbn [andb negb] in Hkeep.
  apply negb_true_iff, Z.leb_gt in Hkeep. split; [exact Hq | lia].
Qed.

Lemma reorderStage_queued item p freshNow pending :
  Forall queued pending -> Forall queued (reorderStage item p freshNow pending).
Proof.
  intros H. unfold reorderStage. destruct (Qleb _ _); [|exact H]. cbv zeta.
  destruct (0 <? Z.max 0 (Z.max 0 (Math_round (orderUpTo p)) - freshNow)) eqn:E; [|exact H].
  apply Z.ltb_lt in E. apply List.Forall_app. split; [exact H|].
  constructor; [|constructor]. split; cbn; [lia|]. eexists. split; [exact E | reflexivity].
Qed.

Lemma arrivalBatches_live items arriving :
  Forall whole arriving -> Forall live (arrivalBatches items arriving).
Proof.
  induction 1 as [|a rest Ha _ IH]; cbn [arrivalBatches]; [constructor|].
  destruct (findItem items (pd_sku a)); [|exact IH].
  constructor; [|exact IH].
  destruct Ha as (k & Hk & Hq). unfold live, arrivalBatch. cbn [qty daysToExpire].
  rewrite Hq, Math_round_inject_Z. lia.
Qed.

Lemma receiveDeliveries_wellFormed items st :
  wellFormed (inventory st) (pendingDeliveries st) ->
  wellFormed (inventory (receiveDeliveries items st))
             (pendingDeliveries (receiveDeliveries items st)).
Proof.
  intros [Hl Hq]. unfold receiveDeliveries. cbn [inventory pendingDeliveries].
  rewrite List.Forall_forall in Hq. split.
  - apply List.Forall_app. split; [exact Hl|]. apply arrivalBatches_live.
    apply List.Forall_forall. intros d Hd.
    apply List.filter_In in Hd as [Hd _]. apply List.in_map_iff in Hd as (d0 & <- & Hd0).
    exact (proj2 (Hq d0 Hd0)).
  - apply List.Forall_forall. intros d Hd.
    apply List.filter_In in Hd as [Hd Hpos]. apply Z.ltb_lt in Hpos.
    apply List.in_map_iff in Hd as (d0 & <- & Hd0).
    split; [lia | exact (proj2 (Hq d0 Hd0))].
Qed.

Section Ledger.
Variable pow : Q -> Q -> Q.
Variable boxMuller : Q -> Q -> Q.

Lemma runSku_wellFormed config item p inv pending rng :
  wellFormed inv pending ->
  wellFormed (run_inventory (runSku pow boxMuller config item p inv pending rng))
             (run_pending (runSku pow boxMuller config item p inv pending rng)).
Proof.
  intros [Hl Hq]. unfold runSku. cbv beta iota zeta.
  pose proof (freezeStage_live item p inv Hl) as L1.
  destruct (freezeStage item p inv) as [inv1 moved]. cbn [fst] in L1. cbv beta iota zeta.
  pose proof (donateStage_live item p inv1 L1) as L2.
  destruct (donateStage item p inv1) as [inv2 don]. cbn [fst] in L2. cbv beta iota zeta.
  destruct (applyPricing item p (pricingDays item inv2)) as [pr mult]. cbv beta iota zeta.
  destruct (demandForDay pow boxMuller item mult rng (demandNoiseStdDev config)) as [dem rng'].
  cbv beta iota zeta.
  set (demandInt := Z.max 0 (Math_floor dem)).
  pose proof (takeFromBatches_live inv2 (item_sku item) fresh demandInt L2) as L3.
  destruct (takeFromBatches inv2 (item_sku item) fresh demandInt) as [inv3 sFresh].
  cbn [fst] in L3. cbv beta iota zeta.
  set (remainingDemand := Z.max 0 (demandInt - sFresh)).
  assert (L4 : Forall live (fst (if 0 <? remainingDemand
                                 then takeFromBatches inv3 (item_sku item) frozen remainingDemand
                                 else (inv3, 0)))).
  { destruct (0 <? remainingDemand); [by apply takeFromBatches_live | exact L3]. }
  destruct (if 0 <? remainingDemand then _ else _) as [inv4 sFrozen]. cbn [fst] in L4.
  cbv beta iota zeta.
  set (lost := Math_floor _).
  assert (L5 : Forall live
                 (fst (fst (if 0 <? lost
                            then let '(inv1, lostFresh) :=
                                   takeFromBatches inv4 (item_sku item) fresh lost in
                                 let lostFrozen := lost - lostFresh in
                                 if 0 <? lostFrozen
                                 then let '(inv2, t) :=
                                        takeFromBatches inv1 (item_sku item) frozen lostFrozen in
                                      (inv2, lostFresh, t)
                                 else (inv1, lostFresh, 0)
                            else (inv4, 0, 0))))).
  { destruct (0 <? lost); [|exact L4].
    pose proof (takeFromBatches_live inv4 (item_sku item) fresh lost L4) as La.
    destruct (takeFromBatches inv4 (item_sku item) fresh lost) as [i5 lf]. cbn [fst] in La.
    cbv zeta. destruct (0 <? lost - lf); [|exact La].
    pose proof (takeFromBatches_live i5 (item_sku item) frozen (lost - lf) La) as Lb.
    by destruct (takeFromBatches i5 (item_sku item) frozen (lost - lf)). }
  destruct (if 0 <? lost then _ else _) as [[inv5 lF] lZ]. cbn [fst] in L5.
  cbv beta iota zeta.
  pose proof (ageStage_live (item_sku item) inv5 L5) as L6.
  destruct (ageStage (item_sku item) inv5) as [inv6 w]. cbn [fst] in L6. cbv beta iota zeta.
  cbn [run_inventory run_pending]. split; [exact L6|]. by apply reorderStage_queued.
Qed.

(** X8.  The ledger stays well formed from day to day: if, before a
    stretch of days, every batch holds stock and has at least one day left,
    and every queued delivery is a positive whole number of units that is not
    overdue, then the same holds after it, and the state's day counter has
    advanced by the number of days run. *)
Theorem ledger_stays_well_formed config policy items n dayIndex d d' out :
  dayLoop pow boxMuller config policy items n dayIndex d [] = Ok (d', out) ->
  wellFormed (inventory (d_state d)) (pendingDeliveries (d_state d)) ->
  wellFormed (inventory (d_state d')) (pendingDeliveries (d_state d'))
  /\ day (d_state d') = day (d_state d) + Z.of_nat n.
Proof.
  intros H Hd.
  destruct (dayLoop_invariant pow boxMuller config policy items wellFormed
              (receiveDeliveries_wellFormed items)
              (fun item p inv pending rng _ _ => runSku_wellFormed config item p inv pending rng)
              n dayIndex d [] d' out H Hd) as (Hd' & Hday & _).
  by split.
Qed.

End Ledger.

(** * The default starting state *)

Lemma initialBatches_live items policy : forall inv,
  initialBatches items policy = Ok inv -> Forall live inv.
Proof.
  induction items as [|item rest IH]; intros inv H; cbn [initialBatches] in H.
  - injection H as <-. constructor.
  - destruct (policyFor policy item) as [p|]; [|discriminate]. cbn [mbind result_bind] in H.
    destruct (initialBatches rest policy) as [tail|]; [|discriminate].
    cbn [mbind result_bind] in H. injection H as <-. specialize (IH tail eq_refl).
    match goal with |- Forall live (if ?c then _ else _) => destruct c eqn:E end;
      [|exact IH].
    apply Z.ltb_lt in E. constructor; [|exact IH]. split; cbn [qty daysToExpire]; lia.
Qed.



(** * The receipt step *)

Definition due (d : PendingDelivery) : bool := arrivingInDays d <=? 1.

Definition inCatalog (items : list ItemSpec) (sku : Sku) : bool :=
  existsb (fun it => String.eqb (item_sku it) sku) items.

(** The units of [sku] among the deliveries of [pending] that are due. *)
Fixpoint dueUnits (pending : list PendingDelivery) (sku : Sku) : Z :=
  match pending with
  | [] => 0
  | d :: rest =>
      (if due d && String.eqb (pd_sku d) sku then Z.max 0 (Math_round (pd_qty d)) else 0)
      + dueUnits rest sku
  end.

Lemma findItem_inCatalog items sku :
  inCatalog items sku = match findItem items sku with Some _ => true | None => false end.
Proof.
  unfold inCatalog, findItem. induction items as [|it rest IH]; [reflexivity|].
  cbn [existsb List.find]. destruct (String.eqb (item_sku it) sku); [reflexivity | exact IH].
Qed.

(** X10.  The receipt step at the start of a day: deliveries due within
    one day leave the queue and the others stay, counted down by one, in
    order; a due delivery adds max(0, round(qty)) fresh units of its SKU if
    the SKU is in the catalog and is dropped without a trace if it is not;
    frozen stock and the day counter are untouched. *)
Theorem receiveDeliveries_contract items st :
  let st' := receiveDeliveries items st in
  day st' = day st
  /\ pendingDeliveries st'
     = List.map countDown (List.filter (fun d => negb (due d)) (pendingDeliveries st))
  /\ forall sku,
       sumQty (inventory st') sku frozen = sumQty (inventory st) sku frozen
       /\ sumQty (inventory st') sku fresh
          = sumQty (inventory st) sku fresh
            + (if inCatalog items sku then dueUnits (pendingDeliveries st) sku else 0).
Proof.
  cbv zeta. split; [reflexivity|]. split.
  - unfold receiveDeliveries. cbn [pendingDeliveries].
    induction (pendingDeliveries st) as [|d rest IH]; [reflexivity|].
    cbn [List.map List.filter]. unfold due at 1. cbn [countDown arrivingInDays].
    replace (0 <? arrivingInDays d - 1) with (negb (arrivingInDays d <=? 1)) by lia.
    destruct (arrivingInDays d <=? 1); cbn [negb]; [exact IH|].
    cbn [List.map]. by rewrite IH.
  - intros sku. destruct (receiveDeliveries_sums items st sku) as [Hf Hz].
    split; [exact Hz|]. rewrite Hf. f_equal. unfold arrivals.
    induction (pendingDeliveries st) as [|d rest IH].
    + cbn. by destruct (inCatalog items sku).
    + cbn [List.map List.filter dueUnits]. unfold due at 1.
      cbn [countDown arrivingInDays].
      replace (arrivingInDays d - 1 <=? 0) with (arrivingInDays d <=? 1) by lia.
      destruct (arrivingInDays d <=? 1); cbn [andb].
      * cbn [arrivalBatches pd_sku countDown].
        destruct (String.eqb (pd_sku d) sku) eqn:E.
        -- apply String.eqb_eq in E. rewrite findItem_inCatalog in *. rewrite E.
           destruct (findItem items sku) as [it|].
           ++ rewrite sumQty_cons, IH. unfold qtyIf, is_of, arrivalBatch.
              cbn [b_sku b_state qty pd_qty pd_sku countDown BatchState_eqb].
              rewrite E, String.eqb_refl.
              reflexivity.
           ++ rewrite IH. reflexivity.
        -- destruct (findItem items (pd_sku d)) as [it|].
           ++ rewrite sumQty_cons, IH. unfold qtyIf, is_of, arrivalBatch.
              cbn [b_sku b_state qty pd_qty pd_sku countDown]. rewrite E. cbn [andb].
              destruct (inCatalog items sku); lia.
           ++ rewrite IH. destruct (inCatalog items sku); lia.
      * rewrite IH. destruct (inCatalog items sku); lia.
Qed.

(** * The random stream *)

(** The increment of the generator's counter, 0x6d2b79f5. *)
Definition stride : Z := 1831565813.

(** X11.  One draw of the generator: [next] returns k / 2^32 for an
    integer 0 <= k < 2^32, so a value in [0, 1) that is never 1, whatever
    the state of the counter. *)
Theorem next_is_a_fraction_of_2_32 (t : Z) :
  exists k, 0 <= k < 4294967296
    /\ fst (Rng.next t) = (inject_Z k / 4294967296)%Q
    /\ (0 <= fst (Rng.next t))%Q /\ (fst (Rng.next t) < 1)%Q.
Proof.
  exists (fst (Rng.next_bits t)).
  pose proof (RngFacts.next_unit_interval t) as [H0 H1].
  unfold Rng.next in *. unfold Rng.next_bits in *. cbn [fst snd] in *.
  split; [apply RngFacts.toUint32_range|]. by repeat split.
Qed.

Section NormalFacts.
Variable boxMuller : Q -> Q -> Q.

Lemma normal_draws mean stdDev t :
  snd (Rng.normal boxMuller mean stdDev t) = t + 2 * stride.
Proof. unfold Rng.normal, Rng.next, Rng.next_bits, stride. cbn [snd]. lia. Qed.

(** X12.  A normal variate takes exactly two draws, and the uniform whose
    logarithm is taken is clamped away from zero: while the counter stays
    below 2^53 (where the code's arithmetic on it is exact), the result is
    mean + z * stdDev where z is the Box-Muller expression at some u1 with
    EPSILON <= u1 < 1 and the next draw u2 with 0 <= u2 < 1, and the counter
    has moved by two strides of 0x6d2b79f5. *)
Theorem normal_takes_two_draws mean stdDev (t : Z) :
  0 <= t -> t + 2 * stride <= 2 ^ 53 ->
  exists u1 u2,
    (Rng.EPSILON <= u1)%Q /\ (u1 < 1)%Q /\ (0 <= u2)%Q /\ (u2 < 1)%Q
    /\ u2 = fst (Rng.next (t + stride))
    /\ fst (Rng.normal boxMuller mean stdDev t) = (mean + boxMuller u1 u2 * stdDev)%Q
    /\ snd (Rng.normal boxMuller mean stdDev t) = t + 2 * stride.
Proof.
  intros _ _.
  pose proof (RngFacts.next_unit_interval t) as [Ha0 Ha1].
  pose proof (RngFacts.next_unit_interval (t + stride)) as [Hb0 Hb1].
  exists (Qmaxb (fst (Rng.next t)) Rng.EPSILON), (fst (Rng.next (t + stride))).
  split; [|split; [|split; [|split; [|split; [|split]]]]]; try assumption; try reflexivity.
  - unfold Qmaxb. destruct (Qleb _ _) eqn:E; [apply Qle_refl|].
    unfold Qleb in E. apply Qlt_le_weak, Qnot_le_lt. intros H.
    apply Qle_bool_iff in H. congruence.
  - unfold Qmaxb. destruct (Qleb _ _); [reflexivity | exact Ha1].
  - apply normal_draws.
Qed.

End NormalFacts.

Section Stream.
Variable pow : Q -> Q -> Q.
Variable boxMuller : Q -> Q -> Q.

Lemma demandForDay_draws item multiplier rng noiseStdDev :
  snd (demandForDay pow boxMuller item multiplier rng noiseStdDev) = rng + 2 * stride.
Proof.
  unfold demandForDay. cbv zeta.
  pose proof (normal_draws boxMuller 0 noiseStdDev rng) as H.
  destruct (Rng.normal boxMuller 0 noiseStdDev rng) as [n rng']. exact H.
Qed.

(** The demand of a row is the day's demand at the row's price multiplier,
    and a pipeline run takes two draws. *)
Lemma runSku_demand config item p inv pending rng :
  let r := runSku pow boxMuller config item p inv pending rng in
  demand (run_row r)
  = Z.max 0 (Math_floor (fst (demandForDay pow boxMuller item (m_priceMultiplier (run_row r))
                                rng (demandNoiseStdDev config))))
  /\ run_rng r = rng + 2 * stride.
Proof.
  unfold runSku. cbv beta iota zeta.
  destruct (freezeStage item p inv) as [inv1 moved]. cbv beta iota zeta.
  destruct (donateStage item p inv1) as [inv2 don]. cbv beta iota zeta.
  destruct (applyPricing item p (pricingDays item inv2)) as [pr mult]. cbv beta iota zeta.
  pose proof (demandForDay_draws item mult rng (demandNoiseStdDev config)) as Hd.
  destruct (demandForDay pow boxMuller item mult rng (demandNoiseStdDev config))
    as [dem rng'] eqn:E.
  cbv beta iota zeta.
  destruct (takeFromBatches inv2 (item_sku item) fresh _) as [inv3 sFresh].
  cbv beta iota zeta.
  destruct (if 0 <? Z.max 0 (Z.max 0 (Math_floor dem) - sFresh) then _ else _)
    as [inv4 sFrozen].
  cbv beta iota zeta.
  destruct (if 0 <? Math_floor _ then _ else _) as [[inv5 lF] lZ]. cbv beta iota zeta.
  destruct (ageStage (item_sku item) inv5) as [inv6 w]. cbv beta iota zeta.
  cbn [run_row run_rng demand m_priceMultiplier]. rewrite E. by split.
Qed.




End Stream.

(** * The evaluator on results of the simulator, over exact reals *)

Module RealScoreFacts.
Import Eval RealEval RealEvalFacts.
Local Open Scope R_scope.

Lemma clamp01_unit_range (y : R) : 0 <= clamp01 y <= 1.
Proof.
  unfold clamp01. cbn. unfold Rmax, Rmin.
  destruct (Rle_dec 1 y); destruct (Rle_dec 0 _); lra.
Qed.

Lemma clamp01_mono (a b : R) : a <= b -> clamp01 a <= clamp01 b.
Proof.
  intros H. unfold clamp01. cbn. unfold Rmax, Rmin.
  destruct (Rle_dec 1 a), (Rle_dec 1 b);
    repeat match goal with |- context [Rle_dec ?x ?y] => destruct (Rle_dec x y) end; lra.
Qed.

Lemma exp_mono (a b : R) : a <= b -> exp a <= exp b.
Proof.
  intros [H| ->]; [apply Rlt_le, exp_increasing, H | apply Rle_refl].
Qed.

Lemma logistic_mono (a b : R) : a <= b -> 1 / (1 + exp b) <= 1 / (1 + exp a).
Proof.
  intros H. pose proof (exp_pos a). pose proof (exp_pos b). pose proof (exp_mono a b H).
  unfold Rdiv. rewrite !Rmult_1_l. apply Rinv_le_contravar; lra.
Qed.

Lemma div_mono (a b t : R) : 0 < t -> a <= b -> a / t <= b / t.
Proof.
  intros Ht H. unfold Rdiv. apply Rmult_le_compat_r; [|exact H].
  apply Rlt_le, Rinv_0_lt_compat, Ht.
Qed.

Lemma normalizePositive_mono (v1 v2 t : R) :
  v1 <= v2 -> normalizePositive v1 t <= normalizePositive v2 t.
Proof.
  intros H. unfold normalizePositive.
  cbn [num_le num_lt num_of_Z realOps num_div num_add num_sub num_mul num_exp].
  unfold Rleb, Rltb. destruct (Rle_dec t 0) as [Ht|Ht].
  - apply clamp01_mono. destruct (Rlt_dec 0 v1), (Rlt_dec 0 v2); lra.
  - cbv zeta. apply clamp01_mono, logistic_mono.
    pose proof (div_mono v1 v2 t ltac:(lra) H). lra.
Qed.

Lemma normalizeLowerIsBetter_antimono (v1 v2 t : R) :
  v1 <= v2 -> normalizeLowerIsBetter v2 t <= normalizeLowerIsBetter v1 t.
Proof.
  intros H. unfold normalizeLowerIsBetter.
  cbn [num_le num_lt num_of_Z realOps num_div num_add num_sub num_mul num_exp].
  unfold Rleb. destruct (Rle_dec t 0) as [Ht|Ht].
  - apply clamp01_mono. destruct (Rle_dec v1 0), (Rle_dec v2 0); lra.
  - cbv zeta. apply clamp01_mono, logistic_mono.
    pose proof (div_mono v1 v2 t ltac:(lra) H). lra.
Qed.

Lemma normalizePositive_range (v t : R) : 0 <= normalizePositive v t <= 1.
Proof.
  unfold normalizePositive. destruct (num_le t _); [|cbv zeta]; apply clamp01_unit_range.
Qed.

Lemma normalizeLowerIsBetter_range (v t : R) : 0 <= normalizeLowerIsBetter v t <= 1.
Proof.
  unfold normalizeLowerIsBetter. destruct (num_le t _); [|cbv zeta]; apply clamp01_unit_range.
Qed.

Definition nonnegWeights (w : ScoreWeights R) : Prop :=
  0 <= w_profit w /\ 0 <= w_wasteReduction w /\ 0 <= w_satisfaction w
  /\ 0 <= w_humanitarian w.

Lemma denom_positive (w : ScoreWeights R) : 0 < Rmax (/ 1000000000) (weightTotal w).
Proof.
  eapply Rlt_le_trans; [|apply Rmax_l]. apply Rinv_0_lt_compat. lra.
Qed.

Lemma weightedSum_range (w : ScoreWeights R) (s1 s2 s3 s4 : R) :
  nonnegWeights w ->
  0 <= s1 <= 1 -> 0 <= s2 <= 1 -> 0 <= s3 <= 1 -> 0 <= s4 <= 1 ->
  0 <= weightedSum w s1 s2 s3 s4 <= weightTotal w.
Proof.
  intros (H1 & H2 & H3 & H4) A B C D. unfold weightedSum, weightTotal. cbn.
  pose proof (Rmult_le_pos _ _ H1 (proj1 A)). pose proof (Rmult_le_pos _ _ H2 (proj1 B)).
  pose proof (Rmult_le_pos _ _ H3 (proj1 C)). pose proof (Rmult_le_pos _ _ H4 (proj1 D)).
  pose proof (Rmult_le_compat_l _ _ _ H1 (proj2 A)).
  pose proof (Rmult_le_compat_l _ _ _ H2 (proj2 B)).
  pose proof (Rmult_le_compat_l _ _ _ H3 (proj2 C)).
  pose proof (Rmult_le_compat_l _ _ _ H4 (proj2 D)).
  lra.
Qed.

(** X14.  With non-negative weights the overall score is the weighted sum
    of the four sub-scores divided by max(1e-9, sum of the weights), the
    final clamp never changes it, and it lies in [0, 1]; it is the weighted
    mean when the weights sum to at least 1e-9, and 0 when all weights are
    0. *)
Theorem score_is_the_weighted_mean (sim : SimTotals R) (cfg : EvalConfig R) :
  nonnegWeights (weights cfg) ->
  let e := evaluateSimulation sim cfg in
  let w := weights cfg in
  let mix := weightedSum w (profitScore e) (wasteReductionScore e) (satisfactionScore e)
               (humanitarianScore e) in
  score e = mix / Rmax (/ 1000000000) (weightTotal w)
  /\ 0 <= score e <= 1
  /\ (/ 1000000000 <= weightTotal w -> score e = mix / weightTotal w)
  /\ (weightTotal w = 0 -> score e = 0).
Proof.
  intros Hw. cbv zeta.
  unfold evaluateSimulation. cbv zeta.
  cbn [score profitScore wasteReductionScore satisfactionScore humanitarianScore].
  set (s1 := normalizePositive _ (profitPerDayTarget cfg)).
  set (s2 := normalizeLowerIsBetter _ (wasteRateTarget cfg)).
  set (s3 := normalizePositive _ (satisfactionTarget cfg)).
  set (s4 := normalizePositive _ (donationRateTarget cfg)).
  pose proof (weightedSum_range (weights cfg) s1 s2 s3 s4 Hw
                (normalizePositive_range _ _) (normalizeLowerIsBetter_range _ _)
                (normalizePositive_range _ _) (normalizePositive_range _ _)) as [Hlo Hhi].
  pose proof (denom_positive (weights cfg)) as Hd.
  cbn [num_div num_max num_1e_9 realOps].
  set (mix := weightedSum (weights cfg) s1 s2 s3 s4) in *.
  set (den := Rmax (/ 1000000000) (weightTotal (weights cfg))) in *.
  assert (Hr : 0 <= mix / den <= 1).
  { split.
    - unfold Rdiv. apply Rmult_le_pos; [exact Hlo | apply Rlt_le, Rinv_0_lt_compat, Hd].
    - apply (Rmult_le_reg_r den); [exact Hd|]. unfold Rdiv.
      rewrite Rmult_assoc, Rinv_l, Rmult_1_r, Rmult_1_l by lra.
      eapply Rle_trans; [exact Hhi | apply Rmax_r]. }
  rewrite (clamp01_id _ Hr). split; [reflexivity|]. split; [exact Hr|]. split.
  - intros Hbig. unfold den. by rewrite Rmax_right.
  - intros Hz. assert (mix = 0) by lra. replace mix with 0. unfold Rdiv. apply Rmult_0_l.
Qed.

Definition withProfit (sim : SimTotals R) (profit : R) : SimTotals R :=
  {| sim_days := sim_days sim; sim_profit := profit; sim_sold := sim_sold sim;
     sim_wasted := sim_wasted sim; sim_donated := sim_donated sim;
     sim_stockout := sim_stockout sim; sim_demand := sim_demand sim |}.

Definition withStockout (sim : SimTotals R) (stockout : R) : SimTotals R :=
  {| sim_days := sim_days sim; sim_profit := sim_profit sim; sim_sold := sim_sold sim;
     sim_wasted := sim_wasted sim; sim_donated := sim_donated sim;
     sim_stockout := stockout; sim_demand := sim_demand sim |}.

Lemma weightedSum_mono (w : ScoreWeights R) (a1 a2 b1 b2 c1 c2 d1 d2 : R) :
  nonnegWeights w -> a1 <= a2 -> b1 <= b2 -> c1 <= c2 -> d1 <= d2 ->
  weightedSum w a1 b1 c1 d1 <= weightedSum w a2 b2 c2 d2.
Proof.
  intros (H1 & H2 & H3 & H4) A B C D. unfold weightedSum. cbn.
  pose proof (Rmult_le_compat_l _ _ _ H1 A). pose proof (Rmult_le_compat_l _ _ _ H2 B).
  pose proof (Rmult_le_compat_l _ _ _ H3 C). pose proof (Rmult_le_compat_l _ _ _ H4 D).
  lra.
Qed.

Lemma safeDiv_real (n d : R) : 1 <= d -> @safeDiv R realOps n d = n / d.
Proof.
  intros Hd. unfold safeDiv. cbn. destruct (Req_dec_T d 0); [lra | reflexivity].
Qed.

(** X15.  With non-negative weights the score is monotone in the two
    totals a policy is judged on most directly: all else equal, a higher
    profit never lowers the score, and more stockouts never raise it. *)
Theorem score_rewards_profit_and_service (sim : SimTotals R) (cfg : EvalConfig R)
    (a b : R) :
  nonnegWeights (weights cfg) -> a <= b ->
  score (evaluateSimulation (withProfit sim a) cfg)
    <= score (evaluateSimulation (withProfit sim b) cfg)
  /\ score (evaluateSimulation (withStockout sim b) cfg)
       <= score (evaluateSimulation (withStockout sim a) cfg).
Proof.
  intros Hw Hab. pose proof (denom_positive (weights cfg)) as Hd.
  assert (Hdays : 0 < Rmax 1 (sim_days sim)).
  { eapply Rlt_le_trans; [|apply Rmax_l]. lra. }
  assert (Hdem : 1 <= Rmax 1 (sim_demand sim)) by apply Rmax_l.
  unfold evaluateSimulation. cbv zeta.
  cbn [score withProfit withStockout sim_days sim_profit sim_sold sim_wasted sim_donated
       sim_stockout sim_demand].
  cbn [num_div num_max num_1e_9 num_of_Z num_sub realOps].
  split; apply clamp01_mono, div_mono; try exact Hd; apply weightedSum_mono;
    try exact Hw; try apply Rle_refl.
  - apply normalizePositive_mono, div_mono; assumption.
  - apply normalizePositive_mono. rewrite !safeDiv_real by exact Hdem.
    pose proof (div_mono a b (Rmax 1 (sim_demand sim)) ltac:(lra) Hab). lra.
Qed.

End RealScoreFacts.

Lemma sumZ_nonneg f rows : Forall (fun m => 0 <= f m) rows -> 0 <= sumZ f rows.
Proof. induction 1 as [|m rows Hm _ IH]; cbn [sumZ fold_right]; [lia|]. unfold sumZ in IH. lia. Qed.

Lemma sumZ_le f g rows : Forall (fun m => f m <= g m) rows -> sumZ f rows <= sumZ g rows.
Proof.
  induction 1 as [|m rows Hm _ IH]; cbn [sumZ fold_right]; [lia|]. unfold sumZ in IH. lia.
Qed.

Section Rates.
Variable pow : Q -> Q -> Q.
Variable boxMuller : Q -> Q -> Q.
Import Eval RealEval.

Lemma allRows_In res m :
  In m (allRows res) <-> exists dm, In dm (r_days res) /\ In m (dm_perSku dm).
Proof.
  unfold allRows. rewrite in_concat. split.
  - intros (l & Hl & Hm). apply in_map_iff in Hl as (dm & <- & Hdm). eauto.
  - intros (dm & Hdm & Hm). exists (dm_perSku dm). split; [by apply in_map | exact Hm].
Qed.

Lemma totals_ranges opts res :
  simulateInventory pow boxMuller opts = Ok res ->
  (forall s, opt_initialState opts = Some s -> nonneg (inventory s)) ->
  let t := totals res in
  (0 <= t_sold t /\ 0 <= t_wasted t /\ 0 <= t_donated t
   /\ 0 <= t_stockout t /\ t_sold t + t_stockout t <= t_demand t)%Z.
Proof.
  intros H Hs.
  destruct (simulateInventory_shape pow boxMuller opts res H) as (_ & _ & Ht).
  destruct (addRow_counts (allRows res) zeroTotals) as (Hd & Hso & Hst & Hw & Hdo & _).
  cbv zeta in *. rewrite Ht.
  cbn [closeTotals t_demand t_sold t_stockout t_wasted t_donated zeroTotals] in *.
  rewrite Hd, Hso, Hst, Hw, Hdo, !Z.add_0_l.
  assert (Hrow : forall m, In m (allRows res) ->
            (0 <= soldFresh m + soldFrozen m /\ 0 <= wasted m /\ 0 <= donated m
             /\ 0 <= stockout m /\ soldFresh m + soldFrozen m + stockout m <= demand m)%Z).
  { intros m Hm. apply allRows_In in Hm as (dm & Hdm & Hm).
    destruct (simulateInventory_rows_nonneg pow boxMuller opts res dm m H Hs Hdm Hm)
      as (item & p & inv & pd & rng & _ & _ & Hnn & ->).
    pose proof (runSku_flows pow boxMuller (opt_config opts) item p inv pd rng Hnn) as F.
    pose proof (runSku_sales pow boxMuller (opt_config opts) item p inv pd rng Hnn) as S.
    cbv zeta in F, S.
    destruct F as (_ & _ & _ & _ & _ & _ & _ & Hwd & ? & ? & ? & ? & ? & ? & ? & ?).
    destruct S as (? & Hf & Hz & Hso' & _).
    destruct (countStockouts (opt_config opts)); lia. }
  repeat split.
  - apply sumZ_nonneg, List.Forall_forall. intros m Hm. apply (Hrow m Hm).
  - apply sumZ_nonneg, List.Forall_forall. intros m Hm. apply (Hrow m Hm).
  - apply sumZ_nonneg, List.Forall_forall. intros m Hm. apply (Hrow m Hm).
  - apply sumZ_nonneg, List.Forall_forall. intros m Hm. apply (Hrow m Hm).
  - assert (E : forall rows, (sumZ (fun m => soldFresh m + soldFrozen m) rows + sumZ stockout rows
                              = sumZ (fun m => soldFresh m + soldFrozen m + stockout m) rows)%Z).
    { induction rows as [|m rows IH]; cbn [sumZ fold_right]; [lia|]. unfold sumZ in IH. lia. }
    rewrite E. apply sumZ_le, List.Forall_forall. intros m Hm. apply (Hrow m Hm).
Qed.

Local Open Scope R_scope.

(** X16.  Scoring a result of the simulator: the waste rate and the
    donation rate are the wasted and donated units over
    max(1, sold + wasted + donated), each at least 0 and together at most 1;
    the fill rate is 1 - stockout / max(1, demand), already in [0, 1], so its
    clamp changes nothing. *)
Theorem rates_of_a_run_are_fractions opts res (cfg : EvalConfig R) :
  simulateInventory pow boxMuller opts = Ok res ->
  (forall s, opt_initialState opts = Some s -> nonneg (inventory s)) ->
  let e := evaluateSimulation (simTotals res) cfg in
  let t := totals res in
  let handled := Rmax 1 (IZR (t_sold t + t_wasted t + t_donated t)) in
  raw_wasteRate e = IZR (t_wasted t) / handled
  /\ raw_donationRate e = IZR (t_donated t) / handled
  /\ raw_fillRate e = 1 - IZR (t_stockout t) / Rmax 1 (IZR (t_demand t))
  /\ 0 <= raw_wasteRate e /\ 0 <= raw_donationRate e
  /\ raw_wasteRate e + raw_donationRate e <= 1
  /\ 0 <= raw_fillRate e <= 1.
Proof.
  intros H Hs. destruct (totals_ranges opts res H Hs) as (Hso & Hw & Hdo & Hst & Hdem).
  cbv zeta in *. unfold evaluateSimulation. cbv zeta.
  cbn [raw_wasteRate raw_donationRate raw_fillRate simTotals sim_sold sim_wasted sim_donated
       sim_stockout sim_demand].
  cbn [num_add num_max num_of_Z num_sub realOps].
  rewrite <- !plus_IZR.
  set (handled := Rmax 1 (IZR (t_sold (totals res) + t_wasted (totals res)
                               + t_donated (totals res)))).
  set (dem := Rmax 1 (IZR (t_demand (totals res)))).
  assert (Hh : 1 <= handled) by apply Rmax_l.
  assert (Hh' : IZR (t_wasted (totals res)) + IZR (t_donated (totals res)) <= handled).
  { eapply Rle_trans; [|apply Rmax_r]. rewrite <- plus_IZR. apply IZR_le. lia. }
  assert (Hd : 1 <= dem) by apply Rmax_l.
  assert (Hd' : IZR (t_stockout (totals res)) <= dem).
  { eapply Rle_trans; [|apply Rmax_r]. apply IZR_le. lia. }
  rewrite !RealScoreFacts.safeDiv_real by assumption.
  apply IZR_le in Hw, Hdo, Hst.
  assert (Hih : 0 < / handled) by (apply Rinv_0_lt_compat; lra).
  assert (Hid : 0 < / dem) by (apply Rinv_0_lt_compat; lra).
  assert (W : 0 <= IZR (t_wasted (totals res)) / handled).
  { unfold Rdiv. apply Rmult_le_pos; lra. }
  assert (D : 0 <= IZR (t_donated (totals res)) / handled).
  { unfold Rdiv. apply Rmult_le_pos; lra. }
  assert (WD : IZR (t_wasted (totals res)) / handled
               + IZR (t_donated (totals res)) / handled <= 1).
  { unfold Rdiv. rewrite <- Rmult_plus_distr_r.
    apply (Rmult_le_reg_r handled); [lra|].
    rewrite Rmult_assoc, Rinv_l by lra. lra. }
  assert (S0 : 0 <= IZR (t_stockout (totals res)) / dem).
  { unfold Rdiv. apply Rmult_le_pos; lra. }
  assert (S1 : IZR (t_stockout (totals res)) / dem <= 1).
  { unfold Rdiv. apply (Rmult_le_reg_r dem); [lra|].
    rewrite Rmult_assoc, Rinv_l by lra. lra. }
  rewrite RealEvalFacts.clamp01_id by lra.
  repeat split; try reflexivity; lra.
Qed.

End Rates.

(** * The raw rates over IEEE-754 binary64 *)

Module IeeeRateFacts.
Import Eval Ieee IeeeFacts.

(** X17.  Over doubles, for every input whatsoever (NaN and infinite
    totals included): the reported waste rate and donation rate are never
    NaN, and the reported fill rate lies in [0, 1]. *)
Theorem raw_rates_are_never_nan (mathExp : spec_float -> spec_float)
    (sim : SimTotals spec_float) (cfg : EvalConfig spec_float) :
  is_nan (raw_wasteRate (evaluate mathExp sim cfg)) = false
  /\ is_nan (raw_donationRate (evaluate mathExp sim cfg)) = false
  /\ in01 (raw_fillRate (evaluate mathExp sim cfg)) = true.
Proof.
  unfold evaluate, evaluateSimulation. cbv zeta.
  cbn [raw_wasteRate raw_donationRate raw_fillRate].
  split; [apply safeDiv_not_nan|]. split; [apply safeDiv_not_nan|].
  apply clamp01_in01. cbn [num_sub num_of_Z ieeeOps].
  apply sub_not_nan; [reflexivity | apply safeDiv_not_nan | reflexivity].
Qed.

End IeeeRateFacts.

(** * Properties of the per-SKU totals *)

Definition sumOf (f : SkuTotals -> Z) (l : list SkuTotals) : Z :=
  fold_right (fun r s => f r + s) 0 l.

(** The row that [perSkuTotals] reports for [sku], read off the rows of
    the run. *)
Definition entryOf (rows : list DaySkuMetrics) (sku : Sku) : SkuTotals :=
  let mine := List.filter (fun m => String.eqb sku (m_sku m)) rows in
  {| st_sku := sku;
     st_sold := sumZ (fun m => soldFresh m + soldFrozen m) mine;
     st_stockout := sumZ stockout mine;
     st_wasted := sumZ wasted mine;
     st_donated := sumZ donated mine |}.

Lemma sumZ_app f a b : sumZ f (a ++ b) = sumZ f a + sumZ f b.
Proof.
  unfold sumZ. induction a as [|m a IH]; cbn [app fold_right]; lia.
Qed.

Lemma mapSet_sum f k v m :
  sumOf f (List.map snd (mapSet k v m))
  = sumOf f (List.map snd m)
    - match mapGet m k with Some r => f r | None => 0 end + f v.
Proof.
  induction m as [|[k' v'] m IH]; cbn [mapSet mapGet List.map snd sumOf fold_right]; [lia|].
  destruct (String.eqb k' k); cbn [List.map snd sumOf fold_right]; [lia|].
  unfold sumOf in IH. lia.
Qed.

Lemma tally_sum f g :
  (forall row s, f (addInto row s) = f row + g s) -> (forall k, f (zeroRow k) = 0) ->
  forall rows m,
    sumOf f (List.map snd (fold_left tally rows m)) = sumOf f (List.map snd m) + sumZ g rows.
Proof.
  intros Hadd Hzero. induction rows as [|s rows IH]; intros m; cbn [fold_left sumZ fold_right].
  - lia.
  - rewrite IH. unfold tally. rewrite mapSet_sum, Hadd.
    destruct (mapGet m (m_sku s)); rewrite ?Hzero; fold (sumZ g rows); lia.
Qed.

Lemma fold_days_concat (m : list (Sku * SkuTotals)) (days : list DayMetrics) :
  fold_left (fun m d => fold_left tally (dm_perSku d) m) days m
  = fold_left tally (List.concat (List.map dm_perSku days)) m.
Proof.
  revert m. induction days as [|d days IH]; intros m; cbn [fold_left List.map List.concat].
  - reflexivity.
  - by rewrite fold_left_app, IH.
Qed.

Lemma mapSet_zero_rows f (Hzero : forall k, f (zeroRow k) = 0) items : forall m,
  Forall (fun kv => f (snd kv) = 0) m ->
  Forall (fun kv => f (snd kv) = 0)
    (fold_left (fun m it => mapSet (item_sku it) (zeroRow (item_sku it)) m) items m).
Proof.
  induction items as [|it items IH]; intros m Hm; cbn [fold_left]; [exact Hm|].
  apply IH. clear IH. induction Hm as [|[k' v'] m Hkv Hm IHm]; cbn [mapSet].
  - constructor; [apply Hzero | constructor].
  - destruct (String.eqb k' _); constructor; try assumption. apply Hzero.
Qed.

Lemma sumOf_zero f (m : list (Sku * SkuTotals)) :
  Forall (fun kv => f (snd kv) = 0) m -> sumOf f (List.map snd m) = 0.
Proof.
  induction 1 as [|kv m Hkv _ IH]; cbn [List.map sumOf fold_right]; [reflexivity|].
  unfold sumOf in IH. lia.
Qed.

Lemma perSkuTotals_sum f g items days :
  (forall row s, f (addInto row s) = f row + g s) -> (forall k, f (zeroRow k) = 0) ->
  sumOf f (perSkuTotals items days) = sumZ g (List.concat (List.map dm_perSku days)).
Proof.
  intros Hadd Hzero. unfold perSkuTotals. cbv zeta.
  rewrite fold_days_concat, (tally_sum f g Hadd Hzero).
  rewrite sumOf_zero; [lia|]. apply (mapSet_zero_rows f Hzero). constructor.
Qed.

Lemma mapGet_keyed (h : Sku -> SkuTotals) keys k0 :
  In k0 keys -> mapGet (List.map (fun k => (k, h k)) keys) k0 = Some (h k0).
Proof.
  induction keys as [|k keys IH]; intros Hin; [destruct Hin|]. cbn [List.map mapGet].
  destruct (String.eqb k k0) eqn:E.
  - apply String.eqb_eq in E. by subst.
  - destruct Hin as [->|Hin]; [by rewrite String.eqb_refl in E | by apply IH].
Qed.

Lemma mapSet_keyed (h : Sku -> SkuTotals) keys k0 v :
  List.NoDup keys -> In k0 keys ->
  mapSet k0 v (List.map (fun k => (k, h k)) keys)
  = List.map (fun k => (k, if String.eqb k k0 then v else h k)) keys.
Proof.
  induction keys as [|k keys IH]; intros Hnd Hin; [destruct Hin|].
  apply List.NoDup_cons_iff in Hnd as [Hk Hnd]. cbn [List.map mapSet].
  destruct (String.eqb k k0) eqn:E.
  - apply String.eqb_eq in E. subst k0. f_equal. apply List.map_ext_in. intros k' Hk'.
    destruct (String.eqb k' k) eqn:E'; [|reflexivity].
    apply String.eqb_eq in E'. by subst.
  - f_equal. apply IH; [exact Hnd|]. destruct Hin as [->|Hin]; [|exact Hin].
    by rewrite String.eqb_refl in E.
Qed.

Lemma mapSet_fresh (h : Sku -> SkuTotals) keys k0 :
  ~ In k0 keys ->
  mapSet k0 (h k0) (List.map (fun k => (k, h k)) keys)
  = List.map (fun k => (k, h k)) (keys ++ [k0]).
Proof.
  induction keys as [|k keys IH]; intros Hno; [reflexivity|]. cbn [List.map mapSet app].
  destruct (String.eqb k k0) eqn:E.
  - apply String.eqb_eq in E. exfalso. apply Hno. by left.
  - f_equal. apply IH. intros H. apply Hno. by right.
Qed.

Lemma entryOf_snoc done s k :
  entryOf (done ++ [s]) k
  = if String.eqb k (m_sku s) then addInto (entryOf done k) s else entryOf done k.
Proof.
  unfold entryOf. cbv zeta. rewrite List.filter_app. cbn [List.filter].
  destruct (String.eqb k (m_sku s)).
  - unfold addInto. cbn [st_sku st_sold st_stockout st_wasted st_donated].
    rewrite !sumZ_app. cbn [sumZ fold_right]. f_equal; lia.
  - by rewrite app_nil_r.
Qed.

Lemma tally_keyed keys : List.NoDup keys -> forall rows done,
  (forall s, In s rows -> In (m_sku s) keys) ->
  fold_left tally rows (List.map (fun k => (k, entryOf done k)) keys)
  = List.map (fun k => (k, entryOf (done ++ rows) k)) keys.
Proof.
  intros Hnd. induction rows as [|s rows IH]; intros done Hin; cbn [fold_left].
  - by rewrite app_nil_r.
  - assert (Hs : In (m_sku s) keys) by (apply Hin; by left).
    unfold tally at 2. rewrite (mapGet_keyed (entryOf done) keys _ Hs).
    rewrite (mapSet_keyed (entryOf done) keys _ _ Hnd Hs).
    replace (done ++ s :: rows) with ((done ++ [s]) ++ rows) by (by rewrite <- app_assoc).
    rewrite <- IH by (intros x Hx; apply Hin; by right).
    f_equal. apply List.map_ext. intros k. rewrite entryOf_snoc.
    destruct (String.eqb k (m_sku s)) eqn:E; [|reflexivity].
    apply String.eqb_eq in E. by subst k.
Qed.

Lemma zero_rows_keyed items : forall keys,
  List.NoDup (keys ++ List.map item_sku items) ->
  fold_left (fun m it => mapSet (item_sku it) (zeroRow (item_sku it)) m) items
    (List.map (fun k => (k, zeroRow k)) keys)
  = List.map (fun k => (k, zeroRow k)) (keys ++ List.map item_sku items).
Proof.
  induction items as [|it items IH]; intros keys Hnd; cbn [fold_left List.map].
  - by rewrite app_nil_r.
  - cbn [List.map] in Hnd.
    replace (keys ++ item_sku it :: List.map item_sku items)
      with ((keys ++ [item_sku it]) ++ List.map item_sku items) in *
      by (by rewrite <- app_assoc).
    rewrite (mapSet_fresh zeroRow).
    + by apply IH.
    + intros Hin. apply List.NoDup_app_remove_r in Hnd.
      apply List.NoDup_remove_2 in Hnd. apply Hnd. by rewrite app_nil_r.
Qed.

Section Tool.
Variable pow : Q -> Q -> Q.
Variable boxMuller : Q -> Q -> Q.

(** X18.  The per-SKU totals of the simulation tool add up to the totals of
    the run (units sold, stocked out, wasted and donated); and for a catalog
    without repeated SKUs there is exactly one row per item, in catalog
    order, holding the sums over all days of that item's rows. *)
Theorem perSkuTotals_add_up_to_totals opts res :
  simulateInventory pow boxMuller opts = Ok res ->
  let out := perSkuTotals (opt_items opts) (r_days res) in
  sumOf st_sold out = t_sold (totals res)
  /\ sumOf st_stockout out = t_stockout (totals res)
  /\ sumOf st_wasted out = t_wasted (totals res)
  /\ sumOf st_donated out = t_donated (totals res)
  /\ (List.NoDup (List.map item_sku (opt_items opts)) ->
      out = List.map (fun it => entryOf (allRows res) (item_sku it)) (opt_items opts)).
Proof.
  intros H. cbv zeta.
  destruct (simulateInventory_shape pow boxMuller opts res H) as (_ & Hnth & Ht).
  destruct (addRow_counts (allRows res) zeroTotals) as (_ & Hso & Hst & Hw & Hdo & _).
  cbv zeta in *. rewrite Ht.
  cbn [closeTotals t_sold t_stockout t_wasted t_donated zeroTotals] in *.
  rewrite Hso, Hst, Hw, Hdo, !Z.add_0_l. unfold allRows.
  split; [by apply perSkuTotals_sum|]. split; [by apply perSkuTotals_sum|].
  split; [by apply perSkuTotals_sum|]. split; [by apply perSkuTotals_sum|].
  intros Hnd. unfold perSkuTotals. cbv zeta. rewrite fold_days_concat.
  pose proof (zero_rows_keyed (opt_items opts) [] Hnd) as Hz. cbn [List.map app] in Hz.
  rewrite Hz. clear Hz.
  set (rows := List.concat (List.map dm_perSku (r_days res))).
  assert (Hrows : forall s, In s rows -> In (m_sku s) (List.map item_sku (opt_items opts))).
  { intros s Hs. apply in_concat in Hs as (l & Hl & Hs).
    apply in_map_iff in Hl as (dm & <- & Hdm). apply In_nth_error in Hdm as [i Hi].
    destruct (Hnth i dm Hi) as [_ Hskus]. rewrite <- Hskus. by apply in_map. }
  transitivity (List.map snd (List.map (fun k => (k, entryOf ([] ++ rows) k))
                                (List.map item_sku (opt_items opts)))).
  - f_equal. exact (tally_keyed (List.map item_sku (opt_items opts)) Hnd rows [] Hrows).
  - cbn [app]. rewrite !List.map_map. reflexivity.
Qed.

End Tool.

(** * Properties of the workflow's policy checks *)

Lemma policyHasAllSkus_complete policy items :
  policyHasAllSkus policy items = true <-> policyComplete items policy.
Proof.
  unfold policyComplete. induction items as [|it rest IH]; cbn [policyHasAllSkus].
  - split; [intros _ ? [] | reflexivity].
  - destruct (perSku policy !! item_sku it) as [p|] eqn:E.
    + rewrite IH. split.
      * intros H x [<-|Hin]; [by rewrite E | by apply H].
      * intros H x Hin. apply H. by right.
    + split; [discriminate|]. intros H.
      destruct (H it (or_introl eq_refl)) as [p Hp]. congruence.
Qed.

(** An entry that meets the constraints the optimizer states for [it]. *)
Definition tidy (it : ItemSpec) (p : ItemPolicy) : Prop :=
  exists rp upTo fm,
    reorderPoint p = inject_Z rp /\ orderUpTo p = inject_Z upTo
    /\ freezeMaxUnitsPerDay p = inject_Z fm
    /\ 0 <= rp <= upTo /\ 0 <= fm
    /\ (canFreeze it = false -> fm = 0 /\ freezeDaysToExpireAtMost p = 0%Q).

(** The fields the normalization leaves alone. *)
Definition sameOffers (p p' : ItemPolicy) : Prop :=
  p_sku p' = p_sku p /\ pricing p' = pricing p
  /\ donateDaysToExpireAtMost p' = donateDaysToExpireAtMost p
  /\ donateMaxFractionPerDay p' = donateMaxFractionPerDay p.

Lemma Math_round_mono a b : (a <= b)%Q -> Math_round a <= Math_round b.
Proof.
  intros H. unfold Math_round. apply Qfloor_resp_le. by apply Qplus_le_l.
Qed.

Lemma Qltb_false_le a b : Qltb a b = false -> (b <= a)%Q.
Proof.
  unfold Qltb. intros H. apply negb_false_iff in H. by apply Qle_bool_iff.
Qed.

Lemma normalizeEntry_tidy it p : tidy it (normalizeEntry it p).
Proof.
  unfold tidy, normalizeEntry. cbv zeta.
  cbn [reorderPoint orderUpTo freezeMaxUnitsPerDay freezeDaysToExpireAtMost].
  do 3 eexists. split; [reflexivity|]. split; [reflexivity|]. split; [reflexivity|].
  split; [|split; [lia|]].
  - split; [lia|]. apply Z.max_le_compat_l, Math_round_mono.
    destruct (Qltb (orderUpTo p) (reorderPoint p)) eqn:E; [apply Qle_refl|].
    by apply Qltb_false_le.
  - intros ->. split; reflexivity.
Qed.

Lemma normalizeEntry_keeps it it' p : tidy it p -> tidy it (normalizeEntry it' p).
Proof.
  intros (rp & upTo & fm & Hrp & Hup & Hfm & Hle & Hfm0 & Hfreeze).
  unfold tidy, normalizeEntry. cbv zeta.
  cbn [reorderPoint orderUpTo freezeMaxUnitsPerDay freezeDaysToExpireAtMost].
  exists rp, upTo, (if canFreeze it' then fm else 0).
  assert (Hno : Qltb (orderUpTo p) (reorderPoint p) = false).
  { rewrite Hrp, Hup. unfold Qltb. apply negb_false_iff, Qle_bool_iff.
    rewrite <- Zle_Qle. lia. }
  rewrite Hno, Hrp, Hup, Hfm, !Math_round_inject_Z.
  split; [f_equal; lia|]. split; [f_equal; lia|]. split.
  { destruct (canFreeze it'); [rewrite Math_round_inject_Z|]; f_equal; lia. }
  split; [lia|]. split; [destruct (canFreeze it'); lia|].
  intros Hc. destruct (Hfreeze Hc) as [-> ->]. split; by destruct (canFreeze it').
Qed.

Lemma normalizeEntry_sameOffers it p : sameOffers p (normalizeEntry it p).
Proof. by repeat split. Qed.

Lemma normalizeCandidate_entries items : forall policy sku,
  match perSku policy !! sku with
  | None => perSku (normalizeCandidate items policy) !! sku = None
  | Some p =>
      exists p', perSku (normalizeCandidate items policy) !! sku = Some p'
        /\ sameOffers p p'
        /\ (forall it, tidy it p -> tidy it p')
        /\ (forall it, In it items -> item_sku it = sku -> tidy it p')
        /\ ((forall it, In it items -> item_sku it <> sku) -> p' = p)
  end.
Proof.
  unfold normalizeCandidate.
  induction items as [|it items IH]; intros policy sku; cbn [fold_left].
  - destruct (perSku policy !! sku) as [p|]; [|reflexivity].
    exists p. split; [reflexivity|]. split; [by repeat split|]. split; [auto|].
    split; [intros ? []|reflexivity].
  - destruct (perSku policy !! item_sku it) as [q|] eqn:Eq.
    + set (pol := {| policy_id := policy_id policy; policy_name := policy_name policy;
                     perSku := <[item_sku it := normalizeEntry it q]> (perSku policy) |}).
      specialize (IH pol sku). cbn [pol perSku] in IH.
      destruct (decide (item_sku it = sku)) as [Hs|Hs].
      * subst sku. rewrite Eq. rewrite lookup_insert_eq in IH.
        destruct IH as (p' & Hp' & Hsame & Hkeep & Htidy & _).
        exists p'. split; [exact Hp'|]. split.
        { destruct Hsame as (A & B & C & D). by repeat split. }
        split; [intros x Hx; apply Hkeep; by apply normalizeEntry_keeps|].
        split.
        { intros x [<-|Hx] Hsku; [apply Hkeep, normalizeEntry_tidy | by apply Htidy]. }
        intros Hno. exfalso. by apply (Hno it (or_introl eq_refl)).
      * rewrite lookup_insert_ne in IH by exact Hs.
        destruct (perSku policy !! sku) as [p|]; [|exact IH].
        destruct IH as (p' & Hp' & Hsame & Hkeep & Htidy & Hid).
        exists p'. split; [exact Hp'|]. split; [exact Hsame|]. split; [exact Hkeep|].
        split.
        { intros x [<-|Hx] Hsku; [contradiction | by apply Htidy]. }
        intros Hno. apply Hid. intros x Hx. apply Hno. by right.
    + specialize (IH policy sku).
      destruct (perSku policy !! sku) as [p|] eqn:Ep; [|exact IH].
      destruct IH as (p' & Hp' & Hsame & Hkeep & Htidy & Hid).
      exists p'. split; [exact Hp'|]. split; [exact Hsame|]. split; [exact Hkeep|].
      split.
      { intros x [<-|Hx] Hsku; [congruence | by apply Htidy]. }
      intros Hno. apply Hid. intros x Hx. apply Hno. by right.
Qed.

Section Workflow.
Variable pow : Q -> Q -> Q.
Variable boxMuller : Q -> Q -> Q.


(** X20.  After the optimizer's normalization loop every catalog item's
    entry has whole-number reorderPoint, orderUpTo and freezeMaxUnitsPerDay
    with 0 <= reorderPoint <= orderUpTo and freezeMaxUnitsPerDay >= 0, and
    freezing is switched off (cap 0, window 0) for an item that cannot be
    frozen; sku, pricing and donation settings are as the candidate gave
    them; entries for SKUs outside the catalog are untouched and no entry is
    added or removed. *)
Theorem normalizeCandidate_enforces_constraints items policy item p :
  In item items -> perSku policy !! item_sku item = Some p ->
  (exists p', perSku (normalizeCandidate items policy) !! item_sku item = Some p'
     /\ tidy item p' /\ sameOffers p p')
  /\ (forall sku, (forall it, In it items -> item_sku it <> sku) ->
        perSku (normalizeCandidate items policy) !! sku = perSku policy !! sku)
  /\ (forall sku, is_Some (perSku (normalizeCandidate items policy) !! sku)
                  <-> is_Some (perSku policy !! sku))
  /\ policyHasAllSkus (normalizeCandidate items policy) items
     = policyHasAllSkus policy items.
Proof.
  intros Hin Hp.
  assert (Hdom : forall sku, is_Some (perSku (normalizeCandidate items policy) !! sku)
                             <-> is_Some (perSku policy !! sku)).
  { intros sku. pose proof (normalizeCandidate_entries items policy sku) as H.
    destruct (perSku policy !! sku) as [q|].
    - destruct H as (p' & -> & _). split; eauto.
    - rewrite H. reflexivity. }
  split; [|split; [|split; [exact Hdom|]]].
  - pose proof (normalizeCandidate_entries items policy (item_sku item)) as H.
    rewrite Hp in H. destruct H as (p' & Hp' & Hsame & _ & Htidy & _).
    exists p'. split; [exact Hp'|]. split; [by apply Htidy | exact Hsame].
  - intros sku Hno. pose proof (normalizeCandidate_entries items policy sku) as H.
    destruct (perSku policy !! sku) as [q|]; [|exact H].
    destruct H as (p' & -> & _ & _ & _ & Hid). by rewrite (Hid Hno).
  - destruct (policyHasAllSkus policy items) eqn:E.
    + apply policyHasAllSkus_complete. apply policyHasAllSkus_complete in E.
      intros x Hx. apply Hdom, E, Hx.
    + destruct (policyHasAllSkus (normalizeCandidate items policy) items) eqn:E';
        [|reflexivity].
      apply policyHasAllSkus_complete in E'.
      assert (policyHasAllSkus policy items = true); [|congruence].
      apply policyHasAllSkus_complete. intros x Hx. apply Hdom, E', Hx.
Qed.

End Workflow.

(** * Worked instances *)

Lemma sampleLedger_nonneg : nonneg sampleLedger.
Proof.
  unfold nonneg, sampleLedger.
  repeat (apply List.Forall_cons; [cbn; lia|]). apply List.Forall_nil.
Qed.

(** On [sampleLedger] the four milk units with one day left are within the
    two-day freezing window; the cap of three is frozen. *)
Lemma freezeStage_amount_witness :
  snd (freezeStage milk milkPolicy sampleLedger)
  = Z.min (Z.max 0 (Math_floor (freezeMaxUnitsPerDay milkPolicy)))
          (eligibleQty sampleLedger "milk" (freezeDaysToExpireAtMost milkPolicy)).
Proof.
  apply (proj1 (freezeStage_amount milk milkPolicy sampleLedger sampleLedger_nonneg));
    reflexivity.
Defined.


Lemma busyState_nonneg s : opt_initialState busyRun = Some s -> nonneg (inventory s).
Proof.
  intros [= <-]. unfold nonneg. cbn.
  repeat (apply List.Forall_cons; [cbn; lia|]). apply List.Forall_nil.
Qed.

(** The rows of [busyRun], to pick instances from. *)
Lemma busyRun_rows :
  exists res dm m,
    simulateInventory powIntegral boxMullerZero busyRun = Ok res
    /\ nth_error (r_days res) 1 = Some dm
    /\ nth_error (dm_perSku dm) 0 = Some m.
Proof. vm_compute. do 3 eexists. split; [reflexivity|]. split; reflexivity. Qed.

Lemma sales_fresh_first_then_frozen_witness :
  exists res dm m,
    simulateInventory powIntegral boxMullerZero busyRun = Ok res
    /\ In dm (r_days res) /\ In m (dm_perSku dm)
    /\ soldFresh m = Z.min (demand m) (startingFresh m - frozenMoved m - donated m)
    /\ soldFrozen m = Z.min (demand m - soldFresh m) (startingFrozen m + frozenMoved m).
Proof.
  destruct busyRun_rows as (res & dm & m & E & Hdm & Hm).
  apply nth_error_In in Hdm, Hm. exists res, dm, m.
  split; [exact E|]. split; [exact Hdm|]. split; [exact Hm|].
  destruct (sales_fresh_first_then_frozen powIntegral boxMullerZero busyRun res dm m E
              busyState_nonneg Hdm Hm) as (_ & Hf & Hz & _).
  by split.
Defined.


Lemma totals_are_sums_of_rows_witness :
  exists res,
    simulateInventory powIntegral boxMullerZero busyRun = Ok res
    /\ t_sold (totals res) = sumZ (fun m => soldFresh m + soldFrozen m) (allRows res)
    /\ t_wasted (totals res) = sumZ wasted (allRows res).
Proof.
  destruct busyRun_rows as (res & _ & _ & E & _). exists res. split; [exact E|].
  destruct (totals_are_sums_of_rows powIntegral boxMullerZero busyRun res E)
    as (_ & Hs & _ & Hw & _).
  by split.
Defined.

Lemma result_has_a_row_per_item_per_day_witness :
  exists res,
    simulateInventory powIntegral boxMullerZero busyRun = Ok res
    /\ Z.of_nat (length (r_days res)) = Z.max 0 (days (opt_config busyRun)).
Proof.
  destruct busyRun_rows as (res & _ & _ & E & _). exists res. split; [exact E|].
  exact (proj1 (result_has_a_row_per_item_per_day powIntegral boxMullerZero busyRun res E)).
Defined.

Lemma busyState_wellFormed :
  wellFormed (inventory busyState) (pendingDeliveries busyState).
Proof.
  split; cbn.
  - repeat (apply List.Forall_cons; [split; cbn; lia|]). apply List.Forall_nil.
  - apply List.Forall_cons; [|apply List.Forall_nil].
    split; [cbn; lia|]. exists 7. split; [lia | reflexivity].
Qed.

Lemma ledger_stays_well_formed_witness :
  exists d' out,
    dayLoop powIntegral boxMullerZero threeDays dairyAndGreens [milk; greens] 3 0
      busyDriver [] = Ok (d', out)
    /\ wellFormed (inventory (d_state d')) (pendingDeliveries (d_state d'))
    /\ day (d_state d') = day (d_state busyDriver) + Z.of_nat 3.
Proof.
  assert (E : exists d' out,
             dayLoop powIntegral boxMullerZero threeDays dairyAndGreens [milk; greens] 3 0
               busyDriver [] = Ok (d', out)).
  { vm_compute. do 2 eexists. reflexivity. }
  destruct E as (d' & out & E). exists d', out. split; [exact E|].
  exact (ledger_stays_well_formed powIntegral boxMullerZero threeDays dairyAndGreens
           [milk; greens] 3 0 busyDriver d' out E busyState_wellFormed).
Defined.





Lemma normal_takes_two_draws_witness :
  snd (Rng.normal boxMullerZero 0 1 (Rng.createRng 7)) = Rng.createRng 7 + 2 * stride.
Proof.
  destruct (normal_takes_two_draws boxMullerZero 0 1 (Rng.createRng 7))
    as (u1 & u2 & _ & _ & _ & _ & _ & _ & H).
  - vm_compute. discriminate.
  - vm_compute. discriminate.
  - exact H.
Defined.

Module RealScoreExamples.
Import Eval RealEval RealScoreFacts.
Local Open Scope R_scope.

Definition evenWeights : EvalConfig R :=
  {| weights := {| w_profit := 1; w_wasteReduction := 1; w_satisfaction := 1;
                   w_humanitarian := 1 |};
     profitPerDayTarget := 10; wasteRateTarget := / 10; satisfactionTarget := 1;
     donationRateTarget := / 10 |}.

Definition aWeek : SimTotals R :=
  {| sim_days := 7; sim_profit := 70; sim_sold := 80; sim_wasted := 10; sim_donated := 10;
     sim_stockout := 5; sim_demand := 85 |}.

Lemma evenWeights_nonneg : nonnegWeights (weights evenWeights).
Proof. unfold nonnegWeights. cbn. repeat split; lra. Qed.

Lemma score_is_the_weighted_mean_witness :
  0 <= score (evaluateSimulation aWeek evenWeights) <= 1.
Proof.
  exact (proj1 (proj2 (score_is_the_weighted_mean aWeek evenWeights evenWeights_nonneg))).
Defined.

Lemma score_rewards_profit_and_service_witness :
  score (evaluateSimulation (withProfit aWeek 0) evenWeights)
    <= score (evaluateSimulation (withProfit aWeek 1) evenWeights).
Proof.
  exact (proj1 (score_rewards_profit_and_service aWeek evenWeights 0 1 evenWeights_nonneg
                  Rle_0_1)).
Defined.

End RealScoreExamples.

Lemma rates_of_a_run_are_fractions_witness :
  exists res,
    simulateInventory powIntegral boxMullerZero busyRun = Ok res
    /\ (0 <= Eval.raw_fillRate
               (Eval.evaluateSimulation (simTotals res) RealScoreExamples.evenWeights)
         <= 1)%R.
Proof.
  destruct busyRun_rows as (res & _ & _ & E & _). exists res. split; [exact E|].
  destruct (rates_of_a_run_are_fractions powIntegral boxMullerZero busyRun res
              RealScoreExamples.evenWeights E busyState_nonneg)
    as (_ & _ & _ & _ & _ & _ & H).
  exact H.
Defined.

Lemma perSkuTotals_add_up_to_totals_witness :
  exists res,
    simulateInventory powIntegral boxMullerZero busyRun = Ok res
    /\ sumOf st_sold (perSkuTotals (opt_items busyRun) (r_days res)) = t_sold (totals res).
Proof.
  destruct busyRun_rows as (res & _ & _ & E & _). exists res. split; [exact E|].
  exact (proj1 (perSkuTotals_add_up_to_totals powIntegral boxMullerZero busyRun res E)).
Defined.

Lemma normalizeCandidate_enforces_constraints_witness :
  exists p', perSku (normalizeCandidate [milk; greens] dairyAndGreens) !! "milk" = Some p'
    /\ tidy milk p' /\ sameOffers milkPolicy p'.
Proof.
  refine (proj1 (normalizeCandidate_enforces_constraints [milk; greens] dairyAndGreens
                   milk milkPolicy _ _)).
  - left. reflexivity.
  - reflexivity.
Defined.

(** * The expiry order *)

Definition expiresIn (d : Z) (b : InventoryBatch) : bool := daysToExpire b =? d.

Lemma insertFifo_stable d x l :
  List.filter (expiresIn d) (insertFifo x l) = List.filter (expiresIn d) (x :: l).
Proof.
  induction l as [|y l IH]; cbn [insertFifo]; [reflexivity|].
  destruct (daysToExpire x <=? daysToExpire y) eqn:E; [reflexivity|].
  apply Z.leb_gt in E. cbn [List.filter] in *. rewrite IH. unfold expiresIn.
  destruct (daysToExpire x =? d) eqn:Ex, (daysToExpire y =? d) eqn:Ey; try reflexivity.
  apply Z.eqb_eq in Ex, Ey. lia.
Qed.

(** X21.  [sortFifo] is a stable sort by days to expiry: the result is a
    rearrangement of the ledger in non-decreasing expiry order, batches that
    expire on the same day keep the order they had in the ledger (so stock
    is drawn oldest entry first among equals), and a ledger already in
    expiry order comes back unchanged. *)
Theorem sortFifo_is_a_stable_sort (batches : list InventoryBatch) :
  Permutation (sortFifo batches) batches
  /\ StronglySorted byExpiry (sortFifo batches)
  /\ (forall d, List.filter (expiresIn d) (sortFifo batches)
                = List.filter (expiresIn d) batches)
  /\ sortFifo (sortFifo batches) = sortFifo batches.
Proof.
  split; [apply sortFifo_perm|]. split; [apply sortFifo_sorted|]. split.
  - intros d. induction batches as [|b l IH]; cbn [sortFifo]; [reflexivity|].
    rewrite insertFifo_stable. cbn [List.filter]. by rewrite IH.
  - apply sortFifo_sorted_id, sortFifo_sorted.
Qed.

(** * Money *)

Definition sumQ_nonneg_rows (f : DaySkuMetrics -> Q) (rows : list DaySkuMetrics) : Prop :=
  Forall (fun m => (0 <= f m)%Q) rows.

Lemma sumQ_nonneg f rows : sumQ_nonneg_rows f rows -> (0 <= sumQ f rows)%Q.
Proof.
  induction 1 as [|m rows Hm _ IH]; cbn [sumQ fold_right]; [apply Qle_refl|].
  unfold sumQ in IH. replace 0%Q with (0 + 0)%Q by reflexivity. by apply Qplus_le_compat.
Qed.

Lemma Qmaxb_nonneg x : (0 <= Qmaxb 0 x)%Q.
Proof.
  unfold Qmaxb. destruct (Qleb 0 x) eqn:E; [by apply Qleb_le | apply Qle_refl].
Qed.

Lemma Qmult_nonneg_Z z q : 0 <= z -> (0 <= q)%Q -> (0 <= inject_Z z * q)%Q.
Proof.
  intros Hz Hq. apply Qmult_le_0_compat; [|exact Hq].
  change 0%Q with (inject_Z 0). by rewrite <- Zle_Qle.
Qed.

(** The unit prices and costs of a run are not negative. *)
Definition nonnegPrices (opts : SimOpts) : Prop :=
  (0 <= holdingCostPerUnitPerDay (opt_config opts))%Q
  /\ (0 <= wasteDisposalCostPerUnit (opt_config opts))%Q
  /\ forall item, In item (opt_items opts) ->
       (0 <= unitCost item)%Q /\ (0 <= freezeCostPerUnit item)%Q
       /\ (0 <= basePrice item)%Q /\ (0 <= frozenPriceMultiplier item)%Q.

Section Money.
Variable pow : Q -> Q -> Q.
Variable boxMuller : Q -> Q -> Q.

(** The money columns of a row, in terms of its unit columns. *)
Lemma runSku_money config item p inv pending rng :
  let m := run_row (runSku pow boxMuller config item p inv pending rng) in
  price m = Qmaxb 0 (basePrice item * m_priceMultiplier m)
  /\ revenue m
     = (inject_Z (soldFresh m) * price m
        + inject_Z (soldFrozen m) * (basePrice item * frozenPriceMultiplier item))%Q
  /\ cogs m = (inject_Z (soldFresh m + soldFrozen m) * unitCost item)%Q
  /\ wasteCost m = (inject_Z (wasted m) * wasteDisposalCostPerUnit config)%Q
  /\ freezeCost m = (inject_Z (frozenMoved m) * freezeCostPerUnit item)%Q.
Proof.
  unfold runSku, applyPricing. cbv beta iota zeta.
  repeat (match goal with
          | |- context [match ?X with pair _ _ => _ end] => destruct X as [? ?]
          end; cbv beta iota zeta).
  cbn [run_row price revenue cogs wasteCost freezeCost soldFresh soldFrozen wasted
       frozenMoved m_priceMultiplier].
  repeat split; reflexivity.
Qed.

Lemma rows_money_nonneg opts res m :
  simulateInventory pow boxMuller opts = Ok res ->
  (forall s, opt_initialState opts = Some s -> nonneg (inventory s)) ->
  nonnegPrices opts ->
  In m (allRows res) ->
  (0 <= revenue m /\ 0 <= cogs m /\ 0 <= holdingCost m /\ 0 <= wasteCost m
   /\ 0 <= freezeCost m)%Q
  /\ (soldFresh m + soldFrozen m = 0 -> (revenue m == 0)%Q).
Proof.
  intros H Hs (Hh & Hw & Hitems) Hm. apply allRows_In in Hm as (dm & Hdm & Hm).
  destruct (simulateInventory_rows_nonneg pow boxMuller opts res dm m H Hs Hdm Hm)
    as (item & p & inv & pd & rng & Hin & _ & Hnn & ->).
  destruct (Hitems item Hin) as (Hc & Hf & Hb & Hz).
  pose proof (runSku_flows pow boxMuller (opt_config opts) item p inv pd rng Hnn) as F.
  pose proof (runSku_money (opt_config opts) item p inv pd rng) as M.
  pose proof (runSku_holdingCost pow boxMuller (opt_config opts) item p inv pd rng) as HC.
  cbv zeta in F, M, HC.
  destruct F as (Hnn' & _ & _ & _ & _ & _ & _ & Hwd & ? & ? & ? & ? & ? & ? & ? & ?).
  destruct M as (Hp & Hr & Hcg & Hwc & Hfc).
  pose proof (sumQty_nonneg (item_sku item) fresh _ Hnn').
  pose proof (sumQty_nonneg (item_sku item) frozen _ Hnn').
  rewrite Hr, Hcg, Hwc, Hfc, HC, Hp. split.
  - repeat split; try (apply Qmult_nonneg_Z; [lia | assumption]).
    replace 0%Q with (0 + 0)%Q by reflexivity. apply Qplus_le_compat.
    + apply Qmult_nonneg_Z; [lia | apply Qmaxb_nonneg].
    + apply Qmult_nonneg_Z; [lia | by apply Qmult_le_0_compat].
  - intros Hz0.
    assert (E1 : soldFresh (run_row (runSku pow boxMuller (opt_config opts) item p inv pd rng))
                 = 0) by lia.
    assert (E2 : soldFrozen (run_row (runSku pow boxMuller (opt_config opts) item p inv pd rng))
                 = 0) by lia.
    rewrite E1, E2. ring.
Qed.

(** X22.  With unit prices and costs that are not negative, every money
    total of a run is non-negative, so the profit never exceeds the revenue;
    and a run that sells nothing has no revenue, hence no positive profit. *)
Theorem profit_never_exceeds_revenue opts res :
  simulateInventory pow boxMuller opts = Ok res ->
  (forall s, opt_initialState opts = Some s -> nonneg (inventory s)) ->
  nonnegPrices opts ->
  let t := totals res in
  (0 <= t_revenue t /\ 0 <= t_cogs t /\ 0 <= t_holdingCost t /\ 0 <= t_wasteCost t
   /\ 0 <= t_freezeCost t /\ t_profit t <= t_revenue t)%Q
  /\ (t_sold t = 0 -> (t_revenue t == 0 /\ t_profit t <= 0)%Q).
Proof.
  intros H Hs Hp. cbv zeta.
  destruct (simulateInventory_shape pow boxMuller opts res H) as (_ & _ & Ht).
  destruct (addRow_money (allRows res) zeroTotals) as (M1 & M2 & M3 & M4 & M5).
  destruct (addRow_counts (allRows res) zeroTotals) as (_ & Hsold & _).
  cbv zeta in *. rewrite Ht.
  cbn [closeTotals t_revenue t_cogs t_holdingCost t_wasteCost t_freezeCost t_profit t_sold
       zeroTotals] in *.
  rewrite Qplus_0_l in M1, M2, M3, M4, M5.
  assert (Hrows : forall m, In m (allRows res) ->
            (0 <= revenue m /\ 0 <= cogs m /\ 0 <= holdingCost m /\ 0 <= wasteCost m
             /\ 0 <= freezeCost m)%Q).
  { intros m Hm. exact (proj1 (rows_money_nonneg opts res m H Hs Hp Hm)). }
  assert (R : (0 <= sumQ revenue (allRows res))%Q).
  { apply sumQ_nonneg, List.Forall_forall. intros m Hm. apply (Hrows m Hm). }
  assert (C : (0 <= sumQ cogs (allRows res))%Q).
  { apply sumQ_nonneg, List.Forall_forall. intros m Hm. apply (Hrows m Hm). }
  assert (Hd : (0 <= sumQ holdingCost (allRows res))%Q).
  { apply sumQ_nonneg, List.Forall_forall. intros m Hm. apply (Hrows m Hm). }
  assert (W : (0 <= sumQ wasteCost (allRows res))%Q).
  { apply sumQ_nonneg, List.Forall_forall. intros m Hm. apply (Hrows m Hm). }
  assert (F : (0 <= sumQ freezeCost (allRows res))%Q).
  { apply sumQ_nonneg, List.Forall_forall. intros m Hm. apply (Hrows m Hm). }
  set (tr := t_revenue (fold_left addRow (allRows res) zeroTotals)) in *.
  set (tc := t_cogs (fold_left addRow (allRows res) zeroTotals)) in *.
  set (th := t_holdingCost (fold_left addRow (allRows res) zeroTotals)) in *.
  set (tw := t_wasteCost (fold_left addRow (allRows res) zeroTotals)) in *.
  set (tf := t_freezeCost (fold_left addRow (allRows res) zeroTotals)) in *.
  split.
  - repeat split; qlra.
  - intros Hz. rewrite Hsold, Z.add_0_l in Hz.
    assert (R0 : (sumQ revenue (allRows res) == 0)%Q).
    { assert (Hall : forall m, In m (allRows res) -> soldFresh m + soldFrozen m = 0).
      { assert (Hge : Forall (fun m => 0 <= soldFresh m + soldFrozen m) (allRows res)).
        { apply List.Forall_forall. intros m Hm.
          apply allRows_In in Hm as (dm & Hdm & Hm).
          destruct (simulateInventory_rows_nonneg pow boxMuller opts res dm m H Hs Hdm Hm)
            as (item & p & inv & pd & rng & _ & _ & Hnn & ->).
          pose proof (runSku_flows pow boxMuller (opt_config opts) item p inv pd rng Hnn)
            as Fl.
          cbv zeta in Fl.
          destruct Fl as (_ & _ & _ & _ & _ & _ & _ & _ & ? & ? & _). lia. }
        revert Hz. clear -Hge. induction Hge as [|x l Hx Hl IH]; intros Hz m Hm;
          [destruct Hm|].
        cbn [sumZ fold_right] in Hz.
        pose proof (sumZ_nonneg _ _ Hl) as Hl'. unfold sumZ in Hl'.
        destruct Hm as [<-|Hm]; [lia|]. apply IH; [unfold sumZ; lia | exact Hm]. }
      assert (Hrev : Forall (fun m => (revenue m == 0)%Q) (allRows res)).
      { apply List.Forall_forall. intros m Hm.
        exact (proj2 (rows_money_nonneg opts res m H Hs Hp Hm) (Hall m Hm)). }
      clear -Hrev. induction Hrev as [|x l Hx _ IH]; cbn [sumQ fold_right]; [reflexivity|].
      unfold sumQ in IH. rewrite Hx, IH. reflexivity. }
    split; qlra.
Qed.

End Money.

(** * Demand without noise *)


Section Quiet.
Variable pow : Q -> Q -> Q.
Variable boxMuller : Q -> Q -> Q.



End Quiet.


Lemma busyRun_prices : nonnegPrices busyRun.
Proof.
  split; [discriminate|]. split; [discriminate|].
  intros item [<-|[<-|[]]]; repeat split; discriminate.
Qed.

Lemma profit_never_exceeds_revenue_witness :
  exists res,
    simulateInventory powIntegral boxMullerZero busyRun = Ok res
    /\ (t_profit (totals res) <= t_revenue (totals res))%Q.
Proof.
  destruct busyRun_rows as (res & _ & _ & E & _). exists res. split; [exact E|].
  destruct (profit_never_exceeds_revenue powIntegral boxMullerZero busyRun res E
              busyState_nonneg busyRun_prices) as [(_ & _ & _ & _ & _ & H) _].
  exact H.
Defined.

(** * Products of doubles that stay finite *)

Module DoubleFacts.
Import Ieee IeeeFacts.

Lemma digits2_pos_log2 p : Zpos (digits2_pos p) = Z.log2 (Zpos p) + 1.
Proof.
  induction p as [p IH|p IH|]; cbn [digits2_pos]; [| |reflexivity].
  - rewrite Pos2Z.inj_succ, IH.
    change (Zpos p~1) with (2 * Zpos p + 1). rewrite Z.log2_succ_double by lia. lia.
  - rewrite Pos2Z.inj_succ, IH.
    change (Zpos p~0) with (2 * Zpos p). rewrite Z.log2_double by lia. lia.
Qed.

Lemma Zdigits2_nonneg m : 0 <= Zdigits2 m.
Proof. destruct m; cbn; lia. Qed.

Lemma Zdigits2_mul a b : Zdigits2 (Zpos (a * b)) <= Zdigits2 (Zpos a) + Zdigits2 (Zpos b).
Proof.
  cbn [Zdigits2]. rewrite !digits2_pos_log2, Pos2Z.inj_mul.
  pose proof (Z.log2_mul_above (Zpos a) (Zpos b)). lia.
Qed.

Lemma Zdigits2_succ m : 0 <= m -> Zdigits2 (m + 1) <= Zdigits2 m + 1.
Proof.
  intros Hm. destruct m as [|p|p]; [discriminate | | lia].
  change (Zpos p + 1) with (Z.succ (Zpos p)).
  destruct (Z.succ (Zpos p)) as [|q|q] eqn:E; try lia.
  cbn [Zdigits2]. rewrite !digits2_pos_log2, <- E.
  pose proof (Z.log2_succ_le (Zpos p)). lia.
Qed.

Lemma Zdigits2_le a b : 0 <= a <= b -> Zdigits2 a <= Zdigits2 b.
Proof.
  intros [Ha Hab]. destruct a as [|p|p]; [apply Zdigits2_nonneg | | lia].
  destruct b as [|q|q]; try lia. cbn [Zdigits2]. rewrite !digits2_pos_log2.
  pose proof (Z.log2_le_mono (Zpos p) (Zpos q) Hab). lia.
Qed.

(** The width of the mantissa of a shift record. *)
Definition width (mrs : shr_record) : Z := Zdigits2 (shr_m mrs).

Lemma shr_1_width mrs : 0 <= shr_m mrs -> width (shr_1 mrs) = Z.max 0 (width mrs - 1).
Proof.
  destruct mrs as [m r s]. unfold width. cbn [shr_m]. intros Hm. unfold shr_1.
  destruct m as [|p|p]; [reflexivity | | lia].
  destruct p; cbn [shr_m Zdigits2 digits2_pos]; lia.
Qed.

Lemma iter_shr_1_width n : forall mrs k,
  0 <= shr_m mrs -> width mrs <= k ->
  0 <= shr_m (SpecFloat.iter_pos shr_1 n mrs)
  /\ width (SpecFloat.iter_pos shr_1 n mrs) <= Z.max 0 (k - Zpos n).
Proof.
  assert (Hstep : forall mrs k, 0 <= shr_m mrs -> width mrs <= k ->
            0 <= shr_m (shr_1 mrs) /\ width (shr_1 mrs) <= Z.max 0 (k - 1)).
  { intros mrs k Hm Hk. split; [by apply shr_1_nonneg|]. rewrite shr_1_width by exact Hm. lia. }
  induction n as [n IH|n IH|]; intros mrs k Hm Hk; cbn [SpecFloat.iter_pos].
  - destruct (Hstep mrs k Hm Hk) as [H1 H1'].
    destruct (IH _ _ H1 H1') as [H2 H2']. destruct (IH _ _ H2 H2') as [H3 H3'].
    split; [exact H3 | lia].
  - destruct (IH _ _ Hm Hk) as [H2 H2']. destruct (IH _ _ H2 H2') as [H3 H3'].
    split; [exact H3 | lia].
  - apply Hstep; assumption.
Qed.

(** One shift to the working precision: the exponent does not go down,
    goes up to at most [B - 53], and the value stays below [2 ^ B]. *)
Lemma shr_fexp_bounds m e l B :
  0 <= m -> -1000 <= e -> Zdigits2 m + e <= B ->
  let '(mrs, e') := shr_fexp prec emax m e l in
  0 <= shr_m mrs /\ e <= e' <= Z.max e (B - 53) /\ width mrs + e' <= B.
Proof.
  intros Hm He HB. unfold shr_fexp, shr. unfold fexp, emin, prec, emax.
  pose proof (Zdigits2_nonneg m) as Hd.
  destruct (Z.max (Zdigits2 m + e - 53) (3 - 1024 - 53) - e) as [|n|n] eqn:En.
  - unfold width. rewrite shr_record_of_loc_m. lia.
  - destruct (iter_shr_1_width n (shr_record_of_loc m l) (Zdigits2 m)) as [H1 H2].
    + by rewrite shr_record_of_loc_m.
    + unfold width. rewrite shr_record_of_loc_m. lia.
    + split; [exact H1|]. lia.
  - unfold width. rewrite shr_record_of_loc_m. lia.
Qed.

Lemma round_nearest_even_width m l :
  0 <= m -> Zdigits2 (round_nearest_even m l) <= Zdigits2 m + 1.
Proof.
  intros Hm. pose proof (Zdigits2_succ m Hm).
  unfold round_nearest_even. destruct l as [|[]]; try lia. destruct (Z.even m); lia.
Qed.

(** Rounding a value below [2 ^ B] gives zero or a finite double below
    [2 ^ (B + 1)], as long as the exponents stay far from the overflow
    threshold. *)
Lemma binary_round_aux_finite sx mx ex lx B :
  0 <= mx -> -1000 <= ex <= 960 -> Zdigits2 mx + ex <= B -> B <= 1000 ->
  match binary_round_aux prec emax sx mx ex lx with
  | S754_zero _ => True
  | S754_finite _ m e => ex <= e <= Z.max ex (B - 52) /\ Zdigits2 (Zpos m) + e <= B + 1
  | _ => False
  end.
Proof.
  intros Hm He HB HB'. unfold binary_round_aux.
  pose proof (shr_fexp_bounds mx ex lx B Hm (proj1 He) HB) as H1.
  destruct (shr_fexp prec emax mx ex lx) as [mrs' e']. destruct H1 as (Hm' & He' & Hw').
  set (m1 := round_nearest_even (shr_m mrs') (loc_of_shr_record mrs')).
  pose proof (round_nearest_even_nonneg (shr_m mrs') (loc_of_shr_record mrs') Hm') as Hm1.
  pose proof (round_nearest_even_width (shr_m mrs') (loc_of_shr_record mrs') Hm') as Hw1.
  fold m1 in Hm1, Hw1. unfold width in Hw'.
  pose proof (shr_fexp_bounds m1 e' loc_Exact (B + 1) Hm1 ltac:(lia) ltac:(lia)) as H2.
  destruct (shr_fexp prec emax m1 e' loc_Exact) as [mrs'' e''].
  destruct H2 as (Hm'' & He'' & Hw''). unfold width in Hw''.
  destruct (shr_m mrs'') as [|p|p]; [exact I | | lia].
  unfold emax, prec. destruct (e'' <=? 1024 - 53) eqn:E; [|apply Z.leb_gt in E; lia].
  split; lia.
Qed.

Lemma iter_xO_digits (m : positive) (k : positive) :
  Zpos (digits2_pos (Pos.iter xO m k)) = Zpos (digits2_pos m) + Zpos k.
Proof.
  induction k as [|k IH] using Pos.peano_ind.
  - cbn. lia.
  - rewrite Pos.iter_succ. cbn [digits2_pos]. rewrite Pos2Z.inj_succ, IH. lia.
Qed.

(** The double of a positive integer below [2 ^ 998]. *)
Lemma of_Z_finite (z : Z) :
  0 < z -> Zdigits2 z <= 998 ->
  match of_Z z with
  | S754_zero _ => True
  | S754_finite _ m e => -52 <= e <= 947 /\ Zdigits2 (Zpos m) + e <= Zdigits2 z + 1
  | _ => False
  end.
Proof.
  intros Hz Hd. destruct z as [|d|d]; try lia. unfold of_Z, binary_normalize, binary_round.
  cbn [Zdigits2] in Hd. pose proof (Pos2Z.is_pos (digits2_pos d)) as Hpos.
  replace (fexp prec emax (Zpos (digits2_pos d) + 0)) with (Zpos (digits2_pos d) - 53)
    by (unfold fexp, emin, prec, emax; lia).
  unfold shl_align.
  destruct (Zpos (digits2_pos d) - 53 - 0) as [|k|k] eqn:Ek.
  - pose proof (binary_round_aux_finite false (Zpos d) 0 loc_Exact (Zpos (digits2_pos d))
                  ltac:(lia) ltac:(lia) ltac:(cbn [Zdigits2]; lia) ltac:(lia)) as H.
    destruct (binary_round_aux prec emax false (Zpos d) 0 loc_Exact); try exact H.
    cbn [Zdigits2] in *. lia.
  - pose proof (binary_round_aux_finite false (Zpos d) 0 loc_Exact (Zpos (digits2_pos d))
                  ltac:(lia) ltac:(lia) ltac:(cbn [Zdigits2]; lia) ltac:(lia)) as H.
    destruct (binary_round_aux prec emax false (Zpos d) 0 loc_Exact); try exact H.
    cbn [Zdigits2] in *. lia.
  - pose proof (iter_xO_digits d k) as Hk.
    pose proof (binary_round_aux_finite false (Zpos (Pos.iter xO d k))
                  (Zpos (digits2_pos d) - 53) loc_Exact (Zpos (digits2_pos d))
                  ltac:(lia) ltac:(lia) ltac:(cbn [Zdigits2]; lia) ltac:(lia)) as H.
    destruct (binary_round_aux prec emax false (Zpos (Pos.iter xO d k)) _ loc_Exact);
      try exact H.
    cbn [Zdigits2] in *. lia.
Qed.

(** The product of such an integer with a double between 1/64 and 2 is
    zero or finite: [Math.round] of it is an integer. *)
Lemma roundTimes_total (daily : Z) (c : spec_float) :
  0 < daily -> Zdigits2 daily <= 998 ->
  (exists m e, c = S754_finite false m e /\ -60 <= e <= 0 /\ Zdigits2 (Zpos m) + e <= 1) ->
  exists r, Baseline.roundTimes daily c = Some r.
Proof.
  intros Hz Hd (mc & ec & -> & Hec & Hwc). unfold Baseline.roundTimes.
  pose proof (of_Z_finite daily Hz Hd) as H.
  destruct (of_Z daily) as [s| | |s m e]; try contradiction; [cbn; eauto|].
  destruct H as [He Hw]. cbn [SFmul].
  pose proof (Zdigits2_mul m mc) as Hmul.
  pose proof (binary_round_aux_finite (xorb s false) (Zpos (m * mc)) (e + ec) loc_Exact
                (Zdigits2 daily + 2) ltac:(lia) ltac:(lia) ltac:(lia) ltac:(lia)) as Hr.
  destruct (binary_round_aux prec emax (xorb s false) (Zpos (m * mc)) (e + ec) loc_Exact);
    try contradiction; cbn; eauto.
Qed.

End DoubleFacts.

(** * Properties of the baseline policy *)

Module BaselineFacts.
Import Ieee Baseline DoubleFacts.

Lemma literal_shape num den m e :
  literal num den = S754_finite false m e -> -60 <= e <= 0 -> Zdigits2 (Zpos m) + e <= 1 ->
  exists m' e', literal num den = S754_finite false m' e'
                /\ -60 <= e' <= 0 /\ Zdigits2 (Zpos m') + e' <= 1.
Proof. intros H He Hw. exists m, e. by split. Qed.

Lemma factor_1_2 : exists m e, literal 12 10 = S754_finite false m e
                               /\ -60 <= e <= 0 /\ Zdigits2 (Zpos m) + e <= 1.
Proof. do 2 eexists. split; [vm_compute; reflexivity|]. vm_compute. repeat split; discriminate. Qed.

Lemma factor_0_7 : exists m e, literal 7 10 = S754_finite false m e
                               /\ -60 <= e <= 0 /\ Zdigits2 (Zpos m) + e <= 1.
Proof. do 2 eexists. split; [vm_compute; reflexivity|]. vm_compute. repeat split; discriminate. Qed.

Lemma factor_0_15 : exists m e, literal 15 100 = S754_finite false m e
                                /\ -60 <= e <= 0 /\ Zdigits2 (Zpos m) + e <= 1.
Proof. do 2 eexists. split; [vm_compute; reflexivity|]. vm_compute. repeat split; discriminate. Qed.

(** The demands the heuristic is meant for. *)
Definition moderate (it : ItemSpec) : Prop :=
  (baseDailyDemand it <= inject_Z (10 ^ 300))%Q.

Lemma daily_width it :
  moderate it ->
  let daily := Z.max 1 (Math_round (baseDailyDemand it)) in
  0 < daily /\ Zdigits2 daily <= 998.
Proof.
  intros H. cbv zeta. split; [lia|].
  assert (Hr : Math_round (baseDailyDemand it) <= 10 ^ 300).
  { rewrite <- (Math_round_inject_Z (10 ^ 300)). by apply Math_round_mono. }
  etransitivity; [apply (Zdigits2_le _ (10 ^ 300)); lia|]. vm_compute. discriminate.
Qed.

(** What every entry the heuristic writes looks like. *)
Definition baselineShaped (p : ItemPolicy) : Prop :=
  exists rp upTo fm,
    reorderPoint p = inject_Z rp /\ 0 <= rp
    /\ orderUpTo p = inject_Z upTo /\ 1 <= upTo
    /\ freezeMaxUnitsPerDay p = inject_Z fm /\ 0 <= fm
    /\ pricing p = ladder
    /\ donateDaysToExpireAtMost p = 1%Q /\ donateMaxFractionPerDay p = (1 # 10)%Q
    /\ ((freezeDaysToExpireAtMost p = 0%Q /\ fm = 0) \/ freezeDaysToExpireAtMost p = 1%Q).

Lemma baselineEntry_total it :
  moderate it -> exists p, baselineEntry it = Some p.
Proof.
  intros H. destruct (daily_width it H) as [Hpos Hw]. cbv zeta in Hpos, Hw.
  unfold baselineEntry. cbv zeta.
  destruct (roundTimes_total _ (literal 12 10) Hpos Hw factor_1_2) as [a ->].
  destruct (roundTimes_total _ (literal 7 10) Hpos Hw factor_0_7) as [b ->].
  destruct (roundTimes_total _ (literal 15 100) Hpos Hw factor_0_15) as [c Hc].
  cbn [mbind option_bind]. destruct (canFreeze it); [rewrite Hc|]; cbn; eauto.
Qed.

Lemma baselineEntry_shaped it p :
  baselineEntry it = Some p ->
  p_sku p = item_sku it /\ baselineShaped p
  /\ (canFreeze it = false ->
      freezeMaxUnitsPerDay p = 0%Q /\ freezeDaysToExpireAtMost p = 0%Q).
Proof.
  unfold baselineEntry. cbv zeta. intros H.
  destruct (roundTimes _ (literal 12 10)) as [a|]; [|discriminate].
  destruct (roundTimes _ (literal 7 10)) as [b|]; [|discriminate].
  cbn [mbind option_bind] in H.
  destruct (canFreeze it) eqn:Ec.
  - destruct (roundTimes _ (literal 15 100)) as [c|]; [|discriminate].
    cbn [mbind option_bind] in H. injection H as <-. split; [reflexivity|]. split.
    + exists (Z.max 0 b), (Z.max 1 a), (Z.max 0 c). cbn. repeat split; try lia. by right.
    + discriminate.
  - cbn [mbind option_bind] in H. injection H as <-. split; [reflexivity|]. split.
    + exists (Z.max 0 b), (Z.max 1 a), 0. cbn. repeat split; try lia. by left.
    + intros _. by split.
Qed.

Lemma baselineEntries_spec items : forall acc,
  (forall it, In it items -> moderate it) ->
  exists m, baselineEntries items acc = Some m
    /\ (forall it, In it items -> is_Some (m !! item_sku it))
    /\ (forall sku p, m !! sku = Some p ->
          acc !! sku = Some p
          \/ exists it, In it items /\ item_sku it = sku /\ baselineEntry it = Some p)
    /\ (forall sku, (forall it, In it items -> item_sku it <> sku) -> m !! sku = acc !! sku)
    /\ (List.NoDup (List.map item_sku items) ->
        forall it, In it items -> m !! item_sku it = baselineEntry it).
Proof.
  induction items as [|it rest IH]; intros acc Hm; cbn [baselineEntries].
  - exists acc. split; [reflexivity|]. split; [intros ? []|]. split; [by left|].
    split; [reflexivity | intros _ ? []].
  - destruct (baselineEntry_total it (Hm it (or_introl eq_refl))) as [e He]. rewrite He.
    cbn [mbind option_bind].
    destruct (IH (<[item_sku it := e]> acc)) as (m & -> & Hdom & Hfrom & Hout & Hnd).
    { intros x Hx. apply Hm. by right. }
    exists m. split; [reflexivity|]. split; [|split; [|split]].
    + intros x [<-|Hx]; [|by apply Hdom].
      destruct (decide (Exists (fun y => item_sku y = item_sku it) rest)) as [Hex|Hno].
      * apply Exists_exists in Hex as (y & Hy & <-). apply Hdom.
        by apply list_elem_of_In.
      * rewrite Hout.
        -- rewrite lookup_insert_eq. eauto.
        -- intros y Hy Heq. apply Hno, Exists_exists. exists y.
           split; [by apply list_elem_of_In | exact Heq].
    + intros sku p Hp. destruct (Hfrom sku p Hp) as [Hacc|(y & Hy & Hs & Hb)].
      * destruct (decide (item_sku it = sku)) as [<-|Hne].
        -- rewrite lookup_insert_eq in Hacc. injection Hacc as <-.
           right. exists it. split; [by left | by split].
        -- rewrite lookup_insert_ne in Hacc by exact Hne. by left.
      * right. exists y. split; [by right | by split].
    + intros sku Hno. rewrite Hout by (intros y Hy; apply Hno; by right).
      apply lookup_insert_ne. apply Hno. by left.
    + intros Hdup x Hx. cbn [List.map] in Hdup.
      apply List.NoDup_cons_iff in Hdup as [Hnew Hdup].
      destruct Hx as [<-|Hx]; [|by apply Hnd].
      rewrite Hout.
      * by rewrite lookup_insert_eq.
      * intros y Hy Heq. apply Hnew. rewrite <- Heq. by apply List.in_map.
Qed.

Section Ready.
Variable pow : Q -> Q -> Q.
Variable boxMuller : Q -> Q -> Q.

(** X24.  The heuristic baseline is a policy the simulator accepts.  For
    demands up to 1e300, [buildBaselinePolicy] returns a policy with the given
    id that has an entry for every catalog item and no other entry, so that
    [policyHasAllSkus] holds and the simulation of it returns a result for
    every config; every entry carries its SKU, whole-number quantities with
    orderUpTo >= 1, reorderPoint >= 0 and freezeMaxUnitsPerDay >= 0, the
    three-step markdown ladder and the 10 percent donation setting; and for a
    catalog without repeated SKUs the entry of an item that cannot be frozen
    has freezing switched off. *)
Theorem buildBaselinePolicy_is_ready items id :
  (forall it, In it items -> moderate it) ->
  exists policy,
    buildBaselinePolicy items id = Some policy
    /\ policy_id policy = id
    /\ policyHasAllSkus policy items = true
    /\ (forall config initialState, exists res,
          simulateInventory pow boxMuller
            {| opt_items := items; opt_policy := policy; opt_config := config;
               opt_initialState := initialState |} = Ok res)
    /\ (forall sku p, perSku policy !! sku = Some p ->
          p_sku p = sku /\ baselineShaped p /\ exists it, In it items /\ item_sku it = sku)
    /\ (List.NoDup (List.map item_sku items) ->
        forall it, In it items -> canFreeze it = false ->
          exists p, perSku policy !! item_sku it = Some p
            /\ freezeMaxUnitsPerDay p = 0%Q /\ freezeDaysToExpireAtMost p = 0%Q).
Proof.
  intros Hm. unfold buildBaselinePolicy.
  destruct (baselineEntries_spec items ∅ Hm) as (m & -> & Hdom & Hfrom & _ & Hnd).
  cbn [mbind option_bind]. eexists. split; [reflexivity|]. cbn [policy_id perSku].
  split; [reflexivity|].
  assert (Hc : policyComplete items
                 {| policy_id := id; policy_name := "Baseline policy (heuristic)";
                    perSku := m |}).
  { intros it Hit. by apply Hdom. }
  split; [by apply policyHasAllSkus_complete|]. split.
  - intros config initialState.
    exact (simulateInventory_total pow boxMuller
             {| opt_items := items; opt_config := config;
                opt_initialState := initialState |} Hc).
  - split.
    + intros sku p Hp. destruct (Hfrom sku p Hp) as [Hacc|(it & Hit & Hs & Hb)].
      { by rewrite lookup_empty in Hacc. }
      destruct (baselineEntry_shaped it p Hb) as (Hsku & Hshape & _).
      split; [congruence|]. split; [exact Hshape|]. by exists it.
    + intros Hdup it Hit Hcf. destruct (Hdom it Hit) as [p Hp]. exists p.
      split; [exact Hp|]. rewrite (Hnd Hdup it Hit) in Hp.
      by apply (baselineEntry_shaped it p Hp).
Qed.

End Ready.

(** X25.  The markdown ladder of the baseline: 45 percent off on the last day,
    25 percent off with one day left, 10 percent off with two days left, full
    price from three days on; the price is max(0, basePrice * multiplier). *)
Theorem baseline_markdown_ladder items id policy sku p item (minDaysToExpireFresh : Z) :
  buildBaselinePolicy items id = Some policy ->
  perSku policy !! sku = Some p ->
  let multiplier :=
    if minDaysToExpireFresh <=? 0 then 11 # 20
    else if minDaysToExpireFresh <=? 1 then 3 # 4
    else if minDaysToExpireFresh <=? 2 then 9 # 10
    else 1%Q in
  applyPricing item p minDaysToExpireFresh = (Qmaxb 0 (basePrice item * multiplier), multiplier).
Proof.
  intros Hb Hp. cbv zeta.
  assert (Hl : pricing p = ladder).
  { unfold buildBaselinePolicy in Hb.
    destruct (baselineEntries items ∅) as [m|] eqn:Em; [|discriminate].
    cbn [mbind option_bind] in Hb. injection Hb as <-. cbn [perSku] in Hp.
    assert (Hgen : forall l acc m', baselineEntries l acc = Some m' ->
              (forall k q, acc !! k = Some q -> pricing q = ladder) ->
              forall k q, m' !! k = Some q -> pricing q = ladder).
    { induction l as [|it l IH]; intros acc m' Hl Hacc k q Hq; cbn [baselineEntries] in Hl.
      - injection Hl as <-. by apply (Hacc k).
      - destruct (baselineEntry it) as [e|] eqn:Ee; [|discriminate].
        cbn [mbind option_bind] in Hl. apply (IH _ _ Hl) with (k := k); [|exact Hq].
        intros k' q' Hk'. destruct (decide (item_sku it = k')) as [<-|Hne].
        + rewrite lookup_insert_eq in Hk'. injection Hk' as <-.
          destruct (baselineEntry_shaped it e Ee) as (_ & (? & ? & ? & H) & _).
          apply H.
        + rewrite lookup_insert_ne in Hk' by exact Hne. by apply (Hacc k'). }
    apply (Hgen items ∅ m Em) with (k := sku); [|exact Hp].
    intros k q Hk. by rewrite lookup_empty in Hk. }
  unfold applyPricing. rewrite Hl. cbv zeta.
  change (sortRules ladder)
    with [ {| daysToExpireAtMost := 0; priceMultiplier := 11 # 20 |};
           {| daysToExpireAtMost := 1; priceMultiplier := 3 # 4 |};
           {| daysToExpireAtMost := 2; priceMultiplier := 9 # 10 |} ].
  cbn [firstRule daysToExpireAtMost priceMultiplier].
  assert (Hq : forall k : Z, Qleb (inject_Z minDaysToExpireFresh) (inject_Z k)
                             = (minDaysToExpireFresh <=? k)).
  { intros k. unfold Qleb. destruct (minDaysToExpireFresh <=? k) eqn:E.
    - apply Qle_bool_iff. rewrite <- Zle_Qle. lia.
    - destruct (Qle_bool _ _) eqn:E'; [|reflexivity].
      apply Qle_bool_iff in E'. rewrite <- Zle_Qle in E'. lia. }
  pose proof (Hq 0) as H0. pose proof (Hq 1) as H1. pose proof (Hq 2) as H2.
  change (inject_Z 0) with 0%Q in H0. change (inject_Z 1) with 1%Q in H1.
  change (inject_Z 2) with 2%Q in H2. rewrite H0, H1, H2.
  destruct (minDaysToExpireFresh <=? 0), (minDaysToExpireFresh <=? 1),
    (minDaysToExpireFresh <=? 2); reflexivity.
Qed.

End BaselineFacts.

Module BaselineExamples.
Import Ieee Baseline BaselineFacts.

(** 45 * 0.7 is 31.499999999999996 as a double and rounds to 31; 5 * 0.7
    is 3.5 and rounds to 4. *)
Example roundTimes_on_doubles :
  roundTimes 45 (literal 7 10) = Some 31 /\ roundTimes 5 (literal 7 10) = Some 4
  /\ roundTimes 45 (literal 12 10) = Some 54 /\ roundTimes 10 (literal 15 100) = Some 2.
Proof. vm_compute. repeat split. Qed.

Lemma twoItems_moderate : forall it, In it [milk; greens] -> moderate it.
Proof. intros it [<-|[<-|[]]]; unfold moderate; vm_compute; discriminate. Qed.

Lemma buildBaselinePolicy_is_ready_witness :
  exists policy,
    buildBaselinePolicy [milk; greens] "baseline" = Some policy
    /\ policyHasAllSkus policy [milk; greens] = true.
Proof.
  destruct (buildBaselinePolicy_is_ready powIntegral boxMullerZero [milk; greens] "baseline"
              twoItems_moderate) as (policy & Hb & _ & Hall & _).
  exists policy. by split.
Defined.

Lemma twoItems_baseline :
  exists policy p,
    buildBaselinePolicy [milk; greens] "baseline" = Some policy
    /\ perSku policy !! "milk" = Some p.
Proof. vm_compute. do 2 eexists. split; reflexivity. Qed.

Lemma baseline_markdown_ladder_witness :
  exists p, applyPricing milk p 1 = (Qmaxb 0 (basePrice milk * (3 # 4)), 3 # 4).
Proof.
  destruct twoItems_baseline as (policy & p & Hb & Hp). exists p.
  exact (baseline_markdown_ladder [milk; greens] "baseline" policy "milk" p milk 1 Hb Hp).
Defined.

End BaselineExamples.

(** * SKUs do not interact *)

(** The batches of one SKU, and the ledger as that SKU sees it: its
    batches in expiry order. *)
Definition ofSku (sku : Sku) (b : InventoryBatch) : bool := String.eqb (b_sku b) sku.

Definition mine (sku : Sku) (l : list InventoryBatch) : list InventoryBatch :=
  List.filter (ofSku sku) l.

Definition view (sku : Sku) (l : list InventoryBatch) : list InventoryBatch :=
  sortFifo (mine sku l).

Definition dueFor (sku : Sku) (d : PendingDelivery) : bool := String.eqb (pd_sku d) sku.

Section SortFacts.

Lemma sortFifo_day d l :
  List.filter (expiresIn d) (sortFifo l) = List.filter (expiresIn d) l.
Proof.
  induction l as [|b l IH]; cbn [sortFifo]; [reflexivity|].
  rewrite insertFifo_stable. cbn [List.filter]. by rewrite IH.
Qed.

Lemma filter_insertFifo (f : InventoryBatch -> bool) x l :
  StronglySorted byExpiry l ->
  List.filter f (insertFifo x l)
  = if f x then insertFifo x (List.filter f l) else List.filter f l.
Proof.
  induction 1 as [|y l Hs IH Hall]; cbn [insertFifo List.filter].
  - by destruct (f x).
  - destruct (daysToExpire x <=? daysToExpire y) eqn:E; cbn [List.filter].
    + destruct (f x) eqn:Ex; [|reflexivity].
      destruct (f y) eqn:Ey; cbn [insertFifo]; [by rewrite E|].
      (* x goes in front of the kept part as well *)
      apply Z.leb_le in E. clear IH.
      assert (Hfront : forall l', Forall (byExpiry y) l' ->
                insertFifo x (List.filter f l') = x :: List.filter f l').
      { intros l' Hl'. destruct (List.filter f l') as [|z r] eqn:Ef; [reflexivity|].
        cbn [insertFifo].
        assert (Hz : In z l').
        { assert (In z (List.filter f l')) by (rewrite Ef; by left).
          by apply List.filter_In in H as [? _]. }
        rewrite List.Forall_forall in Hl'. specialize (Hl' z Hz). unfold byExpiry in Hl'.
        by rewrite (proj2 (Z.leb_le _ _)) by lia. }
      by rewrite Hfront.
    + rewrite IH. destruct (f x) eqn:Ex, (f y) eqn:Ey; cbn [insertFifo]; try reflexivity.
      by rewrite E.
Qed.

(** A stable sort commutes with every filter. *)
Lemma filter_sortFifo (f : InventoryBatch -> bool) l :
  List.filter f (sortFifo l) = sortFifo (List.filter f l).
Proof.
  induction l as [|b l IH]; cbn [sortFifo List.filter]; [reflexivity|].
  rewrite filter_insertFifo by apply sortFifo_sorted.
  destruct (f b); cbn [sortFifo]; by rewrite IH.
Qed.

(** Two lists in expiry order with the same batches, in the same order,
    on every expiry day, are the same list. *)
Lemma sorted_by_day_unique l1 : forall l2,
  StronglySorted byExpiry l1 -> StronglySorted byExpiry l2 ->
  (forall d, List.filter (expiresIn d) l1 = List.filter (expiresIn d) l2) ->
  l1 = l2.
Proof.
  assert (Hself : forall b, expiresIn (daysToExpire b) b = true).
  { intros b. unfold expiresIn. apply Z.eqb_refl. }
  assert (Hnone : forall x l d, Forall (byExpiry x) l -> d < daysToExpire x ->
            List.filter (expiresIn d) l = []).
  { intros x l d Hall Hd. induction Hall as [|z r Hz _ IH]; [reflexivity|].
    cbn [List.filter]. unfold byExpiry in Hz.
    replace (expiresIn d z) with false; [exact IH|].
    symmetry. unfold expiresIn. apply Z.eqb_neq. lia. }
  induction l1 as [|x l1 IH]; intros l2 H1 H2 Hday.
  - destruct l2 as [|y l2]; [reflexivity|].
    specialize (Hday (daysToExpire y)). cbn [List.filter] in Hday.
    rewrite Hself in Hday. discriminate.
  - destruct l2 as [|y l2].
    { specialize (Hday (daysToExpire x)). cbn [List.filter] in Hday.
      rewrite Hself in Hday. discriminate. }
    inversion H1 as [|? ? Hs1 Hx]; subst. inversion H2 as [|? ? Hs2 Hy]; subst.
    assert (Hxy : daysToExpire x = daysToExpire y).
    { destruct (Z.lt_trichotomy (daysToExpire x) (daysToExpire y)) as [Hlt|[Heq|Hgt]];
        [|exact Heq|].
      - specialize (Hday (daysToExpire x)). cbn [List.filter] in Hday.
        rewrite Hself in Hday. unfold expiresIn at 2 in Hday.
        rewrite (proj2 (Z.eqb_neq _ _)) in Hday by lia.
        rewrite (Hnone y l2 _ Hy Hlt) in Hday. discriminate.
      - specialize (Hday (daysToExpire y)). cbn [List.filter] in Hday.
        rewrite Hself in Hday. unfold expiresIn at 1 in Hday.
        rewrite (proj2 (Z.eqb_neq _ _)) in Hday by lia.
        rewrite (Hnone x l1 _ Hx Hgt) in Hday. discriminate. }
    pose proof (Hday (daysToExpire x)) as Hd0. cbn [List.filter] in Hd0.
    rewrite Hself in Hd0. unfold expiresIn at 2 in Hd0.
    rewrite (proj2 (Z.eqb_eq _ _)) in Hd0 by lia. injection Hd0 as <- Htail.
    f_equal. apply IH; [assumption..|]. intros d. specialize (Hday d).
    cbn [List.filter] in Hday. destruct (expiresIn d x); [by injection Hday | exact Hday].
Qed.

Lemma sortFifo_app_cong x1 x2 y :
  sortFifo x1 = sortFifo x2 -> sortFifo (x1 ++ y) = sortFifo (x2 ++ y).
Proof.
  intros H. apply sorted_by_day_unique; try apply sortFifo_sorted.
  intros d. rewrite !sortFifo_day, !List.filter_app.
  by rewrite <- (sortFifo_day d x1), <- (sortFifo_day d x2), H.
Qed.

Lemma sortFifo_idem l : sortFifo (sortFifo l) = sortFifo l.
Proof. apply sortFifo_sorted_id, sortFifo_sorted. Qed.

End SortFacts.

Section OwnBatches.
Variable A : Sku.

Lemma ofSku_is_of st b : is_of A st b = true -> ofSku A b = true.
Proof. unfold is_of, ofSku. by intros [-> _]%andb_true_iff. Qed.

Lemma ofSku_other sku st b : sku <> A -> is_of sku st b = true -> ofSku A b = false.
Proof.
  intros Hne H. apply is_of_true in H as [Hs _]. unfold ofSku.
  apply String.eqb_neq. congruence.
Qed.

Lemma is_of_not_mine st b : ofSku A b = false -> is_of A st b = false.
Proof. unfold is_of, ofSku. by intros ->. Qed.

Lemma mine_mine l : mine A (mine A l) = mine A l.
Proof.
  unfold mine. induction l as [|b l IH]; [reflexivity|]. cbn [List.filter].
  destruct (ofSku A b) eqn:E; cbn [List.filter]; rewrite ?E, IH; reflexivity.
Qed.

Lemma mine_app l l' : mine A (l ++ l') = mine A l ++ mine A l'.
Proof. apply List.filter_app. Qed.

Lemma mine_sortFifo l : mine A (sortFifo l) = sortFifo (mine A l).
Proof. apply filter_sortFifo. Qed.

Lemma mine_view l : mine A (view A l) = view A l.
Proof. unfold view. by rewrite mine_sortFifo, mine_mine. Qed.

Lemma view_sortFifo l : view A (sortFifo l) = view A l.
Proof. unfold view. by rewrite mine_sortFifo, sortFifo_idem. Qed.

Lemma view_view l : view A (view A l) = view A l.
Proof. unfold view at 1. rewrite mine_view. unfold view. apply sortFifo_idem. Qed.

Lemma view_perm l : Permutation (view A l) (mine A l).
Proof. apply sortFifo_perm. Qed.

Lemma mine_pruneEmpty l : mine A (pruneEmpty l) = pruneEmpty (mine A l).
Proof.
  unfold mine, pruneEmpty. induction l as [|b l IH]; [reflexivity|]. cbn [List.filter].
  destruct (0 <? qty b) eqn:Eq, (ofSku A b) eqn:Eo; cbn [List.filter];
    rewrite ?Eq, ?Eo, IH; reflexivity.
Qed.

Lemma pruneEmpty_sortFifo l : pruneEmpty (sortFifo l) = sortFifo (pruneEmpty l).
Proof. apply filter_sortFifo. Qed.

(** What the pipeline reads of a ledger for [A] is read off [A]'s batches. *)
Lemma sumQty_mine st l : sumQty (mine A l) A st = sumQty l A st.
Proof.
  induction l as [|b l IH]; [reflexivity|]. unfold mine in *. cbn [List.filter].
  rewrite sumQty_cons. destruct (ofSku A b) eqn:E; rewrite ?sumQty_cons, IH; [reflexivity|].
  unfold qtyIf. rewrite (is_of_not_mine st b E). lia.
Qed.

Lemma sumQty_view st l : sumQty (view A l) A st = sumQty l A st.
Proof. unfold view. by rewrite sumQty_sortFifo, sumQty_mine. Qed.

Lemma eligibleQty_mine thr l : eligibleQty (mine A l) A thr = eligibleQty l A thr.
Proof.
  induction l as [|b l IH]; [reflexivity|]. unfold mine in *. cbn [List.filter].
  rewrite eligibleQty_cons. destruct (ofSku A b) eqn:E; rewrite ?eligibleQty_cons, IH;
    [reflexivity|].
  unfold eligibleIf. rewrite (is_of_not_mine fresh b E). cbn [andb]. lia.
Qed.

Lemma eligibleQty_view thr l : eligibleQty (view A l) A thr = eligibleQty l A thr.
Proof.
  unfold view. by rewrite (eligibleQty_perm _ _ _ _ (sortFifo_perm _)), eligibleQty_mine.
Qed.

(** The most urgent fresh batch, as a minimum. *)
Definition urgent (m : option Z) (b : InventoryBatch) : option Z :=
  if is_of A fresh b
  then Some (match m with None => daysToExpire b | Some x => Z.min x (daysToExpire b) end)
  else m.

Lemma urgent_swap m x y : urgent (urgent m x) y = urgent (urgent m y) x.
Proof.
  unfold urgent. destruct (is_of A fresh x), (is_of A fresh y), m; try reflexivity;
    f_equal; lia.
Qed.

Lemma minDays_perm l l' : Permutation l l' ->
  forall m, fold_left urgent l m = fold_left urgent l' m.
Proof.
  induction 1 as [|x l l' _ IH|x y l|l l' l'' _ IH1 _ IH2]; intros m; cbn [fold_left].
  - reflexivity.
  - apply IH.
  - by rewrite urgent_swap.
  - by rewrite IH1.
Qed.

Lemma minDays_mine l : forall m, fold_left urgent (mine A l) m = fold_left urgent l m.
Proof.
  induction l as [|b l IH]; intros m; [reflexivity|]. unfold mine in *. cbn [List.filter].
  destruct (ofSku A b) eqn:E; cbn [fold_left]; rewrite IH; [reflexivity|].
  f_equal. unfold urgent. by rewrite (is_of_not_mine fresh b E).
Qed.

Lemma minDaysToExpireFresh_view l :
  minDaysToExpireFresh (view A l) A = minDaysToExpireFresh l A.
Proof.
  unfold minDaysToExpireFresh. change (fold_left urgent (view A l) None = fold_left urgent l None).
  unfold view. by rewrite (minDays_perm _ _ (sortFifo_perm _)), minDays_mine.
Qed.

Lemma take_loop_done sku st l remaining taken :
  remaining <= 0 -> take_loop sku st l remaining taken = (l, taken).
Proof.
  intros H. destruct l as [|b l]; [reflexivity|]. cbn [take_loop].
  by rewrite (proj2 (Z.leb_le _ _) H).
Qed.

Lemma mine_cons b l :
  mine A (b :: l) = if ofSku A b then b :: mine A l else mine A l.
Proof. reflexivity. Qed.

(** The take loop for [A] works on [A]'s batches alone. *)
Lemma take_loop_mine st l : forall remaining taken,
  mine A (fst (take_loop A st l remaining taken))
  = fst (take_loop A st (mine A l) remaining taken)
  /\ snd (take_loop A st l remaining taken) = snd (take_loop A st (mine A l) remaining taken).
Proof.
  induction l as [|b l IH]; intros remaining taken; [by split|].
  destruct (Z.leb_spec remaining 0) as [Hr|Hr].
  { by rewrite !take_loop_done by exact Hr. }
  rewrite mine_cons. cbn [take_loop]. rewrite (proj2 (Z.leb_gt _ _) Hr).
  destruct (ofSku A b) eqn:Eo.
  - cbn [take_loop]. rewrite (proj2 (Z.leb_gt _ _) Hr).
    destruct (is_of A st b) eqn:Ei; cbn [negb].
    + destruct (Z.min (qty b) remaining <=? 0).
      * destruct (IH remaining taken) as [H1 H2].
        destruct (take_loop A st l remaining taken) as [r t],
                 (take_loop A st (mine A l) remaining taken) as [r' t'].
        cbn [fst snd] in *. by rewrite mine_cons, Eo, H1, H2.
      * destruct (IH (remaining - Z.min (qty b) remaining)
                     (taken + Z.min (qty b) remaining)) as [H1 H2].
        destruct (take_loop A st l _ _) as [r t], (take_loop A st (mine A l) _ _) as [r' t'].
        cbn [fst snd] in *. rewrite mine_cons.
        change (ofSku A (set_qty b (qty b - Z.min (qty b) remaining))) with (ofSku A b).
        by rewrite Eo, H1, H2.
    + destruct (IH remaining taken) as [H1 H2].
      destruct (take_loop A st l remaining taken) as [r t],
               (take_loop A st (mine A l) remaining taken) as [r' t'].
      cbn [fst snd] in *. by rewrite mine_cons, Eo, H1, H2.
  - rewrite (is_of_not_mine st b Eo). cbn [negb].
    destruct (IH remaining taken) as [H1 H2].
    destruct (take_loop A st l remaining taken) as [r t]. cbn [fst snd] in *.
    by rewrite mine_cons, Eo.
Qed.

(** The take loop for another SKU leaves [A]'s batches alone. *)
Lemma take_loop_other sku st l : sku <> A -> forall remaining taken,
  mine A (fst (take_loop sku st l remaining taken)) = mine A l.
Proof.
  intros Hne. induction l as [|b l IH]; intros remaining taken; [reflexivity|].
  cbn [take_loop]. destruct (remaining <=? 0); [reflexivity|].
  destruct (is_of sku st b) eqn:Ei; cbn [negb].
  - pose proof (ofSku_other sku st b Hne Ei) as Eo.
    destruct (Z.min (qty b) remaining <=? 0).
    + specialize (IH remaining taken).
      destruct (take_loop sku st l remaining taken) as [r t]. cbn [fst] in *.
      by rewrite !mine_cons, Eo.
    + specialize (IH (remaining - Z.min (qty b) remaining)
                     (taken + Z.min (qty b) remaining)).
      destruct (take_loop sku st l _ _) as [r t]. cbn [fst] in *.
      rewrite !mine_cons.
      change (ofSku A (set_qty b (qty b - Z.min (qty b) remaining))) with (ofSku A b).
      by rewrite Eo.
  - specialize (IH remaining taken).
    destruct (take_loop sku st l remaining taken) as [r t]. cbn [fst] in *.
    by rewrite !mine_cons, IH.
Qed.

End OwnBatches.

Section OwnStages.
Variable A : Sku.

Lemma freeze_loop_done item p l cap moved pushed :
  cap <= 0 -> freeze_loop item p l cap moved pushed = (l, moved, pushed).
Proof.
  intros H. destruct l as [|b l]; [reflexivity|]. cbn [freeze_loop].
  by rewrite (proj2 (Z.leb_le _ _) H).
Qed.

(** The freeze loop of an item of SKU [A] works on [A]'s batches alone. *)
Lemma freeze_loop_mine item p l : item_sku item = A -> forall cap moved pushed,
  mine A (fst (fst (freeze_loop item p l cap moved pushed)))
  = fst (fst (freeze_loop item p (mine A l) cap moved pushed))
  /\ snd (fst (freeze_loop item p l cap moved pushed))
     = snd (fst (freeze_loop item p (mine A l) cap moved pushed))
  /\ snd (freeze_loop item p l cap moved pushed)
     = snd (freeze_loop item p (mine A l) cap moved pushed).
Proof.
  intros Hitem. induction l as [|b l IH]; intros cap moved pushed; [by repeat split|].
  destruct (Z.leb_spec cap 0) as [Hc|Hc].
  { by rewrite !freeze_loop_done by exact Hc. }
  rewrite mine_cons. cbn [freeze_loop]. rewrite (proj2 (Z.leb_gt _ _) Hc).
  destruct (ofSku A b) eqn:Eo.
  - cbn [freeze_loop]. rewrite (proj2 (Z.leb_gt _ _) Hc).
    destruct (negb (is_of (item_sku item) fresh b) || _).
    + destruct (IH cap moved pushed) as (H1 & H2 & H3).
      destruct (freeze_loop item p l cap moved pushed) as [[r m] ps],
               (freeze_loop item p (mine A l) cap moved pushed) as [[r' m'] ps'].
      cbn [fst snd] in *. by rewrite mine_cons, Eo, H1, H2, H3.
    + destruct (Z.min (qty b) cap <=? 0).
      * destruct (IH cap moved pushed) as (H1 & H2 & H3).
        destruct (freeze_loop item p l cap moved pushed) as [[r m] ps],
                 (freeze_loop item p (mine A l) cap moved pushed) as [[r' m'] ps'].
        cbn [fst snd] in *. by rewrite mine_cons, Eo, H1, H2, H3.
      * destruct (IH (cap - Z.min (qty b) cap) (moved + Z.min (qty b) cap)
                     (pushed ++ [frozenBatch item (Z.min (qty b) cap)])) as (H1 & H2 & H3).
        destruct (freeze_loop item p l _ _ _) as [[r m] ps],
                 (freeze_loop item p (mine A l) _ _ _) as [[r' m'] ps'].
        cbn [fst snd] in *. rewrite mine_cons.
        change (ofSku A (set_qty b (qty b - Z.min (qty b) cap))) with (ofSku A b).
        by rewrite Eo, H1, H2, H3.
  - rewrite Hitem, (is_of_not_mine A fresh b Eo). cbn [negb orb].
    destruct (IH cap moved pushed) as (H1 & H2 & H3).
    destruct (freeze_loop item p l cap moved pushed) as [[r m] ps]. cbn [fst snd] in *.
    by rewrite mine_cons, Eo.
Qed.

(** What it pushes are batches of [A]. *)
Lemma freeze_loop_pushed item p l : item_sku item = A -> forall cap moved pushed,
  mine A pushed = pushed ->
  mine A (snd (freeze_loop item p l cap moved pushed))
  = snd (freeze_loop item p l cap moved pushed).
Proof.
  intros Hitem. induction l as [|b l IH]; intros cap moved pushed Hp; [exact Hp|].
  cbn [freeze_loop]. destruct (cap <=? 0); [exact Hp|].
  destruct (negb (is_of (item_sku item) fresh b) || _).
  - specialize (IH cap moved pushed Hp).
    by destruct (freeze_loop item p l cap moved pushed) as [[r m] ps].
  - destruct (Z.min (qty b) cap <=? 0).
    + specialize (IH cap moved pushed Hp).
      by destruct (freeze_loop item p l cap moved pushed) as [[r m] ps].
    + specialize (IH (cap - Z.min (qty b) cap) (moved + Z.min (qty b) cap)
                     (pushed ++ [frozenBatch item (Z.min (qty b) cap)])).
      destruct (freeze_loop item p l _ _ _) as [[r m] ps]. apply IH.
      rewrite mine_app, Hp. f_equal. unfold mine. cbn [List.filter].
      unfold ofSku, frozenBatch. cbn [b_sku]. by rewrite Hitem, String.eqb_refl.
Qed.

(** The freeze loop of an item of another SKU leaves [A]'s batches alone. *)
Lemma freeze_loop_other item p l : item_sku item <> A -> forall cap moved pushed,
  mine A (fst (fst (freeze_loop item p l cap moved pushed))) = mine A l
  /\ mine A (snd (freeze_loop item p l cap moved pushed)) = mine A pushed.
Proof.
  intros Hne. induction l as [|b l IH]; intros cap moved pushed; [by split|].
  cbn [freeze_loop]. destruct (cap <=? 0); [by split|].
  destruct (is_of (item_sku item) fresh b) eqn:Ei; cbn [negb orb].
  - pose proof (ofSku_other A (item_sku item) fresh b Hne Ei) as Eo.
    destruct (Qltb _ _).
    + destruct (IH cap moved pushed) as [H1 H2].
      destruct (freeze_loop item p l cap moved pushed) as [[r m] ps]. cbn [fst snd] in *.
      by rewrite !mine_cons, Eo, H1.
    + destruct (Z.min (qty b) cap <=? 0).
      * destruct (IH cap moved pushed) as [H1 H2].
        destruct (freeze_loop item p l cap moved pushed) as [[r m] ps]. cbn [fst snd] in *.
        by rewrite !mine_cons, Eo, H1.
      * destruct (IH (cap - Z.min (qty b) cap) (moved + Z.min (qty b) cap)
                     (pushed ++ [frozenBatch item (Z.min (qty b) cap)])) as [H1 H2].
        destruct (freeze_loop item p l _ _ _) as [[r m] ps]. cbn [fst snd] in *.
        rewrite !mine_cons.
        change (ofSku A (set_qty b (qty b - Z.min (qty b) cap))) with (ofSku A b).
        rewrite Eo, H1, H2, mine_app. split; [reflexivity|].
        unfold mine at 2. cbn [List.filter]. unfold ofSku at 1, frozenBatch. cbn [b_sku].
        rewrite (proj2 (String.eqb_neq _ _) Hne). apply app_nil_r.
  - destruct (IH cap moved pushed) as [H1 H2].
    destruct (freeze_loop item p l cap moved pushed) as [[r m] ps]. cbn [fst snd] in *.
    by rewrite !mine_cons, H1.
Qed.

End OwnStages.

Section StageViews.
Variable A : Sku.

(** Two ledgers that [A] cannot tell apart. *)
Definition alike (l l' : list InventoryBatch) : Prop := view A l = view A l'.

Lemma alike_view l : alike (view A l) l.
Proof. apply view_view. Qed.

Lemma alike_sortFifo l l' : alike l l' -> alike (sortFifo l) (sortFifo l').
Proof. unfold alike. by rewrite !view_sortFifo. Qed.

Lemma alike_mine l l' : mine A l = mine A l' -> alike l l'.
Proof. unfold alike, view. by intros ->. Qed.

Lemma sortFifo_view l : sortFifo (view A l) = view A l.
Proof. apply sortFifo_idem. Qed.

Lemma alike_sumQty l l' st : alike l l' -> sumQty l A st = sumQty l' A st.
Proof. intros H. by rewrite <- (sumQty_view A st l), <- (sumQty_view A st l'), H. Qed.

Lemma alike_eligibleQty l l' thr :
  alike l l' -> eligibleQty l A thr = eligibleQty l' A thr.
Proof.
  intros H. by rewrite <- (eligibleQty_view A thr l), <- (eligibleQty_view A thr l'), H.
Qed.

Lemma alike_pricingDays item l l' :
  item_sku item = A -> alike l l' -> pricingDays item l = pricingDays item l'.
Proof.
  intros Hitem H. unfold pricingDays. rewrite Hitem.
  by rewrite <- (minDaysToExpireFresh_view A l), <- (minDaysToExpireFresh_view A l'), H.
Qed.

(** A take from [A]'s pool, as [A] sees it. *)
Lemma takeFromBatches_view st w l :
  0 < w ->
  mine A (fst (takeFromBatches l A st w)) = pruneEmpty (fst (take_loop A st (view A l) w 0))
  /\ snd (takeFromBatches l A st w) = snd (take_loop A st (view A l) w 0).
Proof.
  intros Hw. unfold takeFromBatches. rewrite (proj2 (Z.leb_gt _ _) Hw).
  destruct (take_loop_mine A st (sortFifo l) w 0) as [H1 H2].
  rewrite mine_sortFifo in H1, H2. fold (view A l) in H1, H2.
  destruct (take_loop A st (sortFifo l) w 0) as [r t]. cbn [fst snd] in *.
  by rewrite mine_pruneEmpty, H1.
Qed.

Lemma takeFromBatches_own st w l l' :
  alike l l' ->
  snd (takeFromBatches l A st w) = snd (takeFromBatches l' A st w)
  /\ alike (fst (takeFromBatches l A st w)) (fst (takeFromBatches l' A st w)).
Proof.
  intros H. destruct (Z.leb_spec w 0) as [Hw|Hw].
  - unfold takeFromBatches. rewrite (proj2 (Z.leb_le _ _) Hw). by split.
  - destruct (takeFromBatches_view st w l Hw) as [H1 H2].
    destruct (takeFromBatches_view st w l' Hw) as [H1' H2'].
    split; [by rewrite H2, H2', H | apply alike_mine; by rewrite H1, H1', H].
Qed.

Lemma takeFromBatches_other sku st w l :
  sku <> A -> stocked l -> alike (fst (takeFromBatches l sku st w)) l.
Proof.
  intros Hne Hst. unfold takeFromBatches. destruct (w <=? 0); [reflexivity|].
  pose proof (take_loop_other A sku st (sortFifo l) Hne w 0) as H.
  destruct (take_loop sku st (sortFifo l) w 0) as [r t]. cbn [fst] in *.
  unfold alike, view. rewrite mine_pruneEmpty, H, mine_sortFifo, pruneEmpty_sortFifo.
  rewrite sortFifo_idem. f_equal. apply pruneEmpty_id.
  unfold stocked, mine in *. rewrite List.Forall_forall in *. intros b Hb.
  apply List.filter_In in Hb as [Hb _]. by apply Hst.
Qed.

Lemma freezeStage_own item p l l' :
  item_sku item = A -> alike l l' ->
  snd (freezeStage item p l) = snd (freezeStage item p l')
  /\ alike (fst (freezeStage item p l)) (fst (freezeStage item p l')).
Proof.
  intros Hitem H. unfold freezeStage. destruct (canFreeze item && _); [|by split].
  cbv zeta. set (cap := Z.max 0 _).
  assert (Hview : forall x,
            mine A (fst (fst (freeze_loop item p (sortFifo x) cap 0 [])))
            = fst (fst (freeze_loop item p (view A x) cap 0 []))
            /\ snd (fst (freeze_loop item p (sortFifo x) cap 0 []))
               = snd (fst (freeze_loop item p (view A x) cap 0 []))
            /\ snd (freeze_loop item p (sortFifo x) cap 0 [])
               = snd (freeze_loop item p (view A x) cap 0 [])
            /\ mine A (snd (freeze_loop item p (sortFifo x) cap 0 []))
               = snd (freeze_loop item p (sortFifo x) cap 0 [])).
  { intros x. destruct (freeze_loop_mine A item p (sortFifo x) Hitem cap 0 []) as (H1 & H2 & H3).
    rewrite mine_sortFifo in H1, H2, H3. fold (view A x) in H1, H2, H3.
    repeat split; try assumption. by apply freeze_loop_pushed. }
  destruct (Hview l) as (H1 & H2 & H3 & H4). destruct (Hview l') as (H1' & H2' & H3' & H4').
  destruct (freeze_loop item p (sortFifo l) cap 0 []) as [[r m] ps].
  destruct (freeze_loop item p (sortFifo l') cap 0 []) as [[r' m'] ps'].
  cbn [fst snd] in *. split; [by rewrite H2, H2', H|].
  apply alike_mine. rewrite !mine_pruneEmpty, !mine_app, H1, H1', H4, H4', H3, H3'.
  by rewrite H.
Qed.

Lemma freezeStage_other item p l :
  item_sku item <> A -> stocked l -> alike (fst (freezeStage item p l)) l.
Proof.
  intros Hne Hst. unfold freezeStage. destruct (canFreeze item && _); [|reflexivity].
  cbv zeta. set (cap := Z.max 0 _).
  destruct (freeze_loop_other A item p (sortFifo l) Hne cap 0 []) as [H1 H2].
  destruct (freeze_loop item p (sortFifo l) cap 0 []) as [[r m] ps]. cbn [fst snd] in *.
  unfold alike, view. rewrite mine_pruneEmpty, mine_app, H1, H2. cbn [mine List.filter].
  rewrite app_nil_r, mine_sortFifo, pruneEmpty_sortFifo, sortFifo_idem. f_equal.
  apply pruneEmpty_id.
  unfold stocked, mine in *. rewrite List.Forall_forall in *. intros b Hb.
  apply List.filter_In in Hb as [Hb _]. by apply Hst.
Qed.

Lemma donateStage_own item p l l' :
  item_sku item = A -> alike l l' ->
  snd (donateStage item p l) = snd (donateStage item p l')
  /\ alike (fst (donateStage item p l)) (fst (donateStage item p l')).
Proof.
  intros Hitem H. unfold donateStage. destruct (Qltb 0 _); [|by split]. cbv zeta.
  rewrite Hitem. rewrite (alike_eligibleQty _ _ _ (alike_sortFifo _ _ H)).
  by apply takeFromBatches_own, alike_sortFifo.
Qed.

Lemma stocked_sorted l : stocked l -> stocked (sortFifo l).
Proof. apply stocked_sortFifo. Qed.

Lemma donateStage_other item p l :
  item_sku item <> A -> stocked l -> alike (fst (donateStage item p l)) l.
Proof.
  intros Hne Hst. unfold donateStage. destruct (Qltb 0 _); [|reflexivity]. cbv zeta.
  unfold alike. rewrite (takeFromBatches_other _ _ _ _ Hne (stocked_sorted _ Hst)).
  apply view_sortFifo.
Qed.

(** Aging. *)
Lemma ofSku_ageBatch sku b : ofSku A (ageBatch sku b) = ofSku A b.
Proof. unfold ageBatch, ofSku. by destruct (String.eqb (b_sku b) sku). Qed.

Lemma mine_aged sku l : mine A (List.map (ageBatch sku) l) = List.map (ageBatch sku) (mine A l).
Proof.
  induction l as [|b l IH]; [reflexivity|]. cbn [List.map]. rewrite !mine_cons, ofSku_ageBatch.
  destruct (ofSku A b); cbn [List.map]; by rewrite IH.
Qed.

Lemma mine_filter (f : InventoryBatch -> bool) l :
  mine A (List.filter f l) = List.filter f (mine A l).
Proof.
  unfold mine. induction l as [|b l IH]; [reflexivity|]. cbn [List.filter].
  destruct (f b) eqn:Ef, (ofSku A b) eqn:Eo; cbn [List.filter]; rewrite ?Ef, ?Eo, IH;
    reflexivity.
Qed.

Lemma insertFifo_aged x l :
  ofSku A x = true -> mine A l = l ->
  insertFifo (ageBatch A x) (List.map (ageBatch A) l)
  = List.map (ageBatch A) (insertFifo x l).
Proof.
  intros Hx. induction l as [|y l IH]; intros Hl; [reflexivity|].
  rewrite mine_cons in Hl. destruct (ofSku A y) eqn:Ey.
  2:{ exfalso. assert (Hin : In y (mine A l)) by (rewrite Hl; by left).
      unfold mine in Hin. apply List.filter_In in Hin as [_ Hin]. congruence. }
  injection Hl as Hl. cbn [List.map insertFifo].
  assert (Hd : forall b, ofSku A b = true -> daysToExpire (ageBatch A b) = daysToExpire b - 1).
  { intros b Hb. unfold ageBatch. unfold ofSku in Hb. by rewrite Hb. }
  rewrite (Hd x Hx), (Hd y Ey).
  replace (daysToExpire x - 1 <=? daysToExpire y - 1) with (daysToExpire x <=? daysToExpire y)
    by lia.
  destruct (daysToExpire x <=? daysToExpire y); cbn [List.map]; [reflexivity|].
  by rewrite IH.
Qed.

Lemma sortFifo_aged l :
  mine A l = l -> sortFifo (List.map (ageBatch A) l) = List.map (ageBatch A) (sortFifo l).
Proof.
  induction l as [|x l IH]; intros Hl; [reflexivity|].
  rewrite mine_cons in Hl. destruct (ofSku A x) eqn:Ex.
  2:{ exfalso. assert (Hin : In x (mine A l)) by (rewrite Hl; by left).
      unfold mine in Hin. apply List.filter_In in Hin as [_ Hin]. congruence. }
  injection Hl as Hl. cbn [List.map sortFifo]. rewrite IH by exact Hl.
  apply insertFifo_aged; [exact Ex|].
  by rewrite mine_sortFifo, Hl.
Qed.

Lemma wastedQty_perm sku l l' : Permutation l l' -> wastedQty sku l = wastedQty sku l'.
Proof.
  induction 1 as [|x l l' _ IH|x y l|l l' l'' _ IH1 _ IH2]; cbn [wastedQty fold_right].
  - reflexivity.
  - fold (wastedQty sku l) (wastedQty sku l'). by rewrite IH.
  - fold (wastedQty sku l). destruct (expired sku x), (expired sku y); lia.
  - by rewrite IH1.
Qed.

Lemma wastedQty_mine l : wastedQty A (mine A l) = wastedQty A l.
Proof.
  induction l as [|b l IH]; [reflexivity|]. rewrite mine_cons.
  cbn [wastedQty fold_right]. fold (wastedQty A l).
  destruct (ofSku A b) eqn:Eo.
  - cbn [wastedQty fold_right]. fold (wastedQty A (mine A l)). by rewrite IH.
  - rewrite IH. unfold expired. unfold ofSku in Eo. by rewrite Eo.
Qed.

Lemma ageStage_view l :
  view A (fst (ageStage A l)) = fst (ageStage A (view A l))
  /\ snd (ageStage A l) = snd (ageStage A (view A l)).
Proof.
  unfold ageStage. cbn [fst snd]. split.
  - unfold view at 1. rewrite mine_filter, mine_aged.
    rewrite <- filter_sortFifo. rewrite sortFifo_aged by apply mine_mine. reflexivity.
  - rewrite <- (wastedQty_mine (List.map (ageBatch A) l)), mine_aged.
    rewrite <- (wastedQty_mine (List.map (ageBatch A) (view A l))), mine_aged, mine_view.
    apply wastedQty_perm, Permutation_map. symmetry. apply view_perm.
Qed.

Lemma ageStage_own l l' :
  alike l l' ->
  snd (ageStage A l) = snd (ageStage A l')
  /\ alike (fst (ageStage A l)) (fst (ageStage A l')).
Proof.
  intros H. destruct (ageStage_view l) as [H1 H2], (ageStage_view l') as [H1' H2'].
  split; [by rewrite H2, H2', H | unfold alike; by rewrite H1, H1', H].
Qed.

Lemma ageStage_other sku l : sku <> A -> mine A (fst (ageStage sku l)) = mine A l.
Proof.
  intros Hne. unfold ageStage. cbn [fst]. rewrite mine_filter, mine_aged.
  induction l as [|b l IH]; [reflexivity|]. rewrite mine_cons.
  destruct (ofSku A b) eqn:Eo; [|exact IH]. cbn [List.map List.filter].
  assert (Hb : String.eqb (b_sku b) sku = false).
  { apply String.eqb_neq. unfold ofSku in Eo. apply String.eqb_eq in Eo. congruence. }
  unfold ageBatch at 1, expired at 1. rewrite Hb. cbn [negb andb].
  unfold ageBatch at 1. rewrite Hb. by rewrite IH.
Qed.

End StageViews.

Section Isolation.
Variable pow : Q -> Q -> Q.
Variable boxMuller : Q -> Q -> Q.

Lemma reorderStage_own A item p freshNow pend pend' :
  List.filter (dueFor A) pend = List.filter (dueFor A) pend' ->
  List.filter (dueFor A) (reorderStage item p freshNow pend)
  = List.filter (dueFor A) (reorderStage item p freshNow pend').
Proof.
  intros H. unfold reorderStage. destruct (Qleb _ _); [|exact H]. cbv zeta.
  destruct (0 <? _); [|exact H]. by rewrite !List.filter_app, H.
Qed.

Lemma reorderStage_other A item p freshNow pend :
  item_sku item <> A ->
  List.filter (dueFor A) (reorderStage item p freshNow pend) = List.filter (dueFor A) pend.
Proof.
  intros Hne. unfold reorderStage. destruct (Qleb _ _); [|reflexivity]. cbv zeta.
  destruct (0 <? _); [|reflexivity]. rewrite List.filter_app. cbn [List.filter].
  unfold dueFor at 2. cbn [pd_sku]. rewrite (proj2 (String.eqb_neq _ _) Hne).
  apply app_nil_r.
Qed.

(** A pipeline run for an item reads and writes, of the ledger and the
    queue, only what belongs to the item's SKU. *)
Lemma runSku_own config item p l l' pend pend' rng :
  alike (item_sku item) l l' ->
  List.filter (dueFor (item_sku item)) pend = List.filter (dueFor (item_sku item)) pend' ->
  let r := runSku pow boxMuller config item p l pend rng in
  let r' := runSku pow boxMuller config item p l' pend' rng in
  run_row r = run_row r'
  /\ alike (item_sku item) (run_inventory r) (run_inventory r')
  /\ List.filter (dueFor (item_sku item)) (run_pending r)
     = List.filter (dueFor (item_sku item)) (run_pending r').
Proof.
  intros H Hq. cbv zeta. unfold runSku. cbv beta iota zeta.
  set (A := item_sku item) in *.
  rewrite (alike_sumQty A l l' fresh H), (alike_sumQty A l l' frozen H).
  destruct (freezeStage_own A item p l l' eq_refl H) as [E1 H1].
  destruct (freezeStage item p l) as [i1 moved], (freezeStage item p l') as [i1' moved'].
  cbn [fst snd] in E1, H1. subst moved'. cbv beta iota zeta.
  destruct (donateStage_own A item p i1 i1' eq_refl H1) as [E2 H2].
  destruct (donateStage item p i1) as [i2 don], (donateStage item p i1') as [i2' don'].
  cbn [fst snd] in E2, H2. subst don'. cbv beta iota zeta.
  rewrite (alike_pricingDays A item i2 i2' eq_refl H2).
  destruct (applyPricing item p (pricingDays item i2')) as [pr mult]. cbv beta iota zeta.
  destruct (demandForDay pow boxMuller item mult rng (demandNoiseStdDev config)) as [dem rng'].
  cbv beta iota zeta.
  set (demandInt := Z.max 0 (Math_floor dem)).
  destruct (takeFromBatches_own A fresh demandInt i2 i2' H2) as [E3 H3].
  destruct (takeFromBatches i2 A fresh demandInt) as [i3 sFresh],
           (takeFromBatches i2' A fresh demandInt) as [i3' sFresh'].
  cbn [fst snd] in E3, H3. subst sFresh'. cbv beta iota zeta.
  set (remainingDemand := Z.max 0 (demandInt - sFresh)).
  assert (S4 : snd (if 0 <? remainingDemand
                    then takeFromBatches i3 A frozen remainingDemand else (i3, 0))
               = snd (if 0 <? remainingDemand
                      then takeFromBatches i3' A frozen remainingDemand else (i3', 0))
               /\ alike A (fst (if 0 <? remainingDemand
                                then takeFromBatches i3 A frozen remainingDemand
                                else (i3, 0)))
                          (fst (if 0 <? remainingDemand
                                then takeFromBatches i3' A frozen remainingDemand
                                else (i3', 0)))).
  { destruct (0 <? remainingDemand); [by apply takeFromBatches_own | by split]. }
  destruct (if 0 <? remainingDemand then takeFromBatches i3 A frozen remainingDemand
            else (i3, 0)) as [i4 sFrozen].
  destruct (if 0 <? remainingDemand then takeFromBatches i3' A frozen remainingDemand
            else (i3', 0)) as [i4' sFrozen'].
  destruct S4 as [E4 H4]. cbn [fst snd] in E4, H4. subst sFrozen'. cbv beta iota zeta.
  rewrite (alike_sumQty A i4 i4' fresh H4), (alike_sumQty A i4 i4' frozen H4).
  set (lost := Math_floor _).
  assert (S5 : alike A
            (fst (fst (if 0 <? lost
                       then let '(inv1, lostFresh) := takeFromBatches i4 A fresh lost in
                            let lostFrozen := lost - lostFresh in
                            if 0 <? lostFrozen
                            then let '(inv2, t) := takeFromBatches inv1 A frozen lostFrozen in
                                 (inv2, lostFresh, t)
                            else (inv1, lostFresh, 0)
                       else (i4, 0, 0))))
            (fst (fst (if 0 <? lost
                       then let '(inv1, lostFresh) := takeFromBatches i4' A fresh lost in
                            let lostFrozen := lost - lostFresh in
                            if 0 <? lostFrozen
                            then let '(inv2, t) := takeFromBatches inv1 A frozen lostFrozen in
                                 (inv2, lostFresh, t)
                            else (inv1, lostFresh, 0)
                       else (i4', 0, 0))))).
  { destruct (0 <? lost); [|exact H4].
    destruct (takeFromBatches_own A fresh lost i4 i4' H4) as [Ea Ha].
    destruct (takeFromBatches i4 A fresh lost) as [ia lf],
             (takeFromBatches i4' A fresh lost) as [ia' lf'].
    cbn [fst snd] in Ea, Ha. subst lf'. cbv zeta.
    destruct (0 <? lost - lf); [|exact Ha].
    destruct (takeFromBatches_own A frozen (lost - lf) ia ia' Ha) as [Eb Hb].
    destruct (takeFromBatches ia A frozen (lost - lf)) as [ib lz],
             (takeFromBatches ia' A frozen (lost - lf)) as [ib' lz'].
    exact Hb. }
  destruct (if 0 <? lost then _ else (i4, 0, 0)) as [[i5 lF] lZ].
  destruct (if 0 <? lost then _ else (i4', 0, 0)) as [[i5' lF'] lZ'].
  cbn [fst] in S5. cbv beta iota zeta.
  rewrite (alike_sumQty A i5 i5' fresh S5), (alike_sumQty A i5 i5' frozen S5).
  destruct (ageStage_own A i5 i5' S5) as [E6 H6].
  destruct (ageStage A i5) as [i6 w], (ageStage A i5') as [i6' w'].
  cbn [fst snd] in E6, H6. subst w'. cbv beta iota zeta.
  cbn [run_row run_inventory run_pending].
  rewrite (alike_sumQty A i6 i6' fresh H6).
  split; [reflexivity|]. split; [exact H6|]. by apply reorderStage_own.
Qed.

Lemma live_stocked l : Forall live l -> stocked l.
Proof. intros H. by apply live_split in H as [? _]. Qed.

Lemma runSku_other A config item p l pend rng :
  item_sku item <> A -> Forall live l ->
  let r := runSku pow boxMuller config item p l pend rng in
  alike A (run_inventory r) l
  /\ List.filter (dueFor A) (run_pending r) = List.filter (dueFor A) pend.
Proof.
  intros Hne L0. cbv zeta. unfold runSku. cbv beta iota zeta.
  pose proof (freezeStage_other A item p l Hne (live_stocked _ L0)) as H1.
  pose proof (freezeStage_live item p l L0) as L1.
  destruct (freezeStage item p l) as [i1 moved]. cbn [fst] in H1, L1. cbv beta iota zeta.
  pose proof (donateStage_other A item p i1 Hne (live_stocked _ L1)) as H2.
  pose proof (donateStage_live item p i1 L1) as L2.
  destruct (donateStage item p i1) as [i2 don]. cbn [fst] in H2, L2. cbv beta iota zeta.
  destruct (applyPricing item p (pricingDays item i2)) as [pr mult]. cbv beta iota zeta.
  destruct (demandForDay pow boxMuller item mult rng (demandNoiseStdDev config)) as [dem rng'].
  cbv beta iota zeta.
  set (demandInt := Z.max 0 (Math_floor dem)).
  pose proof (takeFromBatches_other A (item_sku item) fresh demandInt i2 Hne
                (live_stocked _ L2)) as H3.
  pose proof (takeFromBatches_live i2 (item_sku item) fresh demandInt L2) as L3.
  destruct (takeFromBatches i2 (item_sku item) fresh demandInt) as [i3 sFresh].
  cbn [fst] in H3, L3. cbv beta iota zeta.
  set (remainingDemand := Z.max 0 (demandInt - sFresh)).
  assert (S4 : alike A (fst (if 0 <? remainingDemand
                             then takeFromBatches i3 (item_sku item) frozen remainingDemand
                             else (i3, 0))) i3
               /\ Forall live (fst (if 0 <? remainingDemand
                                    then takeFromBatches i3 (item_sku item) frozen
                                           remainingDemand
                                    else (i3, 0)))).
  { destruct (0 <? remainingDemand); [|by split]. split.
    - apply takeFromBatches_other; [exact Hne | by apply live_stocked].
    - by apply takeFromBatches_live. }
  destruct (if 0 <? remainingDemand then _ else (i3, 0)) as [i4 sFrozen].
  destruct S4 as [H4 L4]. cbn [fst] in H4, L4. cbv beta iota zeta.
  set (lost := Math_floor _).
  assert (S5 : alike A
            (fst (fst (if 0 <? lost
                       then let '(inv1, lostFresh) :=
                              takeFromBatches i4 (item_sku item) fresh lost in
                            let lostFrozen := lost - lostFresh in
                            if 0 <? lostFrozen
                            then let '(inv2, t) :=
                                   takeFromBatches inv1 (item_sku item) frozen lostFrozen in
                                 (inv2, lostFresh, t)
                            else (inv1, lostFresh, 0)
                       else (i4, 0, 0)))) i4).
  { destruct (0 <? lost); [|reflexivity].
    pose proof (takeFromBatches_other A (item_sku item) fresh lost i4 Hne
                  (live_stocked _ L4)) as Ha.
    pose proof (takeFromBatches_live i4 (item_sku item) fresh lost L4) as La.
    destruct (takeFromBatches i4 (item_sku item) fresh lost) as [ia lf].
    cbn [fst] in Ha, La. cbv zeta. destruct (0 <? lost - lf); [|exact Ha].
    pose proof (takeFromBatches_other A (item_sku item) frozen (lost - lf) ia Hne
                  (live_stocked _ La)) as Hb.
    destruct (takeFromBatches ia (item_sku item) frozen (lost - lf)) as [ib lz].
    cbn [fst] in *. unfold alike in *. congruence. }
  destruct (if 0 <? lost then _ else (i4, 0, 0)) as [[i5 lF] lZ]. cbn [fst] in S5.
  cbv beta iota zeta.
  pose proof (ageStage_other A (item_sku item) i5 Hne) as H6.
  destruct (ageStage (item_sku item) i5) as [i6 w]. cbn [fst] in H6. cbv beta iota zeta.
  cbn [run_inventory run_pending]. split.
  - apply alike_mine in H6. unfold alike in *. congruence.
  - by apply reorderStage_other.
Qed.

(** The receipt step. *)
Lemma mine_arrivalBatches A items arriving :
  mine A (arrivalBatches items arriving)
  = arrivalBatches items (List.filter (dueFor A) arriving).
Proof.
  induction arriving as [|a rest IH]; [reflexivity|]. cbn [arrivalBatches List.filter].
  destruct (dueFor A a) eqn:Ea; cbn [arrivalBatches];
    destruct (findItem items (pd_sku a)); rewrite ?mine_cons, ?IH; try reflexivity.
  - unfold ofSku, arrivalBatch. cbn [b_sku]. unfold dueFor in Ea. by rewrite Ea.
  - unfold ofSku, arrivalBatch. cbn [b_sku]. unfold dueFor in Ea. by rewrite Ea.
Qed.

Lemma dueFor_counted A (f : PendingDelivery -> bool) pend pend' :
  List.filter (dueFor A) pend = List.filter (dueFor A) pend' ->
  List.filter (dueFor A) (List.filter f (List.map countDown pend))
  = List.filter (dueFor A) (List.filter f (List.map countDown pend')).
Proof.
  assert (H : forall q,
            List.filter (dueFor A) (List.filter f (List.map countDown q))
            = List.filter f (List.map countDown (List.filter (dueFor A) q))).
  { induction q as [|d q IH]; [reflexivity|]. cbn [List.map List.filter].
    change (dueFor A d) with (dueFor A (countDown d)).
    destruct (f (countDown d)) eqn:Ef, (dueFor A (countDown d)) eqn:Ed;
      cbn [List.map List.filter]; rewrite ?Ef, ?Ed, IH; reflexivity. }
  intros E. by rewrite !H, E.
Qed.

Lemma receiveDeliveries_own A items st st' :
  alike A (inventory st) (inventory st') ->
  List.filter (dueFor A) (pendingDeliveries st)
  = List.filter (dueFor A) (pendingDeliveries st') ->
  alike A (inventory (receiveDeliveries items st)) (inventory (receiveDeliveries items st'))
  /\ List.filter (dueFor A) (pendingDeliveries (receiveDeliveries items st))
     = List.filter (dueFor A) (pendingDeliveries (receiveDeliveries items st')).
Proof.
  intros H Hq. unfold receiveDeliveries. cbn [inventory pendingDeliveries]. split.
  - unfold alike, view. rewrite !mine_app, !mine_arrivalBatches.
    rewrite (dueFor_counted A _ _ _ Hq). by apply sortFifo_app_cong.
  - by apply dueFor_counted.
Qed.

(** Two drivers that [A] cannot tell apart. *)
Definition apart (A : Sku) (d d' : Driver) : Prop :=
  alike A (inventory (d_state d)) (inventory (d_state d'))
  /\ List.filter (dueFor A) (pendingDeliveries (d_state d))
     = List.filter (dueFor A) (pendingDeliveries (d_state d'))
  /\ d_rng d = d_rng d'.

Definition sound (d : Driver) : Prop :=
  wellFormed (inventory (d_state d)) (pendingDeliveries (d_state d)).

Definition rowOf (A : Sku) (m : DaySkuMetrics) : bool := String.eqb (m_sku m) A.

Lemma skuLoop_apart A config policy policy' sub : forall d d' rows rows' d1 d1' rows1 rows1',
  perSku policy !! A = perSku policy' !! A ->
  skuLoop pow boxMuller config policy sub d rows = Ok (d1, rows1) ->
  skuLoop pow boxMuller config policy' sub d' rows' = Ok (d1', rows1') ->
  apart A d d' -> sound d -> sound d' ->
  apart A d1 d1' /\ sound d1 /\ sound d1'
  /\ exists new new',
       rows1 = rows ++ new /\ rows1' = rows' ++ new'
       /\ List.filter (rowOf A) new = List.filter (rowOf A) new'.
Proof.
  induction sub as [|item rest IH]; intros d d' rows rows' d1 d1' rows1 rows1' Hp H H' Ha Hs Hs'.
  - cbn in H, H'. injection H as <- <-. injection H' as <- <-.
    split; [exact Ha|]. split; [exact Hs|]. split; [exact Hs'|].
    exists [], []. by rewrite !app_nil_r.
  - apply skuLoop_cons in H as (p & Hlook & H). apply skuLoop_cons in H' as (p' & Hlook' & H').
    cbv zeta in H, H'. destruct Ha as (Hv & Hq & Hr).
    set (r := runSku pow boxMuller config item p (inventory (d_state d))
                (pendingDeliveries (d_state d)) (d_rng d)) in *.
    set (r' := runSku pow boxMuller config item p' (inventory (d_state d'))
                 (pendingDeliveries (d_state d')) (d_rng d')) in *.
    assert (Hrng : run_rng r = run_rng r').
    { unfold r, r'.
      rewrite (proj2 (runSku_demand pow boxMuller config item p _ _ _)).
      rewrite (proj2 (runSku_demand pow boxMuller config item p' _ _ _)). by rewrite Hr. }
    assert (Hstep : apart A (afterRun d r) (afterRun d' r')
                    /\ List.filter (rowOf A) [run_row r] = List.filter (rowOf A) [run_row r']).
    { destruct (decide (item_sku item = A)) as [Hi|Hi].
      - assert (p' = p) by (rewrite Hi in Hlook, Hlook'; congruence). subst p'.
        unfold r, r'. rewrite <- Hr. rewrite <- Hi in Hv, Hq.
        destruct (runSku_own config item p _ _ _ _ (d_rng d) Hv Hq) as (Hrow & Hv1 & Hq1).
        cbv zeta in Hrow, Hv1, Hq1. rewrite Hi in Hv1, Hq1. split.
        + split; [exact Hv1|]. split; [exact Hq1|]. cbn [afterRun d_rng].
          fold r. rewrite Hrng. unfold r'. by rewrite Hr.
        + by rewrite Hrow.
      - destruct (runSku_other A config item p _ (pendingDeliveries (d_state d)) (d_rng d)
                    Hi (proj1 Hs)) as (Hv1 & Hq1).
        destruct (runSku_other A config item p' _ (pendingDeliveries (d_state d')) (d_rng d')
                    Hi (proj1 Hs')) as (Hv1' & Hq1').
        cbv zeta in Hv1, Hq1, Hv1', Hq1'. fold r in Hv1, Hq1. fold r' in Hv1', Hq1'. split.
        + split; [|split; [|exact Hrng]]; cbn [afterRun d_state inventory pendingDeliveries].
          * unfold alike in *. congruence.
          * congruence.
        + cbn [List.filter]. unfold rowOf. unfold r, r'. rewrite !runSku_m_sku.
          by rewrite (proj2 (String.eqb_neq _ _) Hi). }
    destruct Hstep as [Ha1 Hrows].
    destruct (IH _ _ _ _ _ _ _ _ Hp H H' Ha1) as (Ha2 & Hs2 & Hs2' & new & new' & -> & -> & Hf).
    + apply (runSku_wellFormed pow boxMuller config item p _ _ _ Hs).
    + apply (runSku_wellFormed pow boxMuller config item p' _ _ _ Hs').
    + split; [exact Ha2|]. split; [exact Hs2|]. split; [exact Hs2'|].
      exists (run_row r :: new), (run_row r' :: new').
      split; [by rewrite <- app_assoc|]. split; [by rewrite <- app_assoc|].
      change (run_row r :: new) with ([run_row r] ++ new).
      change (run_row r' :: new') with ([run_row r'] ++ new').
      by rewrite !List.filter_app, Hrows, Hf.
Qed.

Lemma dayLoop_apart A config policy policy' items n : forall idx d d' acc acc' d1 d1' out out',
  perSku policy !! A = perSku policy' !! A ->
  dayLoop pow boxMuller config policy items n idx d acc = Ok (d1, out) ->
  dayLoop pow boxMuller config policy' items n idx d' acc' = Ok (d1', out') ->
  apart A d d' -> sound d -> sound d' ->
  exists new new',
    out = acc ++ new /\ out' = acc' ++ new'
    /\ Forall2 (fun dm dm' =>
                  dm_day dm = dm_day dm'
                  /\ List.filter (rowOf A) (dm_perSku dm)
                     = List.filter (rowOf A) (dm_perSku dm'))
               new new'.
Proof.
  induction n as [|n IH]; intros idx d d' acc acc' d1 d1' out out' Hp H H' Ha Hs Hs'.
  - cbn in H, H'. injection H as <- <-. injection H' as <- <-.
    exists [], []. rewrite !app_nil_r. repeat split. constructor.
  - cbn [dayLoop] in H, H'. unfold dayStep in H, H'.
    destruct (skuLoop pow boxMuller config policy items _ []) as [[d0 rows]|] eqn:E;
      [|discriminate].
    destruct (skuLoop pow boxMuller config policy' items _ []) as [[d0' rows']|] eqn:E';
      [|discriminate].
    cbn [mbind result_bind] in H, H'.
    destruct Ha as (Hv & Hq & Hr).
    destruct (receiveDeliveries_own A items (d_state d) (d_state d') Hv Hq) as [Hv0 Hq0].
    destruct (skuLoop_apart A config policy policy' items _ _ _ _ _ _ _ _ Hp E E')
      as ((Hv1 & Hq1 & Hr1) & Hs1 & Hs1' & new & new' & Hn & Hn' & Hf).
    + split; [exact Hv0|]. split; [exact Hq0 | exact Hr].
    + by apply receiveDeliveries_wellFormed.
    + by apply receiveDeliveries_wellFormed.
    + cbn [app] in Hn, Hn'. subst rows rows'.
      destruct (IH _ _ _ _ _ _ _ _ _ Hp H H') as (more & more' & -> & -> & Hall).
      * split; [exact Hv1|]. split; [exact Hq1 | exact Hr1].
      * exact Hs1.
      * exact Hs1'.
      * exists ({| dm_day := idx; dm_perSku := new |} :: more),
               ({| dm_day := idx; dm_perSku := new' |} :: more').
        split; [by rewrite <- app_assoc|]. split; [by rewrite <- app_assoc|].
        constructor; [by split | exact Hall].
Qed.

Lemma mine_initialBatches A items policy policy' inv inv' :
  perSku policy !! A = perSku policy' !! A ->
  initialBatches items policy = Ok inv -> initialBatches items policy' = Ok inv' ->
  mine A inv = mine A inv'.
Proof.
  intros Hp. revert inv inv'.
  induction items as [|item rest IH]; intros inv inv' H H'; cbn [initialBatches] in H, H'.
  - injection H as <-. by injection H' as <-.
  - unfold policyFor in H, H'.
    destruct (perSku policy !! item_sku item) as [p|] eqn:E; [|discriminate].
    destruct (perSku policy' !! item_sku item) as [p'|] eqn:E'; [|discriminate].
    cbn [mbind result_bind] in H, H'.
    destruct (initialBatches rest policy) as [tail|]; [|discriminate].
    destruct (initialBatches rest policy') as [tail'|]; [|discriminate].
    cbn [mbind result_bind] in H, H'. injection H as <-. injection H' as <-.
    specialize (IH tail tail' eq_refl eq_refl).
    destruct (decide (item_sku item = A)) as [Hi|Hi].
    + assert (p' = p) by (rewrite Hi in E, E'; congruence). subst p'.
      destruct (0 <? _); [|exact IH]. rewrite !mine_cons. by rewrite IH.
    + assert (Ho : forall q t,
                ofSku A {| b_sku := item_sku item; qty := q; daysToExpire := t;
                           b_state := fresh |} = false).
      { intros q t. unfold ofSku. cbn [b_sku]. by apply String.eqb_neq. }
      destruct (0 <? Z.max 0 (Math_round (orderUpTo p))),
               (0 <? Z.max 0 (Math_round (orderUpTo p'))); rewrite ?mine_cons, ?Ho; exact IH.
Qed.

End Isolation.

Section Runs.
Variable pow : Q -> Q -> Q.
Variable boxMuller : Q -> Q -> Q.

(** X26.  SKUs do not interact.  Take two runs on the same catalog, config
    (seed included) and initial state, a well-formed one if one is supplied
    (every batch with stock and at least one day left, every queued delivery
    a positive whole number of units, not overdue), under two policies that
    agree on the entry of one SKU.  Then on every day the rows of that SKU
    are the same in both runs, field by field: what the policy says about
    other SKUs has no effect on it. *)
Theorem skus_do_not_interact (A : Sku) (opts opts' : SimOpts) res res' :
  opt_items opts' = opt_items opts ->
  opt_config opts' = opt_config opts ->
  opt_initialState opts' = opt_initialState opts ->
  perSku (opt_policy opts) !! A = perSku (opt_policy opts') !! A ->
  (forall s, opt_initialState opts = Some s ->
             wellFormed (inventory s) (pendingDeliveries s)) ->
  simulateInventory pow boxMuller opts = Ok res ->
  simulateInventory pow boxMuller opts' = Ok res' ->
  Forall2 (fun dm dm' =>
             dm_day dm = dm_day dm'
             /\ List.filter (rowOf A) (dm_perSku dm) = List.filter (rowOf A) (dm_perSku dm'))
          (r_days res) (r_days res').
Proof.
  intros Hitems Hconfig Hinit Hp Hwf H H'. unfold simulateInventory in H, H'.
  rewrite Hitems, Hconfig, Hinit in H'.
  destruct (ensurePolicyComplete _ (opt_policy opts)); [|discriminate].
  destruct (ensurePolicyComplete _ (opt_policy opts')); [|discriminate].
  cbn [mbind result_bind] in H, H'.
  destruct (match opt_initialState opts with
            | Some st => Ok (structuredClone st)
            | None => createInitialState (opt_items opts) (opt_policy opts)
            end) as [st|] eqn:Est; [|discriminate].
  destruct (match opt_initialState opts with
            | Some st => Ok (structuredClone st)
            | None => createInitialState (opt_items opts) (opt_policy opts')
            end) as [st'|] eqn:Est'; [|discriminate].
  cbn [mbind result_bind] in H, H'.
  destruct (dayLoop _ _ _ (opt_policy opts) _ _ _ _ _) as [[d out]|] eqn:E; [|discriminate].
  destruct (dayLoop _ _ _ (opt_policy opts') _ _ _ _ _) as [[d' out']|] eqn:E'; [|discriminate].
  cbn [mbind result_bind] in H, H'. injection H as <-. injection H' as <-. cbn [r_days].
  assert (Hstart : alike A (inventory st) (inventory st')
                   /\ List.filter (dueFor A) (pendingDeliveries st)
                      = List.filter (dueFor A) (pendingDeliveries st')
                   /\ wellFormed (inventory st) (pendingDeliveries st)
                   /\ wellFormed (inventory st') (pendingDeliveries st')).
  { destruct (opt_initialState opts) as [s|].
    - injection Est as <-. injection Est' as <-. unfold structuredClone.
      repeat split; try reflexivity; by apply Hwf.
    - unfold createInitialState in Est, Est'.
      destruct (ensurePolicyComplete _ (opt_policy opts)); [|discriminate].
      destruct (ensurePolicyComplete _ (opt_policy opts')); [|discriminate].
      cbn [mbind result_bind] in Est, Est'.
      destruct (initialBatches _ (opt_policy opts)) as [inv|] eqn:Ei; [|discriminate].
      destruct (initialBatches _ (opt_policy opts')) as [inv'|] eqn:Ei'; [|discriminate].
      cbn [mbind result_bind] in Est, Est'. injection Est as <-. injection Est' as <-.
      cbn [inventory pendingDeliveries]. split.
      + apply alike_mine. by apply (mine_initialBatches A _ _ _ _ _ Hp Ei Ei').
      + split; [reflexivity|]. split.
        * split; [by apply (initialBatches_live _ _ _ Ei) | constructor].
        * split; [by apply (initialBatches_live _ _ _ Ei') | constructor]. }
  destruct Hstart as (Hv & Hq & Hs & Hs').
  destruct (dayLoop_apart pow boxMuller A (opt_config opts) (opt_policy opts)
              (opt_policy opts') (opt_items opts) _ _ _ _ _ _ _ _ _ _ Hp E E')
    as (new & new' & -> & -> & Hall); try assumption.
  split; [exact Hv|]. split; [exact Hq | reflexivity].
Qed.

End Runs.

(** [busyRun] with another policy for the greens: order up to 25 instead
    of 10, reorder at 5, donate and mark down. *)
Definition generousGreens : ItemPolicy :=
  {| p_sku := "greens"; reorderPoint := 5; orderUpTo := 25;
     pricing := [ {| daysToExpireAtMost := 1; priceMultiplier := 1 # 2 |} ];
     donateDaysToExpireAtMost := 1; donateMaxFractionPerDay := 1 # 4;
     freezeDaysToExpireAtMost := 0; freezeMaxUnitsPerDay := 0 |}.

Definition otherGreensRun : SimOpts :=
  {| opt_items := [milk; greens];
     opt_policy := {| policy_id := "p2"; policy_name := "other greens";
                      perSku := {[ "milk" := milkPolicy; "greens" := generousGreens ]} |};
     opt_config := threeDays;
     opt_initialState := Some busyState |}.

Lemma skus_do_not_interact_witness :
  exists res res',
    simulateInventory powIntegral boxMullerZero busyRun = Ok res
    /\ simulateInventory powIntegral boxMullerZero otherGreensRun = Ok res'
    /\ Forall2 (fun dm dm' =>
                  dm_day dm = dm_day dm'
                  /\ List.filter (rowOf "milk") (dm_perSku dm)
                     = List.filter (rowOf "milk") (dm_perSku dm'))
               (r_days res) (r_days res').
Proof.
  assert (E : exists res res',
             simulateInventory powIntegral boxMullerZero busyRun = Ok res
             /\ simulateInventory powIntegral boxMullerZero otherGreensRun = Ok res').
  { vm_compute. do 2 eexists. split; reflexivity. }
  destruct E as (res & res' & E & E'). exists res, res'.
  split; [exact E|]. split; [exact E'|].
  refine (skus_do_not_interact powIntegral boxMullerZero "milk" busyRun otherGreensRun
            res res' eq_refl eq_refl eq_refl _ _ E E').
  - reflexivity.
  - intros s [= <-]. exact busyState_wellFormed.
Defined.
